(** * codec2 tools: the WAV ingestion and emission pipeline

    A shallow embedding of [wav_util_enhanced] (the chunk scanner, the
    sample decoder, the streaming resampler, the container writer) and of
    the decode drivers of [codec2_decode] and [codec2_decode_enhanced],
    followed by the properties established about them.

    Conventions of the embedding (LP64, little-endian, x86-64):
    - a C integer of width [w] is a [Z]; unsigned arithmetic wraps with
      [CInt.wrap w], signed results are brought back into range with
      [CInt.swrap w] (two's complement);
    - [double] is Rocq's primitive binary64 [float], every operation
      rounded on its own (no fused multiply-add);
    - raw buffers and file contents are [list byte];
    - [malloc] returns a null pointer exactly when it is asked for 2^63
      bytes or more, which is what a negative [int] converted to [size_t]
      asks for; [fwrite] always writes everything it is given (an
      in-memory file);
    - an integer division by zero kills the process: functions that can
      reach one return an [outcome], whose [Trap] is that event;
    - the codec2 library is external to the tools: the drivers take its
      functions as parameters, and the mode constants of [codec2.h]
      likewise;
    - what the tools print is left out. *)

From Stdlib Require Import ZArith List Lia Bool Floats.
From Stdlib Require String.
From coqutil Require Import Byte Word.LittleEndianList.
Import ListNotations.
Local Open Scope Z_scope.

(** ** C integers *)

Module CInt.

Definition wrap (w x : Z) : Z := x mod 2 ^ w.

Definition swrap (w x : Z) : Z := (x + 2 ^ (w - 1)) mod 2 ^ w - 2 ^ (w - 1).

Definition to_uint16 : Z -> Z := wrap 16.

Definition to_uint32 : Z -> Z := wrap 32.

Definition to_size_t : Z -> Z := wrap 64.

Definition to_short : Z -> Z := swrap 16.

Definition to_int : Z -> Z := swrap 32.

Definition to_long : Z -> Z := swrap 64.

Definition INT_MIN : Z := - 2 ^ 31.

Definition LONG_MIN : Z := - 2 ^ 63.

(** [a / b] on [int] operands, [b] not zero: the quotient truncated toward
    zero (C99 6.5.5). *)
Definition int_div (a b : Z) : Z := to_int (Z.quot a b).

(** The indices [0, 1, ..., n-1] of a counting [for] loop. *)
Definition zrange (n : Z) : list Z := map Z.of_nat (seq 0 (Z.to_nat n)).

End CInt.

(** ** C doubles *)

Module CDouble.

(** [(double)z] for an integer [z] of at most 63 bits. *)
Definition of_int (z : Z) : float :=
  if z <? 0 then PrimFloat.opp (PrimFloat.of_uint63 (Uint63.of_Z (- z)))
  else PrimFloat.of_uint63 (Uint63.of_Z z).

(** The integral part of a finite double (truncation toward zero), [None]
    for an infinity or a NaN. *)
Definition trunc (x : float) : option Z :=
  match Prim2SF x with
  | S754_zero _ => Some 0
  | S754_finite s m e =>
      let a := Z.shiftl (Zpos m) e in Some (if s then - a else a)
  | S754_infinity _ => None
  | S754_nan => None
  end.

(** [(int)x]: the truncated value when it fits; otherwise C leaves the
    conversion undefined and x86-64's [cvttsd2si] yields [INT_MIN]. *)
Definition to_int (x : float) : Z :=
  match trunc x with
  | Some z => if (CInt.INT_MIN <=? z) && (z <? 2 ^ 31) then z else CInt.INT_MIN
  | None => CInt.INT_MIN
  end.

(** The 64-bit variant of [to_int]. *)
Definition to_long (x : float) : Z :=
  match trunc x with
  | Some z => if (CInt.LONG_MIN <=? z) && (z <? 2 ^ 63) then z else CInt.LONG_MIN
  | None => CInt.LONG_MIN
  end.

(** [(short)x]: converted as an [int], the low 16 bits kept. *)
Definition to_short (x : float) : Z := CInt.to_short (to_int x).

(** [(uint32_t)x]: converted as a 64-bit integer, the low 32 bits kept. *)
Definition to_uint32 (x : float) : Z := CInt.to_uint32 (to_long x).

End CDouble.

(** ** Raw buffers *)

Module Raw.

(** [((const uint8_t * )buf)[k]]; a read outside the buffer is undefined in
    C and yields 0 here (no caller performs one). *)
Definition byte_at (buf : list byte) (k : Z) : Z :=
  byte.unsigned (nth (Z.to_nat k) buf Byte.x00).

(** [buf[k]] for a buffer of [short]s, with the same convention. *)
Definition short_at (buf : list Z) (k : Z) : Z := nth (Z.to_nat k) buf 0.

(** The unsigned value of the [n] bytes at offset [off], as a little-endian
    host loads them. *)
Definition load (n : nat) (buf : list byte) (off : Z) : Z :=
  le_combine (map (fun j => nth (Z.to_nat off + j) buf Byte.x00) (seq 0 n)).

(** The two bytes of a [short] as the host stores it. *)
Definition short_bytes (s : Z) : list byte := le_split 2 s.

(** The bytes of an array of [short]s. *)
Definition shorts_bytes (l : list Z) : list byte := flat_map short_bytes l.

End Raw.

(** The four-character tags the writers emit with [fwrite("....", 1, 4, f)]. *)

Module Tags.

Import String.

Definition tag_RIFF : list byte := list_byte_of_string "RIFF".

Definition tag_WAVE : list byte := list_byte_of_string "WAVE".

Definition tag_fmt : list byte := list_byte_of_string "fmt ".

Definition tag_data : list byte := list_byte_of_string "data".

End Tags.

(** ** Outcomes *)

(** What a call can end in: a normal return, the process killed (by an
    integer division by zero, or by a [memset] of more than 2^63 bytes),
    or the model's loop budget exhausted (shown below never to happen for
    the budgets the functions use). *)
Inductive outcome (A : Type) : Type :=
| Ret (a : A)
| Trap
| OutOfFuel.

Arguments Ret {A} a.
Arguments Trap {A}.
Arguments OutOfFuel {A}.

(** ** stdio streams over an in-memory file *)

Module Stdio.

Record FILE : Type := mkFILE {
  f_data : list byte;   (* the file's content *)
  f_pos : Z;            (* the position indicator *)
  f_eof : bool          (* the end-of-file indicator *)
}.

(** [fread(buf, 1, n, f)]: the bytes obtained and the stream afterwards.
    A short read sets the end-of-file indicator. *)
Definition fread (n : Z) (f : FILE) : list byte * FILE :=
  let got := firstn (Z.to_nat n) (skipn (Z.to_nat (f_pos f)) (f_data f)) in
  (got,
   {| f_data := f_data f;
      f_pos := f_pos f + Z.of_nat (length got);
      f_eof := f_eof f || (Z.of_nat (length got) <? n) |}).

(** [fwrite(buf, 1, length bs, f)]: the bytes replace what is at the
    position and extend the file past its end; a gap left by a seek past
    the end reads as zeros. *)
Definition fwrite (bs : list byte) (f : FILE) : FILE :=
  let p := Z.to_nat (f_pos f) in
  let before := firstn p (f_data f) ++ repeat Byte.x00 (p - length (f_data f)) in
  {| f_data := before ++ bs ++ skipn (p + length bs) (f_data f);
     f_pos := f_pos f + Z.of_nat (length bs);
     f_eof := f_eof f |}.

(** [fseek(f, off, SEEK_CUR)]: clears the end-of-file indicator; fails,
    changing nothing, when the new position would be negative. *)
Definition fseek_cur (off : Z) (f : FILE) : FILE :=
  if f_pos f + off <? 0 then f
  else {| f_data := f_data f; f_pos := f_pos f + off; f_eof := false |}.

(** [fseek(f, off, SEEK_SET)]. *)
Definition fseek_set (off : Z) (f : FILE) : FILE :=
  if off <? 0 then f
  else {| f_data := f_data f; f_pos := off; f_eof := false |}.

Definition ftell (f : FILE) : Z := f_pos f.

Definition feof (f : FILE) : bool := f_eof f.

(** [fopen(name, "rb")] on an existing file of content [bs]. *)
Definition fopen_rb (bs : list byte) : FILE :=
  {| f_data := bs; f_pos := 0; f_eof := false |}.

(** [fopen(name, "wb")]: the file is created empty. *)
Definition fopen_wb : FILE := {| f_data := []; f_pos := 0; f_eof := false |}.

(** [malloc(size)] returns a null pointer: no block of 2^63 bytes or more
    exists; any smaller one is granted, the empty one included. *)
Definition malloc_fails (size : Z) : bool := 2 ^ 63 <=? size.

(** [fread(buf, size, count, f)]: the bytes obtained, the number of whole
    items among them (the value returned) and the stream afterwards.
    Nothing is read when [size] or [count] is zero. At every call site
    [size * count] is below 2^64. *)
Definition fread_items (size count : Z) (f : FILE) : list byte * Z * FILE :=
  if (size =? 0) || (count =? 0) then ([], 0, f)
  else
    let (got, f') := fread (size * count) f in
    (got, Z.of_nat (length got) / size, f').

End Stdio.

(** ** wav_util_enhanced *)

Module WavEnhanced.

Import CInt Raw Stdio Tags.

(** *** The sample decoder *)

(** The per-channel value of the 8-bit case, [(in8[k] - 128) * 256]. *)
Definition sample_8 (input : list byte) (k : Z) : Z :=
  (byte_at input k - 128) * 256.

(** The per-channel value of the 16-bit case, [in16[k]]. *)
Definition sample_16 (input : list byte) (k : Z) : Z :=
  to_short (load 2 input (2 * k)).

(** The per-channel value of the 24-bit case: three bytes assembled, bit 23
    extended into the top byte, the result shifted right by 8. *)
Definition sample_24 (input : list byte) (k : Z) : Z :=
  let base := k * 3 in
  let sample :=
    Z.lor (Z.lor (byte_at input base) (Z.shiftl (byte_at input (base + 1)) 8))
          (Z.shiftl (byte_at input (base + 2)) 16) in
  let sample :=
    if Z.land sample 0x800000 =? 0 then sample
    else to_int (Z.lor sample 0xFF000000) in
  Z.shiftr sample 8.

(** The per-channel value of the 32-bit case, [in32[k] >> 16]. *)
Definition sample_32 (input : list byte) (k : Z) : Z :=
  Z.shiftr (to_int (load 4 input (4 * k))) 16.

(** The inner loop over the channels of frame [i]: [sum += value] in [int]. *)
Definition channel_sum (value : Z -> Z) (i channels : Z) : Z :=
  fold_left (fun sum ch => to_int (sum + value (i * channels + ch)))
            (zrange channels) 0.

(** One [case] of the switch: every frame is stored as
    [(short)(sum / channels)]. *)
Definition downmix (value : Z -> Z) (samples channels : Z) : list Z :=
  map (fun i => to_short (int_div (channel_sum value i channels) channels))
      (zrange samples).

(** A supported [case] of the switch as a whole: the first frame, if there
    is one, is divided by [channels], which kills the process when that is
    zero. *)
Definition convert_frames (value : Z -> Z) (samples channels : Z)
  : outcome (list Z) :=
  if (0 <? samples) && (channels =? 0) then Trap
  else Ret (downmix value samples channels).

(** [convert_to_16bit(input, output, samples, input_bits, channels)]: the
    values stored to [output[0 .. samples-1]]. The function returns [void].
    The [default] case stores silence with
    [memset(output, 0, samples * sizeof(short))]: a negative [samples],
    converted to [size_t], makes that more than 2^63 bytes, and the
    process does not survive it. *)
Definition convert_to_16bit (input : list byte) (samples input_bits channels : Z)
  : outcome (list Z) :=
  if input_bits =? 8 then convert_frames (sample_8 input) samples channels
  else if input_bits =? 16 then convert_frames (sample_16 input) samples channels
  else if input_bits =? 24 then convert_frames (sample_24 input) samples channels
  else if input_bits =? 32 then convert_frames (sample_32 input) samples channels
  else if samples <? 0 then Trap
  else Ret (repeat 0 (Z.to_nat samples)).

(** What a call of [convert_to_16bit] that returns has stored. *)
Definition stored_by_convert (input : list byte) (samples input_bits channels : Z)
  : list Z :=
  if input_bits =? 8 then downmix (sample_8 input) samples channels
  else if input_bits =? 16 then downmix (sample_16 input) samples channels
  else if input_bits =? 24 then downmix (sample_24 input) samples channels
  else if input_bits =? 32 then downmix (sample_32 input) samples channels
  else repeat 0 (Z.to_nat samples).

(** [stereo_to_mono(stereo, mono, samples)]: the values stored to
    [mono[0 .. samples-1]]. *)
Definition stereo_to_mono (stereo : list Z) (samples : Z) : list Z :=
  map (fun i => to_short (int_div (to_int (short_at stereo (i * 2)
                                         + short_at stereo (i * 2 + 1))) 2))
      (zrange samples).

(** *** The stream context, [wav_enhanced_t] *)

Definition WAV_FORMAT_PCM : Z := 1.
Definition WAV_FORMAT_IEEE_FLOAT : Z := 3.
Definition WAV_FORMAT_EXTENSIBLE : Z := 0xFFFE.

Definition FOURCC_RIFF : Z := 0x46464952.
Definition FOURCC_WAVE : Z := 0x45564157.
Definition FOURCC_FMT : Z := 0x20746D66.
Definition FOURCC_DATA : Z := 0x61746164.

Record wav_enhanced_t : Type := mk_wav {
  file : option FILE;
  original_sample_rate : Z;
  original_channels : Z;
  original_bits_per_sample : Z;
  original_format : Z;
  target_sample_rate : Z;
  target_channels : Z;
  target_bits_per_sample : Z;
  total_samples : Z;
  samples_read : Z;
  samples_written : Z;
  data_start_pos : Z;
  data_size : Z;
  resample_ratio : float;
  resample_phase : float;
  resample_buffer : option (list Z);
  resample_buffer_size : Z;
  bytes_written : Z
}.

(** [memset(wav, 0, sizeof(wav_enhanced_t))]. *)
Definition wav_zero : wav_enhanced_t :=
  mk_wav None 0 0 0 0 0 0 0 0 0 0 0 0 PrimFloat.zero PrimFloat.zero None 0 0.

Definition set_file (f : option FILE) (w : wav_enhanced_t) : wav_enhanced_t :=
  mk_wav f (original_sample_rate w) (original_channels w)
    (original_bits_per_sample w) (original_format w) (target_sample_rate w)
    (target_channels w) (target_bits_per_sample w) (total_samples w)
    (samples_read w) (samples_written w) (data_start_pos w) (data_size w)
    (resample_ratio w) (resample_phase w) (resample_buffer w)
    (resample_buffer_size w) (bytes_written w).

Definition set_original (format channels rate bits : Z) (w : wav_enhanced_t)
  : wav_enhanced_t :=
  mk_wav (file w) rate channels bits format (target_sample_rate w)
    (target_channels w) (target_bits_per_sample w) (total_samples w)
    (samples_read w) (samples_written w) (data_start_pos w) (data_size w)
    (resample_ratio w) (resample_phase w) (resample_buffer w)
    (resample_buffer_size w) (bytes_written w).

Definition set_data (pos size total : Z) (w : wav_enhanced_t) : wav_enhanced_t :=
  mk_wav (file w) (original_sample_rate w) (original_channels w)
    (original_bits_per_sample w) (original_format w) (target_sample_rate w)
    (target_channels w) (target_bits_per_sample w) total
    (samples_read w) (samples_written w) pos size
    (resample_ratio w) (resample_phase w) (resample_buffer w)
    (resample_buffer_size w) (bytes_written w).

Definition set_target (rate channels bits : Z) (w : wav_enhanced_t)
  : wav_enhanced_t :=
  mk_wav (file w) (original_sample_rate w) (original_channels w)
    (original_bits_per_sample w) (original_format w) rate channels bits
    (total_samples w) (samples_read w) (samples_written w) (data_start_pos w)
    (data_size w) (resample_ratio w) (resample_phase w) (resample_buffer w)
    (resample_buffer_size w) (bytes_written w).

Definition set_resample (ratio phase : float) (buffer : option (list Z))
  (size : Z) (w : wav_enhanced_t) : wav_enhanced_t :=
  mk_wav (file w) (original_sample_rate w) (original_channels w)
    (original_bits_per_sample w) (original_format w) (target_sample_rate w)
    (target_channels w) (target_bits_per_sample w) (total_samples w)
    (samples_read w) (samples_written w) (data_start_pos w) (data_size w)
    ratio phase buffer size (bytes_written w).

Definition set_resample_phase (phase : float) (w : wav_enhanced_t)
  : wav_enhanced_t :=
  set_resample (resample_ratio w) phase (resample_buffer w)
    (resample_buffer_size w) w.

Definition set_resample_buffer (buffer : option (list Z)) (w : wav_enhanced_t)
  : wav_enhanced_t :=
  set_resample (resample_ratio w) (resample_phase w) buffer
    (resample_buffer_size w) w.

Definition set_samples_read (n : Z) (w : wav_enhanced_t) : wav_enhanced_t :=
  mk_wav (file w) (original_sample_rate w) (original_channels w)
    (original_bits_per_sample w) (original_format w) (target_sample_rate w)
    (target_channels w) (target_bits_per_sample w) (total_samples w)
    n (samples_written w) (data_start_pos w) (data_size w)
    (resample_ratio w) (resample_phase w) (resample_buffer w)
    (resample_buffer_size w) (bytes_written w).

Definition set_written (samples bytes : Z) (w : wav_enhanced_t) : wav_enhanced_t :=
  mk_wav (file w) (original_sample_rate w) (original_channels w)
    (original_bits_per_sample w) (original_format w) (target_sample_rate w)
    (target_channels w) (target_bits_per_sample w) (total_samples w)
    (samples_read w) samples (data_start_pos w) (data_size w)
    (resample_ratio w) (resample_phase w) (resample_buffer w)
    (resample_buffer_size w) bytes.

(** Storing [vals] to [buf[0 .. length vals - 1]]. *)
Definition store_prefix (vals buf : list Z) : list Z :=
  vals ++ skipn (length vals) buf.

(** *** Little-endian helpers *)

Definition read_le32 (f : FILE) : Z * FILE :=
  let (bytes, f') := fread 4 f in
  if Z.of_nat (length bytes) =? 4 then
    (to_uint32
       (Z.lor (Z.lor (Z.lor (byte_at bytes 0) (Z.shiftl (byte_at bytes 1) 8))
                     (Z.shiftl (byte_at bytes 2) 16))
              (Z.shiftl (byte_at bytes 3) 24)),
     f')
  else (0, f').

Definition read_le16 (f : FILE) : Z * FILE :=
  let (bytes, f') := fread 2 f in
  if Z.of_nat (length bytes) =? 2 then
    (to_uint16 (Z.lor (byte_at bytes 0) (Z.shiftl (byte_at bytes 1) 8)), f')
  else (0, f').

Definition le32_bytes (value : Z) : list byte :=
  [byte.of_Z (Z.land value 0xFF);
   byte.of_Z (Z.land (Z.shiftr value 8) 0xFF);
   byte.of_Z (Z.land (Z.shiftr value 16) 0xFF);
   byte.of_Z (Z.land (Z.shiftr value 24) 0xFF)].

Definition le16_bytes (value : Z) : list byte :=
  [byte.of_Z (Z.land value 0xFF);
   byte.of_Z (Z.land (Z.shiftr value 8) 0xFF)].

Definition write_le32 (value : Z) (f : FILE) : FILE := fwrite (le32_bytes value) f.

Definition write_le16 (value : Z) (f : FILE) : FILE := fwrite (le16_bytes value) f.

(** *** The streaming resampler *)

(** The body of the interpolation loop at index [i]: [None] is the
    [break], [Some v] the value stored to [output[output_count]]. *)
Definition resample_step (phase ratio : float) (input : list Z)
  (input_samples i : Z) : option Z :=
  let src_pos := (phase + CDouble.of_int i * ratio)%float in
  let src_idx := CDouble.to_int src_pos in
  if src_idx >=? input_samples - 1 then None
  else
    let frac := (src_pos - CDouble.of_int src_idx)%float in
    let sample1 := short_at input src_idx in
    let sample2 :=
      if src_idx + 1 <? input_samples then short_at input (src_idx + 1)
      else sample1 in
    Some (CDouble.to_short
            (CDouble.of_int sample1 + frac * CDouble.of_int (sample2 - sample1))%float).

(** The [for] loop, over the values [i] takes while [i < max_output_samples]:
    the values stored so far and [output_count]. *)
Fixpoint resample_loop (phase ratio : float) (input : list Z)
  (input_samples max_output_samples : Z) (idxs : list Z) (output_count : Z)
  (out : list Z) : list Z * Z :=
  match idxs with
  | [] => (out, output_count)
  | i :: rest =>
      if output_count <? max_output_samples then
        match resample_step phase ratio input input_samples i with
        | None => (out, output_count)
        | Some v =>
            resample_loop phase ratio input input_samples max_output_samples
              rest (output_count + 1) (out ++ [v])
        end
      else (out, output_count)
  end.

(** [resample_to_8khz(wav, input, input_samples, output, max_output_samples)]:
    the values stored to [output], the count returned, and the context
    afterwards. *)
Definition resample_to_8khz (wav : wav_enhanced_t) (input : list Z)
  (input_samples max_output_samples : Z) : list Z * Z * wav_enhanced_t :=
  if original_sample_rate wav =? 8000 then
    let samples_to_copy :=
      if input_samples <? max_output_samples then input_samples
      else max_output_samples in
    (firstn (Z.to_nat samples_to_copy) input, samples_to_copy, wav)
  else
    let ratio := (CDouble.of_int (original_sample_rate wav) / CDouble.of_int 8000)%float in
    let '(out, output_count) :=
      resample_loop (resample_phase wav) ratio input input_samples
        max_output_samples (zrange max_output_samples) 0 [] in
    let phase := (resample_phase wav + CDouble.of_int output_count * ratio)%float in
    let phase := (phase - CDouble.of_int (CDouble.to_int phase))%float in
    (out, output_count, set_resample_phase phase wav).

(** *** Reading *)

(** The [samples_to_read] of a call for [num_samples]:
    [(int)(num_samples * wav->resample_ratio) + 2], capped at
    [wav->resample_buffer_size]. *)
Definition samples_to_read (w : wav_enhanced_t) (num_samples : Z) : Z :=
  let samples_to_read :=
    to_int (CDouble.to_int (CDouble.of_int num_samples * resample_ratio w)%float + 2) in
  if samples_to_read >? resample_buffer_size w then resample_buffer_size w
  else samples_to_read.

(** The size of the raw buffer of that call, the [int]
    [samples_to_read * wav->original_channels * bytes_per_sample] as
    [malloc] and [fread] receive it. *)
Definition raw_buffer_bytes (w : wav_enhanced_t) (num_samples : Z) : Z :=
  to_size_t (to_int (to_int (samples_to_read w num_samples * original_channels w)
                     * (original_bits_per_sample w / 8))).

(** [wav_enhanced_read_samples_16bit_mono_8khz(wav, samples, num_samples)]:
    the value returned, the context and the caller's buffer afterwards. A
    null pointer is [None]. *)
Definition wav_enhanced_read_samples_16bit_mono_8khz
  (wav : option wav_enhanced_t) (samples : option (list Z)) (num_samples : Z)
  : outcome (Z * option wav_enhanced_t * option (list Z)) :=
  match wav, samples with
  | Some w, Some buf =>
      match file w with
      | None => Ret (-1, wav, samples)
      | Some f =>
          let bytes_per_sample := original_bits_per_sample w / 8 in
          let want := raw_buffer_bytes w num_samples in
          if malloc_fails want then Ret (-1, wav, samples)
          else
            let (raw_buffer, f') := fread want f in
            let bytes_read := Z.of_nat (length raw_buffer) in
            let frame_bytes := to_int (original_channels w * bytes_per_sample) in
            if frame_bytes =? 0 then Trap
            else
              let actual_samples_read := to_int (bytes_read / to_size_t frame_bytes) in
              if actual_samples_read <=? 0
              then Ret (0, Some (set_file (Some f') w), samples)
              else
                match
                  convert_to_16bit raw_buffer actual_samples_read
                    (original_bits_per_sample w) (original_channels w)
                with
                | Ret converted =>
                    let buffer :=
                      match resample_buffer w with
                      | Some old => store_prefix converted old
                      | None => converted
                      end in
                    let w1 := set_resample_buffer (Some buffer) (set_file (Some f') w) in
                    let '(out, output_samples, w2) :=
                      resample_to_8khz w1 buffer actual_samples_read (to_int num_samples) in
                    let w3 :=
                      set_samples_read (to_uint32 (samples_read w2 + output_samples)) w2 in
                    Ret (output_samples, Some w3, Some (store_prefix out buf))
                | Trap => Trap
                | OutOfFuel => OutOfFuel
                end
      end
  | _, _ => Ret (-1, wav, samples)
  end.

(** *** Opening for reading: the chunk scanner *)

(** How one iteration of the chunk loop ends: at the loop test again, or
    out of the loop (the [break] of the data chunk, or a trap). *)
Inductive scan_next : Type :=
| Continue (f : FILE) (w : wav_enhanced_t) (found_fmt : bool)
| Leave (r : outcome (FILE * wav_enhanced_t * bool * bool)).

(** The body of the [while] loop of [wav_enhanced_open_read], on the stream
    [wav->file] (threaded as [f]) and the rest of the context. *)
Definition scan_body (f : FILE) (w : wav_enhanced_t) (found_fmt : bool) : scan_next :=
  let (chunk_id, f1) := read_le32 f in
  let (chunk_size, f2) := read_le32 f1 in
  if chunk_id =? FOURCC_FMT then
    let (format, f3) := read_le16 f2 in
    let (channels, f4) := read_le16 f3 in
    let (rate, f5) := read_le32 f4 in
    let (byte_rate, f6) := read_le32 f5 in
    let (block_align, f7) := read_le16 f6 in
    let (bits, f8) := read_le16 f7 in
    let f9 := if chunk_size >? 16 then fseek_cur (chunk_size - 16) f8 else f8 in
    Continue f9 (set_original format channels rate bits w) true
  else if chunk_id =? FOURCC_DATA then
    let frame_bytes :=
      to_uint32 (Z.quot (to_int (original_channels w * original_bits_per_sample w)) 8) in
    if frame_bytes =? 0 then Leave Trap
    else
      Leave (Ret (f2, set_data (ftell f2) chunk_size (chunk_size / frame_bytes) w,
                  found_fmt, true))
  else
    let f3 := if chunk_size >? 0 then fseek_cur chunk_size f2 else f2 in
    Continue f3 w found_fmt.

(** The [while] loop itself: the stream, the context and the two flags
    when the loop is left. One unit of [fuel] per iteration. *)
Fixpoint scan_chunks (fuel : nat) (f : FILE) (w : wav_enhanced_t)
  (found_fmt found_data : bool) : outcome (FILE * wav_enhanced_t * bool * bool) :=
  match fuel with
  | O => OutOfFuel
  | S fuel' =>
      if negb (feof f) && (negb found_fmt || negb found_data) then
        match scan_body f w found_fmt with
        | Continue f' w' found_fmt' => scan_chunks fuel' f' w' found_fmt' found_data
        | Leave r => r
        end
      else Ret (f, w, found_fmt, found_data)
  end.

(** Iterations granted to the scan of a stream: more than it can use. *)
Definition scan_budget (f : FILE) : nat := S (S (length (f_data f))).

(** What [wav_enhanced_open_read] does once the loop is left: the check
    that both chunks were found, then the target format and the resampling
    state. [malloc] initialises nothing: of the
    [resample_buffer_size * original_channels] cells of the conversion
    buffer, [resample_buffer] holds those that have been stored to, none
    yet; the reader stores a prefix before it reads from it. *)
Definition finish_open (scanned : outcome (FILE * wav_enhanced_t * bool * bool))
  : outcome (option wav_enhanced_t) :=
  match scanned with
  | Ret (f', w, found_fmt, found_data) =>
      if negb found_fmt || negb found_data then Ret None
      else
        let w := set_target 8000 1 16 (set_file (Some f') w) in
        let ratio :=
          (CDouble.of_int (original_sample_rate w)
           / CDouble.of_int (target_sample_rate w))%float in
        let size := 4096 in
        Ret (Some (set_resample ratio PrimFloat.zero (Some []) size w))
  | Trap => Trap
  | OutOfFuel => OutOfFuel
  end.

(** [wav_enhanced_open_read(filename)], given what [fopen(filename, "rb")]
    returned: [Ret None] is the null handle. *)
Definition wav_enhanced_open_read (fopen_result : option FILE)
  : outcome (option wav_enhanced_t) :=
  match fopen_result with
  | None => Ret None
  | Some f =>
      let (riff_id, f1) := read_le32 f in
      if negb (riff_id =? FOURCC_RIFF) then Ret None
      else
        let (file_size, f2) := read_le32 f1 in
        let (wave_id, f3) := read_le32 f2 in
        if negb (wave_id =? FOURCC_WAVE) then Ret None
        else finish_open (scan_chunks (scan_budget f3) f3 wav_zero false false)
  end.

(** *** Opening for writing, appending, closing *)

(** [wav_enhanced_open_write(filename)], given what [fopen(filename, "wb")]
    returned. *)
Definition wav_enhanced_open_write (fopen_result : option FILE)
  : option wav_enhanced_t :=
  match fopen_result with
  | None => None
  | Some f =>
      let w := set_target 8000 1 16 wav_zero in
      let f := fwrite tag_RIFF f in
      let f := write_le32 36 f in
      let f := fwrite tag_WAVE f in
      let f := fwrite tag_fmt f in
      let f := write_le32 16 f in
      let f := write_le16 WAV_FORMAT_PCM f in
      let f := write_le16 (target_channels w) f in
      let f := write_le32 (target_sample_rate w) f in
      let f :=
        write_le32
          (to_uint32 (target_sample_rate w * target_channels w
                      * target_bits_per_sample w) / 8) f in
      let f :=
        write_le16 (to_uint16 (target_channels w * target_bits_per_sample w / 8)) f in
      let f := write_le16 (target_bits_per_sample w) f in
      let f := fwrite tag_data f in
      let f := write_le32 0 f in
      Some (set_file (Some f) w)
  end.

(** [wav_enhanced_write_samples(wav, samples, num_samples)]: the value
    returned and the context afterwards. *)
Definition wav_enhanced_write_samples (wav : option wav_enhanced_t)
  (samples : option (list Z)) (num_samples : Z) : Z * option wav_enhanced_t :=
  match wav, samples with
  | Some w, Some buf =>
      match file w with
      | None => (-1, wav)
      | Some f =>
          let f' := fwrite (shorts_bytes (map (short_at buf) (zrange num_samples))) f in
          let bytes_written_ := num_samples in
          let w1 :=
            set_written (to_uint32 (samples_written w + bytes_written_))
                        (to_uint32 (bytes_written w + to_size_t (bytes_written_ * 2)))
                        (set_file (Some f') w) in
          (to_int bytes_written_, Some w1)
      end
  | _, _ => (-1, wav)
  end.

(** [wav_enhanced_close(wav)]: the file as [fclose] leaves it, if there
    was one. *)
Definition wav_enhanced_close (wav : option wav_enhanced_t) : option FILE :=
  match wav with
  | None => None
  | Some w =>
      match file w with
      | None => None
      | Some f =>
          if samples_written w >? 0 then
            let data_size_ := bytes_written w in
            let file_size := to_uint32 (36 + data_size_) in
            let f := fseek_set 4 f in
            let f := write_le32 file_size f in
            let f := fseek_set 40 f in
            let f := write_le32 data_size_ f in
            Some f
          else Some f
      end
  end.

(** *** Info functions *)

Definition wav_enhanced_get_original_sample_rate (wav : option wav_enhanced_t) : Z :=
  match wav with Some w => original_sample_rate w | None => 0 end.

Definition wav_enhanced_get_original_channels (wav : option wav_enhanced_t) : Z :=
  match wav with Some w => original_channels w | None => 0 end.

Definition wav_enhanced_get_original_bits_per_sample (wav : option wav_enhanced_t) : Z :=
  match wav with Some w => original_bits_per_sample w | None => 0 end.

(** The double [wav->total_samples / wav->resample_ratio]. *)
Definition total_samples_quotient (w : wav_enhanced_t) : float :=
  (CDouble.of_int (total_samples w) / resample_ratio w)%float.

Definition wav_enhanced_get_total_samples_8khz_mono (wav : option wav_enhanced_t) : Z :=
  match wav with
  | Some w => CDouble.to_uint32 (total_samples_quotient w)
  | None => 0
  end.

End WavEnhanced.

(** ** wav_util: the fixed-format writer used by [codec2_decode] *)

Module WavUtil.

Import CInt Raw Stdio Tags.

Record wav_header_t : Type := mk_header {
  chunk_size : Z;
  fmt_chunk_size : Z;
  audio_format : Z;
  num_channels : Z;
  sample_rate : Z;
  byte_rate : Z;
  block_align : Z;
  bits_per_sample : Z;
  data_size : Z
}.

(** The 44 bytes of a [wav_header_t] whose four tags are set. *)
Definition header_bytes (h : wav_header_t) : list byte :=
  tag_RIFF ++ le_split 4 (chunk_size h) ++ tag_WAVE
  ++ tag_fmt ++ le_split 4 (fmt_chunk_size h) ++ le_split 2 (audio_format h)
  ++ le_split 2 (num_channels h) ++ le_split 4 (sample_rate h)
  ++ le_split 4 (byte_rate h) ++ le_split 2 (block_align h)
  ++ le_split 2 (bits_per_sample h)
  ++ tag_data ++ le_split 4 (data_size h).

Record wav_file_t : Type := mk_wav_file {
  file : option FILE;
  header : wav_header_t;
  samples_read : Z;
  samples_written : Z;
  total_samples : Z
}.

(** [wav_open_write(filename, sample_rate, channels, bits_per_sample)],
    given what [fopen(filename, "wb")] returned. *)
Definition wav_open_write (fopen_result : option FILE)
  (sample_rate channels bits_per_sample : Z) : option wav_file_t :=
  match fopen_result with
  | None => None
  | Some f =>
      let h :=
        mk_header 36 16 1 channels sample_rate
          (to_uint32 (sample_rate * channels * bits_per_sample) / 8)
          (to_uint16 (channels * bits_per_sample / 8))
          bits_per_sample 0 in
      Some (mk_wav_file (Some (fwrite (header_bytes h) f)) h 0 0 0)
  end.

(** [wav_write_samples(wav, samples, num_samples)]. *)
Definition wav_write_samples (wav : option wav_file_t) (samples : option (list Z))
  (num_samples : Z) : Z * option wav_file_t :=
  match wav, samples with
  | Some w, Some buf =>
      match file w with
      | None => (-1, wav)
      | Some f =>
          let count := num_samples * num_channels (header w) in
          let f' := fwrite (shorts_bytes (map (short_at buf) (zrange count))) f in
          (to_int num_samples,
           Some (mk_wav_file (Some f') (header w) (samples_read w)
                   (to_uint32 (samples_written w + num_samples)) (total_samples w)))
      end
  | _, _ => (-1, wav)
  end.

(** [wav_close(wav)]: the file as [fclose] leaves it, if there was one. *)
Definition wav_close (wav : option wav_file_t) : option FILE :=
  match wav with
  | None => None
  | Some w =>
      match file w with
      | None => None
      | Some f =>
          if samples_written w >? 0 then
            let h := header w in
            let data_size_ :=
              to_uint32 (samples_written w * num_channels h * bits_per_sample h) / 8 in
            let h' :=
              mk_header (to_uint32 (36 + data_size_)) (fmt_chunk_size h)
                (audio_format h) (num_channels h) (sample_rate h) (byte_rate h)
                (block_align h) (bits_per_sample h) data_size_ in
            Some (fwrite (header_bytes h') (fseek_set 0 f))
          else Some f
      end
  end.

(** [strncmp(field, tag, 4) == 0] on the four bytes of the header at
    [off]; no tag holds a zero byte. *)
Definition tag_at (bytes : list byte) (off : nat) (tag : list byte) : bool :=
  if list_eq_dec Byte.byte_eq_dec (firstn 4 (skipn off bytes)) tag then true else false.

(** The header fields of the 44 bytes read into a [wav_header_t]. *)
Definition header_of (bytes : list byte) : wav_header_t :=
  mk_header (load 4 bytes 4) (load 4 bytes 16) (load 2 bytes 20) (load 2 bytes 22)
    (load 4 bytes 24) (load 4 bytes 28) (load 2 bytes 32) (load 2 bytes 34)
    (load 4 bytes 40).

(** [wav_open_read(filename)], given what [fopen(filename, "rb")] returned:
    [Ret None] is the null handle, [Trap] the division by a zero frame
    size. *)
Definition wav_open_read (fopen_result : option FILE) : outcome (option wav_file_t) :=
  match fopen_result with
  | None => Ret None
  | Some f =>
      let '(bytes, items, f') := fread_items 44 1 f in
      if negb (items =? 1) then Ret None
      else if negb (tag_at bytes 0 tag_RIFF) || negb (tag_at bytes 8 tag_WAVE)
              || negb (tag_at bytes 12 tag_fmt) || negb (tag_at bytes 36 tag_data)
      then Ret None
      else
        let h := header_of bytes in
        let frame_bytes :=
          to_uint32 (Z.quot (to_int (num_channels h * bits_per_sample h)) 8) in
        if frame_bytes =? 0 then Trap
        else Ret (Some (mk_wav_file (Some f') h 0 0 (data_size h / frame_bytes)))
  end.

(** [wav_read_samples(wav, samples, num_samples)]: the value returned, the
    context and the caller's buffer afterwards; [num_samples] is the
    [uint32_t] the function receives. A partial item at the end of the
    file leaves an indeterminate value behind the whole ones (C11
    7.21.8.1); it is not stored here. In the 8-bit case
    [samples_to_read * num_channels] is below 2^32 (the temporary buffer
    is allocated with that product). *)
Definition wav_read_samples (wav : option wav_file_t) (samples : option (list Z))
  (num_samples : Z) : Z * option wav_file_t * option (list Z) :=
  match wav, samples with
  | Some w, Some buf =>
      match file w with
      | None => (-1, wav, samples)
      | Some f =>
          let h := header w in
          let samples_to_read :=
            if to_uint32 (samples_read w + num_samples) >? total_samples w
            then to_uint32 (total_samples w - samples_read w)
            else num_samples in
          if samples_to_read =? 0 then (0, wav, samples)
          else
            let bytes_per_sample := bits_per_sample h / 8 in
            if bits_per_sample h =? 16 then
              let '(bytes, items, f') :=
                fread_items (bytes_per_sample * num_channels h) samples_to_read f in
              let stored :=
                map (WavEnhanced.sample_16 bytes) (zrange (items * num_channels h)) in
              (to_int items,
               Some (mk_wav_file (Some f') h (to_uint32 (samples_read w + items))
                       (samples_written w) (total_samples w)),
               Some (WavEnhanced.store_prefix stored buf))
            else if bits_per_sample h =? 8 then
              let '(bytes, items, f') := fread_items (num_channels h) samples_to_read f in
              let stored :=
                map (fun i => to_short (WavEnhanced.sample_8 bytes i))
                    (zrange (items * num_channels h)) in
              (to_int items,
               Some (mk_wav_file (Some f') h (to_uint32 (samples_read w + items))
                       (samples_written w) (total_samples w)),
               Some (WavEnhanced.store_prefix stored buf))
            else (-1, wav, samples)
      end
  | _, _ => (-1, wav, samples)
  end.

Definition wav_get_sample_rate (wav : option wav_file_t) : Z :=
  match wav with Some w => sample_rate (header w) | None => 0 end.

Definition wav_get_channels (wav : option wav_file_t) : Z :=
  match wav with Some w => num_channels (header w) | None => 0 end.

Definition wav_get_bits_per_sample (wav : option wav_file_t) : Z :=
  match wav with Some w => bits_per_sample (header w) | None => 0 end.

Definition wav_get_total_samples (wav : option wav_file_t) : Z :=
  match wav with Some w => total_samples w | None => 0 end.

End WavUtil.

(** ** The decode drivers *)

Module Decode.

Import CInt Raw Stdio.

(** What a run of a driver leaves behind: the exit status, the bit-frames
    handed to [codec2_decode] in order, the count the driver reports, and
    the output file as closed (if it got that far). *)
Record decode_run : Type := mk_run {
  exit_status : Z;
  bit_frames : list (list byte);
  frames_decoded : Z;
  wav_written : option FILE
}.

Section Drivers.

(** The codec2 library, external to these tools. *)
Variable CODEC2 : Type.
Variable codec2_create : Z -> option CODEC2.
Variable codec2_samples_per_frame : CODEC2 -> Z.
Variable codec2_bits_per_frame : CODEC2 -> Z.
Variable codec2_decode : CODEC2 -> list byte -> CODEC2 * list Z.

Section DecodeLoop.

(** The output side: a handle and the call that appends one frame. *)
Variable W : Type.
Variable write_frame : W -> list Z -> Z -> W.

(** The [while (fread(codec2_bits, 1, bytes_per_frame, input) == bytes_per_frame)]
    loop shared by the two drivers. *)
Fixpoint decode_loop (fuel : nat) (bytes_per_frame samples_per_frame : Z)
  (input : FILE) (codec2 : CODEC2) (wav_out : W) (frames : list (list byte))
  (frames_decoded : Z) : outcome (W * list (list byte) * Z) :=
  match fuel with
  | O => OutOfFuel
  | S fuel' =>
      let (codec2_bits, input') := fread (to_size_t bytes_per_frame) input in
      if Z.of_nat (length codec2_bits) =? to_size_t bytes_per_frame then
        let (codec2', speech_samples) := codec2_decode codec2 codec2_bits in
        let wav_out' := write_frame wav_out speech_samples samples_per_frame in
        decode_loop fuel' bytes_per_frame samples_per_frame input' codec2' wav_out'
          (frames ++ [codec2_bits]) (to_int (frames_decoded + 1))
      else Ret (wav_out, frames, frames_decoded)
  end.

End DecodeLoop.

Definition C2C2_MAGIC : Z := 0x43324332.

(** Iterations granted to the decode loop on a stream. *)
Definition decode_budget (input : FILE) : nat := S (length (f_data input)).

(** The header check common to the two drivers: [Some] of the codec
    instance, the geometry and the stream positioned after the header, or
    [None] when the driver exits with status 1. *)
Definition read_header (input : FILE) : option (CODEC2 * Z * Z * FILE) :=
  let (header, input1) := fread 16 input in
  if negb (Z.of_nat (length header) / 4 =? 4) then None
  else if negb (load 4 header 0 =? C2C2_MAGIC) then None
  else
    let mode := to_int (load 4 header 4) in
    let expected_samples_per_frame := to_int (load 4 header 8) in
    let expected_bits_per_frame := to_int (load 4 header 12) in
    match codec2_create mode with
    | None => None
    | Some codec2 =>
        let samples_per_frame := codec2_samples_per_frame codec2 in
        let bits_per_frame := codec2_bits_per_frame codec2 in
        if negb (samples_per_frame =? expected_samples_per_frame)
           || negb (bits_per_frame =? expected_bits_per_frame)
        then None
        else Some (codec2, samples_per_frame, bits_per_frame, input1)
    end.

(** [main] of [codec2_decode_enhanced], from the [fopen] of the input on;
    [fopen_output] is what [fopen(output_file, "wb")] will return. *)
Definition codec2_decode_enhanced_main (fopen_input fopen_output : option FILE)
  : outcome decode_run :=
  match fopen_input with
  | None => Ret (mk_run 1 [] 0 None)
  | Some input =>
      match read_header input with
      | None => Ret (mk_run 1 [] 0 None)
      | Some (codec2, samples_per_frame, bits_per_frame, input1) =>
          let bytes_per_frame := int_div (to_int (bits_per_frame + 7)) 8 in
          let current_pos := ftell input1 in
          let file_size := Z.of_nat (length (f_data input1)) in
          let input2 := fseek_set current_pos (fseek_set file_size input1) in
          if bytes_per_frame =? 0 then Trap
          else
            let total_frames := to_int (Z.quot (file_size - current_pos) bytes_per_frame) in
            if total_frames =? 0 then Ret (mk_run 1 [] 0 None)
            else
              match WavEnhanced.wav_enhanced_open_write fopen_output with
              | None => Ret (mk_run 1 [] 0 None)
              | Some wav_out =>
                  (* codec2_bits = malloc(bytes_per_frame),
                     speech_samples = malloc(samples_per_frame * sizeof(short)) *)
                  if malloc_fails (to_size_t bytes_per_frame)
                     || malloc_fails (to_size_t (to_size_t samples_per_frame * 2))
                  then
                    Ret (mk_run 1 [] 0 (WavEnhanced.wav_enhanced_close (Some wav_out)))
                  else
                    match
                      decode_loop (option WavEnhanced.wav_enhanced_t)
                        (fun w speech n =>
                           snd (WavEnhanced.wav_enhanced_write_samples w (Some speech)
                                  (to_uint32 n)))
                        (decode_budget input2) bytes_per_frame samples_per_frame
                        input2 codec2 (Some wav_out) [] 0
                    with
                    | Ret (wav_out', frames, frames_decoded) =>
                        Ret (mk_run 0 frames frames_decoded
                               (WavEnhanced.wav_enhanced_close wav_out'))
                    | Trap => Trap
                    | OutOfFuel => OutOfFuel
                    end
              end
      end
  end.

(** [main] of [codec2_decode], likewise. *)
Definition codec2_decode_main (fopen_input fopen_output : option FILE)
  : outcome decode_run :=
  match fopen_input with
  | None => Ret (mk_run 1 [] 0 None)
  | Some input =>
      match read_header input with
      | None => Ret (mk_run 1 [] 0 None)
      | Some (codec2, samples_per_frame, bits_per_frame, input1) =>
          let bytes_per_frame := int_div (to_int (bits_per_frame + 7)) 8 in
          let current_pos := ftell input1 in
          let file_size := Z.of_nat (length (f_data input1)) in
          let input2 := fseek_set current_pos (fseek_set file_size input1) in
          if bytes_per_frame =? 0 then Trap
          else
            match WavUtil.wav_open_write fopen_output 8000 1 16 with
            | None => Ret (mk_run 1 [] 0 None)
            | Some wav_out =>
                (* codec2_bits = malloc(bytes_per_frame),
                   speech_samples = malloc(samples_per_frame * sizeof(short)) *)
                if malloc_fails (to_size_t bytes_per_frame)
                   || malloc_fails (to_size_t (to_size_t samples_per_frame * 2))
                then Ret (mk_run 1 [] 0 (WavUtil.wav_close (Some wav_out)))
                else
                  match
                    decode_loop (option WavUtil.wav_file_t)
                      (fun w speech n =>
                         snd (WavUtil.wav_write_samples w (Some speech) (to_uint32 n)))
                      (decode_budget input2) bytes_per_frame samples_per_frame
                      input2 codec2 (Some wav_out) [] 0
                  with
                  | Ret (wav_out', frames, frames_decoded) =>
                      Ret (mk_run 0 frames frames_decoded (WavUtil.wav_close wav_out'))
                  | Trap => Trap
                  | OutOfFuel => OutOfFuel
                  end
            end
      end
  end.

End Drivers.

End Decode.

(** ** create_test_wavs: the canonical 44-byte header *)

Module TestWavs.

Import CInt Raw Tags.

(** The form tag and the format chunk of the packed [wav_header_t]. *)
Definition format_fields (sample_rate channels bits_per_sample : Z) : list byte :=
  tag_WAVE ++ tag_fmt ++ le_split 4 16 ++ le_split 2 1 ++ le_split 2 channels
  ++ le_split 4 sample_rate
  ++ le_split 4 (to_uint32 (sample_rate * channels * bits_per_sample) / 8)
  ++ le_split 2 (to_uint16 (channels * bits_per_sample / 8))
  ++ le_split 2 bits_per_sample.

(** [write_wav_header(f, sample_rate, channels, bits_per_sample, data_size)]:
    the bytes of the packed [wav_header_t] written to the file. *)
Definition write_wav_header (sample_rate channels bits_per_sample data_size : Z)
  : list byte :=
  tag_RIFF ++ le_split 4 (to_uint32 (36 + data_size))
  ++ format_fields sample_rate channels bits_per_sample
  ++ tag_data ++ le_split 4 data_size.

(** A whole file: the header for [data], then [data]. *)
Definition wav_file (sample_rate channels bits_per_sample : Z) (data : list byte)
  : list byte :=
  write_wav_header sample_rate channels bits_per_sample (Z.of_nat (length data))
  ++ data.

(** The three bytes [create_48khz_mono_24bit] writes for [sample32]:
    [sample32 & 0xFF], [(sample32 >> 8) & 0xFF], [(sample32 >> 16) & 0xFF]. *)
Definition sample24_bytes (sample32 : Z) : list byte :=
  [byte.of_Z (Z.land sample32 0xFF);
   byte.of_Z (Z.land (Z.shiftr sample32 8) 0xFF);
   byte.of_Z (Z.land (Z.shiftr sample32 16) 0xFF)].

End TestWavs.

(** ** Sessions: a container opened and read call after call *)

Module Session.

Import Stdio WavEnhanced.

(** A file of the given content opened for reading. *)
Definition open_file (content : list byte) : outcome (option wav_enhanced_t) :=
  wav_enhanced_open_read (Some (fopen_rb content)).

(** The first read of [n] samples on an opened file, into a fresh buffer. *)
Definition read_from (opened : outcome (option wav_enhanced_t)) (n : Z)
  : outcome (Z * option wav_enhanced_t * option (list Z)) :=
  match opened with
  | Ret wav =>
      wav_enhanced_read_samples_16bit_mono_8khz wav (Some (repeat 0 (Z.to_nat n))) n
  | Trap => Trap
  | OutOfFuel => OutOfFuel
  end.

(** A further read of [n] samples on the stream a read left behind. *)
Definition read_again (previous : outcome (Z * option wav_enhanced_t * option (list Z)))
  (n : Z) : outcome (Z * option wav_enhanced_t * option (list Z)) :=
  match previous with
  | Ret (_, wav, _) =>
      wav_enhanced_read_samples_16bit_mono_8khz wav (Some (repeat 0 (Z.to_nat n))) n
  | Trap => Trap
  | OutOfFuel => OutOfFuel
  end.

(** What a read returned and stored. *)
Definition returned (r : outcome (Z * option wav_enhanced_t * option (list Z)))
  : option (Z * option (list Z)) :=
  match r with
  | Ret (count, _, samples) => Some (count, samples)
  | _ => None
  end.

(** The handle an open returned. *)
Definition returned_handle (opened : outcome (option wav_enhanced_t))
  : option wav_enhanced_t :=
  match opened with
  | Ret wav => wav
  | _ => None
  end.

(** Where the stream stands in the file after a read. *)
Definition stream_pos (r : outcome (Z * option wav_enhanced_t * option (list Z)))
  : option Z :=
  match r with
  | Ret (_, Some w, _) => option_map ftell (file w)
  | _ => None
  end.

(** The resampler's phase after a read. *)
Definition phase_after (r : outcome (Z * option wav_enhanced_t * option (list Z)))
  : option float :=
  match r with
  | Ret (_, Some w, _) => Some (resample_phase w)
  | _ => None
  end.

(** A sequence of append calls, each writing the whole of its buffer. *)
Definition append_all (wav : option wav_enhanced_t) (calls : list (list Z))
  : option wav_enhanced_t :=
  fold_left
    (fun w buf => snd (wav_enhanced_write_samples w (Some buf) (Z.of_nat (length buf))))
    calls wav.

(** The writer's invariant: the file holds [hdr] and then everything
    written so far, the stream stands at its end, and the two counters
    agree with what was written. *)
Definition appended (hdr : list byte) (written : list Z) (w : wav_enhanced_t) : Prop :=
  file w
  = Some {| f_data := hdr ++ Raw.shorts_bytes written;
            f_pos := Z.of_nat (length (hdr ++ Raw.shorts_bytes written));
            f_eof := false |}
  /\ samples_written w = CInt.to_uint32 (Z.of_nat (length written))
  /\ bytes_written w = CInt.to_uint32 (2 * Z.of_nat (length written)).

(** The two size fields of a file: the top-level size and the data size. *)
Definition size_fields (f : FILE) : Z * Z :=
  (Raw.load 4 (f_data f) 4, Raw.load 4 (f_data f) 40).

(** A stream over 8000 Hz mono 16-bit samples: the file holds [hdr] and
    then the samples [l], and the position stands [consumed] samples into
    them. *)
Definition passthrough_at (hdr : list byte) (l : list Z) (consumed : Z)
  (w : wav_enhanced_t) : Prop :=
  (exists e,
      file w = Some {| f_data := hdr ++ Raw.shorts_bytes l;
                       f_pos := Z.of_nat (length hdr) + 2 * consumed;
                       f_eof := e |})
  /\ original_sample_rate w = 8000
  /\ original_channels w = 1
  /\ original_bits_per_sample w = 16
  /\ resample_ratio w = (CDouble.of_int 8000 / CDouble.of_int 8000)%float
  /\ resample_buffer_size w = 4096.

(** A [wav_util] stream over mono 16-bit samples: the file holds [hdr] and
    then the samples [l], [consumed] of them have been read, and the
    position stands just after them. *)
Definition sequential_at (hdr : list byte) (l : list Z) (consumed : Z)
  (w : WavUtil.wav_file_t) : Prop :=
  (exists e,
      WavUtil.file w = Some {| f_data := hdr ++ Raw.shorts_bytes l;
                               f_pos := Z.of_nat (length hdr) + 2 * consumed;
                               f_eof := e |})
  /\ WavUtil.num_channels (WavUtil.header w) = 1
  /\ WavUtil.bits_per_sample (WavUtil.header w) = 16
  /\ WavUtil.samples_read w = consumed
  /\ WavUtil.total_samples w = Z.of_nat (length l).

(** A sequence of [wav_write_samples] calls, each writing the whole of its
    buffer. *)
Definition write_all (wav : option WavUtil.wav_file_t) (calls : list (list Z))
  : option WavUtil.wav_file_t :=
  fold_left
    (fun w buf => snd (WavUtil.wav_write_samples w (Some buf) (Z.of_nat (length buf))))
    calls wav.

(** The header of a mono 16-bit [wav_util] file of [K] samples: the fields
    [wav_open_write] sets, with the two sizes as [wav_close] computes
    them. *)
Definition mono_header (rate K : Z) : WavUtil.wav_header_t :=
  WavUtil.mk_header (36 + 2 * K) 16 1 1 rate (CInt.to_uint32 (rate * 1 * 16) / 8) 2 16
    (2 * K).

(** The [wav_util] writer's invariant on a mono file: the file holds the
    header written at open and then everything written so far, the stream
    stands at its end, and the counter agrees with what was written. *)
Definition written_at (rate : Z) (written : list Z) (w : WavUtil.wav_file_t) : Prop :=
  WavUtil.file w
  = Some {| f_data := WavUtil.header_bytes (mono_header rate 0) ++ Raw.shorts_bytes written;
            f_pos := Z.of_nat (length (WavUtil.header_bytes (mono_header rate 0)
                                       ++ Raw.shorts_bytes written));
            f_eof := false |}
  /\ WavUtil.header w = mono_header rate 0
  /\ WavUtil.samples_written w = CInt.to_uint32 (Z.of_nat (length written)).

End Session.

(** ** Containers used as examples *)

Module Fixtures.

Import CInt Raw TestWavs.

(** 44100 Hz, mono, 16-bit: the forty samples 0, 100, ..., 3900. *)
Definition ramp_44100 : list byte :=
  wav_file 44100 1 16 (shorts_bytes (map (fun k => k * 100) (zrange 40))).

(** 8000 Hz, mono, 16-bit: the ten samples 10, 20, ..., 100. *)
Definition steps_8000 : list byte :=
  wav_file 8000 1 16 (shorts_bytes [10; 20; 30; 40; 50; 60; 70; 80; 90; 100]).

(** 14000 Hz (ratio 1.75), mono, 16-bit: a single step of height [h]. *)
Definition step_14000 (h : Z) : list byte :=
  wav_file 14000 1 16 (shorts_bytes [0; 0; h; 0; 0; 0]).

(** Mono, 16-bit, three samples, with a declared sample rate of 0. *)
Definition rate_0 : list byte := wav_file 0 1 16 (shorts_bytes [5; 6; 7]).

(** The 16-byte header [codec2_encode_enhanced] writes before the
    bit-frames: the magic, the mode, and the frame geometry. *)
Definition c2_header (mode samples_per_frame bits_per_frame : Z) : list byte :=
  le_split 4 0x43324332 ++ le_split 4 mode ++ le_split 4 samples_per_frame
  ++ le_split 4 bits_per_frame.

(** A stand-in for the codec2 library: 2 samples and 12 bits (2 bytes) per
    frame, every frame decoded to the samples 1 and 2. *)
Definition toy_create (mode : Z) : option unit := Some tt.

Definition toy_samples_per_frame (c : unit) : Z := 2.

Definition toy_bits_per_frame (c : unit) : Z := 12.

Definition toy_decode (c : unit) (bits : list byte) : unit * list Z := (c, [1; 2]).

(** A compressed container for the stand-in codec: two whole bit-frames and
    one trailing byte. *)
Definition toy_c2 : list byte :=
  c2_header 0 2 12 ++ [Byte.x01; Byte.x02; Byte.x03; Byte.x04; Byte.x05].

(** A LIST chunk with a payload of two bytes. *)
Definition list_chunk : list byte * list byte :=
  ([Byte.x4c; Byte.x49; Byte.x53; Byte.x54], [Byte.x01; Byte.x02]).

(** A twelve-byte RIFF header with the two marks. *)
Definition riff_header : list byte := Tags.tag_RIFF ++ le_split 4 0 ++ Tags.tag_WAVE.

(** A format chunk with two extension bytes: PCM, stereo, 22050 Hz,
    24 bits. *)
Definition fmt_22050 : list byte * list byte :=
  (Tags.tag_fmt,
   le_split 2 1 ++ le_split 2 2 ++ le_split 4 22050 ++ le_split 4 132300
   ++ le_split 2 6 ++ le_split 2 24 ++ [Byte.x00; Byte.x00]).

(** A format chunk without extension: PCM, mono, 8000 Hz, 16 bits. *)
Definition fmt_8000 : list byte * list byte :=
  (Tags.tag_fmt,
   le_split 2 1 ++ le_split 2 1 ++ le_split 4 8000 ++ le_split 4 16000
   ++ le_split 2 2 ++ le_split 2 16).

(** The encoding side of the stand-in codec: every frame encoded to the
    bytes 07 and 08. *)
Definition toy_encode (c : unit) (speech : list Z) : unit * list byte :=
  (c, [Byte.x07; Byte.x08]).

End Fixtures.

(** ** Containers with inserted chunks *)

Module Chunks.

Import CInt Raw Stdio WavEnhanced.

(** A chunk as it lies in a file: the four-byte tag, the payload length as
    a little-endian 32-bit field, the payload. *)
Definition chunk_bytes (c : list byte * list byte) : list byte :=
  fst c ++ le_split 4 (Z.of_nat (length (snd c))) ++ snd c.

(** A chunk the scanner has no case for: a tag of four bytes that is
    neither the format tag nor the data tag, and a payload whose length
    fits the size field. *)
Definition unknown_chunk (c : list byte * list byte) : Prop :=
  length (fst c) = 4%nat
  /\ le_combine (fst c) <> FOURCC_FMT
  /\ le_combine (fst c) <> FOURCC_DATA
  /\ Z.of_nat (length (snd c)) < 2 ^ 32.

(** A container with chunks inserted after its twelve-byte RIFF header. *)
Definition insert_chunks (content : list byte) (chunks : list (list byte * list byte))
  : list byte :=
  firstn 12 content ++ flat_map chunk_bytes chunks ++ skipn 12 content.

(** The bytes of a stream that lie at or after its position. *)
Definition remaining (f : FILE) : Z := Z.of_nat (length (f_data f)) - f_pos f.





End Chunks.

(** ** Containers as sequences of chunks *)

Module Containers.

Import CInt Raw Stdio WavEnhanced Chunks.

(** Whether a chunk carries the format tag. *)
Definition is_fmt (c : list byte * list byte) : bool :=
  le_combine (fst c) =? FOURCC_FMT.

(** The origin format a format chunk's payload declares: the format code at
    offset 0, the channel count at 2, the sample rate at 4, the bit depth
    at 14. *)
Definition fmt_of (payload : list byte) (w : wav_enhanced_t) : wav_enhanced_t :=
  set_original (load 2 payload 0) (load 2 payload 2) (load 4 payload 4)
    (load 2 payload 14) w.

(** What a chunk before the data chunk leaves in the context. *)
Definition note_chunk (w : wav_enhanced_t) (c : list byte * list byte)
  : wav_enhanced_t :=
  if is_fmt c then fmt_of (snd c) w else w.

(** A chunk that may precede the data chunk: a tag of four bytes other
    than the data tag, a payload whose length fits the size field, and at
    least the sixteen bytes of the fixed fields when it is a format
    chunk. *)
Definition leading_chunk (c : list byte * list byte) : Prop :=
  length (fst c) = 4%nat
  /\ le_combine (fst c) <> FOURCC_DATA
  /\ Z.of_nat (length (snd c)) < 2 ^ 32
  /\ (le_combine (fst c) = FOURCC_FMT -> (16 <= length (snd c))%nat).

(** The bytes of one frame as the scanner computes them at the data
    chunk. *)
Definition frame_bytes (w : wav_enhanced_t) : Z :=
  to_uint32 (Z.quot (to_int (original_channels w * original_bits_per_sample w)) 8).

(** The handle a successful open returns for the file [content] whose
    chunks left [w] in the context and whose data chunk declares [size]
    bytes starting at [start]. *)
Definition opened (content : list byte) (w : wav_enhanced_t) (start size : Z)
  : wav_enhanced_t :=
  mk_wav (Some {| f_data := content; f_pos := start; f_eof := false |})
    (original_sample_rate w) (original_channels w) (original_bits_per_sample w)
    (original_format w) 8000 1 16 (size / frame_bytes w) 0 0 start size
    (CDouble.of_int (original_sample_rate w) / CDouble.of_int 8000)%float
    PrimFloat.zero (Some []) 4096 0.

End Containers.

(** ** The encode drivers *)

Module Encode.

Import CInt Raw Stdio.

(** What a run of a driver leaves behind: the exit status, the speech
    frames handed to [codec2_encode] in order, the count the driver
    reports, and the output file as closed (if it was created). *)
Record encode_run : Type := mk_run {
  exit_status : Z;
  speech_frames : list (list Z);
  frames_encoded : Z;
  c2_written : option FILE
}.

(** [fwrite(buf, 1, n, f)] from a byte buffer: the [n] bytes written. *)
Definition buffer_bytes (buf : list byte) (n : Z) : list byte :=
  map (fun k => nth (Z.to_nat k) buf Byte.x00) (zrange n).

(** [memset(&speech_samples[samples_read], 0,
    (samples_per_frame - samples_read) * sizeof(short))]. *)
Definition zero_tail (speech_samples : list Z) (samples_read samples_per_frame : Z)
  : list Z :=
  firstn (Z.to_nat samples_read) speech_samples
  ++ repeat 0 (Z.to_nat (samples_per_frame - samples_read))
  ++ skipn (Z.to_nat samples_per_frame) speech_samples.

(** The frames of a sample sequence taken [stride] samples apart: frame [k]
    is the [samples_per_frame] samples at offset [k * stride], followed by
    zeros when fewer are left. *)
Definition frames_every (stride samples_per_frame : nat) (l : list Z)
  : list (list Z) :=
  map (fun k =>
         let c := firstn samples_per_frame (skipn (k * stride) l) in
         c ++ repeat 0 (samples_per_frame - length c))
      (seq 0 ((length l + stride - 1) / stride)).

Section Drivers.

(** The codec2 library, external to these tools. [codec2_encode] returns
    the instance afterwards and the content it leaves in the bit buffer. *)
Variable CODEC2 : Type.
Variable codec2_create : Z -> option CODEC2.
Variable codec2_samples_per_frame : CODEC2 -> Z.
Variable codec2_bits_per_frame : CODEC2 -> Z.
Variable codec2_encode : CODEC2 -> list Z -> CODEC2 * list byte.

Section EncodeLoop.

(** The input side: a handle and the call that reads one frame into the
    speech buffer. *)
Variable R : Type.
Variable read_frame : R -> list Z -> Z -> outcome (Z * R * list Z).

(** The [while ((samples_read = read(wav_in, speech_samples,
    samples_per_frame)) > 0)] loop shared by the two drivers. *)
Fixpoint encode_loop (fuel : nat) (samples_per_frame bytes_per_frame : Z)
  (wav_in : R) (speech_samples : list Z) (codec2 : CODEC2) (output : FILE)
  (frames : list (list Z)) (frames_encoded : Z)
  : outcome (R * FILE * list (list Z) * Z) :=
  match fuel with
  | O => OutOfFuel
  | S fuel' =>
      match read_frame wav_in speech_samples samples_per_frame with
      | Ret (samples_read, wav_in', speech_samples') =>
          if samples_read >? 0 then
            let speech :=
              if samples_read <? samples_per_frame
              then zero_tail speech_samples' samples_read samples_per_frame
              else speech_samples' in
            let (codec2', codec2_bits) := codec2_encode codec2 speech in
            let output' := fwrite (buffer_bytes codec2_bits bytes_per_frame) output in
            encode_loop fuel' samples_per_frame bytes_per_frame wav_in' speech codec2'
              output' (frames ++ [speech]) (to_int (frames_encoded + 1))
          else Ret (wav_in', output, frames, frames_encoded)
      | Trap => Trap
      | OutOfFuel => OutOfFuel
      end
  end.

End EncodeLoop.

(** The bytes the loop writes for a sequence of speech frames. *)
Fixpoint encoded_stream (codec2 : CODEC2) (bytes_per_frame : Z)
  (frames : list (list Z)) : list byte :=
  match frames with
  | [] => []
  | speech :: rest =>
      let (codec2', codec2_bits) := codec2_encode codec2 speech in
      buffer_bytes codec2_bits bytes_per_frame
      ++ encoded_stream codec2' bytes_per_frame rest
  end.

(** Iterations granted to the encode loop on an input file. *)
Definition encode_budget (content : list byte) : nat := S (length content).

(** The sixteen bytes of [uint32_t header[4]]. *)
Definition header_bytes (mode samples_per_frame bits_per_frame : Z) : list byte :=
  le_split 4 0x43324332 ++ le_split 4 mode ++ le_split 4 samples_per_frame
  ++ le_split 4 bits_per_frame.

(** The read call of [codec2_encode_enhanced], on the speech buffer. *)
Definition read_enhanced (wav_in : option WavEnhanced.wav_enhanced_t)
  (speech_samples : list Z) (samples_per_frame : Z)
  : outcome (Z * option WavEnhanced.wav_enhanced_t * list Z) :=
  match
    WavEnhanced.wav_enhanced_read_samples_16bit_mono_8khz wav_in (Some speech_samples)
      (to_uint32 samples_per_frame)
  with
  | Ret (samples_read, wav_in', Some speech_samples') =>
      Ret (samples_read, wav_in', speech_samples')
  | Ret (samples_read, wav_in', None) => Ret (samples_read, wav_in', speech_samples)
  | Trap => Trap
  | OutOfFuel => OutOfFuel
  end.

(** The read call of [codec2_encode]. *)
Definition read_simple (wav_in : option WavUtil.wav_file_t) (speech_samples : list Z)
  (samples_per_frame : Z) : outcome (Z * option WavUtil.wav_file_t * list Z) :=
  match WavUtil.wav_read_samples wav_in (Some speech_samples) (to_uint32 samples_per_frame) with
  | (samples_read, wav_in', Some speech_samples') =>
      Ret (samples_read, wav_in', speech_samples')
  | (samples_read, wav_in', None) => Ret (samples_read, wav_in', speech_samples)
  end.

(** What the two drivers do once the codec instance exists and the output
    file is open: the header, the two buffers, the loop. An allocation of
    a negative size fails; one of size zero does not. *)
Definition encode_frames (R : Type)
  (read_frame : R -> list Z -> Z -> outcome (Z * R * list Z))
  (budget : nat) (mode : Z) (codec2 : CODEC2) (wav_in : R) (output : FILE)
  : outcome encode_run :=
  let samples_per_frame := codec2_samples_per_frame codec2 in
  let bits_per_frame := codec2_bits_per_frame codec2 in
  let bytes_per_frame := int_div (to_int (bits_per_frame + 7)) 8 in
  let output := fwrite (header_bytes mode samples_per_frame bits_per_frame) output in
  if (samples_per_frame <? 0) || (bytes_per_frame <? 0) then
    Ret (mk_run 1 [] 0 (Some output))
  else
    match
      encode_loop R read_frame budget samples_per_frame bytes_per_frame wav_in
        (repeat 0 (Z.to_nat samples_per_frame)) codec2 output [] 0
    with
    | Ret (_, output', frames, frames_encoded) =>
        Ret (mk_run 0 frames frames_encoded (Some output'))
    | Trap => Trap
    | OutOfFuel => OutOfFuel
    end.

(** [main] of [codec2_encode_enhanced], from the open of the input on, for
    the mode the options selected; [input] is the content of the input
    file ([None] when it cannot be opened), [fopen_output] what
    [fopen(output_file, "wb")] will return. *)
Definition codec2_encode_enhanced_main (mode : Z) (input : option (list byte))
  (fopen_output : option FILE) : outcome encode_run :=
  match WavEnhanced.wav_enhanced_open_read (option_map fopen_rb input) with
  | Ret None => Ret (mk_run 1 [] 0 None)
  | Ret (Some wav_in) =>
      match codec2_create mode with
      | None => Ret (mk_run 1 [] 0 None)
      | Some codec2 =>
          (* estimated_frames = (total_samples_8khz + samples_per_frame - 1)
                                / samples_per_frame, in unsigned int *)
          if to_uint32 (codec2_samples_per_frame codec2) =? 0 then Trap
          else
            match fopen_output with
            | None => Ret (mk_run 1 [] 0 None)
            | Some output =>
                encode_frames (option WavEnhanced.wav_enhanced_t) read_enhanced
                  (encode_budget (match input with Some c => c | None => [] end))
                  mode codec2 (Some wav_in) output
            end
      end
  | Trap => Trap
  | OutOfFuel => OutOfFuel
  end.

(** [main] of [codec2_encode], likewise. *)
Definition codec2_encode_main (mode : Z) (input : option (list byte))
  (fopen_output : option FILE) : outcome encode_run :=
  match WavUtil.wav_open_read (option_map fopen_rb input) with
  | Ret None => Ret (mk_run 1 [] 0 None)
  | Ret (Some wav_in) =>
      if negb (WavUtil.wav_get_sample_rate (Some wav_in) =? 8000) then
        Ret (mk_run 1 [] 0 None)
      else if negb (WavUtil.wav_get_channels (Some wav_in) =? 1) then
        Ret (mk_run 1 [] 0 None)
      else if negb (WavUtil.wav_get_bits_per_sample (Some wav_in) =? 16) then
        Ret (mk_run 1 [] 0 None)
      else
        match codec2_create mode with
        | None => Ret (mk_run 1 [] 0 None)
        | Some codec2 =>
            match fopen_output with
            | None => Ret (mk_run 1 [] 0 None)
            | Some output =>
                encode_frames (option WavUtil.wav_file_t) read_simple
                  (encode_budget (match input with Some c => c | None => [] end))
                  mode codec2 (Some wav_in) output
            end
        end
  | Trap => Trap
  | OutOfFuel => OutOfFuel
  end.

End Drivers.

(** The state of the reader of [codec2_encode] between two reads of the
    loop: a mono 16-bit stream over [content], no further than its end,
    with every sample counted read out of two bytes of it. *)
Definition simple_reading (content : list byte) (wav_in : option WavUtil.wav_file_t)
  : Prop :=
  exists w f,
    wav_in = Some w /\ WavUtil.file w = Some f /\ f_data f = content
    /\ 0 <= f_pos f <= Z.of_nat (length content)
    /\ WavUtil.num_channels (WavUtil.header w) = 1
    /\ WavUtil.bits_per_sample (WavUtil.header w) = 16
    /\ 0 <= WavUtil.samples_read w <= WavUtil.total_samples w
    /\ 2 * WavUtil.samples_read w <= f_pos f.

Definition simple_left (wav_in : option WavUtil.wav_file_t) : Z :=
  match wav_in with
  | Some w => match WavUtil.file w with Some f => Chunks.remaining f | None => 0 end
  | None => 0
  end.

End Encode.

(** ** The decoded stream *)

Module Decoded.
Section Stream.

Variable CODEC2 : Type.
Variable codec2_decode : CODEC2 -> list byte -> CODEC2 * list Z.

(** The samples the decode loop writes for a sequence of bit-frames: for
    each frame, the first [samples_per_frame] entries of the speech buffer
    as [codec2_decode] leaves it. *)
Fixpoint decoded_stream (codec2 : CODEC2) (samples_per_frame : Z)
  (frames : list (list byte)) : list Z :=
  match frames with
  | [] => []
  | codec2_bits :: rest =>
      let (codec2', speech_samples) := codec2_decode codec2 codec2_bits in
      map (Raw.short_at speech_samples) (CInt.zrange samples_per_frame)
      ++ decoded_stream codec2' samples_per_frame rest
  end.

End Stream.
End Decoded.

(** ** The mode names *)

Module Modes.

Import String.

Section Modes.

(** The mode constants of [codec2.h], external to these tools. The case
    labels of a [switch] are pairwise distinct, so the order in which
    [mode_to_string] tests them does not matter. *)
Variable CODEC2_MODE_3200 : Z.
Variable CODEC2_MODE_2400 : Z.
Variable CODEC2_MODE_1600 : Z.
Variable CODEC2_MODE_1400 : Z.
Variable CODEC2_MODE_1300 : Z.
Variable CODEC2_MODE_1200 : Z.
Variable CODEC2_MODE_700 : Z.
Variable CODEC2_MODE_700B : Z.

(** [mode_from_string(mode_str)]. *)
Definition mode_from_string (mode_str : string) : Z :=
  if String.eqb mode_str "3200" then CODEC2_MODE_3200
  else if String.eqb mode_str "2400" then CODEC2_MODE_2400
  else if String.eqb mode_str "1600" then CODEC2_MODE_1600
  else if String.eqb mode_str "1400" then CODEC2_MODE_1400
  else if String.eqb mode_str "1300" then CODEC2_MODE_1300
  else if String.eqb mode_str "1200" then CODEC2_MODE_1200
  else if String.eqb mode_str "700" then CODEC2_MODE_700
  else if String.eqb mode_str "700B" then CODEC2_MODE_700B
  else -1.

(** [mode_to_string(mode)]. *)
Definition mode_to_string (mode : Z) : string :=
  if mode =? CODEC2_MODE_3200 then "3200"
  else if mode =? CODEC2_MODE_2400 then "2400"
  else if mode =? CODEC2_MODE_1600 then "1600"
  else if mode =? CODEC2_MODE_1400 then "1400"
  else if mode =? CODEC2_MODE_1300 then "1300"
  else if mode =? CODEC2_MODE_1200 then "1200"
  else if mode =? CODEC2_MODE_700 then "700"
  else if mode =? CODEC2_MODE_700B then "700B"
  else "unknown".

(** The eight mode constants and the eight names, in the order of the
    sources. *)
Definition mode_constants : list Z :=
  [CODEC2_MODE_3200; CODEC2_MODE_2400; CODEC2_MODE_1600; CODEC2_MODE_1400;
   CODEC2_MODE_1300; CODEC2_MODE_1200; CODEC2_MODE_700; CODEC2_MODE_700B].

Definition mode_names : list string :=
  ["3200"; "2400"; "1600"; "1400"; "1300"; "1200"; "700"; "700B"]%string.

End Modes.

End Modes.

(** ** The specification's vocabulary *)

Module Spec.

Import CInt Raw WavEnhanced.

Definition zsum (l : list Z) : Z := fold_right Z.add 0 l.

(** The channel values of frame [i] as the decoder reads them. *)
Definition channel_values (value : Z -> Z) (i channels : Z) : list Z :=
  map (fun ch => value (i * channels + ch)) (zrange channels).

(** The arithmetic mean of a frame, the quotient truncated toward zero. *)
Definition mean_toward_zero (l : list Z) : Z :=
  Z.quot (zsum l) (Z.of_nat (length l)).

(** The per-channel value the decoder uses at a supported bit depth. *)
Definition channel_value (input_bits : Z) (input : list byte) : Z -> Z :=
  if input_bits =? 8 then sample_8 input
  else if input_bits =? 16 then sample_16 input
  else if input_bits =? 24 then sample_24 input
  else sample_32 input.

(** The interpolated value of output index [i], as the specification
    writes it: [p = phase + i*r], [idx = floor p], [frac = p - idx],
    [sample[idx] + frac * (sample[idx+1] - sample[idx])], in doubles. *)
Definition interpolated (phase ratio : float) (input : list Z) (i : Z) : float :=
  let p := (phase + CDouble.of_int i * ratio)%float in
  let idx := CDouble.to_int p in
  let frac := (p - CDouble.of_int idx)%float in
  (CDouble.of_int (short_at input idx)
   + frac * CDouble.of_int (short_at input (idx + 1) - short_at input idx))%float.

(** The integer nearest to a finite double, halves away from zero (C's
    [round]). *)
Definition round_nearest (x : float) : option Z :=
  match Prim2SF x with
  | S754_zero _ => Some 0
  | S754_finite s m e =>
      let a := (Z.shiftl (Zpos m) (e + 1) + 1) / 2 in
      Some (if s then - a else a)
  | S754_infinity _ => None
  | S754_nan => None
  end.

(** The whole bit-frames of a data region: frame [k] is the
    [bytes_per_frame] bytes at offset [k * bytes_per_frame], for
    [k < floor (length data / bytes_per_frame)]. *)
Definition bit_frame_slices (bytes_per_frame : nat) (data : list byte)
  : list (list byte) :=
  map (fun k => firstn bytes_per_frame (skipn (k * bytes_per_frame) data))
      (seq 0 (length data / bytes_per_frame)).

End Spec.

(** * Properties *)

Import CInt Raw Stdio WavEnhanced TestWavs Session Fixtures Chunks Spec.

(** ** C integers and index ranges *)

Lemma swrap_small (w x : Z) :
  0 < w -> - 2 ^ (w - 1) <= x < 2 ^ (w - 1) -> swrap w x = x.
Proof.
  intros Hw Hx. unfold swrap.
  assert (E : 2 ^ w = 2 * 2 ^ (w - 1)).
  { replace w with (Z.succ (w - 1)) at 1 by lia. apply Z.pow_succ_r. lia. }
  rewrite Z.mod_small by lia. lia.
Qed.

Lemma swrap_range (w x : Z) :
  0 < w -> - 2 ^ (w - 1) <= swrap w x < 2 ^ (w - 1).
Proof.
  intros Hw. unfold swrap.
  assert (E : 2 ^ w = 2 * 2 ^ (w - 1)).
  { replace w with (Z.succ (w - 1)) at 1 by lia. apply Z.pow_succ_r. lia. }
  assert (0 < 2 ^ (w - 1)) by (apply Z.pow_pos_nonneg; lia).
  pose proof (Z.mod_pos_bound (x + 2 ^ (w - 1)) (2 ^ w)). lia.
Qed.

Lemma to_int_small x : - 2 ^ 31 <= x < 2 ^ 31 -> to_int x = x.
Proof. intros. apply swrap_small; simpl; lia. Qed.

Lemma to_short_small x : - 32768 <= x < 32768 -> to_short x = x.
Proof. intros. apply swrap_small; simpl; lia. Qed.

Lemma to_short_range x : - 32768 <= to_short x < 32768.
Proof. apply (swrap_range 16). lia. Qed.

Lemma wrap_small w x : 0 <= x < 2 ^ w -> wrap w x = x.
Proof. intros. apply Z.mod_small; lia. Qed.

Lemma byte_at_range buf k : 0 <= byte_at buf k < 256.
Proof.
  unfold byte_at. apply byte.unsigned_range.
Qed.

Lemma zrange_length n : length (zrange n) = Z.to_nat n.
Proof. unfold zrange. now rewrite length_map, length_seq. Qed.

Lemma nth_zrange n i d : 0 <= i < n -> nth (Z.to_nat i) (zrange n) d = i.
Proof.
  intros H. unfold zrange.
  rewrite nth_indep with (d' := Z.of_nat 0) by (rewrite length_map, length_seq; lia).
  rewrite map_nth, seq_nth by lia. lia.
Qed.

Lemma zrange_succ n : 0 <= n -> zrange (n + 1) = zrange n ++ [n].
Proof.
  intros. unfold zrange. replace (Z.to_nat (n + 1)) with (S (Z.to_nat n)) by lia.
  rewrite seq_S, map_app. simpl. f_equal. f_equal. lia.
Qed.

Lemma zsum_snoc l x : zsum (l ++ [x]) = zsum l + x.
Proof. unfold zsum. induction l; simpl; lia. Qed.

Lemma nth_downmix value samples channels i :
  0 <= i < samples ->
  nth (Z.to_nat i) (downmix value samples channels) 0
  = to_short (int_div (channel_sum value i channels) channels).
Proof.
  intros H. unfold downmix.
  set (g := fun i0 => to_short (int_div (channel_sum value i0 channels) channels)).
  rewrite nth_indep with (d' := g 0) by (rewrite length_map, zrange_length; lia).
  rewrite map_nth. now rewrite nth_zrange.
Qed.

Lemma channel_fold_exact value i c (n : nat) :
  (forall k, - 32768 <= value k <= 32767) ->
  Z.of_nat n <= 65535 ->
  let s := fold_left (fun sum ch => to_int (sum + value (i * c + ch)))
                     (zrange (Z.of_nat n)) 0 in
  s = zsum (map (fun ch => value (i * c + ch)) (zrange (Z.of_nat n))) /\
  - 32768 * Z.of_nat n <= s <= 32767 * Z.of_nat n.
Proof.
  intros Hv. induction n as [|n IH]; intros Hn.
  - simpl. lia.
  - replace (Z.of_nat (S n)) with (Z.of_nat n + 1) by lia.
    rewrite zrange_succ by lia. cbv zeta. rewrite fold_left_app, map_app.
    cbn [map fold_left]. rewrite zsum_snoc. destruct IH as [IH1 IH2]; [lia|].
    specialize (Hv (i * c + Z.of_nat n)).
    rewrite to_int_small by lia. lia.
Qed.

Lemma channel_sum_exact value i channels :
  (forall k, - 32768 <= value k <= 32767) ->
  0 <= channels <= 65535 ->
  channel_sum value i channels = zsum (channel_values value i channels) /\
  - 32768 * channels <= channel_sum value i channels <= 32767 * channels.
Proof.
  intros Hv Hc. unfold channel_sum, channel_values.
  pose proof (channel_fold_exact value i channels (Z.to_nat channels) Hv) as H.
  rewrite Z2Nat.id in H by lia. apply H. lia.
Qed.

Lemma quot_mean_range s c :
  1 <= c -> - 32768 * c <= s <= 32767 * c -> - 32768 <= Z.quot s c <= 32767.
Proof.
  intros Hc Hs.
  pose proof (Z.quot_rem' s c) as E.
  destruct (Z_le_gt_dec 0 s) as [Hs0|Hs0].
  - pose proof (Z.rem_bound_pos s c Hs0 ltac:(lia)). nia.
  - pose proof (Z.rem_bound_pos_neg s c ltac:(lia) ltac:(lia)). nia.
Qed.

Lemma sample_8_range input k : - 32768 <= sample_8 input k <= 32767.
Proof. unfold sample_8. pose proof (byte_at_range input k). lia. Qed.

Lemma sample_16_range input k : - 32768 <= sample_16 input k <= 32767.
Proof. unfold sample_16. pose proof (to_short_range (load 2 input (2 * k))). lia. Qed.

Lemma shiftr_range x n m :
  0 <= n -> 0 <= m -> - 2 ^ (n + m) <= x < 2 ^ (n + m) ->
  - 2 ^ m <= Z.shiftr x n < 2 ^ m.
Proof.
  intros Hn Hm Hx. rewrite Z.shiftr_div_pow2 by lia.
  rewrite Z.pow_add_r in Hx by lia.
  assert (0 < 2 ^ n) by (apply Z.pow_pos_nonneg; lia).
  split.
  - apply Z.div_le_lower_bound; lia.
  - apply Z.div_lt_upper_bound; lia.
Qed.

Lemma sample_32_range input k : - 32768 <= sample_32 input k <= 32767.
Proof.
  unfold sample_32.
  pose proof (swrap_range 32 (load 4 input (4 * k)) ltac:(lia)) as R.
  pose proof (shiftr_range (to_int (load 4 input (4 * k))) 16 15 ltac:(lia) ltac:(lia)) as S.
  change (2 ^ (16 + 15)) with (2 ^ (32 - 1)) in S. specialize (S R).
  change (2 ^ 15) with 32768 in S. lia.
Qed.

Lemma lor_shiftl_add a b n :
  0 <= n -> 0 <= a < 2 ^ n -> Z.lor a (Z.shiftl b n) = a + b * 2 ^ n.
Proof.
  intros Hn Ha.
  rewrite Z.shiftl_mul_pow2 by lia.
  assert (D : Z.land a (b * 2 ^ n) = 0).
  { apply Z.bits_inj'. intros i Hi. rewrite Z.land_spec, Z.bits_0.
    destruct (Z_lt_ge_dec i n).
    - rewrite Z.mul_pow2_bits_low by lia. apply andb_false_r.
    - replace (Z.testbit a i) with false; [reflexivity|].
      symmetry. destruct (Z.eq_dec a 0) as [->|]; [apply Z.bits_0|].
      apply Z.bits_above_log2; [lia|].
      apply Z.log2_lt_pow2; [lia|].
      apply Z.lt_le_trans with (2 ^ n); [lia|].
      apply Z.pow_le_mono_r; lia. }
  rewrite <- Z.lxor_lor by exact D. symmetry. apply Z.add_nocarry_lxor. exact D.
Qed.

Lemma sample_24_range input k : - 32768 <= sample_24 input k <= 32767.
Proof.
  unfold sample_24. cbv zeta.
  pose proof (byte_at_range input (k * 3)) as B0.
  pose proof (byte_at_range input (k * 3 + 1)) as B1.
  pose proof (byte_at_range input (k * 3 + 2)) as B2.
  rewrite (lor_shiftl_add (byte_at input (k * 3))) by lia.
  rewrite lor_shiftl_add by lia.
  set (s := byte_at input (k * 3) + byte_at input (k * 3 + 1) * 2 ^ 8
            + byte_at input (k * 3 + 2) * 2 ^ 16).
  assert (Hs : 0 <= s < 2 ^ 24) by (unfold s; lia).
  assert (Hbit : Z.b2z (Z.testbit s 23) = s / 2 ^ 23).
  { rewrite Z.testbit_spec' by lia. apply Z.mod_small.
    split; [apply Z.div_pos; lia | apply Z.div_lt_upper_bound; lia]. }
  assert (Hland : Z.land s 8388608 = 0 <-> Z.testbit s 23 = false).
  { split; intros E.
    - apply (f_equal (fun z => Z.testbit z 23)) in E.
      rewrite Z.land_spec, Z.bits_0 in E.
      change (Z.testbit 8388608 23) with true in E. now rewrite andb_true_r in E.
    - apply Z.bits_inj'. intros i Hi. rewrite Z.land_spec, Z.bits_0.
      destruct (Z.eq_dec i 23) as [->|Hne]; [now rewrite E|].
      change 8388608 with (2 ^ 23). rewrite Z.pow2_bits_false by lia.
      apply andb_false_r. }
  destruct (Z.eqb_spec (Z.land s 8388608) 0) as [E|E].
  - apply Hland in E. rewrite E in Hbit. simpl in Hbit.
    assert (s < 2 ^ 23).
    { destruct (Z_lt_ge_dec s (2 ^ 23)); [assumption|].
      assert (1 <= s / 2 ^ 23) by (apply Z.div_le_lower_bound; lia). lia. }
    pose proof (shiftr_range s 8 15 ltac:(lia) ltac:(lia) ltac:(simpl; lia)) as R.
    change (2 ^ 15) with 32768 in R. lia.
  - assert (Z.testbit s 23 = true).
    { destruct (Z.testbit s 23) eqn:T; [reflexivity|]. exfalso. apply E, Hland, eq_refl. }
    rewrite H in Hbit. simpl in Hbit.
    assert (2 ^ 23 <= s).
    { destruct (Z_lt_ge_dec s (2 ^ 23)); [|lia].
      rewrite Z.div_small in Hbit by lia. lia. }
    assert (L : Z.lor s 4278190080 = s + 255 * 2 ^ 24).
    { change 4278190080 with (Z.shiftl 255 24). apply lor_shiftl_add; lia. }
    rewrite L.
    assert (T : to_int (s + 255 * 2 ^ 24) = s - 2 ^ 24).
    { unfold to_int, swrap.
      replace (s + 255 * 2 ^ 24 + 2 ^ (32 - 1)) with (s - 2 ^ 24 + 2 ^ 31 + 1 * 2 ^ 32) by lia.
      rewrite Z.mod_add by lia. rewrite Z.mod_small by lia. lia. }
    rewrite T.
    pose proof (shiftr_range (s - 2 ^ 24) 8 15 ltac:(lia) ltac:(lia) ltac:(simpl; lia)) as R.
    change (2 ^ 15) with 32768 in R. lia.
Qed.

(** ** The sample decoder *)

Lemma channel_value_range input_bits input k :
  - 32768 <= channel_value input_bits input k <= 32767.
Proof.
  unfold channel_value.
  destruct (input_bits =? 8); [apply sample_8_range|].
  destruct (input_bits =? 16); [apply sample_16_range|].
  destruct (input_bits =? 24); [apply sample_24_range|apply sample_32_range].
Qed.

Lemma convert_frames_runs value samples channels :
  channels <> 0 ->
  convert_frames value samples channels = Ret (downmix value samples channels).
Proof.
  intros H. unfold convert_frames.
  destruct (Z.eqb_spec channels 0); [contradiction|]. now rewrite andb_false_r.
Qed.

Lemma convert_supported input samples input_bits channels :
  In input_bits [8; 16; 24; 32] ->
  channels <> 0 ->
  convert_to_16bit input samples input_bits channels
  = Ret (downmix (channel_value input_bits input) samples channels).
Proof.
  intros H Hc. simpl in H.
  destruct H as [<-|[<-|[<-|[<-|[]]]]];
    unfold convert_to_16bit, channel_value; cbn [Z.eqb Pos.eqb];
    now apply convert_frames_runs.
Qed.

Lemma channel_values_length value i channels :
  0 <= channels -> Z.of_nat (length (channel_values value i channels)) = channels.
Proof.
  intros H. unfold channel_values. rewrite length_map, zrange_length. lia.
Qed.

(** C2 (as amended): at each supported bit depth (8, 16, 24, 32) and for
    every channel count from 1 to 65535, the sample decoder stores for
    frame [i] the arithmetic mean of the frame's channel values, the
    quotient truncated toward zero; no intermediate sum or cast wraps.
    A stereo 16-bit frame (100, 300) decodes to 200 and (100, -101)
    decodes to 0, through [convert_to_16bit] and [stereo_to_mono] alike. *)
Theorem downmix_is_truncated_mean :
  (forall input samples input_bits channels i,
      In input_bits [8; 16; 24; 32] ->
      1 <= channels <= 65535 ->
      0 <= i < samples ->
      exists output,
        convert_to_16bit input samples input_bits channels = Ret output
        /\ nth (Z.to_nat i) output 0
           = mean_toward_zero (channel_values (channel_value input_bits input) i channels))
  /\ convert_to_16bit (shorts_bytes [100; 300]) 1 16 2 = Ret [200]
  /\ convert_to_16bit (shorts_bytes [100; -101]) 1 16 2 = Ret [0]
  /\ stereo_to_mono [100; 300] 1 = [200]
  /\ stereo_to_mono [100; -101] 1 = [0].
Proof.
  split; [|repeat split; vm_compute; reflexivity].
  intros input samples input_bits channels i Hb Hc Hi.
  rewrite convert_supported by (try exact Hb; lia).
  eexists. split; [reflexivity|].
  rewrite nth_downmix by exact Hi.
  destruct (channel_sum_exact (channel_value input_bits input) i channels
              (channel_value_range input_bits input) ltac:(lia)) as [E R].
  unfold mean_toward_zero. rewrite channel_values_length by lia.
  rewrite <- E.
  pose proof (quot_mean_range _ channels ltac:(lia) R) as Q.
  unfold int_div. rewrite to_int_small by lia. apply to_short_small. lia.
Qed.

(** A 24-bit three-channel frame, as an instance of the theorem. *)
Lemma downmix_is_truncated_mean_witness :
  exists output,
    convert_to_16bit
      [Byte.x00; Byte.x01; Byte.x00; Byte.x00; Byte.xff; Byte.xff;
       Byte.x00; Byte.xfe; Byte.xff] 1 24 3 = Ret output
    /\ nth (Z.to_nat 0) output 0
       = mean_toward_zero
           (channel_values
              (channel_value 24
                 [Byte.x00; Byte.x01; Byte.x00; Byte.x00; Byte.xff; Byte.xff;
                  Byte.x00; Byte.xfe; Byte.xff]) 0 3).
Proof.
  apply (proj1 downmix_is_truncated_mean); [simpl; tauto | lia | lia].
Defined.

(** C2 (as stated) fails on the second test vector: the stereo 16-bit
    frame (100, -101) decodes to 0, where the claim has -1. *)
Lemma downmix_negative_half_is_zero :
  convert_to_16bit (shorts_bytes [100; -101]) 1 16 2 = Ret [0]
  /\ (nth 0 (downmix (sample_16 (shorts_bytes [100; -101])) 1 2) 0 =? -1) = false
  /\ Z.quot (100 + -101) 2 = 0.
Proof. repeat split; vm_compute; reflexivity. Qed.

(** ** Counts returned by the resampler and the reader *)

Lemma resample_loop_count phase ratio input input_samples max idxs :
  forall output_count out,
    output_count <= max ->
    output_count
    <= snd (resample_loop phase ratio input input_samples max idxs output_count out)
    <= max.
Proof.
  induction idxs as [|i rest IH]; intros output_count out Hle; simpl.
  - lia.
  - destruct (Z.ltb_spec output_count max) as [Hlt|Hge]; simpl; [|lia].
    destruct (resample_step phase ratio input input_samples i); simpl; [|lia].
    specialize (IH (output_count + 1) (out ++ [z]) ltac:(lia)). lia.
Qed.

Lemma resample_to_8khz_count wav input input_samples max :
  0 <= input_samples -> 0 <= max ->
  0 <= snd (fst (resample_to_8khz wav input input_samples max)) <= max.
Proof.
  intros Hi Hm. unfold resample_to_8khz.
  destruct (original_sample_rate wav =? 8000); simpl.
  - destruct (Z.ltb_spec input_samples max); lia.
  - pose proof (resample_loop_count (resample_phase wav)
                  (CDouble.of_int (original_sample_rate wav) / CDouble.of_int 8000)%float
                  input input_samples max (zrange max) 0 [] Hm) as H.
    destruct (resample_loop _ _ _ _ _ _ _ _) as [out output_count]. simpl in *. lia.
Qed.

Lemma convert_returns input samples input_bits channels :
  0 <= samples ->
  channels <> 0 ->
  convert_to_16bit input samples input_bits channels
  = Ret (stored_by_convert input samples input_bits channels).
Proof.
  intros Hs Hc. unfold convert_to_16bit, stored_by_convert.
  rewrite !convert_frames_runs by exact Hc.
  destruct (Z.ltb_spec samples 0); [lia|].
  repeat match goal with |- context [if ?c then _ else _] => destruct c end;
    reflexivity.
Qed.

(** The reader on an open stream with a buffer: the failed allocation,
    and past it the call as it runs when the conversion returns, which it
    does whenever it is reached. *)
Lemma read_samples_unfold w f buf num_samples :
  file w = Some f ->
  wav_enhanced_read_samples_16bit_mono_8khz (Some w) (Some buf) num_samples
  = if malloc_fails (raw_buffer_bytes w num_samples) then Ret (-1, Some w, Some buf)
    else
      let (raw_buffer, f') := fread (raw_buffer_bytes w num_samples) f in
      let frame_bytes := to_int (original_channels w * (original_bits_per_sample w / 8)) in
      if frame_bytes =? 0 then Trap
      else
        let actual_samples_read :=
          to_int (Z.of_nat (length raw_buffer) / to_size_t frame_bytes) in
        if actual_samples_read <=? 0 then Ret (0, Some (set_file (Some f') w), Some buf)
        else
          let converted :=
            stored_by_convert raw_buffer actual_samples_read
              (original_bits_per_sample w) (original_channels w) in
          let buffer :=
            match resample_buffer w with
            | Some old => store_prefix converted old
            | None => converted
            end in
          let w1 := set_resample_buffer (Some buffer) (set_file (Some f') w) in
          let '(out, output_samples, w2) :=
            resample_to_8khz w1 buffer actual_samples_read (to_int num_samples) in
          let w3 := set_samples_read (to_uint32 (samples_read w2 + output_samples)) w2 in
          Ret (output_samples, Some w3, Some (store_prefix out buf)).
Proof.
  intros Hf. unfold wav_enhanced_read_samples_16bit_mono_8khz. rewrite Hf.
  destruct (malloc_fails _); [reflexivity|].
  destruct (fread _ f) as [raw_buffer f'].
  destruct (Z.eqb_spec (to_int (original_channels w * (original_bits_per_sample w / 8))) 0)
    as [|Hfb]; [reflexivity|].
  match goal with |- context [?a <=? 0] => destruct (Z.leb_spec a 0) as [Hle|Hgt] end;
    [reflexivity|].
  rewrite convert_returns; [reflexivity | lia |].
  intros Hc. apply Hfb. rewrite Hc. reflexivity.
Qed.






(** The failure value on that container: a request of 2147483647 samples
    makes [samples_to_read] wrap to -2147483647, the raw buffer cannot be
    allocated, and the call returns -1. *)
Lemma huge_request_fails_the_allocation :
  match open_file (wav_file 8000 1 12
                     [Byte.x12; Byte.x34; Byte.x56; Byte.x78; Byte.x9a]) with
  | Ret wav =>
      option_map fst
        (returned (wav_enhanced_read_samples_16bit_mono_8khz wav (Some []) 2147483647))
  | _ => None
  end = Some (-1).
Proof. vm_compute. reflexivity. Qed.

(** ** Null handles and buffers *)

(** C10: called with a null stream handle or a null sample buffer, the
    read and the write operations return -1 and leave the handle and the
    buffer as they were; on a null handle every info function returns 0,
    and closing it does nothing. *)
Theorem null_arguments_are_rejected :
  forall (wav : option wav_enhanced_t) (samples : option (list Z)) (num_samples : Z),
    wav = None \/ samples = None ->
    wav_enhanced_read_samples_16bit_mono_8khz wav samples num_samples
    = Ret (-1, wav, samples)
    /\ wav_enhanced_write_samples wav samples num_samples = (-1, wav)
    /\ wav_enhanced_get_original_sample_rate None = 0
    /\ wav_enhanced_get_original_channels None = 0
    /\ wav_enhanced_get_original_bits_per_sample None = 0
    /\ wav_enhanced_get_total_samples_8khz_mono None = 0
    /\ wav_enhanced_close None = None.
Proof.
  intros wav samples num_samples H.
  repeat split; try reflexivity.
  - destruct H as [->| ->]; [reflexivity|]. now destruct wav.
  - destruct H as [->| ->]; [reflexivity|]. now destruct wav.
Qed.

(** A null handle with a real buffer, as an instance of the theorem. *)
Lemma null_arguments_are_rejected_witness :
  wav_enhanced_read_samples_16bit_mono_8khz None (Some [0; 0]) 2
  = Ret (-1, None, Some [0; 0])
  /\ wav_enhanced_write_samples None (Some [0; 0]) 2 = (-1, None)
  /\ wav_enhanced_get_original_sample_rate None = 0
  /\ wav_enhanced_get_original_channels None = 0
  /\ wav_enhanced_get_original_bits_per_sample None = 0
  /\ wav_enhanced_get_total_samples_8khz_mono None = 0
  /\ wav_enhanced_close None = None.
Proof.
  apply (null_arguments_are_rejected None (Some [0; 0]) 2). left. reflexivity.
Defined.

(** A handle whose [file] is null is rejected in the same way. *)
Lemma null_file_is_rejected w samples num_samples :
  file w = None ->
  wav_enhanced_read_samples_16bit_mono_8khz (Some w) samples num_samples
  = Ret (-1, Some w, samples)
  /\ wav_enhanced_write_samples (Some w) samples num_samples = (-1, Some w).
Proof.
  intros H. unfold wav_enhanced_read_samples_16bit_mono_8khz, wav_enhanced_write_samples.
  rewrite H. now destruct samples.
Qed.

(** ** The streaming resampler *)

Lemma resample_step_spec phase ratio input input_samples i v :
  resample_step phase ratio input input_samples i = Some v ->
  CDouble.to_int (phase + CDouble.of_int i * ratio)%float + 1 < input_samples
  /\ v = CDouble.to_short (interpolated phase ratio input i).
Proof.
  unfold resample_step, interpolated. cbv zeta.
  set (idx := CDouble.to_int (phase + CDouble.of_int i * ratio)%float).
  destruct (Z.geb_spec idx (input_samples - 1)) as [Hge|Hlt]; [discriminate|].
  destruct (Z.ltb_spec (idx + 1) input_samples) as [Hin|Hout]; [|lia].
  intros [= <-]. split; [exact Hin | reflexivity].
Qed.

Lemma resample_loop_spec phase ratio input input_samples max (n : nat) :
  forall (a : nat) (out : list Z),
    length out = a ->
    let idxs := map Z.of_nat (seq a n) in
    let r := resample_loop phase ratio input input_samples max idxs (Z.of_nat a) out in
    Z.of_nat (length (fst r)) = snd r
    /\ firstn a (fst r) = out
    /\ forall k, (a <= k)%nat -> Z.of_nat k < snd r ->
         resample_step phase ratio input input_samples (Z.of_nat k)
         = Some (nth k (fst r) 0).
Proof.
  induction n as [|n IH]; intros a out Hlen; cbn [seq map resample_loop].
  - cbv zeta. cbn [fst snd]. repeat split.
    + lia.
    + rewrite <- Hlen. apply firstn_all.
    + intros k H1 H2. lia.
  - cbv zeta.
    destruct (Z.ltb_spec (Z.of_nat a) max) as [Hlt|Hge]; cbn [fst snd].
    2:{ repeat split; [lia | rewrite <- Hlen; apply firstn_all | intros; lia]. }
    destruct (resample_step phase ratio input input_samples (Z.of_nat a)) as [v|] eqn:Hstep;
      cbn [fst snd].
    2:{ repeat split; [lia | rewrite <- Hlen; apply firstn_all | intros; lia]. }
    replace (Z.of_nat a + 1) with (Z.of_nat (S a)) by lia.
    specialize (IH (S a) (out ++ [v]) ltac:(rewrite length_app; simpl; lia)).
    cbv zeta in IH. destruct IH as (IH1 & IH2 & IH3).
    set (r := resample_loop phase ratio input input_samples max
                (map Z.of_nat (seq (S a) n)) (Z.of_nat (S a)) (out ++ [v])) in *.
    repeat split.
    + exact IH1.
    + apply (f_equal (firstn a)) in IH2.
      rewrite firstn_firstn in IH2. replace (Nat.min a (S a)) with a in IH2 by lia.
      rewrite IH2. rewrite firstn_app, Hlen, Nat.sub_diag. simpl.
      rewrite app_nil_r. rewrite <- Hlen. apply firstn_all.
    + intros k Hk1 Hk2.
      destruct (Nat.eq_dec k a) as [->|Hne].
      * rewrite Hstep. f_equal.
        assert (E : nth a (firstn (S a) (fst r)) 0 = v).
        { rewrite IH2. rewrite app_nth2 by lia. rewrite Hlen, Nat.sub_diag. reflexivity. }
        rewrite nth_firstn in E.
        destruct (Nat.ltb_spec a (S a)); [exact (eq_sym E)|lia].
      * apply IH3; lia.
Qed.

(** C5 (as amended): at a source rate other than 8000 Hz, every output
    sample [k] of a call is the interpolated double
    [sample[idx] + frac * (sample[idx+1] - sample[idx])] converted by the
    cast to [short], that is, with its fraction dropped (truncation toward
    zero); it is not rounded to the nearest integer and no saturation step
    is applied. [sample[idx+1]] is always inside the supplied input. *)
Theorem interpolated_samples_are_truncated :
  forall wav input input_samples max_output_samples k,
    original_sample_rate wav <> 8000 ->
    let ratio :=
      (CDouble.of_int (original_sample_rate wav) / CDouble.of_int 8000)%float in
    let r := resample_to_8khz wav input input_samples max_output_samples in
    0 <= k < snd (fst r) ->
    CDouble.to_int (resample_phase wav + CDouble.of_int k * ratio)%float + 1 < input_samples
    /\ nth (Z.to_nat k) (fst (fst r)) 0
       = CDouble.to_short (interpolated (resample_phase wav) ratio input k).
Proof.
  intros wav input input_samples max k Hrate ratio r Hk.
  subst r. unfold resample_to_8khz in *.
  destruct (Z.eqb_spec (original_sample_rate wav) 8000) as [E|_]; [contradiction|].
  fold ratio in Hk |- *.
  pose proof (resample_loop_spec (resample_phase wav) ratio input input_samples max
                (Z.to_nat max) 0 [] eq_refl) as H.
  cbv zeta in H. change (Z.of_nat 0) with 0 in H. fold (zrange max) in H.
  destruct (resample_loop (resample_phase wav) ratio input input_samples max
              (zrange max) 0 []) as [out output_count].
  cbn [fst snd] in *. destruct H as (_ & _ & H).
  specialize (H (Z.to_nat k) ltac:(lia) ltac:(lia)).
  rewrite Z2Nat.id in H by lia.
  apply resample_step_spec in H. exact H.
Qed.

(** The first output of a call at 14000 Hz, as an instance of the theorem. *)
Lemma interpolated_samples_are_truncated_witness :
  CDouble.to_int
    (PrimFloat.zero
     + CDouble.of_int 0 * (CDouble.of_int 14000 / CDouble.of_int 8000))%float + 1 < 5
  /\ nth (Z.to_nat 0)
         (fst (fst (resample_to_8khz
                      (set_original 1 1 14000 16 wav_zero) [0; 0; 1; 0; 0] 5 2))) 0
     = CDouble.to_short
         (interpolated PrimFloat.zero (CDouble.of_int 14000 / CDouble.of_int 8000)%float
            [0; 0; 1; 0; 0] 0).
Proof.
  apply (interpolated_samples_are_truncated
           (set_original 1 1 14000 16 wav_zero) [0; 0; 1; 0; 0] 5 2 0).
  - simpl. discriminate.
  - vm_compute. split; [discriminate | reflexivity].
Defined.

(** C5 (as stated) fails: at 14000 Hz the second output sample lies at
    source position 1.75; over the samples 0 and 1 the interpolated value
    is 0.75, whose nearest integer is 1, and the value stored is 0.
    The same holds with -0.75, stored as 0 where rounding gives -1. *)
Lemma interpolation_is_not_rounded :
  Prim2SF (interpolated PrimFloat.zero (CDouble.of_int 14000 / CDouble.of_int 8000)%float
             [0; 0; 1; 0; 0; 0] 1)
  = S754_finite false 6755399441055744 (-53)
  /\ round_nearest
       (interpolated PrimFloat.zero (CDouble.of_int 14000 / CDouble.of_int 8000)%float
          [0; 0; 1; 0; 0; 0] 1) = Some 1
  /\ returned (read_from (open_file (step_14000 1)) 2) = Some (2, Some [0; 0])
  /\ round_nearest
       (interpolated PrimFloat.zero (CDouble.of_int 14000 / CDouble.of_int 8000)%float
          [0; 0; -1; 0; 0; 0] 1) = Some (-1)
  /\ returned (read_from (open_file (step_14000 (-1))) 2) = Some (2, Some [0; 0]).
Proof. repeat split; vm_compute; reflexivity. Qed.

(** [resample_to_8khz] itself copies its input at 8000 Hz when the output
    buffer is at least as long. *)
Lemma resample_passthrough_copies wav input max_output_samples :
  original_sample_rate wav = 8000 ->
  Z.of_nat (length input) <= max_output_samples ->
  resample_to_8khz wav input (Z.of_nat (length input)) max_output_samples
  = (input, Z.of_nat (length input), wav).
Proof.
  intros Hr Hm. unfold resample_to_8khz. rewrite Hr. simpl.
  destruct (Z.ltb_spec (Z.of_nat (length input)) max_output_samples).
  - now rewrite Nat2Z.id, firstn_all.
  - replace max_output_samples with (Z.of_nat (length input)) by lia.
    now rewrite Nat2Z.id, firstn_all.
Qed.

(** The phase the resampler keeps after a call that produced [count]
    samples: the fractional part of [phase + count * ratio]. *)
Lemma resample_phase_update wav input input_samples max_output_samples :
  original_sample_rate wav <> 8000 ->
  let ratio := (CDouble.of_int (original_sample_rate wav) / CDouble.of_int 8000)%float in
  let r := resample_to_8khz wav input input_samples max_output_samples in
  let p := (resample_phase wav + CDouble.of_int (snd (fst r)) * ratio)%float in
  resample_phase (snd r) = (p - CDouble.of_int (CDouble.to_int p))%float.
Proof.
  intros Hrate. unfold resample_to_8khz.
  destruct (Z.eqb_spec (original_sample_rate wav) 8000) as [E|_]; [contradiction|].
  destruct (resample_loop _ _ _ _ _ _ _ _) as [out output_count]. reflexivity.
Qed.

(** C1 on a 44100 Hz container (ratio 5.5125) holding 0, 100, ..., 3900:
    one call for two samples returns 0 and 551 (source position 5.5125);
    two calls for one sample each return 0 and then 751. The first short
    call has consumed seven source samples from the file (the stream stands
    at byte 44 + 14) while the phase it keeps, 0.5125, is relative to
    source position 5: the second call interpolates between samples 7 and
    8, and samples 5 and 6 are never used. *)
Theorem chunked_reads_skip_source_samples :
  returned (read_from (open_file ramp_44100) 2) = Some (2, Some [0; 551])
  /\ returned (read_from (open_file ramp_44100) 1) = Some (1, Some [0])
  /\ stream_pos (read_from (open_file ramp_44100) 1) = Some (44 + 2 * 7)
  /\ option_map CDouble.trunc (phase_after (read_from (open_file ramp_44100) 1))
     = Some (Some 0)
  /\ returned (read_again (read_from (open_file ramp_44100) 1) 1) = Some (1, Some [751]).
Proof. repeat split; vm_compute; reflexivity. Qed.

(** C6 on an 8000 Hz container holding 10, 20, ..., 100: one call for ten
    samples returns them all; calls for three samples return 10 20 30, then
    60 70 80, then nothing. Each call takes two samples more from the file
    than it returns, and they are lost. *)
Theorem passthrough_chunked_reads_drop_samples :
  returned (read_from (open_file steps_8000) 10)
  = Some (10, Some [10; 20; 30; 40; 50; 60; 70; 80; 90; 100])
  /\ returned (read_from (open_file steps_8000) 3) = Some (3, Some [10; 20; 30])
  /\ stream_pos (read_from (open_file steps_8000) 3) = Some (44 + 2 * 5)
  /\ returned (read_again (read_from (open_file steps_8000) 3) 3)
     = Some (3, Some [60; 70; 80])
  /\ returned (read_again (read_again (read_from (open_file steps_8000) 3) 3) 3)
     = Some (0, Some [0; 0; 0]).
Proof. repeat split; vm_compute; reflexivity. Qed.

(** ** A declared sample rate of zero *)

Lemma open_read_ratio fopen_result w :
  wav_enhanced_open_read fopen_result = Ret (Some w) ->
  resample_ratio w
  = (CDouble.of_int (original_sample_rate w) / CDouble.of_int 8000)%float.
Proof.
  unfold wav_enhanced_open_read.
  destruct fopen_result as [f|]; [|discriminate].
  destruct (read_le32 f) as [riff_id f1].
  destruct (negb (riff_id =? FOURCC_RIFF)); [discriminate|].
  destruct (read_le32 f1) as [file_size f2].
  destruct (read_le32 f2) as [wave_id f3].
  destruct (negb (wave_id =? FOURCC_WAVE)); [discriminate|].
  unfold finish_open.
  destruct (scan_chunks _ _ _ _ _) as [[[[f' w'] found_fmt] found_data]| |];
    [|discriminate|discriminate].
  destruct (negb found_fmt || negb found_data); [discriminate|].
  intros [= <-]. reflexivity.
Qed.

Lemma division_by_zero_is_not_finite (x : float) :
  CDouble.trunc (x / PrimFloat.zero)%float = None.
Proof.
  unfold CDouble.trunc. rewrite div_spec.
  change (Prim2SF PrimFloat.zero) with (S754_zero false).
  destruct (Prim2SF x) as [s|s| |s m e]; reflexivity.
Qed.

(** C4 (as stated) fails: the container [rate_0], whose format chunk
    declares 0 Hz, opens; its ratio is 0.0, the quotient computed by
    [wav_enhanced_get_total_samples_8khz_mono] is 3 / 0.0 = +infinity, and
    a read returns samples. *)
Lemma zero_rate_opens :
  option_map original_sample_rate (returned_handle (open_file rate_0)) = Some 0
  /\ option_map resample_ratio (returned_handle (open_file rate_0)) = Some PrimFloat.zero
  /\ option_map total_samples_quotient (returned_handle (open_file rate_0))
     = Some PrimFloat.infinity
  /\ returned (read_from (open_file rate_0) 3) = Some (3, Some [5; 5; 5]).
Proof. repeat split; vm_compute; reflexivity. Qed.

(** ** The container writer *)

Lemma byte_of_Z_land x : byte.of_Z (Z.land x 255) = byte.of_Z x.
Proof.
  apply byte.unsigned_inj. rewrite !byte.unsigned_of_Z. unfold byte.wrap.
  change 255 with (Z.ones 8). rewrite Z.land_ones by lia. apply Z.mod_mod. lia.
Qed.

Lemma le32_bytes_split v : le32_bytes v = le_split 4 v.
Proof.
  unfold le32_bytes. cbv [le_split]. rewrite !byte_of_Z_land.
  rewrite !Z.shiftr_shiftr by lia. reflexivity.
Qed.

Lemma le16_bytes_split v : le16_bytes v = le_split 2 v.
Proof.
  unfold le16_bytes. cbv [le_split]. rewrite !byte_of_Z_land. reflexivity.
Qed.

Lemma read_buffer_all (buf : list Z) :
  map (short_at buf) (zrange (Z.of_nat (length buf))) = buf.
Proof.
  unfold zrange, short_at. rewrite Nat2Z.id, map_map.
  erewrite map_ext; [|intros a; rewrite Nat2Z.id; reflexivity].
  induction buf as [|x buf IH]; [reflexivity|].
  cbn [length seq map nth]. f_equal. rewrite <- seq_shift, map_map. exact IH.
Qed.

Lemma shorts_bytes_app a b : shorts_bytes (a ++ b) = shorts_bytes a ++ shorts_bytes b.
Proof. unfold shorts_bytes. apply flat_map_app. Qed.

Lemma shorts_bytes_length l : length (shorts_bytes l) = (2 * length l)%nat.
Proof.
  unfold shorts_bytes. induction l as [|x l IH]; [reflexivity|].
  cbn [flat_map]. rewrite length_app, IH. unfold short_bytes.
  rewrite length_le_split. simpl. lia.
Qed.

Lemma fwrite_at_end bs data :
  fwrite bs {| f_data := data; f_pos := Z.of_nat (length data); f_eof := false |}
  = {| f_data := data ++ bs; f_pos := Z.of_nat (length (data ++ bs)); f_eof := false |}.
Proof.
  unfold fwrite. cbn [f_data f_pos f_eof]. rewrite Nat2Z.id.
  rewrite firstn_all, Nat.sub_diag. cbn [repeat]. rewrite app_nil_r.
  rewrite skipn_all2 by lia. rewrite app_nil_r, length_app. f_equal. lia.
Qed.

Lemma wrap32_of_wrap64 x : wrap 32 (wrap 64 x) = wrap 32 x.
Proof.
  unfold wrap. apply Z.mod_mod_divide. exists (2 ^ 32). reflexivity.
Qed.

Lemma wrap32_add_l x y : wrap 32 (wrap 32 x + y) = wrap 32 (x + y).
Proof. unfold wrap. apply Zplus_mod_idemp_l. Qed.

Lemma wrap32_add_r x y : wrap 32 (x + wrap 64 y) = wrap 32 (x + y).
Proof.
  unfold wrap at 1 3. rewrite Zplus_mod. fold (wrap 32 (wrap 64 y)).
  rewrite wrap32_of_wrap64. unfold wrap. now rewrite <- Zplus_mod.
Qed.

Lemma write_samples_appended hdr written w buf :
  appended hdr written w ->
  exists w',
    snd (wav_enhanced_write_samples (Some w) (Some buf) (Z.of_nat (length buf))) = Some w'
    /\ appended hdr (written ++ buf) w'.
Proof.
  intros (Hf & Hs & Hb). unfold wav_enhanced_write_samples. rewrite Hf.
  rewrite read_buffer_all. rewrite fwrite_at_end. cbn [snd].
  eexists. split; [reflexivity|]. unfold appended.
  cbn [file samples_written bytes_written set_written set_file].
  rewrite shorts_bytes_app, app_assoc. split; [reflexivity|].
  rewrite Hs, Hb, length_app, Nat2Z.inj_add. unfold to_uint32, to_size_t.
  rewrite wrap32_add_r, !wrap32_add_l. split; f_equal; lia.
Qed.

Lemma append_all_appended hdr calls :
  forall written w,
    appended hdr written w ->
    exists w',
      append_all (Some w) calls = Some w'
      /\ appended hdr (written ++ concat calls) w'.
Proof.
  induction calls as [|buf calls IH]; intros written w H.
  - exists w. split; [reflexivity|]. now rewrite app_nil_r.
  - destruct (write_samples_appended hdr written w buf H) as (w1 & E1 & H1).
    destruct (IH _ _ H1) as (w2 & E2 & H2).
    exists w2. split.
    + unfold append_all in *. cbn [fold_left]. now rewrite E1.
    + cbn [concat]. now rewrite app_assoc.
Qed.

Lemma open_write_appended :
  exists w,
    wav_enhanced_open_write (Some fopen_wb) = Some w
    /\ appended (write_wav_header 8000 1 16 0) [] w.
Proof.
  eexists. split; [reflexivity|]. vm_compute. repeat split; reflexivity.
Qed.

Lemma fwrite_over a old bs c e :
  length old = length bs ->
  fwrite bs {| f_data := a ++ old ++ c; f_pos := Z.of_nat (length a); f_eof := e |}
  = {| f_data := a ++ bs ++ c; f_pos := Z.of_nat (length a + length bs); f_eof := e |}.
Proof.
  intros Hlen. unfold fwrite. cbn [f_data f_pos f_eof]. rewrite Nat2Z.id.
  rewrite firstn_app, firstn_all, Nat.sub_diag, firstn_0, app_nil_r.
  replace (length a - length (a ++ old ++ c))%nat with 0%nat
    by (rewrite length_app; lia).
  cbn [repeat]. rewrite app_nil_r.
  rewrite skipn_app, skipn_all2 by lia.
  replace (length a + length bs - length a)%nat with (length old) by lia.
  rewrite skipn_app, skipn_all, Nat.sub_diag, skipn_O. cbn [app].
  f_equal. lia.
Qed.

Lemma header_shape rate channels bits n (P : list byte) :
  write_wav_header rate channels bits n ++ P
  = Tags.tag_RIFF ++ le_split 4 (to_uint32 (36 + n))
    ++ (format_fields rate channels bits ++ Tags.tag_data) ++ le_split 4 n ++ P.
Proof. unfold write_wav_header. now rewrite <- !app_assoc. Qed.

Lemma format_fields_length rate channels bits :
  length (format_fields rate channels bits ++ Tags.tag_data) = 32%nat.
Proof.
  unfold format_fields. rewrite !length_app, !length_le_split. reflexivity.
Qed.

Lemma close_appended written w :
  appended (write_wav_header 8000 1 16 0) written w ->
  36 + 2 * Z.of_nat (length written) < 2 ^ 32 ->
  wav_enhanced_close (Some w)
  = Some {| f_data := write_wav_header 8000 1 16 (2 * Z.of_nat (length written))
                      ++ shorts_bytes written;
            f_pos := 44;
            f_eof := false |}.
Proof.
  intros (Hf & Hs & Hb) Hk. unfold wav_enhanced_close. rewrite Hf, Hs, Hb.
  set (n := 2 * Z.of_nat (length written)) in *.
  assert (En : to_uint32 n = n) by (apply wrap_small; lia).
  assert (Es : to_uint32 (36 + n) = 36 + n) by (apply wrap_small; lia).
  assert (Ek : to_uint32 (Z.of_nat (length written)) = Z.of_nat (length written))
    by (apply wrap_small; lia).
  rewrite En, Ek.
  set (P := shorts_bytes written).
  destruct (Z.gtb_spec (Z.of_nat (length written)) 0) as [Hpos|Hzero].
  - rewrite !header_shape.
    set (M := format_fields 8000 1 16 ++ Tags.tag_data).
    assert (HM : length M = 32%nat) by apply format_fields_length.
    set (s := le_split 4 (to_uint32 (36 + n))).
    assert (Hs4 : length s = 4%nat) by apply length_le_split.
    unfold write_le32, fseek_set. cbn [Z.ltb Z.compare f_data f_pos f_eof].
    rewrite !le32_bytes_split. fold s.
    change 4 with (Z.of_nat (length Tags.tag_RIFF)).
    rewrite (fwrite_over Tags.tag_RIFF (le_split 4 (to_uint32 (36 + 0))) s)
      by (now rewrite length_le_split).
    cbn [f_data f_pos f_eof].
    replace (Tags.tag_RIFF ++ s ++ M ++ le_split 4 0 ++ P)
      with ((Tags.tag_RIFF ++ s ++ M) ++ le_split 4 0 ++ P)
      by (now rewrite <- !app_assoc).
    replace 40 with (Z.of_nat (length (Tags.tag_RIFF ++ s ++ M)))
      by (rewrite !length_app, Hs4, HM; reflexivity).
    rewrite (fwrite_over (Tags.tag_RIFF ++ s ++ M) (le_split 4 0) (le_split 4 n))
      by (now rewrite !length_le_split).
    rewrite <- !app_assoc. reflexivity.
  - assert (written = []) as -> by (destruct written; [reflexivity | simpl in Hzero; lia]).
    reflexivity.
Qed.

(** C9 (as amended): after [K] samples were appended in any number of
    calls, with 36 + 2K below 2^32, closing the writer leaves a file made of
    the canonical 44-byte header whose data size is 2K and whose top-level
    size is 36 + 2K, followed by the payload: only the two size fields
    differ from what was written before the close. The header written at
    open has the top-level size 36 and the data size 0; with no sample
    written the close leaves these as they are, which is the header of the
    empty container. *)
Theorem close_patches_size_fields :
  forall calls : list (list Z),
    let K := Z.of_nat (length (concat calls)) in
    36 + 2 * K < 2 ^ 32 ->
    wav_enhanced_close (append_all (wav_enhanced_open_write (Some fopen_wb)) calls)
    = Some {| f_data := write_wav_header 8000 1 16 (2 * K) ++ shorts_bytes (concat calls);
              f_pos := 44;
              f_eof := false |}
    /\ option_map size_fields (wav_enhanced_close (wav_enhanced_open_write (Some fopen_wb)))
       = Some (36, 0).
Proof.
  intros calls K HK. split; [|vm_compute; reflexivity].
  destruct open_write_appended as (w0 & E0 & H0).
  destruct (append_all_appended _ calls [] w0 H0) as (w1 & E1 & H1).
  rewrite E0, E1. cbn [app] in H1. now apply close_appended.
Qed.

(** Three samples appended in two calls, as an instance of the theorem. *)
Lemma close_patches_size_fields_witness :
  wav_enhanced_close
    (append_all (wav_enhanced_open_write (Some fopen_wb)) [[1; -2]; [3]])
  = Some {| f_data := write_wav_header 8000 1 16 (2 * 3) ++ shorts_bytes [1; -2; 3];
            f_pos := 44;
            f_eof := false |}
  /\ option_map size_fields (wav_enhanced_close (wav_enhanced_open_write (Some fopen_wb)))
     = Some (36, 0).
Proof.
  apply (close_patches_size_fields [[1; -2]; [3]]). vm_compute. reflexivity.
Defined.

(** C9 (as stated) fails on the placeholders: the file opened for writing
    and closed with nothing written holds 36, not 0, in its top-level size
    field (and 0 in its data size field). *)
Lemma placeholder_top_level_size_is_36 :
  option_map size_fields (wav_enhanced_close (wav_enhanced_open_write (Some fopen_wb)))
  = Some (36, 0).
Proof. vm_compute. reflexivity. Qed.

(** ** The decode drivers *)

Lemma bit_frame_slices_short b data :
  (length data < b)%nat -> bit_frame_slices b data = [].
Proof.
  intros H. unfold bit_frame_slices. now rewrite Nat.div_small.
Qed.

Lemma bit_frame_slices_step b data :
  (0 < b)%nat -> (b <= length data)%nat ->
  bit_frame_slices b data = firstn b data :: bit_frame_slices b (skipn b data).
Proof.
  intros Hb Hlen. unfold bit_frame_slices.
  assert (E : (length data / b = S (length (skipn b data) / b))%nat).
  { rewrite length_skipn.
    replace (length data) with ((length data - b) + 1 * b)%nat at 1 by lia.
    rewrite Nat.div_add by lia. lia. }
  rewrite E. cbn [seq map]. f_equal.
  rewrite <- seq_shift, map_map. apply map_ext. intros k.
  rewrite skipn_skipn. do 2 f_equal. lia.
Qed.

Section DecodeLoopProperties.
Variable CODEC2 : Type.
Variable codec2_decode : CODEC2 -> list byte -> CODEC2 * list Z.
Variable W : Type.
Variable write_frame : W -> list Z -> Z -> W.

Lemma decode_loop_frames bytes_per_frame samples_per_frame data :
  0 < bytes_per_frame < 2 ^ 63 ->
  forall (fuel : nat) (pos : nat) (e : bool) codec2 wav_out frames frames_decoded,
    let rest := skipn pos data in
    let b := Z.to_nat bytes_per_frame in
    (length rest / b < fuel)%nat ->
    0 <= frames_decoded ->
    frames_decoded + Z.of_nat (length rest / b) < 2 ^ 31 ->
    exists wav_out',
      Decode.decode_loop CODEC2 codec2_decode W write_frame fuel bytes_per_frame
        samples_per_frame {| f_data := data; f_pos := Z.of_nat pos; f_eof := e |}
        codec2 wav_out frames frames_decoded
      = Ret (wav_out', frames ++ bit_frame_slices b rest,
             frames_decoded + Z.of_nat (length rest / b)).
Proof.
  intros Hb. assert (Hsz : to_size_t bytes_per_frame = bytes_per_frame).
  { apply wrap_small. lia. }
  induction fuel as [|fuel IH]; intros pos e codec2 wav_out frames fd rest b Hfuel Hfd Hbound.
  - lia.
  - cbn [Decode.decode_loop]. unfold fread. cbn [f_data f_pos f_eof].
    rewrite Hsz, Nat2Z.id. fold rest. fold b.
    rewrite length_firstn.
    destruct (Nat.le_gt_cases b (length rest)) as [Hle|Hgt].
    + rewrite Nat.min_l by exact Hle.
      replace (Z.of_nat b =? bytes_per_frame) with true
        by (symmetry; apply Z.eqb_eq; unfold b; lia).
      destruct (codec2_decode codec2 (firstn b rest)) as [codec2' speech_samples].
      assert (Hb0 : (0 < b)%nat) by (unfold b; lia).
      assert (Ediv : (length rest / b = S (length (skipn b rest) / b))%nat).
      { rewrite length_skipn.
        replace (length rest) with ((length rest - b) + 1 * b)%nat at 1 by lia.
        rewrite Nat.div_add by lia. lia. }
      replace (Z.of_nat pos + Z.of_nat b) with (Z.of_nat (pos + b)) by lia.
      assert (Erest : skipn (pos + b) data = skipn b rest).
      { unfold rest. rewrite skipn_skipn. f_equal. lia. }
      specialize (IH (pos + b)%nat (e || (Z.of_nat b <? bytes_per_frame))
                    codec2' (write_frame wav_out speech_samples samples_per_frame)
                    (frames ++ [firstn b rest]) (to_int (fd + 1))).
      cbv zeta in IH. rewrite Erest in IH. fold b in IH.
      rewrite (to_int_small (fd + 1)) in IH by lia.
      destruct IH as (wav_out' & IH); [lia | lia | lia |].
      rewrite (to_int_small (fd + 1)) by lia.
      exists wav_out'. rewrite IH. f_equal. f_equal; [f_equal|].
      * rewrite <- app_assoc. cbn [app]. f_equal.
        symmetry. apply bit_frame_slices_step; assumption.
      * rewrite Ediv. lia.
    + rewrite Nat.min_r by lia.
      replace (Z.of_nat (length rest) =? bytes_per_frame) with false
        by (symmetry; apply Z.eqb_neq; unfold b in Hgt; lia).
      exists wav_out. rewrite bit_frame_slices_short by exact Hgt.
      rewrite Nat.div_small by exact Hgt. rewrite app_nil_r. do 2 f_equal. lia.
Qed.
End DecodeLoopProperties.

Section DriverProperties.
Variable CODEC2 : Type.
Variable codec2_create : Z -> option CODEC2.
Variable codec2_samples_per_frame : CODEC2 -> Z.
Variable codec2_bits_per_frame : CODEC2 -> Z.
Variable codec2_decode : CODEC2 -> list byte -> CODEC2 * list Z.

Lemma read_header_stream content codec2 samples_per_frame bits_per_frame input1 :
  Decode.read_header CODEC2 codec2_create codec2_samples_per_frame
    codec2_bits_per_frame (fopen_rb content)
  = Some (codec2, samples_per_frame, bits_per_frame, input1) ->
  input1 = {| f_data := content; f_pos := 16; f_eof := false |}
  /\ (16 <= length content)%nat.
Proof.
  unfold Decode.read_header, fread, fopen_rb. cbn [f_data f_pos f_eof].
  change (Z.to_nat 0) with 0%nat. cbn [skipn].
  change (Z.to_nat 16) with 16%nat.
  rewrite length_firstn.
  destruct (Nat.le_gt_cases 16 (length content)) as [Hle|Hgt].
  - rewrite Nat.min_l by exact Hle.
    change (negb (Z.of_nat 16 / 4 =? 4)) with false. cbv iota.
    destruct (negb _); [discriminate|].
    destruct (codec2_create _) as [c|]; [|discriminate].
    destruct (negb _ || negb _); [discriminate|].
    intros [= _ _ _ <-]. split; [reflexivity | exact Hle].
  - rewrite Nat.min_r by lia.
    replace (negb (Z.of_nat (length content) / 4 =? 4)) with true; [discriminate|].
    symmetry. apply negb_true_iff, Z.eqb_neq.
    assert (Z.of_nat (length content) / 4 < 4)
      by (apply Z.div_lt_upper_bound; lia).
    lia.
Qed.

Lemma read_header_geometry input codec2 samples_per_frame bits_per_frame input1 :
  Decode.read_header CODEC2 codec2_create codec2_samples_per_frame
    codec2_bits_per_frame input
  = Some (codec2, samples_per_frame, bits_per_frame, input1) ->
  - 2 ^ 31 <= samples_per_frame < 2 ^ 31 /\ - 2 ^ 31 <= bits_per_frame < 2 ^ 31.
Proof.
  unfold Decode.read_header. destruct (fread 16 input) as [header i1].
  destruct (negb _); [discriminate|].
  destruct (negb _); [discriminate|].
  destruct (codec2_create _) as [c|]; [|discriminate].
  destruct (Z.eqb_spec (codec2_samples_per_frame c) (to_int (load 4 header 8)))
    as [E1|_]; [|discriminate].
  destruct (Z.eqb_spec (codec2_bits_per_frame c) (to_int (load 4 header 12)))
    as [E2|_]; [|discriminate].
  cbn [negb orb]. intros [= _ <- <- _]. rewrite E1, E2.
  pose proof (swrap_range 32 (load 4 header 8) ltac:(lia)) as R1.
  pose proof (swrap_range 32 (load 4 header 12) ltac:(lia)) as R2.
  change (32 - 1) with 31 in R1, R2. unfold to_int. lia.
Qed.

(** The two frame buffers are allocated whenever the frame sizes are
    those of a frame: a positive byte count and a sample count that is
    not negative. *)
Lemma buffers_allocated bytes_per_frame samples_per_frame :
  0 <= bytes_per_frame < 2 ^ 31 ->
  0 <= samples_per_frame < 2 ^ 31 ->
  malloc_fails (to_size_t bytes_per_frame)
  || malloc_fails (to_size_t (to_size_t samples_per_frame * 2)) = false.
Proof.
  intros Hb Hs. unfold to_size_t.
  rewrite (wrap_small 64 bytes_per_frame), (wrap_small 64 samples_per_frame),
    (wrap_small 64 (samples_per_frame * 2)) by lia.
  unfold malloc_fails. apply orb_false_iff. split; apply Z.leb_gt; lia.
Qed.

(** A negative sample count makes the second allocation fail. *)
Lemma speech_buffer_refused samples_per_frame :
  - 2 ^ 31 <= samples_per_frame < 0 ->
  malloc_fails (to_size_t (to_size_t samples_per_frame * 2)) = true.
Proof.
  intros Hs. unfold to_size_t, wrap, malloc_fails. apply Z.leb_le.
  rewrite Z.mul_mod_idemp_l by lia.
  replace (samples_per_frame * 2) with (2 ^ 64 + samples_per_frame * 2 + (-1) * 2 ^ 64)
    by lia.
  rewrite Z.mod_add by lia. rewrite Z.mod_small by lia. lia.
Qed.

Lemma bytes_per_frame_value bits_per_frame :
  0 < bits_per_frame < 2 ^ 31 - 7 ->
  int_div (to_int (bits_per_frame + 7)) 8 = (bits_per_frame + 7) / 8
  /\ 0 < (bits_per_frame + 7) / 8 < 2 ^ 31.
Proof.
  intros H. unfold int_div. rewrite (to_int_small (bits_per_frame + 7)) by lia.
  rewrite Z.quot_div_nonneg by lia.
  assert (0 < (bits_per_frame + 7) / 8) by (apply Z.div_str_pos; lia).
  assert ((bits_per_frame + 7) / 8 < 2 ^ 31) by (apply Z.div_lt_upper_bound; lia).
  rewrite to_int_small by lia. lia.
Qed.

End DriverProperties.

(** What the drivers do on the stand-in container: two frames, the bytes
    01 02 and 03 04; the byte 05 is dropped. *)
Lemma decode_toy_container :
  match
    Decode.codec2_decode_enhanced_main unit toy_create toy_samples_per_frame
      toy_bits_per_frame toy_decode (Some (fopen_rb toy_c2)) (Some fopen_wb)
  with
  | Ret run => Some (Decode.exit_status run, Decode.frames_decoded run, Decode.bit_frames run)
  | _ => None
  end
  = Some (0, 2, [[Byte.x01; Byte.x02]; [Byte.x03; Byte.x04]]).
Proof. vm_compute. reflexivity. Qed.

(** ** The chunk scanner: streams *)

Lemma fread_data n f : f_data (snd (fread n f)) = f_data f.
Proof. reflexivity. Qed.

Lemma fread_pos n f : f_pos f <= f_pos (snd (fread n f)).
Proof. unfold fread. cbn [snd f_pos]. lia. Qed.

Lemma fread_eof_mono n f : f_eof f = true -> f_eof (snd (fread n f)) = true.
Proof. unfold fread. cbn [snd f_eof]. now intros ->. Qed.

(** A read that finds all its bytes. *)
Lemma fread_complete (n : nat) f bs tail :
  0 <= f_pos f ->
  skipn (Z.to_nat (f_pos f)) (f_data f) = bs ++ tail ->
  length bs = n ->
  fread (Z.of_nat n) f
  = (bs, {| f_data := f_data f; f_pos := f_pos f + Z.of_nat n; f_eof := f_eof f |}).
Proof.
  intros Hpos Hskip Hlen. unfold fread. rewrite Nat2Z.id, Hskip.
  rewrite firstn_app, <- Hlen, firstn_all, Nat.sub_diag, firstn_0, app_nil_r.
  rewrite Z.ltb_irrefl, orb_false_r. reflexivity.
Qed.

(** A read that runs into the end of the file. *)
Lemma fread_short n f :
  0 < n ->
  0 <= f_pos f ->
  Z.of_nat (length (f_data f)) - f_pos f < n ->
  Z.of_nat (length (fst (fread n f))) < n /\ f_eof (snd (fread n f)) = true.
Proof.
  intros Hn Hpos Hrem. unfold fread. cbn [fst snd f_eof].
  assert (L : Z.of_nat (length (firstn (Z.to_nat n)
                 (skipn (Z.to_nat (f_pos f)) (f_data f)))) < n).
  { rewrite length_firstn, length_skipn. lia. }
  split; [exact L|]. apply Z.ltb_lt in L. rewrite L. apply orb_true_r.
Qed.

Lemma le_value_4 (b0 b1 b2 b3 : byte) :
  to_uint32
    (Z.lor (Z.lor (Z.lor (byte.unsigned b0) (Z.shiftl (byte.unsigned b1) 8))
                  (Z.shiftl (byte.unsigned b2) 16))
           (Z.shiftl (byte.unsigned b3) 24))
  = le_combine [b0; b1; b2; b3].
Proof.
  pose proof (byte.unsigned_range b0). pose proof (byte.unsigned_range b1).
  pose proof (byte.unsigned_range b2). pose proof (byte.unsigned_range b3).
  change (le_combine [b0; b1; b2; b3])
    with (Z.lor (byte.unsigned b0)
            (Z.shiftl (Z.lor (byte.unsigned b1)
               (Z.shiftl (Z.lor (byte.unsigned b2)
                  (Z.shiftl (Z.lor (byte.unsigned b3) (Z.shiftl 0 8)) 8)) 8)) 8)).
  rewrite Z.shiftl_0_l, Z.lor_0_r.
  rewrite (lor_shiftl_add (byte.unsigned b0) (byte.unsigned b1) 8) by lia.
  rewrite (lor_shiftl_add _ (byte.unsigned b2) 16) by lia.
  rewrite (lor_shiftl_add _ (byte.unsigned b3) 24) by lia.
  rewrite (lor_shiftl_add (byte.unsigned b2) (byte.unsigned b3) 8) by lia.
  rewrite (lor_shiftl_add (byte.unsigned b1) _ 8) by lia.
  rewrite (lor_shiftl_add (byte.unsigned b0) _ 8) by lia.
  unfold to_uint32. rewrite wrap_small by lia. lia.
Qed.

Lemma read_le32_complete f bs tail :
  0 <= f_pos f ->
  skipn (Z.to_nat (f_pos f)) (f_data f) = bs ++ tail ->
  length bs = 4%nat ->
  read_le32 f
  = (le_combine bs, {| f_data := f_data f; f_pos := f_pos f + 4; f_eof := f_eof f |}).
Proof.
  intros Hpos Hskip Hlen. unfold read_le32.
  change 4 with (Z.of_nat 4). rewrite (fread_complete 4 f bs tail Hpos Hskip Hlen).
  rewrite Hlen. cbn [Z.eqb Z.of_nat Pos.of_succ_nat Pos.succ Pos.eqb].
  destruct bs as [|b0 [|b1 [|b2 [|b3 [|]]]]]; try discriminate Hlen.
  unfold byte_at. cbn [Z.to_nat Pos.to_nat Pos.iter_op Nat.add nth].
  now rewrite le_value_4.
Qed.

Lemma read_le32_short f :
  0 <= f_pos f ->
  Z.of_nat (length (f_data f)) - f_pos f < 4 ->
  fst (read_le32 f) = 0 /\ f_eof (snd (read_le32 f)) = true.
Proof.
  intros Hpos Hrem. unfold read_le32.
  destruct (fread_short 4 f ltac:(lia) Hpos Hrem) as [L E].
  destruct (fread 4 f) as [bytes f']. cbn [fst snd] in *.
  destruct (Z.eqb_spec (Z.of_nat (length bytes)) 4); [lia|]. now split.
Qed.

Lemma read_le32_data f : f_data (snd (read_le32 f)) = f_data f.
Proof. unfold read_le32. destruct (fread 4 f) eqn:E. 
  pose proof (fread_data 4 f) as D. rewrite E in D. cbn [snd] in D.
  now destruct (_ =? _). Qed.

Lemma read_le32_pos f : f_pos f <= f_pos (snd (read_le32 f)).
Proof. unfold read_le32. pose proof (fread_pos 4 f) as D.
  destruct (fread 4 f). cbn [snd] in D. now destruct (_ =? _). Qed.

Lemma read_le32_eof_mono f : f_eof f = true -> f_eof (snd (read_le32 f)) = true.
Proof. intros H. unfold read_le32. pose proof (fread_eof_mono 4 f H) as D.
  destruct (fread 4 f). cbn [snd] in D. now destruct (_ =? _). Qed.

Lemma read_le16_data f : f_data (snd (read_le16 f)) = f_data f.
Proof. unfold read_le16. destruct (fread 2 f) eqn:E. 
  pose proof (fread_data 2 f) as D. rewrite E in D. cbn [snd] in D.
  now destruct (_ =? _). Qed.

Lemma read_le16_pos f : f_pos f <= f_pos (snd (read_le16 f)).
Proof. unfold read_le16. pose proof (fread_pos 2 f) as D.
  destruct (fread 2 f). cbn [snd] in D. now destruct (_ =? _). Qed.

Lemma read_le16_eof_mono f : f_eof f = true -> f_eof (snd (read_le16 f)) = true.
Proof. intros H. unfold read_le16. pose proof (fread_eof_mono 2 f H) as D.
  destruct (fread 2 f). cbn [snd] in D. now destruct (_ =? _). Qed.

Lemma to_uint32_range x : 0 <= to_uint32 x < 2 ^ 32.
Proof. apply Z.mod_pos_bound. lia. Qed.

Lemma read_le32_range f : 0 <= fst (read_le32 f) < 2 ^ 32.
Proof.
  unfold read_le32. destruct (fread 4 f). destruct (_ =? _); cbn [fst].
  - apply to_uint32_range.
  - lia.
Qed.

Lemma fread_pos_exact n f :
  0 <= n -> 0 <= f_pos f ->
  f_pos (snd (fread n f)) = f_pos f + Z.min n (Z.max 0 (remaining f)).
Proof.
  intros Hn Hpos. unfold fread, remaining. cbn [snd f_pos].
  rewrite length_firstn, length_skipn. lia.
Qed.

Lemma read_le32_pos_exact f :
  0 <= f_pos f ->
  f_pos (snd (read_le32 f)) = f_pos f + Z.min 4 (Z.max 0 (remaining f)).
Proof.
  intros Hpos. unfold read_le32. pose proof (fread_pos_exact 4 f ltac:(lia) Hpos) as D.
  destruct (fread 4 f). cbn [snd] in D. now destruct (_ =? _).
Qed.

Lemma read_le32_eof_exact f :
  0 <= f_pos f -> 4 <= remaining f -> f_eof (snd (read_le32 f)) = f_eof f.
Proof.
  intros Hpos Hrem. unfold read_le32, fread, remaining in *. cbn [f_eof f_pos f_data].
  set (got := firstn _ _).
  assert (L : length got = 4%nat).
  { unfold got. rewrite length_firstn, length_skipn. lia. }
  rewrite L. cbn. apply orb_false_r.
Qed.

Lemma fseek_cur_forward off f :
  0 <= f_pos f -> 0 <= off ->
  fseek_cur off f = {| f_data := f_data f; f_pos := f_pos f + off; f_eof := false |}.
Proof.
  intros Hp Ho. unfold fseek_cur. destruct (Z.ltb_spec (f_pos f + off) 0); [lia|reflexivity].
Qed.

(** ** The chunk scanner: one iteration, and the fuel of the loop *)

Lemma scan_body_progress f w found_fmt f' w' found_fmt' :
  0 <= f_pos f ->
  scan_body f w found_fmt = Continue f' w' found_fmt' ->
  f_data f' = f_data f
  /\ f_pos f <= f_pos f'
  /\ (f_eof f' = true \/ (8 <= remaining f /\ f_pos f + 8 <= f_pos f')).
Proof.
  intros Hpos. unfold scan_body.
  pose proof (read_le32_data f) as D1. pose proof (read_le32_pos_exact f Hpos) as P1.
  pose proof (read_le32_range f) as R1.
  assert (S1 : remaining f < 4 -> fst (read_le32 f) = 0)
    by (intros H; now apply read_le32_short).
  destruct (read_le32 f) as [chunk_id f1]. cbn [fst snd] in *.
  assert (Hpos1 : 0 <= f_pos f1) by lia.
  pose proof (read_le32_data f1) as D2. pose proof (read_le32_pos_exact f1 Hpos1) as P2.
  pose proof (read_le32_range f1) as R2.
  assert (S2 : remaining f1 < 4 ->
               fst (read_le32 f1) = 0 /\ f_eof (snd (read_le32 f1)) = true)
    by (intros H; now apply read_le32_short).
  destruct (read_le32 f1) as [chunk_size f2]. cbn [fst snd] in *.
  assert (Hrem1 : remaining f1 = remaining f - Z.min 4 (Z.max 0 (remaining f)))
    by (unfold remaining in *; rewrite D1; lia).
  assert (Hpos2 : 0 <= f_pos f2) by lia.
  assert (Hcase : (8 <= remaining f /\ f_pos f2 = f_pos f + 8)
                  \/ (chunk_size = 0 /\ f_eof f2 = true)).
  { destruct (Z_le_gt_dec 8 (remaining f)) as [H8|H8].
    - left. split; [exact H8|]. lia.
    - right. apply S2. lia. }
  destruct (chunk_id =? FOURCC_FMT).
  - pose proof (read_le16_data f2) as D3. pose proof (read_le16_pos f2) as P3.
    pose proof (read_le16_eof_mono f2) as E3.
    destruct (read_le16 f2) as [format f3]. cbn [snd] in *.
    pose proof (read_le16_data f3) as D4. pose proof (read_le16_pos f3) as P4.
    pose proof (read_le16_eof_mono f3) as E4.
    destruct (read_le16 f3) as [channels f4]. cbn [snd] in *.
    pose proof (read_le32_data f4) as D5. pose proof (read_le32_pos f4) as P5.
    pose proof (read_le32_eof_mono f4) as E5.
    destruct (read_le32 f4) as [rate f5]. cbn [snd] in *.
    pose proof (read_le32_data f5) as D6. pose proof (read_le32_pos f5) as P6.
    pose proof (read_le32_eof_mono f5) as E6.
    destruct (read_le32 f5) as [byte_rate f6]. cbn [snd] in *.
    pose proof (read_le16_data f6) as D7. pose proof (read_le16_pos f6) as P7.
    pose proof (read_le16_eof_mono f6) as E7.
    destruct (read_le16 f6) as [block_align f7]. cbn [snd] in *.
    pose proof (read_le16_data f7) as D8. pose proof (read_le16_pos f7) as P8.
    pose proof (read_le16_eof_mono f7) as E8.
    destruct (read_le16 f7) as [bits f8]. cbn [snd] in *.
    intros [= <- _ _].
    destruct (Z.gtb_spec chunk_size 16) as [Hgt|Hle].
    + rewrite fseek_cur_forward by lia. cbn [f_data f_pos f_eof].
      split; [congruence|]. split; [lia|]. right.
      destruct Hcase as [[H8 Hp]|[Hz _]]; [split; lia | lia].
    + split; [congruence|]. split; [lia|].
      destruct Hcase as [[H8 Hp]|[_ He]]; [right; split; lia | left].
      apply E8, E7, E6, E5, E4, E3, He.
  - destruct (chunk_id =? FOURCC_DATA).
    + destruct (_ =? 0); discriminate.
    + intros [= <- _ _].
      destruct (Z.gtb_spec chunk_size 0) as [Hgt|Hle].
      * rewrite fseek_cur_forward by lia. cbn [f_data f_pos f_eof].
        split; [congruence|]. split; [lia|]. right.
        destruct Hcase as [[H8 Hp]|[Hz _]]; [split; lia | lia].
      * split; [congruence|]. split; [lia|].
        destruct Hcase as [[H8 Hp]|[_ He]]; [right; split; lia | left; auto].
Qed.


Lemma scan_fuel_enough n :
  forall f w found_fmt found_data,
    0 <= f_pos f ->
    (1 <= n)%nat ->
    (f_eof f = false -> 2 + Z.max 0 (remaining f) <= Z.of_nat n) ->
    scan_chunks n f w found_fmt found_data <> OutOfFuel.
Proof.
  induction n as [|n IH]; intros f w ff fd Hpos Hn Hfuel; [lia|].
  cbn [scan_chunks]. unfold feof.
  destruct (f_eof f) eqn:Eeof; cbn [negb andb]; [discriminate|].
  destruct (negb ff || negb fd); [|discriminate].
  destruct (scan_body f w ff) as [f' w' ff'|r] eqn:Ebody.
  - destruct (scan_body_progress _ _ _ _ _ _ Hpos Ebody) as (Hd & Hp & Hcase).
    specialize (Hfuel eq_refl).
    apply IH; [lia | lia |].
    intros Eeof'. destruct Hcase as [He|[H8 Hp8]]; [congruence|].
    unfold remaining in *. rewrite Hd. lia.
  - unfold scan_body in Ebody.
    destruct (read_le32 f) as [chunk_id f1]. destruct (read_le32 f1) as [chunk_size f2].
    destruct (chunk_id =? FOURCC_FMT).
    + destruct (read_le16 f2) as [? f3]. destruct (read_le16 f3) as [? f4].
      destruct (read_le32 f4) as [? f5]. destruct (read_le32 f5) as [? f6].
      destruct (read_le16 f6) as [? f7]. destruct (read_le16 f7) as [? f8].
      discriminate Ebody.
    + destruct (chunk_id =? FOURCC_DATA); [|discriminate Ebody].
      destruct (_ =? 0); injection Ebody as <-; discriminate.
Qed.

(** ** The chunk scanner: the same chunks, further into the file *)

Section Simulation.

Variables DA DB : list byte.
Variables base d : nat.
Hypothesis Hsuffix : skipn (base + d) DA = skipn base DB.









End Simulation.

(** ** The chunk scanner: unknown chunks before the container's own *)

Lemma chunk_bytes_len c :
  length (fst c) = 4%nat -> length (chunk_bytes c) = (8 + length (snd c))%nat.
Proof.
  intros H. unfold chunk_bytes. rewrite !length_app, length_le_split, H. lia.
Qed.

Lemma scan_body_unknown f w found_fmt c tail :
  0 <= f_pos f ->
  f_eof f = false ->
  unknown_chunk c ->
  skipn (Z.to_nat (f_pos f)) (f_data f) = chunk_bytes c ++ tail ->
  scan_body f w found_fmt
  = Continue {| f_data := f_data f;
                f_pos := f_pos f + Z.of_nat (length (chunk_bytes c));
                f_eof := false |} w found_fmt.
Proof.
  intros Hpos Heof (Htag & Hfmt & Hdata & Hsize) Hskip.
  unfold scan_body, chunk_bytes in *. rewrite <- !app_assoc in Hskip.
  rewrite (read_le32_complete f _ _ Hpos Hskip Htag).
  set (f1 := {| f_data := f_data f; f_pos := f_pos f + 4; f_eof := f_eof f |}).
  assert (Hskip1 : skipn (Z.to_nat (f_pos f1)) (f_data f1)
                   = le_split 4 (Z.of_nat (length (snd c))) ++ snd c ++ tail).
  { unfold f1. cbn [f_pos f_data].
    replace (Z.to_nat (f_pos f + 4)) with (4 + Z.to_nat (f_pos f))%nat by lia.
    rewrite <- skipn_skipn, Hskip, skipn_app, <- Htag, skipn_all, Nat.sub_diag.
    reflexivity. }
  rewrite (read_le32_complete f1 _ _ ltac:(unfold f1; cbn; lia) Hskip1
             (length_le_split 4 _)).
  rewrite le_combine_split.
  replace (Z.of_nat (length (snd c)) mod 2 ^ (Z.of_nat 4 * 8))
    with (Z.of_nat (length (snd c))) by (symmetry; apply Z.mod_small; simpl; lia).
  destruct (Z.eqb_spec (le_combine (fst c)) FOURCC_FMT) as [E|_]; [contradiction|].
  destruct (Z.eqb_spec (le_combine (fst c)) FOURCC_DATA) as [E|_]; [contradiction|].
  unfold f1. cbn [f_data f_pos f_eof].
  rewrite !length_app, length_le_split, Htag.
  destruct (Z.gtb_spec (Z.of_nat (length (snd c))) 0) as [Hgt|Hle].
  - rewrite fseek_cur_forward by (cbn [f_pos]; lia). cbn [f_data f_pos f_eof].
    do 2 f_equal. lia.
  - rewrite Heof. do 2 f_equal. lia.
Qed.



(** The three reads of the RIFF header, on a file that starts with the
    twelve bytes [pre]. *)
Lemma open_read_after_header pre body :
  length pre = 12%nat ->
  wav_enhanced_open_read (Some (fopen_rb (pre ++ body)))
  = if negb (le_combine (firstn 4 pre) =? FOURCC_RIFF) then Ret None
    else if negb (le_combine (firstn 4 (skipn 8 pre)) =? FOURCC_WAVE) then Ret None
    else
      finish_open
        (scan_chunks (S (S (length (pre ++ body))))
           {| f_data := pre ++ body; f_pos := 12; f_eof := false |}
           wav_zero false false).
Proof.
  intros Hlen. unfold wav_enhanced_open_read, fopen_rb.
  destruct pre as [|p0 [|p1 [|p2 [|p3 [|p4 [|p5 [|p6 [|p7 [|p8 [|p9 [|p10 [|p11 [|]]]]]]]]]]]]];
    try discriminate Hlen.
  set (D := [p0; p1; p2; p3; p4; p5; p6; p7; p8; p9; p10; p11] ++ body).
  rewrite (read_le32_complete {| f_data := D; f_pos := 0; f_eof := false |}
             [p0; p1; p2; p3] ([p4; p5; p6; p7; p8; p9; p10; p11] ++ body)
             ltac:(cbn; lia) eq_refl eq_refl).
  cbn [f_data f_pos f_eof firstn skipn].
  destruct (negb (le_combine [p0; p1; p2; p3] =? FOURCC_RIFF)); [reflexivity|].
  rewrite (read_le32_complete {| f_data := D; f_pos := 0 + 4; f_eof := false |}
             [p4; p5; p6; p7] ([p8; p9; p10; p11] ++ body)
             ltac:(cbn; lia) eq_refl eq_refl).
  cbn [f_data f_pos f_eof].
  rewrite (read_le32_complete {| f_data := D; f_pos := 0 + 4 + 4; f_eof := false |}
             [p8; p9; p10; p11] body ltac:(cbn; lia) eq_refl eq_refl).
  cbn [f_data f_pos f_eof].
  destruct (negb (le_combine [p8; p9; p10; p11] =? FOURCC_WAVE)); reflexivity.
Qed.






Lemma list_chunk_unknown : unknown_chunk list_chunk.
Proof.
  unfold unknown_chunk.
  split; [reflexivity|]. split; [|split].
  - vm_compute. intros H. discriminate H.
  - vm_compute. intros H. discriminate H.
  - reflexivity.
Defined.


(** An example: the 8000 Hz file opens with its data region at offset 44;
    with a LIST chunk of two payload bytes (ten bytes in all) inserted
    after the RIFF header the same region is found ten bytes further, at
    offset 54. Its length, the sample count and the origin format are
    unchanged. *)
Lemma inserted_chunk_moves_data_start :
  option_map (fun w => (data_start_pos w, data_size w, total_samples w,
                        original_sample_rate w, original_channels w,
                        original_bits_per_sample w, original_format w))
             (returned_handle (open_file steps_8000))
  = Some (44, 20, 10, 8000, 1, 16, 1)
  /\ option_map (fun w => (data_start_pos w, data_size w, total_samples w,
                           original_sample_rate w, original_channels w,
                           original_bits_per_sample w, original_format w))
                (returned_handle (open_file (insert_chunks steps_8000 [list_chunk])))
     = Some (54, 20, 10, 8000, 1, 16, 1).
Proof. split; vm_compute; reflexivity. Qed.

(** ** Termination of the fuelled loops *)

Lemma finish_open_terminates scanned :
  scanned <> OutOfFuel -> finish_open scanned <> OutOfFuel.
Proof.
  intros H. destruct scanned as [[[[f w] found_fmt] found_data]| |];
    [|discriminate|contradiction].
  unfold finish_open. destruct (negb found_fmt || negb found_data); discriminate.
Qed.

(** The budget of the scan is never exhausted: opening a file always ends
    in a handle, a null handle or a trap. *)
Lemma open_file_terminates content : open_file content <> OutOfFuel.
Proof.
  unfold open_file, wav_enhanced_open_read.
  set (f := fopen_rb content).
  pose proof (read_le32_data f) as D1. pose proof (read_le32_pos f) as P1.
  destruct (read_le32 f) as [riff_id f1]. cbn [snd] in *.
  destruct (negb (riff_id =? FOURCC_RIFF)); [discriminate|].
  pose proof (read_le32_data f1) as D2. pose proof (read_le32_pos f1) as P2.
  destruct (read_le32 f1) as [file_size f2]. cbn [snd] in *.
  pose proof (read_le32_data f2) as D3. pose proof (read_le32_pos f2) as P3.
  destruct (read_le32 f2) as [wave_id f3]. cbn [snd] in *.
  destruct (negb (wave_id =? FOURCC_WAVE)); [discriminate|].
  apply finish_open_terminates.
  assert (Hpos : 0 <= f_pos f3) by (unfold f, fopen_rb in P1; cbn [f_pos] in P1; lia).
  apply scan_fuel_enough; [exact Hpos | unfold scan_budget; lia |].
  intros _. unfold scan_budget, remaining. lia.
Qed.

Section DecodeTermination.
Variable CODEC2 : Type.
Variable codec2_create : Z -> option CODEC2.
Variable codec2_samples_per_frame : CODEC2 -> Z.
Variable codec2_bits_per_frame : CODEC2 -> Z.
Variable codec2_decode : CODEC2 -> list byte -> CODEC2 * list Z.

Lemma decode_loop_terminates (W : Type) (write_frame : W -> list Z -> Z -> W)
  bytes_per_frame samples_per_frame (fuel : nat) :
  0 < to_size_t bytes_per_frame ->
  forall input codec2 wav_out frames frames_decoded,
    0 <= f_pos input ->
    Z.max 0 (remaining input) < Z.of_nat fuel ->
    Decode.decode_loop CODEC2 codec2_decode W write_frame fuel bytes_per_frame
      samples_per_frame input codec2 wav_out frames frames_decoded
    <> OutOfFuel.
Proof.
  intros Hb. induction fuel as [|fuel IH]; intros input codec2 wav_out frames fd Hpos Hfuel.
  - lia.
  - cbn [Decode.decode_loop].
    pose proof (fread_pos_exact (to_size_t bytes_per_frame) input ltac:(lia) Hpos) as P.
    assert (L : Z.of_nat (length (fst (fread (to_size_t bytes_per_frame) input)))
                = Z.min (to_size_t bytes_per_frame) (Z.max 0 (remaining input))).
    { unfold fread, remaining. cbn [fst]. rewrite length_firstn, length_skipn. lia. }
    pose proof (fread_data (to_size_t bytes_per_frame) input) as D.
    destruct (fread (to_size_t bytes_per_frame) input) as [codec2_bits input'].
    cbn [fst snd] in *.
    destruct (Z.eqb_spec (Z.of_nat (length codec2_bits)) (to_size_t bytes_per_frame));
      [|discriminate].
    destruct (codec2_decode codec2 codec2_bits) as [codec2' speech_samples].
    apply IH; [lia|]. unfold remaining in *. rewrite D. lia.
Qed.

Lemma bytes_per_frame_size_t bits_per_frame :
  int_div (to_int (bits_per_frame + 7)) 8 <> 0 ->
  0 < to_size_t (int_div (to_int (bits_per_frame + 7)) 8).
Proof.
  intros H. unfold int_div in *.
  pose proof (swrap_range 32 (Z.quot (to_int (bits_per_frame + 7)) 8) ltac:(lia)) as R.
  fold (to_int (Z.quot (to_int (bits_per_frame + 7)) 8)) in R.
  set (b := to_int (Z.quot (to_int (bits_per_frame + 7)) 8)) in *.
  change (2 ^ (32 - 1)) with (2 ^ 31) in R.
  unfold to_size_t, wrap.
  destruct (Z_lt_ge_dec b 0).
  - replace b with (b + 2 ^ 64 + (-1) * 2 ^ 64) by lia.
    rewrite Z.mod_add by lia. rewrite Z.mod_small; lia.
  - rewrite Z.mod_small; lia.
Qed.

Lemma read_header_input content codec2 samples_per_frame bits_per_frame input1 :
  Decode.read_header CODEC2 codec2_create codec2_samples_per_frame
    codec2_bits_per_frame (fopen_rb content)
  = Some (codec2, samples_per_frame, bits_per_frame, input1) ->
  f_data input1 = content /\ 0 <= f_pos input1.
Proof.
  unfold Decode.read_header.
  pose proof (fread_data 16 (fopen_rb content)) as D.
  pose proof (fread_pos 16 (fopen_rb content)) as P.
  destruct (fread 16 (fopen_rb content)) as [header input']. cbn [snd] in *.
  destruct (negb (Z.of_nat (length header) / 4 =? 4)); [discriminate|].
  destruct (negb (load 4 header 0 =? Decode.C2C2_MAGIC)); [discriminate|].
  destruct (codec2_create _) as [c|]; [|discriminate].
  destruct (negb _ || negb _); [discriminate|].
  intros [= _ _ _ <-]. split; [exact D | exact P].
Qed.

Lemma decode_input_rewound input1 :
  0 <= f_pos input1 ->
  fseek_set (ftell input1) (fseek_set (Z.of_nat (length (f_data input1))) input1)
  = {| f_data := f_data input1; f_pos := f_pos input1; f_eof := false |}.
Proof.
  intros H. unfold fseek_set, ftell.
  destruct (Z.ltb_spec (Z.of_nat (length (f_data input1))) 0); [lia|].
  cbn [f_data f_pos]. destruct (Z.ltb_spec (f_pos input1) 0); [lia|]. reflexivity.
Qed.

(** The budget of the decode loop is never exhausted: the two drivers
    always end, in an exit status or in a trap. *)
Lemma decode_drivers_terminate content fopen_output :
  Decode.codec2_decode_enhanced_main CODEC2 codec2_create codec2_samples_per_frame
    codec2_bits_per_frame codec2_decode (Some (fopen_rb content)) fopen_output
  <> OutOfFuel
  /\ Decode.codec2_decode_main CODEC2 codec2_create codec2_samples_per_frame
       codec2_bits_per_frame codec2_decode (Some (fopen_rb content)) fopen_output
     <> OutOfFuel.
Proof.
  unfold Decode.codec2_decode_enhanced_main, Decode.codec2_decode_main.
  destruct (Decode.read_header _ _ _ _ _) as [[[[codec2 spf] bits] input1]|] eqn:Eh;
    [|split; discriminate].
  destruct (read_header_input _ _ _ _ _ Eh) as [Hd Hp].
  rewrite (decode_input_rewound input1 Hp).
  set (input2 := {| f_data := f_data input1; f_pos := f_pos input1; f_eof := false |}).
  destruct (Z.eqb_spec (int_div (to_int (bits + 7)) 8) 0) as [E|Hne]; [split; discriminate|].
  pose proof (bytes_per_frame_size_t bits Hne) as Hb.
  assert (Hfuel : Z.max 0 (remaining input2) < Z.of_nat (Decode.decode_budget input2)).
  { unfold remaining, Decode.decode_budget, input2. cbn [f_data f_pos]. lia. }
  split.
  - destruct (_ =? 0); [discriminate|].
    destruct (wav_enhanced_open_write fopen_output) as [wav_out|]; [|discriminate].
    destruct (malloc_fails _ || malloc_fails _); [discriminate|].
    pose proof (decode_loop_terminates (option wav_enhanced_t)
                  (fun w speech n =>
                     snd (wav_enhanced_write_samples w (Some speech) (to_uint32 n)))
                  (int_div (to_int (bits + 7)) 8) spf (Decode.decode_budget input2) Hb
                  input2 codec2 (Some wav_out) [] 0 Hp Hfuel) as T.
    destruct (Decode.decode_loop _ _ _ _ _ _ _ _ _ _ _ _) as [[[? ?] ?]| |];
      [discriminate | discriminate | contradiction].
  - destruct (WavUtil.wav_open_write fopen_output 8000 1 16) as [wav_out|]; [|discriminate].
    destruct (malloc_fails _ || malloc_fails _); [discriminate|].
    pose proof (decode_loop_terminates (option WavUtil.wav_file_t)
                  (fun w speech n =>
                     snd (WavUtil.wav_write_samples w (Some speech) (to_uint32 n)))
                  (int_div (to_int (bits + 7)) 8) spf (Decode.decode_budget input2) Hb
                  input2 codec2 (Some wav_out) [] 0 Hp Hfuel) as T.
    destruct (Decode.decode_loop _ _ _ _ _ _ _ _ _ _ _ _) as [[[? ?] ?]| |];
      [discriminate | discriminate | contradiction].
Qed.

End DecodeTermination.

(** * Further properties *)

Import Containers.

(** ** Little-endian fields written and read back *)

Lemma fwrite_data_at bs f :
  0 <= f_pos f ->
  skipn (Z.to_nat (f_pos f)) (f_data (fwrite bs f))
  = bs ++ skipn (Z.to_nat (f_pos f) + length bs) (f_data f).
Proof.
  intros Hpos. unfold fwrite. cbn [f_data].
  set (p := Z.to_nat (f_pos f)).
  rewrite skipn_app.
  assert (L : length (firstn p (f_data f) ++ repeat Byte.x00 (p - length (f_data f))) = p).
  { rewrite length_app, length_firstn, repeat_length. lia. }
  rewrite skipn_all2 by lia. rewrite L, Nat.sub_diag. reflexivity.
Qed.

Lemma le_value_2 (b0 b1 : byte) :
  to_uint16 (Z.lor (byte.unsigned b0) (Z.shiftl (byte.unsigned b1) 8))
  = le_combine [b0; b1].
Proof.
  pose proof (byte.unsigned_range b0). pose proof (byte.unsigned_range b1).
  change (le_combine [b0; b1])
    with (Z.lor (byte.unsigned b0)
            (Z.shiftl (Z.lor (byte.unsigned b1) (Z.shiftl 0 8)) 8)).
  rewrite Z.shiftl_0_l, Z.lor_0_r.
  rewrite (lor_shiftl_add (byte.unsigned b0) (byte.unsigned b1) 8) by lia.
  unfold to_uint16. rewrite wrap_small by lia. lia.
Qed.

Lemma read_le16_complete f bs tail :
  0 <= f_pos f ->
  skipn (Z.to_nat (f_pos f)) (f_data f) = bs ++ tail ->
  length bs = 2%nat ->
  read_le16 f
  = (le_combine bs, {| f_data := f_data f; f_pos := f_pos f + 2; f_eof := f_eof f |}).
Proof.
  intros Hpos Hskip Hlen. unfold read_le16.
  change 2 with (Z.of_nat 2). rewrite (fread_complete 2 f bs tail Hpos Hskip Hlen).
  rewrite Hlen. cbn [Z.eqb Z.of_nat Pos.of_succ_nat Pos.succ Pos.eqb].
  destruct bs as [|b0 [|b1 [|]]]; try discriminate Hlen.
  unfold byte_at. cbn [Z.to_nat Pos.to_nat Pos.iter_op Nat.add nth].
  now rewrite le_value_2.
Qed.

(** X1. A field written by [write_le32] or [write_le16] at any position of
    a stream and read back from that position by [read_le32] or
    [read_le16] is the value written, reduced to 32 or 16 bits; the read
    leaves the stream just after the field, its end-of-file indicator
    clear. *)
Theorem le_fields_read_back :
  forall (f : FILE) (value : Z),
    0 <= f_pos f ->
    read_le32 (fseek_set (f_pos f) (write_le32 value f))
    = (to_uint32 value,
       {| f_data := f_data (write_le32 value f); f_pos := f_pos f + 4; f_eof := false |})
    /\ read_le16 (fseek_set (f_pos f) (write_le16 value f))
       = (to_uint16 value,
          {| f_data := f_data (write_le16 value f); f_pos := f_pos f + 2; f_eof := false |}).
Proof.
  intros f value Hpos. unfold fseek_set.
  destruct (Z.ltb_spec (f_pos f) 0) as [Hneg|_]; [lia|].
  split.
  - rewrite (read_le32_complete _ (le32_bytes value)
               (skipn (Z.to_nat (f_pos f) + 4) (f_data f))); cbn [f_pos f_data f_eof].
    + rewrite le32_bytes_split, le_combine_split. reflexivity.
    + exact Hpos.
    + unfold write_le32. now rewrite fwrite_data_at.
    + reflexivity.
  - rewrite (read_le16_complete _ (le16_bytes value)
               (skipn (Z.to_nat (f_pos f) + 2) (f_data f))); cbn [f_pos f_data f_eof].
    + rewrite le16_bytes_split, le_combine_split. reflexivity.
    + exact Hpos.
    + unfold write_le16. now rewrite fwrite_data_at.
    + reflexivity.
Qed.

Lemma le_fields_read_back_witness :
  read_le32 (fseek_set 2 (write_le32 0x1234567890
                            {| f_data := [Byte.x01]; f_pos := 2; f_eof := true |}))
  = (to_uint32 0x1234567890,
     {| f_data := f_data (write_le32 0x1234567890
                            {| f_data := [Byte.x01]; f_pos := 2; f_eof := true |});
        f_pos := 2 + 4; f_eof := false |})
  /\ read_le16 (fseek_set 2 (write_le16 0x12345
                            {| f_data := [Byte.x01]; f_pos := 2; f_eof := true |}))
     = (to_uint16 0x12345,
        {| f_data := f_data (write_le16 0x12345
                            {| f_data := [Byte.x01]; f_pos := 2; f_eof := true |});
           f_pos := 2 + 2; f_eof := false |}).
Proof.
  split.
  - apply (proj1 (le_fields_read_back
                    {| f_data := [Byte.x01]; f_pos := 2; f_eof := true |} 0x1234567890
                    ltac:(cbn; lia))).
  - apply (proj2 (le_fields_read_back
                    {| f_data := [Byte.x01]; f_pos := 2; f_eof := true |} 0x12345
                    ltac:(cbn; lia))).
Defined.

(** ** The sample decoder: what it stores *)

Lemma downmix_length value samples channels :
  length (downmix value samples channels) = Z.to_nat samples.
Proof. unfold downmix. now rewrite length_map, zrange_length. Qed.

Lemma downmix_range value samples channels :
  Forall (fun v => - 32768 <= v <= 32767) (downmix value samples channels).
Proof.
  unfold downmix. apply Forall_forall. intros v Hin.
  apply in_map_iff in Hin. destruct Hin as (i & <- & _).
  pose proof (to_short_range (int_div (channel_sum value i channels) channels)). lia.
Qed.

(** ** Values laid out little-endian and loaded again *)

Lemma map_nth_prefix (bs rest : list byte) (off : nat) (pre : list byte) :
  length pre = off ->
  map (fun j => nth (off + j) (pre ++ bs ++ rest) Byte.x00) (seq 0 (length bs)) = bs.
Proof.
  intros <-. revert pre. induction bs as [|b bs IH]; intros pre; [reflexivity|].
  cbn [length seq map]. f_equal.
  - rewrite Nat.add_0_r, app_nth2, Nat.sub_diag by lia. reflexivity.
  - rewrite <- seq_shift, map_map.
    specialize (IH (pre ++ [b])). rewrite <- app_assoc in IH. cbn [app] in IH.
    rewrite <- IH at 2. apply map_ext. intros j. rewrite length_app. cbn [length].
    f_equal. lia.
Qed.

Lemma load_le_split (n : nat) (l : list Z) (k : nat) :
  (k < length l)%nat ->
  load n (flat_map (le_split n) l) (Z.of_nat (n * k))
  = nth k l 0 mod 2 ^ (Z.of_nat n * 8).
Proof.
  intros Hk. unfold load. rewrite Nat2Z.id.
  assert (Hs : exists s tl, skipn k l = s :: tl /\ nth k l 0 = s).
  { clear - Hk. revert k Hk. induction l as [|a l IH]; intros k Hk; [cbn in Hk; lia|].
    destruct k as [|k]; [now exists a, l|]. cbn [length] in Hk.
    destruct (IH k ltac:(lia)) as (s & tl & E & N). now exists s, tl. }
  destruct Hs as (s & tl & Eskip & Enth). rewrite Enth.
  replace (flat_map (le_split n) l)
    with (flat_map (le_split n) (firstn k l) ++ le_split n s ++ flat_map (le_split n) tl)
    by (change (le_split n s ++ flat_map (le_split n) tl)
          with (flat_map (le_split n) (s :: tl));
        rewrite <- flat_map_app, <- Eskip, firstn_skipn; reflexivity).
  pose proof (map_nth_prefix (le_split n s) (flat_map (le_split n) tl) (n * k)
                (flat_map (le_split n) (firstn k l))) as M.
  rewrite length_le_split in M. rewrite M.
  - apply le_combine_split.
  - clear - Hk. assert (L : length (firstn k l) = k) by (rewrite length_firstn; lia).
    revert L. generalize (firstn k l). clear. intros p <-.
    induction p as [|a p IH]; [cbn; lia|].
    cbn [flat_map length]. rewrite length_app, length_le_split, IH. lia.
Qed.

(** ** Samples laid out in memory and decoded again *)

Lemma sample_16_shorts (l : list Z) (k : Z) :
  0 <= k < Z.of_nat (length l) ->
  sample_16 (shorts_bytes l) k = to_short (short_at l k).
Proof.
  intros Hk. unfold sample_16, short_at.
  replace (2 * k) with (Z.of_nat (2 * Z.to_nat k)) by lia.
  change (shorts_bytes l) with (flat_map (le_split 2) l).
  rewrite load_le_split by lia.
  unfold to_short, swrap. f_equal.
  change (2 ^ (16 - 1)) with 32768. change (2 ^ (Z.of_nat 2 * 8)) with 65536.
  change (2 ^ 16) with 65536.
  rewrite Zplus_mod_idemp_l. reflexivity.
Qed.

Lemma channel_sum_mono value i :
  - 2 ^ 31 <= value i < 2 ^ 31 -> channel_sum value i 1 = value i.
Proof.
  intros H. unfold channel_sum. change (zrange 1) with [0]. cbn [fold_left].
  rewrite Z.mul_1_r, Z.add_0_r, Z.add_0_l.
  now apply to_int_small.
Qed.

Lemma downmix_mono value samples :
  (forall k, - 32768 <= value k <= 32767) ->
  downmix value samples 1 = map value (zrange samples).
Proof.
  intros H. unfold downmix. apply map_ext. intros i.
  rewrite channel_sum_mono by (specialize (H i); lia).
  unfold int_div. rewrite Z.quot_1_r.
  rewrite to_int_small by (specialize (H i); lia).
  apply to_short_small. specialize (H i). lia.
Qed.

Lemma stored_shorts_mono (l : list Z) :
  stored_by_convert (shorts_bytes l) (Z.of_nat (length l)) 16 1 = map to_short l
  /\ (Forall (fun v => - 32768 <= v <= 32767) l ->
      stored_by_convert (shorts_bytes l) (Z.of_nat (length l)) 16 1 = l).
Proof.
  assert (E : stored_by_convert (shorts_bytes l) (Z.of_nat (length l)) 16 1
              = map to_short l).
  { unfold stored_by_convert. cbn [Z.eqb Pos.eqb].
    rewrite downmix_mono by apply sample_16_range.
    rewrite <- (read_buffer_all l) at 3. rewrite map_map.
    apply map_ext_in. intros k Hk. apply in_map_iff in Hk.
    destruct Hk as (n & <- & Hn). apply in_seq in Hn.
    rewrite Nat2Z.id in Hn. apply sample_16_shorts. lia. }
  split; [exact E|]. intros Hall. rewrite E.
  rewrite <- (map_id l) at 2. apply map_ext_in. intros v Hv.
  rewrite Forall_forall in Hall. apply to_short_small. specialize (Hall v Hv). lia.
Qed.

Lemma convert_shorts_mono (l : list Z) :
  convert_to_16bit (shorts_bytes l) (Z.of_nat (length l)) 16 1 = Ret (map to_short l)
  /\ (Forall (fun v => - 32768 <= v <= 32767) l ->
      convert_to_16bit (shorts_bytes l) (Z.of_nat (length l)) 16 1 = Ret l).
Proof.
  rewrite convert_returns by lia.
  destruct (stored_shorts_mono l) as [E1 E2].
  split; [now rewrite E1|]. intros H. now rewrite (E2 H).
Qed.

(** X3. A mono 16-bit buffer goes through [convert_to_16bit] unchanged:
    decoding the bytes of an array of [short]s, as the host lays them out,
    gives the array back (each value reduced to 16 bits, which leaves a
    [short] as it is). *)
Theorem mono_16bit_conversion_is_identity :
  forall l : list Z,
    convert_to_16bit (shorts_bytes l) (Z.of_nat (length l)) 16 1 = Ret (map to_short l)
    /\ (Forall (fun v => - 32768 <= v <= 32767) l ->
        convert_to_16bit (shorts_bytes l) (Z.of_nat (length l)) 16 1 = Ret l).
Proof. exact convert_shorts_mono. Qed.

Lemma mono_16bit_conversion_is_identity_witness :
  convert_to_16bit (shorts_bytes [1; -2; 300]) (Z.of_nat (length [1; -2; 300])) 16 1
  = Ret [1; -2; 300].
Proof.
  apply (proj2 (mono_16bit_conversion_is_identity [1; -2; 300])).
  repeat constructor; lia.
Defined.

Lemma sample24_bytes_split s : sample24_bytes s = le_split 3 s.
Proof.
  unfold sample24_bytes. cbv [le_split]. rewrite !byte_of_Z_land.
  reflexivity.
Qed.

(** ** The 24-bit case: the sign extension *)

Lemma load_3_bytes input k :
  0 <= k ->
  load 3 input (3 * k)
  = byte_at input (k * 3) + byte_at input (k * 3 + 1) * 2 ^ 8
    + byte_at input (k * 3 + 2) * 2 ^ 16.
Proof.
  intros Hk. unfold load, byte_at. cbn [seq map].
  replace (Z.to_nat (k * 3)) with (Z.to_nat (3 * k) + 0)%nat by lia.
  replace (Z.to_nat (k * 3 + 1)) with (Z.to_nat (3 * k) + 1)%nat by lia.
  replace (Z.to_nat (k * 3 + 2)) with (Z.to_nat (3 * k) + 2)%nat by lia.
  set (b0 := nth _ _ _). set (b1 := nth _ _ _). set (b2 := nth _ _ _).
  pose proof (byte.unsigned_range b0). pose proof (byte.unsigned_range b1).
  pose proof (byte.unsigned_range b2).
  change (le_combine [b0; b1; b2])
    with (Z.lor (byte.unsigned b0)
            (Z.shiftl (Z.lor (byte.unsigned b1)
               (Z.shiftl (Z.lor (byte.unsigned b2) (Z.shiftl 0 8)) 8)) 8)).
  rewrite Z.shiftl_0_l, Z.lor_0_r.
  rewrite (lor_shiftl_add (byte.unsigned b1) (byte.unsigned b2) 8) by lia.
  rewrite (lor_shiftl_add (byte.unsigned b0) _ 8) by lia.
  lia.
Qed.

Lemma sample_24_value input k :
  0 <= k -> sample_24 input k = swrap 24 (load 3 input (3 * k)) / 256.
Proof.
  intros Hk. rewrite load_3_bytes by exact Hk.
  unfold sample_24. cbv zeta.
  pose proof (byte_at_range input (k * 3)) as B0.
  pose proof (byte_at_range input (k * 3 + 1)) as B1.
  pose proof (byte_at_range input (k * 3 + 2)) as B2.
  rewrite (lor_shiftl_add (byte_at input (k * 3))) by lia.
  rewrite lor_shiftl_add by lia.
  set (s := byte_at input (k * 3) + byte_at input (k * 3 + 1) * 2 ^ 8
            + byte_at input (k * 3 + 2) * 2 ^ 16).
  assert (Hs : 0 <= s < 2 ^ 24) by (unfold s; lia).
  assert (Hbit : Z.b2z (Z.testbit s 23) = s / 2 ^ 23).
  { rewrite Z.testbit_spec' by lia. apply Z.mod_small.
    split; [apply Z.div_pos; lia | apply Z.div_lt_upper_bound; lia]. }
  assert (Hland : Z.land s 8388608 = 0 <-> Z.testbit s 23 = false).
  { split; intros E.
    - apply (f_equal (fun z => Z.testbit z 23)) in E.
      rewrite Z.land_spec, Z.bits_0 in E.
      change (Z.testbit 8388608 23) with true in E. now rewrite andb_true_r in E.
    - apply Z.bits_inj'. intros i Hi. rewrite Z.land_spec, Z.bits_0.
      destruct (Z.eq_dec i 23) as [->|Hne]; [now rewrite E|].
      change 8388608 with (2 ^ 23). rewrite Z.pow2_bits_false by lia.
      apply andb_false_r. }
  rewrite Z.shiftr_div_pow2 by lia. change (2 ^ 8) with 256.
  destruct (Z.eqb_spec (Z.land s 8388608) 0) as [E|E].
  - apply Hland in E. rewrite E in Hbit. simpl in Hbit.
    assert (s < 2 ^ 23).
    { destruct (Z_lt_ge_dec s (2 ^ 23)); [assumption|].
      assert (1 <= s / 2 ^ 23) by (apply Z.div_le_lower_bound; lia). lia. }
    rewrite swrap_small by (simpl; lia). reflexivity.
  - assert (T23 : Z.testbit s 23 = true).
    { destruct (Z.testbit s 23) eqn:T; [reflexivity|]. exfalso. apply E, Hland, eq_refl. }
    rewrite T23 in Hbit. simpl in Hbit.
    assert (2 ^ 23 <= s).
    { destruct (Z_lt_ge_dec s (2 ^ 23)); [|lia].
      rewrite Z.div_small in Hbit by lia. lia. }
    assert (L : Z.lor s 4278190080 = s + 255 * 2 ^ 24).
    { change 4278190080 with (Z.shiftl 255 24). apply lor_shiftl_add; lia. }
    rewrite L.
    assert (T : to_int (s + 255 * 2 ^ 24) = s - 2 ^ 24).
    { unfold to_int, swrap.
      replace (s + 255 * 2 ^ 24 + 2 ^ (32 - 1)) with (s - 2 ^ 24 + 2 ^ 31 + 1 * 2 ^ 32) by lia.
      rewrite Z.mod_add by lia. rewrite Z.mod_small by lia. lia. }
    rewrite T. f_equal. unfold swrap.
    replace (s + 2 ^ (24 - 1)) with (s - 2 ^ 23 + 1 * 2 ^ 24) by lia.
    rewrite Z.mod_add by lia. rewrite Z.mod_small by lia. lia.
Qed.

Lemma swrap_mod w x : 0 < w -> swrap w (x mod 2 ^ w) = swrap w x.
Proof.
  intros Hw. unfold swrap. f_equal. rewrite Zplus_mod_idemp_l. reflexivity.
Qed.

(** X4. The 24-bit case of the sample decoder reads the three bytes of a
    sample as a little-endian two's-complement number and drops its low
    byte: the per-channel value is that signed 24-bit number divided by
    256, rounded down. In particular the three bytes that
    [create_48khz_mono_24bit] writes for a sample decode to that sample
    divided by 256, rounded down. *)
Theorem sample_24_is_signed_high_part :
  forall (input : list byte) (k : Z),
    0 <= k ->
    sample_24 input k = swrap 24 (load 3 input (3 * k)) / 256
    /\ forall l : list Z,
         k < Z.of_nat (length l) ->
         - 2 ^ 23 <= short_at l k < 2 ^ 23 ->
         sample_24 (flat_map sample24_bytes l) k = short_at l k / 256.
Proof.
  intros input k Hk. split; [now apply sample_24_value|].
  intros l Hlen Hrange. rewrite sample_24_value by exact Hk.
  replace (flat_map sample24_bytes l) with (flat_map (le_split 3) l)
    by (apply flat_map_ext; intros; symmetry; apply sample24_bytes_split).
  replace (3 * k) with (Z.of_nat (3 * Z.to_nat k)) by lia.
  rewrite load_le_split by lia.
  change (Z.of_nat 3 * 8) with 24. rewrite swrap_mod by lia.
  unfold short_at in *. rewrite swrap_small by (simpl; lia). reflexivity.
Qed.

Lemma sample_24_is_signed_high_part_witness :
  sample_24 [Byte.x00; Byte.x00; Byte.x80] 0
  = swrap 24 (load 3 [Byte.x00; Byte.x00; Byte.x80] (3 * 0)) / 256
  /\ forall l : list Z,
       0 < Z.of_nat (length l) ->
       - 2 ^ 23 <= short_at l 0 < 2 ^ 23 ->
       sample_24 (flat_map sample24_bytes l) 0 = short_at l 0 / 256.
Proof. apply (sample_24_is_signed_high_part [Byte.x00; Byte.x00; Byte.x80] 0). lia. Defined.

(** ** The two down-mixers *)

Lemma short_at_range (l : list Z) (k : Z) :
  Forall (fun v => - 32768 <= v <= 32767) l -> - 32768 <= short_at l k <= 32767.
Proof.
  intros Hall. unfold short_at.
  destruct (nth_in_or_default (Z.to_nat k) l 0) as [Hin | ->]; [|lia].
  rewrite Forall_forall in Hall. now apply Hall.
Qed.

(** X5. On interleaved 16-bit stereo the two down-mixers agree:
    [stereo_to_mono] stores what [convert_to_16bit] stores for the same
    samples read as bytes with two channels. *)
Theorem stereo_to_mono_agrees_with_decoder :
  forall (stereo : list Z) (samples : Z),
    Forall (fun v => - 32768 <= v <= 32767) stereo ->
    2 * samples <= Z.of_nat (length stereo) ->
    convert_to_16bit (shorts_bytes stereo) samples 16 2
    = Ret (stereo_to_mono stereo samples).
Proof.
  intros stereo samples Hall Hlen.
  unfold convert_to_16bit. cbn [Z.eqb Pos.eqb].
  rewrite convert_frames_runs by lia. f_equal.
  unfold stereo_to_mono, downmix.
  apply map_ext_in. intros i Hi. apply in_map_iff in Hi.
  destruct Hi as (n & <- & Hn). apply in_seq in Hn.
  assert (Hi : 0 <= Z.of_nat n < samples) by lia.
  unfold channel_sum. change (zrange 2) with [0; 1]. cbn [fold_left].
  rewrite Z.add_0_l, Z.add_0_r.
  rewrite !sample_16_shorts by lia.
  pose proof (short_at_range stereo (Z.of_nat n * 2) Hall) as R0.
  pose proof (short_at_range stereo (Z.of_nat n * 2 + 1) Hall) as R1.
  rewrite (to_short_small (short_at stereo (Z.of_nat n * 2))) by lia.
  rewrite (to_short_small (short_at stereo (Z.of_nat n * 2 + 1))) by lia.
  rewrite (to_int_small (short_at stereo (Z.of_nat n * 2))) by lia.
  reflexivity.
Qed.

Lemma stereo_to_mono_agrees_with_decoder_witness :
  convert_to_16bit (shorts_bytes [100; -101; 7; 8]) 2 16 2
  = Ret (stereo_to_mono [100; -101; 7; 8] 2).
Proof.
  apply stereo_to_mono_agrees_with_decoder.
  - repeat constructor; lia.
  - cbn. lia.
Defined.

(** ** The chunk scanner: format and data chunks *)

Lemma load_slice (n off : nat) (buf : list byte) :
  (off + n <= length buf)%nat ->
  load n buf (Z.of_nat off) = le_combine (firstn n (skipn off buf)).
Proof.
  intros H. unfold load. rewrite Nat2Z.id. f_equal.
  set (mid := firstn n (skipn off buf)).
  assert (L : length mid = n)
    by (unfold mid; rewrite length_firstn, length_skipn; lia).
  assert (E : buf = firstn off buf ++ mid ++ skipn n (skipn off buf))
    by (unfold mid; now rewrite !firstn_skipn).
  pose proof (map_nth_prefix mid (skipn n (skipn off buf)) off (firstn off buf)
                ltac:(rewrite length_firstn; lia)) as M.
  rewrite <- E, L in M. exact M.
Qed.

(** Moving a stream past bytes it has read. *)
Lemma skipn_past (data bs tail : list byte) (pos : Z) (k : nat) :
  0 <= pos ->
  skipn (Z.to_nat pos) data = bs ++ tail ->
  length bs = k ->
  skipn (Z.to_nat (pos + Z.of_nat k)) data = tail.
Proof.
  intros Hpos Hskip <-.
  replace (Z.to_nat (pos + Z.of_nat (length bs))) with (length bs + Z.to_nat pos)%nat by lia.
  rewrite <- skipn_skipn, Hskip, skipn_app, skipn_all, Nat.sub_diag. reflexivity.
Qed.

Lemma scan_body_fmt f w found_fmt c tail :
  0 <= f_pos f ->
  f_eof f = false ->
  length (fst c) = 4%nat ->
  le_combine (fst c) = FOURCC_FMT ->
  (16 <= length (snd c))%nat ->
  Z.of_nat (length (snd c)) < 2 ^ 32 ->
  skipn (Z.to_nat (f_pos f)) (f_data f) = chunk_bytes c ++ tail ->
  scan_body f w found_fmt
  = Continue {| f_data := f_data f;
                f_pos := f_pos f + Z.of_nat (length (chunk_bytes c));
                f_eof := false |} (fmt_of (snd c) w) true.
Proof.
  intros Hpos Heof Htag Hfmt H16 Hsize Hskip.
  destruct c as [tag payload]. cbn [fst snd] in *.
  unfold chunk_bytes in *. cbn [fst snd] in *. rewrite <- !app_assoc in Hskip.
  set (q0 := firstn 2 payload).
  set (q1 := firstn 2 (skipn 2 payload)).
  set (q2 := firstn 4 (skipn 4 payload)).
  set (q3 := firstn 4 (skipn 8 payload)).
  set (q4 := firstn 2 (skipn 12 payload)).
  set (q5 := firstn 2 (skipn 14 payload)).
  set (ext := skipn 16 payload).
  assert (Epay : payload = q0 ++ q1 ++ q2 ++ q3 ++ q4 ++ q5 ++ ext).
  { unfold q0, q1, q2, q3, q4, q5, ext.
    rewrite <- (firstn_skipn 2 payload) at 1. f_equal.
    rewrite <- (firstn_skipn 2 (skipn 2 payload)) at 1. f_equal.
    rewrite skipn_skipn. cbn [Nat.add].
    rewrite <- (firstn_skipn 4 (skipn 4 payload)) at 1. f_equal.
    rewrite skipn_skipn. cbn [Nat.add].
    rewrite <- (firstn_skipn 4 (skipn 8 payload)) at 1. f_equal.
    rewrite skipn_skipn. cbn [Nat.add].
    rewrite <- (firstn_skipn 2 (skipn 12 payload)) at 1. f_equal.
    rewrite skipn_skipn. cbn [Nat.add].
    rewrite <- (firstn_skipn 2 (skipn 14 payload)) at 1. f_equal.
    rewrite skipn_skipn. reflexivity. }
  assert (L0 : length q0 = 2%nat) by (unfold q0; rewrite length_firstn; lia).
  assert (L1 : length q1 = 2%nat) by (unfold q1; rewrite length_firstn, length_skipn; lia).
  assert (L2 : length q2 = 4%nat) by (unfold q2; rewrite length_firstn, length_skipn; lia).
  assert (L3 : length q3 = 4%nat) by (unfold q3; rewrite length_firstn, length_skipn; lia).
  assert (L4 : length q4 = 2%nat) by (unfold q4; rewrite length_firstn, length_skipn; lia).
  assert (L5 : length q5 = 2%nat) by (unfold q5; rewrite length_firstn, length_skipn; lia).
  assert (Lext : length ext = (length payload - 16)%nat)
    by (unfold ext; apply length_skipn).
  assert (Efmt : fmt_of payload w
                 = set_original (le_combine q0) (le_combine q1) (le_combine q2)
                     (le_combine q5) w).
  { unfold fmt_of, q0, q1, q2, q5.
    rewrite <- (load_slice 2 2 payload), <- (load_slice 4 4 payload),
      <- (load_slice 2 14 payload) by lia.
    change (firstn 2 payload) with (firstn 2 (skipn 0 payload)).
    rewrite <- (load_slice 2 0 payload) by lia. reflexivity. }
  rewrite Efmt. clear Efmt.
  rewrite Epay in Hskip. rewrite <- !app_assoc in Hskip.
  unfold scan_body.
  rewrite (read_le32_complete f _ _ Hpos Hskip Htag).
  pose proof (skipn_past _ _ _ (f_pos f) 4 Hpos Hskip Htag) as S1.
  rewrite (read_le32_complete {| f_data := f_data f; f_pos := f_pos f + 4;
                                 f_eof := f_eof f |} _ _ ltac:(cbn; lia) S1
             (length_le_split 4 _)).
  pose proof (skipn_past _ _ _ (f_pos f + 4) 4 ltac:(lia) S1 (length_le_split 4 _)) as S2.
  cbn [f_data f_pos f_eof].
  rewrite (read_le16_complete {| f_data := f_data f; f_pos := f_pos f + 4 + 4;
                                 f_eof := f_eof f |} _ _ ltac:(cbn; lia) S2 L0).
  pose proof (skipn_past _ _ _ (f_pos f + 4 + 4) 2 ltac:(lia) S2 L0) as S3.
  cbn [f_data f_pos f_eof].
  rewrite (read_le16_complete {| f_data := f_data f; f_pos := f_pos f + 4 + 4 + 2;
                                 f_eof := f_eof f |} _ _ ltac:(cbn; lia) S3 L1).
  pose proof (skipn_past _ _ _ (f_pos f + 4 + 4 + 2) 2 ltac:(lia) S3 L1) as S4.
  cbn [f_data f_pos f_eof].
  rewrite (read_le32_complete {| f_data := f_data f; f_pos := f_pos f + 4 + 4 + 2 + 2;
                                 f_eof := f_eof f |} _ _ ltac:(cbn; lia) S4 L2).
  pose proof (skipn_past _ _ _ (f_pos f + 4 + 4 + 2 + 2) 4 ltac:(lia) S4 L2) as S5.
  cbn [f_data f_pos f_eof].
  rewrite (read_le32_complete {| f_data := f_data f; f_pos := f_pos f + 4 + 4 + 2 + 2 + 4;
                                 f_eof := f_eof f |} _ _ ltac:(cbn; lia) S5 L3).
  pose proof (skipn_past _ _ _ (f_pos f + 4 + 4 + 2 + 2 + 4) 4 ltac:(lia) S5 L3) as S6.
  cbn [f_data f_pos f_eof].
  rewrite (read_le16_complete
             {| f_data := f_data f; f_pos := f_pos f + 4 + 4 + 2 + 2 + 4 + 4;
                f_eof := f_eof f |} _ _ ltac:(cbn; lia) S6 L4).
  pose proof (skipn_past _ _ _ (f_pos f + 4 + 4 + 2 + 2 + 4 + 4) 2 ltac:(lia) S6 L4) as S7.
  cbn [f_data f_pos f_eof].
  rewrite (read_le16_complete
             {| f_data := f_data f; f_pos := f_pos f + 4 + 4 + 2 + 2 + 4 + 4 + 2;
                f_eof := f_eof f |} _ _ ltac:(cbn; lia) S7 L5).
  cbn [f_data f_pos f_eof].
  rewrite Hfmt, Z.eqb_refl.
  rewrite le_combine_split.
  replace (Z.of_nat (length (q0 ++ q1 ++ q2 ++ q3 ++ q4 ++ q5 ++ ext))
           mod 2 ^ (Z.of_nat 4 * 8))
    with (Z.of_nat (length payload))
    by (rewrite <- Epay; symmetry; apply Z.mod_small; simpl; lia).
  rewrite !length_app, length_le_split, Htag.
  destruct (Z.gtb_spec (Z.of_nat (length payload)) 16) as [Hgt|Hle].
  - rewrite fseek_cur_forward by (cbn [f_pos]; lia). cbn [f_data f_pos f_eof].
    do 2 f_equal. lia.
  - rewrite Heof. do 2 f_equal. lia.
Qed.

Lemma unknown_is_leading c : unknown_chunk c -> leading_chunk c.
Proof.
  intros (Htag & Hfmt & Hdata & Hsize). repeat split; try assumption.
  intros E. contradiction.
Qed.

Lemma scan_body_leading f w found_fmt c tail :
  0 <= f_pos f ->
  f_eof f = false ->
  leading_chunk c ->
  skipn (Z.to_nat (f_pos f)) (f_data f) = chunk_bytes c ++ tail ->
  scan_body f w found_fmt
  = Continue {| f_data := f_data f;
                f_pos := f_pos f + Z.of_nat (length (chunk_bytes c));
                f_eof := false |} (note_chunk w c) (found_fmt || is_fmt c).
Proof.
  intros Hpos Heof (Htag & Hdata & Hsize & H16) Hskip.
  unfold note_chunk, is_fmt.
  destruct (Z.eqb_spec (le_combine (fst c)) FOURCC_FMT) as [E|E].
  - rewrite orb_true_r. now apply scan_body_fmt with (tail := tail); auto.
  - rewrite orb_false_r. now apply scan_body_unknown with (tail := tail).
Qed.

Lemma scan_leading_chunks chunks :
  forall f w found_fmt n tail,
    0 <= f_pos f ->
    f_eof f = false ->
    Forall leading_chunk chunks ->
    skipn (Z.to_nat (f_pos f)) (f_data f) = flat_map chunk_bytes chunks ++ tail ->
    scan_chunks (length chunks + n) f w found_fmt false
    = scan_chunks n
        {| f_data := f_data f;
           f_pos := f_pos f + Z.of_nat (length (flat_map chunk_bytes chunks));
           f_eof := false |}
        (fold_left note_chunk chunks w) (found_fmt || existsb is_fmt chunks) false.
Proof.
  induction chunks as [|c chunks IH]; intros f w ff n tail Hpos Heof Hall Hskip.
  - cbn [length flat_map Nat.add fold_left existsb].
    destruct f as [data pos eof]. cbn in *. subst eof.
    now rewrite Z.add_0_r, orb_false_r.
  - inversion Hall as [|? ? Hc Hall']; subst.
    cbn [length Nat.add scan_chunks flat_map fold_left existsb] in *.
    unfold feof. rewrite Heof.
    cbn [negb andb]. rewrite orb_true_r. rewrite <- app_assoc in Hskip.
    rewrite (scan_body_leading f w ff c _ Hpos Heof Hc Hskip).
    rewrite (IH _ (note_chunk w c) (ff || is_fmt c) n tail);
      cbn [f_data f_pos f_eof]; try assumption; try lia.
    + rewrite length_app, orb_assoc. do 2 f_equal. lia.
    + now apply skipn_past with (bs := chunk_bytes c).
Qed.

Lemma leading_length chunks :
  Forall leading_chunk chunks ->
  (length chunks <= length (flat_map chunk_bytes chunks))%nat.
Proof.
  induction 1 as [|c chunks Hc _ IH]; [reflexivity|].
  cbn [flat_map length]. rewrite length_app, chunk_bytes_len by apply Hc. lia.
Qed.

(** The data chunk ends the loop. *)
Lemma scan_at_data n f w found_fmt size tail :
  0 <= f_pos f ->
  f_eof f = false ->
  0 <= size < 2 ^ 32 ->
  skipn (Z.to_nat (f_pos f)) (f_data f) = Tags.tag_data ++ le_split 4 size ++ tail ->
  scan_chunks (S n) f w found_fmt false
  = if frame_bytes w =? 0 then Trap
    else Ret ({| f_data := f_data f; f_pos := f_pos f + 8; f_eof := false |},
              set_data (f_pos f + 8) size (size / frame_bytes w) w, found_fmt, true).
Proof.
  intros Hpos Heof Hsize Hskip. cbn [scan_chunks]. unfold feof. rewrite Heof.
  cbn [negb andb]. rewrite orb_true_r. unfold scan_body.
  rewrite (read_le32_complete f _ _ Hpos Hskip eq_refl).
  pose proof (skipn_past _ _ _ (f_pos f) 4 Hpos Hskip eq_refl) as S1.
  rewrite (read_le32_complete {| f_data := f_data f; f_pos := f_pos f + 4;
                                 f_eof := f_eof f |} _ _ ltac:(cbn; lia) S1
             (length_le_split 4 _)).
  rewrite le_combine_split.
  replace (size mod 2 ^ (Z.of_nat 4 * 8)) with size
    by (symmetry; apply Z.mod_small; simpl; lia).
  change (le_combine Tags.tag_data =? FOURCC_FMT) with false.
  change (le_combine Tags.tag_data =? FOURCC_DATA) with true.
  cbv iota. fold (frame_bytes w).
  destruct (frame_bytes w =? 0); [reflexivity|].
  unfold ftell. cbn [f_pos f_data f_eof]. rewrite Heof.
  replace (f_pos f + 4 + 4) with (f_pos f + 8) by lia. reflexivity.
Qed.

(** Fewer than four bytes left: the loop ends on the end of the file. *)
Lemma scan_at_end n f w found_fmt :
  0 <= f_pos f ->
  f_eof f = false ->
  remaining f < 4 ->
  exists f',
    scan_chunks (S (S n)) f w found_fmt false = Ret (f', w, found_fmt, false).
Proof.
  intros Hpos Heof Hrem. cbn [scan_chunks]. unfold feof. rewrite Heof.
  cbn [negb andb]. rewrite orb_true_r. unfold scan_body.
  destruct (read_le32_short f Hpos Hrem) as [V1 E1].
  pose proof (read_le32_data f) as D1. pose proof (read_le32_pos f) as P1.
  destruct (read_le32 f) as [chunk_id f1]. cbn [fst snd] in *. subst chunk_id.
  assert (Hrem1 : Z.of_nat (length (f_data f1)) - f_pos f1 < 4)
    by (unfold remaining in Hrem; rewrite D1; lia).
  destruct (read_le32_short f1 ltac:(lia) Hrem1) as [V2 E2].
  destruct (read_le32 f1) as [chunk_size f2]. cbn [fst snd] in *. subst chunk_size.
  change (0 =? FOURCC_FMT) with false. change (0 =? FOURCC_DATA) with false.
  change (0 >? 0) with false. cbv iota. rewrite E2. cbn [negb andb].
  now exists f2.
Qed.

Lemma fold_note_original chunks :
  forall w,
    exists format channels rate bits,
      fold_left note_chunk chunks w = set_original format channels rate bits w.
Proof.
  induction chunks as [|c chunks IH]; intros w.
  - exists (original_format w), (original_channels w), (original_sample_rate w),
      (original_bits_per_sample w). now destruct w.
  - cbn [fold_left]. destruct (IH (note_chunk w c)) as (F & C & R & B & E).
    rewrite E. exists F, C, R, B. unfold note_chunk, fmt_of.
    destruct (is_fmt c); reflexivity.
Qed.

Lemma fold_note_none chunks w :
  existsb is_fmt chunks = false -> fold_left note_chunk chunks w = w.
Proof.
  revert w. induction chunks as [|c chunks IH]; intros w H; [reflexivity|].
  cbn [existsb fold_left] in *. apply orb_false_elim in H. destruct H as [Hc H].
  unfold note_chunk at 2. rewrite Hc. now apply IH.
Qed.

Lemma open_leading_then_data pre chunks declared rest :
  length pre = 12%nat ->
  le_combine (firstn 4 pre) = FOURCC_RIFF ->
  le_combine (firstn 4 (skipn 8 pre)) = FOURCC_WAVE ->
  Forall leading_chunk chunks ->
  0 <= declared < 2 ^ 32 ->
  let content :=
    pre ++ flat_map chunk_bytes chunks ++ Tags.tag_data ++ le_split 4 declared ++ rest in
  let w := fold_left note_chunk chunks wav_zero in
  let start := 12 + Z.of_nat (length (flat_map chunk_bytes chunks)) + 8 in
  open_file content
  = if frame_bytes w =? 0 then Trap else Ret (Some (opened content w start declared)).
Proof.
  intros Hpre Hriff Hwave Hall Hsize content w start. unfold open_file.
  unfold content at 1. rewrite open_read_after_header by exact Hpre.
  rewrite Hriff, Hwave, !Z.eqb_refl. cbn [negb]. fold content.
  pose proof (leading_length chunks Hall) as Hlen.
  assert (Hc : (length (flat_map chunk_bytes chunks) <= length content)%nat)
    by (unfold content; rewrite !length_app; lia).
  replace (S (S (length content)))
    with (length chunks + S (S (length content) - length chunks))%nat by lia.
  rewrite (scan_leading_chunks chunks _ wav_zero false _
             (Tags.tag_data ++ le_split 4 declared ++ rest));
    [| cbn; lia | reflexivity | exact Hall |].
  2:{ cbn [f_pos f_data]. change (Z.to_nat 12) with 12%nat. unfold content.
      rewrite <- Hpre, skipn_app, skipn_all, Nat.sub_diag. reflexivity. }
  cbn [f_data f_pos f_eof orb]. fold w.
  rewrite (scan_at_data _ _ w _ declared rest); cbn [f_data f_pos f_eof];
    [| lia | reflexivity | exact Hsize |].
  2:{ unfold content.
      replace (Z.to_nat (12 + Z.of_nat (length (flat_map chunk_bytes chunks))))
        with (length (pre ++ flat_map chunk_bytes chunks))
        by (rewrite length_app; lia).
      rewrite app_assoc, skipn_app, skipn_all, Nat.sub_diag. reflexivity. }
  destruct (Z.eqb_spec (frame_bytes w) 0) as [E0|Hne]; [reflexivity|].
  assert (Hfound : existsb is_fmt chunks = true).
  { destruct (existsb is_fmt chunks) eqn:Ex; [reflexivity|]. exfalso. apply Hne.
    unfold w. now rewrite fold_note_none. }
  rewrite Hfound. unfold finish_open. cbn [negb orb].
  destruct (fold_note_original chunks wav_zero) as (F & C & R & B & E).
  fold w in E. unfold opened, start. rewrite E. reflexivity.
Qed.

Lemma open_without_data pre chunks junk :
  length pre = 12%nat ->
  Forall leading_chunk chunks ->
  (length junk < 4)%nat ->
  open_file (pre ++ flat_map chunk_bytes chunks ++ junk) = Ret None.
Proof.
  intros Hpre Hall Hjunk. unfold open_file.
  rewrite open_read_after_header by exact Hpre.
  destruct (negb (le_combine (firstn 4 pre) =? FOURCC_RIFF)); [reflexivity|].
  destruct (negb (le_combine (firstn 4 (skipn 8 pre)) =? FOURCC_WAVE)); [reflexivity|].
  set (content := pre ++ flat_map chunk_bytes chunks ++ junk).
  pose proof (leading_length chunks Hall) as Hlen.
  assert (Hc : (length (flat_map chunk_bytes chunks) <= length content)%nat)
    by (unfold content; rewrite !length_app; lia).
  replace (S (S (length content)))
    with (length chunks + S (S (length content - length chunks)))%nat by lia.
  rewrite (scan_leading_chunks chunks _ wav_zero false _ junk);
    [| cbn; lia | reflexivity | exact Hall |].
  2:{ cbn [f_pos f_data]. change (Z.to_nat 12) with 12%nat. unfold content.
      rewrite <- Hpre, skipn_app, skipn_all, Nat.sub_diag. reflexivity. }
  cbn [f_data f_pos f_eof orb].
  destruct (scan_at_end (length content - length chunks)
              {| f_data := content;
                 f_pos := 12 + Z.of_nat (length (flat_map chunk_bytes chunks));
                 f_eof := false |}
              (fold_left note_chunk chunks wav_zero) (existsb is_fmt chunks)) as [f' E].
  - cbn [f_pos]; lia.
  - reflexivity.
  - unfold remaining, content. cbn [f_data f_pos]. rewrite !length_app. lia.
  - rewrite E. unfold finish_open. cbn [negb]. now rewrite orb_true_r.
Qed.

(** X6. The chunk scanner on a well-formed container: after a twelve-byte
    header with the RIFF and WAVE marks, any chunks other than data chunks
    (format chunks of at least sixteen payload bytes, with or without
    extension bytes, and chunks of any other tag, each with a payload of
    its declared size) and then a data chunk. Each leading chunk is
    skipped by its declared size; the origin format is the one declared by
    the last format chunk; the data region starts just after the data
    chunk's eight header bytes and has the declared size, whatever follows
    in the file; the frame count is the declared size divided by the frame
    size. When the frame size [channels * bits / 8] is zero (in particular
    when no format chunk came before the data chunk) the open does not
    return: the division traps. *)
Theorem scanner_reads_chunks_up_to_data :
  forall (pre : list byte) (chunks : list (list byte * list byte)) (declared : Z)
         (rest : list byte),
    length pre = 12%nat ->
    le_combine (firstn 4 pre) = FOURCC_RIFF ->
    le_combine (firstn 4 (skipn 8 pre)) = FOURCC_WAVE ->
    Forall leading_chunk chunks ->
    0 <= declared < 2 ^ 32 ->
    let content :=
      pre ++ flat_map chunk_bytes chunks ++ Tags.tag_data ++ le_split 4 declared ++ rest in
    let w := fold_left note_chunk chunks wav_zero in
    let start := 12 + Z.of_nat (length (flat_map chunk_bytes chunks)) + 8 in
    open_file content
    = if frame_bytes w =? 0 then Trap else Ret (Some (opened content w start declared)).
Proof. exact open_leading_then_data. Qed.

Lemma fmt_22050_leading : leading_chunk fmt_22050.
Proof.
  unfold leading_chunk, fmt_22050. cbn [fst snd]. split; [|split; [|split]].
  - reflexivity.
  - vm_compute. discriminate.
  - vm_compute. reflexivity.
  - intros _. vm_compute. lia.
Defined.

Lemma fmt_8000_leading : leading_chunk fmt_8000.
Proof.
  unfold leading_chunk, fmt_8000. cbn [fst snd]. split; [|split; [|split]].
  - reflexivity.
  - vm_compute. discriminate.
  - vm_compute. reflexivity.
  - intros _. vm_compute. lia.
Defined.

Lemma list_chunk_leading : leading_chunk list_chunk.
Proof.
  unfold leading_chunk, list_chunk. cbn [fst snd]. split; [|split; [|split]].
  - reflexivity.
  - vm_compute. discriminate.
  - vm_compute. reflexivity.
  - intros E. vm_compute in E. discriminate E.
Defined.

Lemma scanner_reads_chunks_up_to_data_witness :
  open_file (riff_header ++ flat_map chunk_bytes [fmt_8000; list_chunk; fmt_22050]
             ++ Tags.tag_data ++ le_split 4 12 ++ [Byte.x01; Byte.x02])
  = if frame_bytes (fold_left note_chunk [fmt_8000; list_chunk; fmt_22050] wav_zero) =? 0
    then Trap
    else Ret (Some (opened
                      (riff_header ++ flat_map chunk_bytes [fmt_8000; list_chunk; fmt_22050]
                       ++ Tags.tag_data ++ le_split 4 12 ++ [Byte.x01; Byte.x02])
                      (fold_left note_chunk [fmt_8000; list_chunk; fmt_22050] wav_zero)
                      (12 + Z.of_nat (length (flat_map chunk_bytes
                                                [fmt_8000; list_chunk; fmt_22050])) + 8)
                      12)).
Proof.
  apply (scanner_reads_chunks_up_to_data riff_header [fmt_8000; list_chunk; fmt_22050]
           12 [Byte.x01; Byte.x02]).
  - reflexivity.
  - reflexivity.
  - reflexivity.
  - apply Forall_cons; [apply fmt_8000_leading|].
    apply Forall_cons; [apply list_chunk_leading|].
    apply Forall_cons; [apply fmt_22050_leading | apply Forall_nil].
  - lia.
Defined.

(** X7. A container without a data chunk is refused: when the chunks after
    the twelve-byte header are all format chunks or chunks of other tags,
    and fewer than four bytes follow the last of them, the open returns
    the null handle. *)
Theorem missing_data_chunk_is_refused :
  forall (pre : list byte) (chunks : list (list byte * list byte)) (junk : list byte),
    length pre = 12%nat ->
    Forall leading_chunk chunks ->
    (length junk < 4)%nat ->
    open_file (pre ++ flat_map chunk_bytes chunks ++ junk) = Ret None.
Proof. exact open_without_data. Qed.

Lemma missing_data_chunk_is_refused_witness :
  open_file (riff_header ++ flat_map chunk_bytes [fmt_8000; list_chunk] ++ [Byte.x64])
  = Ret None.
Proof.
  apply (missing_data_chunk_is_refused riff_header [fmt_8000; list_chunk] [Byte.x64]).
  - reflexivity.
  - apply Forall_cons; [apply fmt_8000_leading|].
    apply Forall_cons; [apply list_chunk_leading | apply Forall_nil].
  - cbn. lia.
Defined.

(** X8. A data chunk met before any format chunk does not make the open
    fail with a null handle: the frame size is still zero, and the
    division that computes the frame count traps. *)
Theorem data_before_format_traps :
  forall (pre : list byte) (chunks : list (list byte * list byte)) (declared : Z)
         (rest : list byte),
    length pre = 12%nat ->
    le_combine (firstn 4 pre) = FOURCC_RIFF ->
    le_combine (firstn 4 (skipn 8 pre)) = FOURCC_WAVE ->
    Forall unknown_chunk chunks ->
    0 <= declared < 2 ^ 32 ->
    open_file (pre ++ flat_map chunk_bytes chunks ++ Tags.tag_data
               ++ le_split 4 declared ++ rest)
    = Trap.
Proof.
  intros pre chunks declared rest Hpre Hriff Hwave Hall Hsize.
  rewrite open_leading_then_data; try assumption.
  - rewrite fold_note_none; [reflexivity|].
    clear - Hall. induction Hall as [|c chunks Hc _ IH]; [reflexivity|].
    cbn [existsb]. rewrite IH, orb_false_r. unfold is_fmt.
    destruct Hc as (_ & Hfmt & _). now apply Z.eqb_neq.
  - eapply Forall_impl; [|exact Hall]. apply unknown_is_leading.
Qed.

Lemma data_before_format_traps_witness :
  open_file (riff_header ++ flat_map chunk_bytes [list_chunk] ++ Tags.tag_data
             ++ le_split 4 2 ++ [Byte.x01; Byte.x02] ++ chunk_bytes fmt_8000)
  = Trap.
Proof.
  apply (data_before_format_traps riff_header [list_chunk] 2).
  - reflexivity.
  - reflexivity.
  - reflexivity.
  - apply Forall_cons; [apply list_chunk_unknown | apply Forall_nil].
  - lia.
Defined.

(** ** The chunk scanner: the RIFF header *)

Lemma read_le32_short_pos f :
  0 <= f_pos f ->
  f_pos (snd (read_le32 f)) <= Z.max (f_pos f) (Z.of_nat (length (f_data f))).
Proof.
  intros Hpos. rewrite read_le32_pos_exact by exact Hpos. unfold remaining. lia.
Qed.

Lemma open_bad_header content :
  (length content < 12)%nat
  \/ le_combine (firstn 4 content) <> FOURCC_RIFF
  \/ le_combine (firstn 4 (skipn 8 content)) <> FOURCC_WAVE ->
  open_file content = Ret None.
Proof.
  intros H. destruct (Nat.lt_ge_cases (length content) 12) as [Hshort|Hlong].
  - clear H. unfold open_file, wav_enhanced_open_read, fopen_rb.
    set (f := {| f_data := content; f_pos := 0; f_eof := false |}).
    pose proof (read_le32_data f) as D1.
    pose proof (read_le32_pos_exact f ltac:(cbn; lia)) as P1.
    destruct (read_le32 f) as [riff_id f1]. cbn [snd] in D1, P1.
    destruct (negb (riff_id =? FOURCC_RIFF)); [reflexivity|].
    assert (Hp1 : 0 <= f_pos f1) by (rewrite P1; unfold remaining, f; cbn [f_pos]; lia).
    pose proof (read_le32_data f1) as D2.
    pose proof (read_le32_pos_exact f1 Hp1) as P2.
    destruct (read_le32 f1) as [file_size f2]. cbn [snd] in D2, P2.
    assert (Hp2 : 0 <= f_pos f2) by (rewrite P2; unfold remaining; lia).
    assert (Hrem : Z.of_nat (length (f_data f2)) - f_pos f2 < 4).
    { unfold remaining, f in *. cbn [f_data f_pos] in *.
      rewrite D2, D1. rewrite D1 in P2. lia. }
    destruct (read_le32_short f2 Hp2 Hrem) as [V _].
    destruct (read_le32 f2) as [wave_id f3]. cbn [fst] in V. subst wave_id.
    reflexivity.
  - unfold open_file. rewrite <- (firstn_skipn 12 content) at 1.
    rewrite open_read_after_header by (rewrite length_firstn; lia).
    rewrite firstn_firstn. change (Nat.min 4 12) with 4%nat.
    rewrite skipn_firstn_comm. change (12 - 8)%nat with 4%nat.
    rewrite firstn_firstn. change (Nat.min 4 4) with 4%nat.
    destruct H as [H|[H|H]]; [lia| |].
    + apply Z.eqb_neq in H. now rewrite H.
    + destruct (negb (_ =? FOURCC_RIFF)); [reflexivity|].
      apply Z.eqb_neq in H. now rewrite H.
Qed.

(** X9. A file that is shorter than the twelve-byte RIFF header, or does
    not start with the RIFF mark, or does not carry the WAVE mark at
    offset 8, is refused with the null handle: no chunk of it is read. *)
Theorem bad_riff_header_is_refused :
  forall content : list byte,
    (length content < 12)%nat
    \/ le_combine (firstn 4 content) <> FOURCC_RIFF
    \/ le_combine (firstn 4 (skipn 8 content)) <> FOURCC_WAVE ->
    open_file content = Ret None.
Proof. exact open_bad_header. Qed.

Lemma bad_riff_header_is_refused_witness :
  open_file (firstn 10 steps_8000) = Ret None
  /\ open_file (skipn 1 steps_8000) = Ret None.
Proof.
  split.
  - apply bad_riff_header_is_refused. left. apply Nat.ltb_lt. vm_compute. reflexivity.
  - apply bad_riff_header_is_refused. right. left. vm_compute. discriminate.
Defined.

(** ** The canonical header, written and scanned *)

Lemma load_at_app (n off : nat) (pre bs rest : list byte) :
  length pre = off -> length bs = n ->
  load n (pre ++ bs ++ rest) (Z.of_nat off) = le_combine bs.
Proof.
  intros Hpre <-. unfold load. rewrite Nat2Z.id. f_equal.
  now apply map_nth_prefix.
Qed.

Lemma fmt_of_fields format channels rate byte_rate block_align bits w :
  0 <= format < 2 ^ 16 -> 0 <= channels < 2 ^ 16 -> 0 <= rate < 2 ^ 32 ->
  0 <= bits < 2 ^ 16 ->
  fmt_of (le_split 2 format ++ le_split 2 channels ++ le_split 4 rate
          ++ le_split 4 byte_rate ++ le_split 2 block_align ++ le_split 2 bits) w
  = set_original format channels rate bits w.
Proof.
  intros Hf Hc Hr Hb. unfold fmt_of.
  set (F := le_split 2 format). set (C := le_split 2 channels).
  set (R := le_split 4 rate). set (BR := le_split 4 byte_rate).
  set (BA := le_split 2 block_align). set (B := le_split 2 bits).
  assert (LF : length F = 2%nat) by apply length_le_split.
  assert (LC : length C = 2%nat) by apply length_le_split.
  assert (LR : length R = 4%nat) by apply length_le_split.
  assert (LBR : length BR = 4%nat) by apply length_le_split.
  assert (LBA : length BA = 2%nat) by apply length_le_split.
  assert (LB : length B = 2%nat) by apply length_le_split.
  assert (E0 : load 2 (F ++ C ++ R ++ BR ++ BA ++ B) 0 = format).
  { change (F ++ C ++ R ++ BR ++ BA ++ B) with ([] ++ F ++ C ++ R ++ BR ++ BA ++ B).
    rewrite (load_at_app 2 0 [] F _ eq_refl LF). unfold F.
    rewrite le_combine_split. apply Z.mod_small. simpl; lia. }
  assert (E2 : load 2 (F ++ C ++ R ++ BR ++ BA ++ B) 2 = channels).
  { rewrite (load_at_app 2 2 F C _ LF LC). unfold C.
    rewrite le_combine_split. apply Z.mod_small. simpl; lia. }
  assert (E4 : load 4 (F ++ C ++ R ++ BR ++ BA ++ B) 4 = rate).
  { replace (F ++ C ++ R ++ BR ++ BA ++ B) with ((F ++ C) ++ R ++ BR ++ BA ++ B)
      by now rewrite <- !app_assoc.
    rewrite (load_at_app 4 4 (F ++ C) R _ ltac:(rewrite length_app; lia) LR). unfold R.
    rewrite le_combine_split. apply Z.mod_small. simpl; lia. }
  assert (E14 : load 2 (F ++ C ++ R ++ BR ++ BA ++ B) 14 = bits).
  { replace (F ++ C ++ R ++ BR ++ BA ++ B) with ((F ++ C ++ R ++ BR ++ BA) ++ B ++ [])
      by now rewrite <- !app_assoc, app_nil_r.
    change 14 with (Z.of_nat 14).
    rewrite (load_at_app 2 14 (F ++ C ++ R ++ BR ++ BA) B []
               ltac:(rewrite !length_app; lia) LB). unfold B.
    rewrite le_combine_split. apply Z.mod_small. simpl; lia. }
  now rewrite E0, E2, E4, E14.
Qed.

Lemma open_wav_file rate channels bits data :
  0 <= rate < 2 ^ 32 -> 0 <= channels < 2 ^ 16 -> 0 <= bits < 2 ^ 16 ->
  Z.of_nat (length data) < 2 ^ 32 ->
  let w := set_original 1 channels rate bits wav_zero in
  open_file (wav_file rate channels bits data)
  = if frame_bytes w =? 0 then Trap
    else Ret (Some (opened (wav_file rate channels bits data) w 44
                      (Z.of_nat (length data)))).
Proof.
  intros Hr Hc Hb Hd w.
  set (P := le_split 2 1 ++ le_split 2 channels ++ le_split 4 rate
            ++ le_split 4 (to_uint32 (rate * channels * bits) / 8)
            ++ le_split 2 (to_uint16 (channels * bits / 8)) ++ le_split 2 bits).
  set (pre := Tags.tag_RIFF ++ le_split 4 (to_uint32 (36 + Z.of_nat (length data)))
              ++ Tags.tag_WAVE).
  assert (LP : length P = 16%nat)
    by (unfold P; rewrite !length_app, !length_le_split; reflexivity).
  assert (E : wav_file rate channels bits data
              = pre ++ flat_map chunk_bytes [(Tags.tag_fmt, P)] ++ Tags.tag_data
                ++ le_split 4 (Z.of_nat (length data)) ++ data).
  { unfold wav_file, write_wav_header, format_fields, pre. cbn [flat_map].
    unfold chunk_bytes. cbn [fst snd]. change (Z.of_nat (length P)) with 16. unfold P.
    rewrite <- !app_assoc. reflexivity. }
  rewrite E.
  rewrite (open_leading_then_data pre [(Tags.tag_fmt, P)] (Z.of_nat (length data)) data).
  - cbn [fold_left]. unfold note_chunk. change (is_fmt (Tags.tag_fmt, P)) with true.
    cbv iota. cbn [snd]. unfold P. rewrite fmt_of_fields by lia. fold w.
    cbn [flat_map]. rewrite app_nil_r. unfold chunk_bytes. cbn [fst snd].
    rewrite !length_app, !length_le_split. reflexivity.
  - unfold pre. rewrite !length_app, length_le_split. reflexivity.
  - reflexivity.
  - unfold pre.
    replace (Tags.tag_RIFF ++ le_split 4 (to_uint32 (36 + Z.of_nat (length data)))
             ++ Tags.tag_WAVE)
      with ((Tags.tag_RIFF ++ le_split 4 (to_uint32 (36 + Z.of_nat (length data))))
            ++ Tags.tag_WAVE) by now rewrite <- app_assoc.
    rewrite skipn_app, skipn_all2 by (rewrite length_app, length_le_split; cbn; lia).
    rewrite length_app, length_le_split. reflexivity.
  - apply Forall_cons; [|apply Forall_nil].
    unfold leading_chunk. cbn [fst snd]. rewrite LP.
    split; [reflexivity|]. split; [vm_compute; discriminate|]. split; [simpl; lia|].
    intros _. apply Nat.le_refl.
  - lia.
Qed.

(** X10. The canonical 44-byte header is read back by the chunk scanner:
    a file made of the header [write_wav_header] lays down for a sample
    rate, a channel count, a bit depth and a payload, followed by that
    payload, opens with exactly those origin fields, format code 1, the
    data region at offset 44 and the payload's length as its size; the
    frame count is that length divided by the frame size. With a frame
    size of zero (fewer than eight bits per frame) the open traps. *)
Theorem written_header_is_read_back :
  forall (rate channels bits : Z) (data : list byte),
    0 <= rate < 2 ^ 32 -> 0 <= channels < 2 ^ 16 -> 0 <= bits < 2 ^ 16 ->
    Z.of_nat (length data) < 2 ^ 32 ->
    let w := set_original 1 channels rate bits wav_zero in
    open_file (wav_file rate channels bits data)
    = if frame_bytes w =? 0 then Trap
      else Ret (Some (opened (wav_file rate channels bits data) w 44
                        (Z.of_nat (length data)))).
Proof. exact open_wav_file. Qed.

Lemma written_header_is_read_back_witness :
  open_file (wav_file 48000 1 24 [Byte.x01; Byte.x02; Byte.x03])
  = if frame_bytes (set_original 1 1 48000 24 wav_zero) =? 0 then Trap
    else Ret (Some (opened (wav_file 48000 1 24 [Byte.x01; Byte.x02; Byte.x03])
                      (set_original 1 1 48000 24 wav_zero) 44
                      (Z.of_nat (length [Byte.x01; Byte.x02; Byte.x03])))).
Proof.
  apply (written_header_is_read_back 48000 1 24 [Byte.x01; Byte.x02; Byte.x03]);
    cbn; lia.
Defined.

(** ** Opening a container that declares 0 Hz *)

Lemma frame_bytes_positive channels bits :
  1 <= channels -> 8 <= bits -> channels * bits < 2 ^ 31 ->
  (frame_bytes (set_original 1 channels 0 bits wav_zero) =? 0) = false.
Proof.
  intros Hc Hb Hcb. apply Z.eqb_neq. unfold frame_bytes.
  cbn [original_channels original_bits_per_sample set_original wav_zero].
  assert (Hlow : 8 <= channels * bits) by nia.
  rewrite to_int_small by lia. rewrite Z.quot_div_nonneg by lia.
  assert (1 <= channels * bits / 8) by (apply Z.div_le_lower_bound; lia).
  assert (channels * bits / 8 < 2 ^ 31) by (apply Z.div_lt_upper_bound; lia).
  unfold to_uint32. rewrite wrap_small by lia. lia.
Qed.

(** C4 (as amended): a declared sample rate of 0 is no error. The
    canonical container declaring 0 Hz (at least one channel and eight
    bits per sample, a frame of less than 2^31 bits) is opened like any
    other, and the stream keeps the rate 0. Whenever an open succeeds
    with that rate, the stream's [resample_ratio] is 0.0 and
    [wav_enhanced_get_total_samples_8khz_mono] returns the conversion of
    the sample count divided by that zero: the quotient is an infinity or
    a NaN, with no integral value. Nothing in that function tests the
    rate or the ratio: on every stream it returns the converted quotient
    [total_samples / resample_ratio]. *)
Theorem zero_rate_is_accepted :
  forall (channels bits : Z) (data : list byte),
    1 <= channels < 2 ^ 16 ->
    8 <= bits < 2 ^ 16 ->
    channels * bits < 2 ^ 31 ->
    Z.of_nat (length data) < 2 ^ 32 ->
    (exists w,
        wav_enhanced_open_read (Some (fopen_rb (wav_file 0 channels bits data)))
        = Ret (Some w)
        /\ original_sample_rate w = 0)
    /\ (forall fopen_result w,
          wav_enhanced_open_read fopen_result = Ret (Some w) ->
          original_sample_rate w = 0 ->
          resample_ratio w = PrimFloat.zero
          /\ wav_enhanced_get_total_samples_8khz_mono (Some w)
             = CDouble.to_uint32 (CDouble.of_int (total_samples w) / PrimFloat.zero)%float
          /\ CDouble.trunc (CDouble.of_int (total_samples w) / PrimFloat.zero)%float
             = None)
    /\ (forall w,
          wav_enhanced_get_total_samples_8khz_mono (Some w)
          = CDouble.to_uint32 (CDouble.of_int (total_samples w) / resample_ratio w)%float).
Proof.
  intros channels bits data Hc Hb Hcb Hd. split; [|split].
  - pose proof (open_wav_file 0 channels bits data ltac:(lia) ltac:(lia) ltac:(lia) Hd)
      as Hopen.
    cbv zeta in Hopen. rewrite frame_bytes_positive in Hopen by lia.
    unfold open_file in Hopen. eexists. split; [exact Hopen | reflexivity].
  - intros fopen_result w Hopen Hrate.
    pose proof (open_read_ratio _ _ Hopen) as Hratio. rewrite Hrate in Hratio.
    assert (Z : resample_ratio w = PrimFloat.zero).
    { rewrite Hratio. vm_compute. reflexivity. }
    split; [exact Z|]. split.
    + unfold wav_enhanced_get_total_samples_8khz_mono, total_samples_quotient.
      rewrite Z. reflexivity.
    + apply division_by_zero_is_not_finite.
  - intros w. reflexivity.
Qed.

(** The container [rate_0], mono 16-bit at 0 Hz, as an instance of the
    theorem. *)
Lemma zero_rate_is_accepted_witness :
  (exists w,
      wav_enhanced_open_read
        (Some (fopen_rb (wav_file 0 1 16 (shorts_bytes [5; 6; 7]))))
      = Ret (Some w)
      /\ original_sample_rate w = 0)
  /\ (forall fopen_result w,
        wav_enhanced_open_read fopen_result = Ret (Some w) ->
        original_sample_rate w = 0 ->
        resample_ratio w = PrimFloat.zero
        /\ wav_enhanced_get_total_samples_8khz_mono (Some w)
           = CDouble.to_uint32 (CDouble.of_int (total_samples w) / PrimFloat.zero)%float
        /\ CDouble.trunc (CDouble.of_int (total_samples w) / PrimFloat.zero)%float
           = None)
  /\ (forall w,
        wav_enhanced_get_total_samples_8khz_mono (Some w)
        = CDouble.to_uint32 (CDouble.of_int (total_samples w) / resample_ratio w)%float).
Proof.
  apply (zero_rate_is_accepted 1 16 (shorts_bytes [5; 6; 7])).
  - lia.
  - lia.
  - lia.
  - vm_compute. reflexivity.
Defined.

(** ** The chunk scanner: the state a successful open leaves *)

Lemma read_le16_range f : 0 <= fst (read_le16 f) < 2 ^ 16.
Proof.
  unfold read_le16. destruct (fread 2 f). destruct (_ =? _); cbn [fst].
  - apply Z.mod_pos_bound. lia.
  - lia.
Qed.

Lemma scan_body_continue_state f w found_fmt f' w' found_fmt' :
  scan_body f w found_fmt = Continue f' w' found_fmt' ->
  (0 <= original_channels w < 2 ^ 16 /\ 0 <= original_sample_rate w < 2 ^ 32
   /\ 0 <= original_bits_per_sample w < 2 ^ 16 ->
   0 <= original_channels w' < 2 ^ 16 /\ 0 <= original_sample_rate w' < 2 ^ 32
   /\ 0 <= original_bits_per_sample w' < 2 ^ 16)
  /\ set_data 0 0 0 (set_original 0 0 0 0 w') = set_data 0 0 0 (set_original 0 0 0 0 w).
Proof.
  unfold scan_body.
  destruct (read_le32 f) as [chunk_id f1]. destruct (read_le32 f1) as [chunk_size f2].
  destruct (chunk_id =? FOURCC_FMT).
  - destruct (read_le16 f2) as [format f3].
    pose proof (read_le16_range f3) as Rc. destruct (read_le16 f3) as [channels f4].
    pose proof (read_le32_range f4) as Rr. destruct (read_le32 f4) as [rate f5].
    destruct (read_le32 f5) as [byte_rate f6].
    destruct (read_le16 f6) as [block_align f7].
    pose proof (read_le16_range f7) as Rb. destruct (read_le16 f7) as [bits f8].
    cbn [fst] in *. intros [= _ <- _]. split; [|reflexivity].
    intros _. cbn. lia.
  - destruct (chunk_id =? FOURCC_DATA).
    + destruct (_ =? 0); discriminate.
    + intros [= _ <- _]. split; [tauto|reflexivity].
Qed.

Lemma scan_body_leave_state f w found_fmt f' w' found_fmt' found_data' :
  scan_body f w found_fmt = Leave (Ret (f', w', found_fmt', found_data')) ->
  exists size,
    0 <= size < 2 ^ 32 /\ frame_bytes w <> 0
    /\ w' = set_data (f_pos f') size (size / frame_bytes w) w.
Proof.
  unfold scan_body.
  destruct (read_le32 f) as [chunk_id f1].
  pose proof (read_le32_range f1) as Rs. destruct (read_le32 f1) as [chunk_size f2].
  destruct (chunk_id =? FOURCC_FMT).
  - destruct (read_le16 f2) as [format f3]. destruct (read_le16 f3) as [channels f4].
    destruct (read_le32 f4) as [rate f5]. destruct (read_le32 f5) as [byte_rate f6].
    destruct (read_le16 f6) as [block_align f7]. destruct (read_le16 f7) as [bits f8].
    discriminate.
  - destruct (chunk_id =? FOURCC_DATA); [|discriminate].
    fold (frame_bytes w). destruct (Z.eqb_spec (frame_bytes w) 0) as [E|Hne]; [discriminate|].
    intros [= <- <- _ _]. exists chunk_size. cbn [fst] in Rs. now repeat split.
Qed.

Lemma scan_chunks_state n :
  forall f w found_fmt f' w' found_fmt',
    scan_chunks n f w found_fmt false = Ret (f', w', found_fmt', true) ->
    0 <= original_channels w < 2 ^ 16 /\ 0 <= original_sample_rate w < 2 ^ 32
    /\ 0 <= original_bits_per_sample w < 2 ^ 16 ->
    (0 <= original_channels w' < 2 ^ 16 /\ 0 <= original_sample_rate w' < 2 ^ 32
     /\ 0 <= original_bits_per_sample w' < 2 ^ 16)
    /\ set_data 0 0 0 (set_original 0 0 0 0 w') = set_data 0 0 0 (set_original 0 0 0 0 w)
    /\ frame_bytes w' <> 0
    /\ 0 <= data_size w' < 2 ^ 32
    /\ total_samples w' = data_size w' / frame_bytes w'
    /\ data_start_pos w' = f_pos f'.
Proof.
  induction n as [|n IH]; intros f w ff f' w' ff' H Hr; cbn [scan_chunks] in H.
  - discriminate H.
  - destruct (negb (feof f) && (negb ff || negb false)); [|discriminate H].
    destruct (scan_body f w ff) as [f1 w1 ff1|r] eqn:Ebody.
    + apply scan_body_continue_state in Ebody. destruct Ebody as [Hr1 Hfz].
      destruct (IH _ _ _ _ _ _ H (Hr1 Hr)) as (R & Fz & rest).
      split; [exact R|]. split; [congruence|exact rest].
    + subst r. apply scan_body_leave_state in Ebody.
      destruct Ebody as (size & Hs & Hne & ->). destruct w. cbn in *.
      repeat split; try tauto; try lia.
Qed.

Lemma scan_chunks_stream n :
  forall f w found_fmt f' w' found_fmt' found_data',
    0 <= f_pos f ->
    scan_chunks n f w found_fmt false = Ret (f', w', found_fmt', found_data') ->
    f_data f' = f_data f /\ f_pos f <= f_pos f'.
Proof.
  induction n as [|n IH]; intros f w ff f' w' ff' fd' Hpos H; cbn [scan_chunks] in H.
  - discriminate H.
  - destruct (negb (feof f) && (negb ff || negb false)).
    2:{ injection H as <- _ _ _. split; [reflexivity|lia]. }
    destruct (scan_body f w ff) as [f1 w1 ff1|r] eqn:Ebody.
    + destruct (scan_body_progress _ _ _ _ _ _ Hpos Ebody) as (D & P & _).
      assert (Hpos1 : 0 <= f_pos f1) by lia.
      destruct (IH _ _ _ _ _ _ _ Hpos1 H) as [D' P'].
      split; [congruence|lia].
    + subst r. unfold scan_body in Ebody.
      pose proof (read_le32_data f) as D1. pose proof (read_le32_pos f) as P1.
      destruct (read_le32 f) as [chunk_id f1]. cbn [snd] in D1, P1.
      pose proof (read_le32_data f1) as D2. pose proof (read_le32_pos f1) as P2.
      destruct (read_le32 f1) as [chunk_size f2]. cbn [snd] in D2, P2.
      destruct (chunk_id =? FOURCC_FMT).
      * destruct (read_le16 f2) as [? f3]. destruct (read_le16 f3) as [? f4].
        destruct (read_le32 f4) as [? f5]. destruct (read_le32 f5) as [? f6].
        destruct (read_le16 f6) as [? f7]. destruct (read_le16 f7) as [? f8].
        discriminate Ebody.
      * destruct (chunk_id =? FOURCC_DATA); [|discriminate Ebody].
        destruct (_ =? 0); [discriminate Ebody|].
        injection Ebody as <- _ _ _. split; [congruence|lia].
Qed.

Lemma open_state content w :
  open_file content = Ret (Some w) ->
  (exists f, file w = Some f /\ f_data f = content /\ f_pos f = data_start_pos w
             /\ 12 <= f_pos f)
  /\ (target_sample_rate w, target_channels w, target_bits_per_sample w) = (8000, 1, 16)
  /\ (samples_read w, samples_written w, bytes_written w) = (0, 0, 0)
  /\ resample_ratio w
     = (CDouble.of_int (original_sample_rate w) / CDouble.of_int 8000)%float
  /\ resample_phase w = PrimFloat.zero
  /\ resample_buffer w <> None
  /\ resample_buffer_size w = 4096
  /\ 0 <= original_channels w < 2 ^ 16
  /\ 0 <= original_sample_rate w < 2 ^ 32
  /\ 0 <= original_bits_per_sample w < 2 ^ 16
  /\ frame_bytes w <> 0
  /\ 0 <= data_size w < 2 ^ 32
  /\ total_samples w = data_size w / frame_bytes w.
Proof.
  intros H.
  destruct (Nat.lt_ge_cases (length content) 12) as [Hshort|Hlong].
  { rewrite open_bad_header in H by now left. discriminate H. }
  unfold open_file in H. rewrite <- (firstn_skipn 12 content) in H.
  rewrite open_read_after_header in H by (rewrite length_firstn; lia).
  rewrite firstn_skipn in H.
  destruct (negb (_ =? FOURCC_RIFF)); [discriminate|].
  destruct (negb (_ =? FOURCC_WAVE)); [discriminate|].
  unfold finish_open in H.
  destruct (scan_chunks _ _ _ _ _) as [[[[f' w'] found_fmt] found_data]| |] eqn:Escan;
    [|discriminate|discriminate].
  destruct found_fmt, found_data; try discriminate. cbn [negb orb] in H.
  injection H as <-.
  destruct (scan_chunks_state _ _ _ _ _ _ _ Escan) as (R & Fz & Hne & Hs & Ht & Hp).
  { cbn. lia. }
  assert (H12 : 0 <= f_pos {| f_data := content; f_pos := 12; f_eof := false |})
    by (cbn; lia).
  destruct (scan_chunks_stream _ _ _ _ _ _ _ _ H12 Escan) as [D P].
  cbn [f_data f_pos] in D, P.
  pose proof (f_equal samples_read Fz) as E1.
  pose proof (f_equal samples_written Fz) as E2.
  pose proof (f_equal bytes_written Fz) as E3.
  cbn in E1, E2, E3.
  split.
  { exists f'. cbn. repeat split; try assumption; try congruence. }
  cbn. rewrite E1, E2, E3. unfold frame_bytes in *. cbn.
  repeat split; try tauto; try lia; try discriminate.
Qed.

(** X11. Whatever the file, a successful open leaves the same stream
    state: the stream stands in the file at the start of the data region,
    at or after offset 12; the target format is 8000 Hz, mono, 16 bits; the
    three counters are zero; the resampling ratio is the origin rate over
    8000 and the phase is zero; the conversion buffer is allocated, for
    4096 frames (what it holds is left to [malloc]); the origin fields fit
    their header fields; the frame size is not zero, and the frame count
    is the declared data size divided by it. *)
Theorem open_establishes_the_stream_state :
  forall (content : list byte) (w : wav_enhanced_t),
    open_file content = Ret (Some w) ->
    (exists f, file w = Some f /\ f_data f = content /\ f_pos f = data_start_pos w
               /\ 12 <= f_pos f)
    /\ (target_sample_rate w, target_channels w, target_bits_per_sample w) = (8000, 1, 16)
    /\ (samples_read w, samples_written w, bytes_written w) = (0, 0, 0)
    /\ resample_ratio w
       = (CDouble.of_int (original_sample_rate w) / CDouble.of_int 8000)%float
    /\ resample_phase w = PrimFloat.zero
    /\ resample_buffer w <> None
    /\ resample_buffer_size w = 4096
    /\ 0 <= original_channels w < 2 ^ 16
    /\ 0 <= original_sample_rate w < 2 ^ 32
    /\ 0 <= original_bits_per_sample w < 2 ^ 16
    /\ frame_bytes w <> 0
    /\ 0 <= data_size w < 2 ^ 32
    /\ total_samples w = data_size w / frame_bytes w.
Proof. exact open_state. Qed.

Lemma open_establishes_the_stream_state_witness :
  exists w,
    open_file ramp_44100 = Ret (Some w)
    /\ (exists f, file w = Some f /\ f_data f = ramp_44100 /\ f_pos f = data_start_pos w
                  /\ 12 <= f_pos f)
    /\ frame_bytes w <> 0
    /\ total_samples w = data_size w / frame_bytes w.
Proof.
  eexists. split; [vm_compute; reflexivity|].
  match goal with
  | |- context [file ?w] =>
      pose proof (open_establishes_the_stream_state ramp_44100 w
                    ltac:(vm_compute; reflexivity)) as H
  end.
  split; [exact (proj1 H)|]. split; [apply H | apply H].
Defined.

(** ** The reader: what a call changes *)

Lemma convert_length input samples input_bits channels :
  length (stored_by_convert input samples input_bits channels) = Z.to_nat samples.
Proof.
  unfold stored_by_convert.
  repeat match goal with
         | |- context [if ?c then _ else _] => destruct c
         end; try apply downmix_length.
  apply repeat_length.
Qed.

Lemma resample_to_8khz_stores wav input input_samples max :
  0 <= input_samples <= Z.of_nat (length input) -> 0 <= max ->
  Z.of_nat (length (fst (fst (resample_to_8khz wav input input_samples max))))
  = snd (fst (resample_to_8khz wav input input_samples max))
  /\ set_resample_phase PrimFloat.zero (snd (resample_to_8khz wav input input_samples max))
     = set_resample_phase PrimFloat.zero wav.
Proof.
  intros Hi Hm. unfold resample_to_8khz.
  destruct (original_sample_rate wav =? 8000); cbn [fst snd].
  - split; [|reflexivity]. rewrite length_firstn.
    destruct (Z.ltb_spec input_samples max); lia.
  - pose proof (resample_loop_spec (resample_phase wav)
                  (CDouble.of_int (original_sample_rate wav) / CDouble.of_int 8000)%float
                  input input_samples max (Z.to_nat max) 0 [] eq_refl) as H.
    cbv zeta in H. destruct H as [H _].
    change (map Z.of_nat (seq 0 (Z.to_nat max))) with (zrange max) in H.
    change (Z.of_nat 0) with 0 in H.
    destruct (resample_loop _ _ _ _ _ _ _ _) as [out output_count]. cbn [fst snd] in *.
    split; [exact H|]. now destruct wav.
Qed.

Lemma store_prefix_length vals buf :
  length (store_prefix vals buf) = Nat.max (length buf) (length vals).
Proof. unfold store_prefix. rewrite length_app, length_skipn. lia. Qed.

Lemma store_prefix_tail vals buf :
  skipn (length vals) (store_prefix vals buf) = skipn (length vals) buf.
Proof.
  unfold store_prefix. rewrite skipn_app, skipn_all, Nat.sub_diag. reflexivity.
Qed.

Lemma read_samples_frame w f buf num_samples :
  file w = Some f ->
  0 <= f_pos f ->
  0 <= num_samples < 2 ^ 31 ->
  match wav_enhanced_read_samples_16bit_mono_8khz (Some w) (Some buf) num_samples with
  | Ret (count, Some w', Some buf') =>
      if malloc_fails (raw_buffer_bytes w num_samples)
      then count = -1 /\ w' = w /\ buf' = buf
      else
        0 <= count <= num_samples
        /\ (exists f', file w' = Some f' /\ f_data f' = f_data f /\ f_pos f <= f_pos f'
                       /\ f_pos f' <= Z.max (f_pos f) (Z.of_nat (length (f_data f)))
                       /\ (0 < count -> f_pos f < f_pos f'))
        /\ length buf' = Nat.max (length buf) (Z.to_nat count)
        /\ skipn (Z.to_nat count) buf' = skipn (Z.to_nat count) buf
        /\ set_samples_read 0 (set_resample_phase PrimFloat.zero
                                 (set_resample_buffer None (set_file None w')))
           = set_samples_read 0 (set_resample_phase PrimFloat.zero
                                   (set_resample_buffer None (set_file None w)))
  | Ret _ => False
  | Trap =>
      malloc_fails (raw_buffer_bytes w num_samples) = false
      /\ to_int (original_channels w * (original_bits_per_sample w / 8)) = 0
  | OutOfFuel => False
  end.
Proof.
  intros Hf Hpos Hn. rewrite (read_samples_unfold w f buf num_samples Hf).
  destruct (malloc_fails (raw_buffer_bytes w num_samples)) eqn:Hm;
    [repeat split|].
  cbv zeta.
  match goal with |- context [fread ?n f] =>
    pose proof (fread_data n f) as D; pose proof (fread_pos n f) as P;
    assert (L : Z.of_nat (length (fst (fread n f))) = f_pos (snd (fread n f)) - f_pos f)
      by (unfold fread; cbn [fst snd f_pos]; lia);
    assert (M : f_pos (snd (fread n f)) <= Z.max (f_pos f) (Z.of_nat (length (f_data f))))
      by (unfold fread; cbn [snd f_pos]; rewrite length_firstn, length_skipn; lia);
    destruct (fread n f) as [raw_buffer f']
  end.
  cbn [fst snd] in D, P, L, M.
  destruct (Z.eqb_spec (to_int (original_channels w * (original_bits_per_sample w / 8))) 0)
    as [E0|Hne]; [split; [reflexivity | exact E0]|].
  match goal with |- context [?a <=? 0] => destruct (Z.leb_spec a 0) as [Hle|Hgt] end.
  - split; [lia|]. split; [|split; [|split]].
    + exists f'. cbn. repeat split; try assumption; lia.
    + cbn [Z.to_nat]. lia.
    + reflexivity.
    + now destruct w.
  - rewrite (to_int_small num_samples) by lia.
    set (actual := to_int (Z.of_nat (length raw_buffer)
                           / to_size_t (to_int (original_channels w
                                                * (original_bits_per_sample w / 8))))) in *.
    assert (Hbytes : 0 < Z.of_nat (length raw_buffer)).
    { destruct raw_buffer; [|cbn [length]; lia]. unfold actual in Hgt.
      cbn [length Z.of_nat] in Hgt. rewrite Zdiv_0_l in Hgt.
      change (to_int 0) with 0 in Hgt. lia. }
    set (converted := stored_by_convert raw_buffer actual (original_bits_per_sample w)
                        (original_channels w)).
    set (buffer := match resample_buffer w with
                   | Some old => store_prefix converted old
                   | None => converted
                   end).
    assert (Lb : actual <= Z.of_nat (length buffer)).
    { assert (Lc : length converted = Z.to_nat actual) by apply convert_length.
      unfold buffer. destruct (resample_buffer w).
      - rewrite store_prefix_length. lia.
      - lia. }
    match goal with
    | |- context [resample_to_8khz ?w1 buffer actual num_samples] =>
        pose proof (resample_to_8khz_count w1 buffer actual num_samples
                      ltac:(lia) ltac:(lia)) as Hc;
        pose proof (resample_to_8khz_stores w1 buffer actual num_samples
                      ltac:(lia) ltac:(lia)) as [Hl Hw];
        destruct (resample_to_8khz w1 buffer actual num_samples)
          as [[out output_samples] w2]
    end.
    cbn [fst snd] in Hc, Hl, Hw.
    split; [exact Hc|]. split; [|split; [|split]].
    + exists f'.
      pose proof (f_equal WavEnhanced.file Hw) as Ef. cbn in Ef.
      cbn. repeat split; try assumption; lia.
    + rewrite store_prefix_length. lia.
    + replace (Z.to_nat output_samples) with (length out) by lia.
      apply store_prefix_tail.
    + clear - Hw. destruct w2, w. cbn in *. injection Hw; intros; subst. reflexivity.
Qed.



Lemma read_samples_at_end w f buf num_samples :
  file w = Some f ->
  0 <= f_pos f ->
  0 < to_int (original_channels w * (original_bits_per_sample w / 8)) ->
  remaining f < to_int (original_channels w * (original_bits_per_sample w / 8)) ->
  exists f',
    wav_enhanced_read_samples_16bit_mono_8khz (Some w) (Some buf) num_samples
    = (if malloc_fails (raw_buffer_bytes w num_samples)
       then Ret (-1, Some w, Some buf)
       else Ret (0, Some (set_file (Some f') w), Some buf))
    /\ f_data f' = f_data f /\ f_pos f <= f_pos f'.
Proof.
  intros Hf Hpos Hfb Hrem. rewrite (read_samples_unfold w f buf num_samples Hf).
  cbv zeta.
  set (fb := to_int (original_channels w * (original_bits_per_sample w / 8))) in *.
  match goal with |- context [fread ?n f] =>
    pose proof (fread_data n f) as D; pose proof (fread_pos n f) as P;
    assert (L : Z.of_nat (length (fst (fread n f))) <= Z.max 0 (remaining f))
      by (unfold fread, remaining; cbn [fst]; rewrite length_firstn, length_skipn; lia);
    destruct (fread n f) as [raw_buffer f']
  end.
  cbn [fst snd] in D, P, L.
  destruct (Z.eqb_spec fb 0) as [E0|_]; [lia|].
  assert (Hfb2 : fb < 2 ^ 31).
  { pose proof (swrap_range 32 (original_channels w * (original_bits_per_sample w / 8))
                  ltac:(lia)) as R. fold (to_int (original_channels w * (original_bits_per_sample w / 8))) in R. fold fb in R. simpl in R. simpl. lia. }
  assert (Es : to_size_t fb = fb) by (apply wrap_small; simpl in *; lia).
  rewrite Es. rewrite Z.div_small by lia. change (to_int 0) with 0.
  cbn [Z.leb Z.compare]. exists f'. repeat split; assumption.
Qed.

(** X13. A read on a stream with less than one frame left returns 0,
    whatever the request, and leaves the caller's buffer and every field of
    the context but the stream untouched; unless the raw buffer cannot be
    allocated (its size as a [size_t] is 2^63 or more), in which case the
    call returns -1 and changes nothing at all. *)
Theorem read_at_end_of_stream_returns_zero :
  forall (w : wav_enhanced_t) (f : FILE) (buf : list Z) (num_samples : Z),
    file w = Some f ->
    0 <= f_pos f ->
    0 < to_int (original_channels w * (original_bits_per_sample w / 8)) ->
    remaining f < to_int (original_channels w * (original_bits_per_sample w / 8)) ->
    exists f',
      wav_enhanced_read_samples_16bit_mono_8khz (Some w) (Some buf) num_samples
      = (if malloc_fails (raw_buffer_bytes w num_samples)
         then Ret (-1, Some w, Some buf)
         else Ret (0, Some (set_file (Some f') w), Some buf))
      /\ f_data f' = f_data f /\ f_pos f <= f_pos f'.
Proof. exact read_samples_at_end. Qed.

Lemma read_at_end_of_stream_returns_zero_witness :
  exists f',
    wav_enhanced_read_samples_16bit_mono_8khz
      (Some (opened (wav_file 8000 2 16 [Byte.x01; Byte.x02; Byte.x03])
               (set_original 1 2 8000 16 wav_zero) 44 3))
      (Some [7; 7]) 2
    = (if malloc_fails
            (raw_buffer_bytes
               (opened (wav_file 8000 2 16 [Byte.x01; Byte.x02; Byte.x03])
                  (set_original 1 2 8000 16 wav_zero) 44 3) 2)
       then Ret (-1,
                 Some (opened (wav_file 8000 2 16 [Byte.x01; Byte.x02; Byte.x03])
                         (set_original 1 2 8000 16 wav_zero) 44 3),
                 Some [7; 7])
       else Ret (0,
                 Some (set_file (Some f')
                         (opened (wav_file 8000 2 16 [Byte.x01; Byte.x02; Byte.x03])
                            (set_original 1 2 8000 16 wav_zero) 44 3)),
                 Some [7; 7]))
    /\ f_data f' = wav_file 8000 2 16 [Byte.x01; Byte.x02; Byte.x03]
    /\ 44 <= f_pos f'.
Proof.
  apply (read_at_end_of_stream_returns_zero
           (opened (wav_file 8000 2 16 [Byte.x01; Byte.x02; Byte.x03])
              (set_original 1 2 8000 16 wav_zero) 44 3)
           {| f_data := wav_file 8000 2 16 [Byte.x01; Byte.x02; Byte.x03];
              f_pos := 44; f_eof := false |} [7; 7] 2).
  - reflexivity.
  - cbn. lia.
  - vm_compute. reflexivity.
  - vm_compute. reflexivity.
Defined.

(** ** Reading 8000 Hz mono 16-bit samples *)

Lemma passthrough_requests :
  forallb (fun n => CDouble.to_int (CDouble.of_int n
                                    * (CDouble.of_int 8000 / CDouble.of_int 8000))%float
                    =? n)
          (zrange 4095) = true.
Proof. vm_compute. reflexivity. Qed.

Lemma passthrough_request n :
  0 <= n <= 4094 ->
  CDouble.to_int (CDouble.of_int n * (CDouble.of_int 8000 / CDouble.of_int 8000))%float = n.
Proof.
  intros Hn. pose proof passthrough_requests as H.
  rewrite forallb_forall in H. apply Z.eqb_eq. apply H.
  unfold zrange. apply in_map_iff. exists (Z.to_nat n). split; [lia|].
  apply in_seq. lia.
Qed.

Lemma shorts_bytes_skipn (k : nat) (l : list Z) :
  skipn (2 * k) (shorts_bytes l) = shorts_bytes (skipn k l).
Proof.
  revert l. induction k as [|k IH]; intros l; [reflexivity|].
  destruct l as [|s l]; [reflexivity|].
  replace (2 * S k)%nat with (2 * k + 2)%nat by lia.
  rewrite <- skipn_skipn. cbn [skipn]. rewrite <- IH. reflexivity.
Qed.

Lemma shorts_bytes_firstn (k : nat) (l : list Z) :
  firstn (2 * k) (shorts_bytes l) = shorts_bytes (firstn k l).
Proof.
  revert l. induction k as [|k IH]; intros l; [reflexivity|].
  destruct l as [|s l]; [reflexivity|].
  replace (2 * S k)%nat with (S (S (2 * k))) by lia.
  cbn [firstn]. unfold shorts_bytes. cbn [flat_map]. fold (shorts_bytes l).
  fold (shorts_bytes (firstn k l)). rewrite <- IH.
  pose proof (length_le_split 2 s) as L. unfold short_bytes.
  destruct (le_split 2 s) as [|b0 [|b1 [|]]]; try discriminate L. reflexivity.
Qed.

Lemma Forall_slice (P : Z -> Prop) (n k : nat) (l : list Z) :
  Forall P l -> Forall P (firstn n (skipn k l)).
Proof.
  intros H. revert n k. induction H as [|x l Hx H IH]; intros n k.
  - destruct k; destruct n; constructor.
  - destruct k as [|k].
    + destruct n as [|n]; [constructor|]. cbn [skipn firstn]. constructor; [exact Hx|].
      apply (IH n 0%nat).
    + cbn [skipn]. apply IH.
Qed.

Lemma read_passthrough hdr l consumed w buf n :
  passthrough_at hdr l consumed w ->
  Forall (fun v => - 32768 <= v <= 32767) l ->
  0 <= consumed <= Z.of_nat (length l) ->
  0 <= n <= 4094 ->
  let taken := Z.min (n + 2) (Z.of_nat (length l) - consumed) in
  let count := Z.min n taken in
  exists w',
    wav_enhanced_read_samples_16bit_mono_8khz (Some w) (Some buf) n
    = Ret (count, Some w',
           Some (store_prefix (firstn (Z.to_nat count) (skipn (Z.to_nat consumed) l)) buf))
    /\ passthrough_at hdr l (consumed + taken) w'.
Proof.
  intros ((e & Hf) & Hrate & Hch & Hbits & Hratio & Hsize) Hall Hc Hn taken count.
  assert (Ewant : raw_buffer_bytes w n = (n + 2) * 2).
  { unfold raw_buffer_bytes, samples_to_read.
    rewrite Hratio, Hsize, Hch, Hbits, passthrough_request by exact Hn.
    change (16 / 8) with 2.
    rewrite (to_int_small (n + 2)) by lia.
    destruct (Z.gtb_spec (n + 2) 4096) as [Hbig|_]; [lia|].
    rewrite Z.mul_1_r, (to_int_small (n + 2)) by lia.
    rewrite (to_int_small ((n + 2) * 2)) by lia.
    unfold to_size_t. apply wrap_small. lia. }
  rewrite (read_samples_unfold w _ buf n Hf), Ewant.
  replace (malloc_fails ((n + 2) * 2)) with false
    by (symmetry; unfold malloc_fails; apply Z.leb_gt; lia).
  cbv zeta. rewrite Hch, Hbits. change (16 / 8) with 2.
  change (to_int (1 * 2)) with 2. change (2 =? 0) with false. cbv iota.
  change (to_size_t 2) with 2.
  set (src := firstn (Z.to_nat (n + 2)) (skipn (Z.to_nat consumed) l)).
  assert (Lsrc : Z.of_nat (length src) = taken).
  { unfold src, taken. rewrite length_firstn, length_skipn. lia. }
  assert (Eread : fread ((n + 2) * 2)
                    {| f_data := hdr ++ shorts_bytes l;
                       f_pos := Z.of_nat (length hdr) + 2 * consumed; f_eof := e |}
                  = (shorts_bytes src,
                     {| f_data := hdr ++ shorts_bytes l;
                        f_pos := Z.of_nat (length hdr) + 2 * (consumed + taken);
                        f_eof := e || (2 * taken <? (n + 2) * 2) |})).
  { unfold fread. cbn [f_data f_pos f_eof].
    replace (Z.to_nat (Z.of_nat (length hdr) + 2 * consumed))
      with (2 * Z.to_nat consumed + length hdr)%nat by lia.
    rewrite <- skipn_skipn, skipn_app, skipn_all, Nat.sub_diag. cbn [app skipn].
    rewrite shorts_bytes_skipn.
    replace (Z.to_nat ((n + 2) * 2)) with (2 * Z.to_nat (n + 2))%nat by lia.
    rewrite shorts_bytes_firstn. fold src.
    rewrite shorts_bytes_length. f_equal. f_equal; [lia|].
    f_equal. f_equal. lia. }
  rewrite Eread. rewrite shorts_bytes_length.
  replace (Z.of_nat (2 * length src) / 2) with taken
    by (rewrite Nat2Z.inj_mul, Z.mul_comm, Z.div_mul by lia; lia).
  rewrite (to_int_small taken) by (unfold taken; lia).
  set (f' := {| f_data := hdr ++ shorts_bytes l;
                f_pos := Z.of_nat (length hdr) + 2 * (consumed + taken);
                f_eof := e || (2 * taken <? (n + 2) * 2) |}).
  destruct (Z.leb_spec taken 0) as [Hle|Hgt].
  - exists (set_file (Some f') w).
    assert (E0 : count = 0) by (unfold count; lia). rewrite E0.
    cbn [Z.to_nat firstn]. unfold store_prefix at 1. cbn [app length skipn].
    split; [reflexivity|].
    unfold passthrough_at. cbn. repeat split; try assumption. now exists (e || (2 * taken <? (n + 2) * 2)).
  - assert (Hsrc : Forall (fun v => - 32768 <= v <= 32767) src).
    { unfold src. now apply Forall_slice. }
    rewrite <- Lsrc.
    rewrite (proj2 (stored_shorts_mono src) Hsrc).
    rewrite (to_int_small n) by lia.
    unfold resample_to_8khz. cbn [original_sample_rate set_resample_buffer set_resample
                                   set_file]. rewrite Hrate. cbn [Z.eqb Pos.eqb].
    replace (if Z.of_nat (length src) <? n then Z.of_nat (length src) else n)
      with count
      by (unfold count; rewrite Lsrc; destruct (Z.ltb_spec taken n); lia).
    eexists. split.
    + f_equal. f_equal. f_equal. f_equal.
      assert (Hcount : (Z.to_nat count <= length src)%nat) by (unfold count; lia).
      transitivity (firstn (Z.to_nat count) src).
      * destruct (resample_buffer w) as [old|]; [|reflexivity].
        unfold store_prefix. rewrite firstn_app.
        replace (Z.to_nat count - length src)%nat with 0%nat by lia.
        cbn [firstn]. now rewrite app_nil_r.
      * unfold src. rewrite firstn_firstn. f_equal. unfold count. lia.
    + unfold passthrough_at. cbn. rewrite Lsrc. repeat split; try assumption.
      now exists (e || (2 * taken <? (n + 2) * 2)).
Qed.

(** X14. Reading 8000 Hz mono 16-bit samples, for a request of at most
    4094 samples. The call returns the next [min n left] samples, in
    order and unchanged, where [left] is the number of samples left in
    the stream; but it moves the stream forward by [min (n + 2) left]
    samples: up to two samples after those returned are consumed and
    never returned by a later call. *)
Theorem passthrough_read_returns_next_samples :
  forall (hdr : list byte) (l : list Z) (consumed : Z) (w : wav_enhanced_t)
         (buf : list Z) (n : Z),
    passthrough_at hdr l consumed w ->
    Forall (fun v => - 32768 <= v <= 32767) l ->
    0 <= consumed <= Z.of_nat (length l) ->
    0 <= n <= 4094 ->
    let taken := Z.min (n + 2) (Z.of_nat (length l) - consumed) in
    let count := Z.min n taken in
    exists w',
      wav_enhanced_read_samples_16bit_mono_8khz (Some w) (Some buf) n
      = Ret (count, Some w',
             Some (store_prefix (firstn (Z.to_nat count) (skipn (Z.to_nat consumed) l)) buf))
      /\ passthrough_at hdr l (consumed + taken) w'.
Proof. exact read_passthrough. Qed.

Lemma opened_passthrough (l : list Z) :
  passthrough_at (write_wav_header 8000 1 16 (Z.of_nat (length (shorts_bytes l)))) l 0
    (opened (wav_file 8000 1 16 (shorts_bytes l)) (set_original 1 1 8000 16 wav_zero) 44
       (Z.of_nat (length (shorts_bytes l)))).
Proof.
  unfold passthrough_at, opened. cbn [file original_sample_rate original_channels
    original_bits_per_sample resample_ratio resample_buffer_size set_original wav_zero].
  repeat split. exists false. unfold wav_file. do 2 f_equal.
Qed.

Lemma passthrough_read_returns_next_samples_witness :
  exists w',
    wav_enhanced_read_samples_16bit_mono_8khz
      (Some (opened (wav_file 8000 1 16 (shorts_bytes [10; 20; 30; 40; 50; 60]))
               (set_original 1 1 8000 16 wav_zero) 44
               (Z.of_nat (length (shorts_bytes [10; 20; 30; 40; 50; 60])))))
      (Some [0; 0; 0]) 3
    = Ret (Z.min 3 (Z.min (3 + 2) (Z.of_nat (length [10; 20; 30; 40; 50; 60]) - 0)),
           Some w',
           Some (store_prefix
                   (firstn (Z.to_nat (Z.min 3 (Z.min (3 + 2)
                                        (Z.of_nat (length [10; 20; 30; 40; 50; 60]) - 0))))
                      (skipn (Z.to_nat 0) [10; 20; 30; 40; 50; 60])) [0; 0; 0]))
    /\ passthrough_at
         (write_wav_header 8000 1 16
            (Z.of_nat (length (shorts_bytes [10; 20; 30; 40; 50; 60]))))
         [10; 20; 30; 40; 50; 60]
         (0 + Z.min (3 + 2) (Z.of_nat (length [10; 20; 30; 40; 50; 60]) - 0)) w'.
Proof.
  apply (passthrough_read_returns_next_samples _ [10; 20; 30; 40; 50; 60] 0 _ [0; 0; 0] 3).
  - apply opened_passthrough.
  - repeat constructor; lia.
  - cbn. lia.
  - lia.
Defined.

(** ** Written, closed, opened and read *)

Lemma store_prefix_all (l buf : list Z) :
  length buf = length l -> store_prefix l buf = l.
Proof.
  intros H. unfold store_prefix. rewrite skipn_all2 by lia. apply app_nil_r.
Qed.

Lemma written_then_read (calls : list (list Z)) :
  let l := concat calls in
  let K := Z.of_nat (length l) in
  Forall (fun v => - 32768 <= v <= 32767) l ->
  K <= 4094 ->
  exists f w,
    wav_enhanced_close (append_all (wav_enhanced_open_write (Some fopen_wb)) calls) = Some f
    /\ open_file (f_data f) = Ret (Some w)
    /\ (original_sample_rate w, original_channels w, original_bits_per_sample w,
        total_samples w) = (8000, 1, 16, K)
    /\ returned (read_from (open_file (f_data f)) K) = Some (K, Some l).
Proof.
  intros l K Hall HK.
  destruct open_write_appended as (w0 & Hopen & Happ0).
  destruct (append_all_appended _ calls [] w0 Happ0) as (w1 & Hall1 & Happ1).
  cbn [app] in Happ1. fold l in Happ1.
  pose proof (close_appended l w1 Happ1 ltac:(fold K; lia)) as Hclose. fold K in Hclose.
  rewrite Hopen, Hall1, Hclose. eexists. eexists. split; [reflexivity|].
  cbn [f_data].
  assert (Lb : Z.of_nat (length (shorts_bytes l)) = 2 * K)
    by (rewrite shorts_bytes_length; unfold K; lia).
  assert (Efile : write_wav_header 8000 1 16 (2 * K) ++ shorts_bytes l
                  = wav_file 8000 1 16 (shorts_bytes l))
    by (unfold wav_file; now rewrite Lb).
  rewrite Efile.
  pose proof (open_wav_file 8000 1 16 (shorts_bytes l) ltac:(lia) ltac:(lia) ltac:(lia)
                ltac:(lia)) as Ho.
  cbv zeta in Ho. change (frame_bytes (set_original 1 1 8000 16 wav_zero) =? 0)
    with false in Ho. cbv iota in Ho.
  rewrite Ho. split; [reflexivity|]. split.
  - unfold opened. cbn [original_sample_rate original_channels original_bits_per_sample
                         total_samples set_original wav_zero].
    change (frame_bytes (set_original 1 1 8000 16 wav_zero)) with 2.
    rewrite Lb, Z.mul_comm, Z.div_mul by lia. reflexivity.
  - unfold read_from.
    destruct (read_passthrough _ l 0 _ (repeat 0 (Z.to_nat K)) K (opened_passthrough l)
                Hall ltac:(lia) ltac:(lia)) as (w' & Hread & _).
    rewrite Hread. unfold returned.
    replace (Z.min K (Z.min (K + 2) (Z.of_nat (length l) - 0))) with K by (unfold K; lia).
    cbn [Z.to_nat skipn]. unfold K at 2. rewrite Nat2Z.id, firstn_all.
    rewrite store_prefix_all by (rewrite repeat_length; unfold K; lia).
    reflexivity.
Qed.

(** X15. Samples written through the container writer come back through
    the reader: a file produced by [wav_enhanced_open_write], any sequence
    of appends and [wav_enhanced_close] opens as 8000 Hz, mono, 16 bits with
    a frame count equal to the number of samples written, and one read of
    that many samples returns them all, in order and unchanged (for up to
    4094 samples, the most one call can be relied on to return). *)
Theorem written_samples_are_read_back :
  forall calls : list (list Z),
    let l := concat calls in
    let K := Z.of_nat (length l) in
    Forall (fun v => - 32768 <= v <= 32767) l ->
    K <= 4094 ->
    exists f w,
      wav_enhanced_close (append_all (wav_enhanced_open_write (Some fopen_wb)) calls)
      = Some f
      /\ open_file (f_data f) = Ret (Some w)
      /\ (original_sample_rate w, original_channels w, original_bits_per_sample w,
          total_samples w) = (8000, 1, 16, K)
      /\ returned (read_from (open_file (f_data f)) K) = Some (K, Some l).
Proof. exact written_then_read. Qed.

Lemma written_samples_are_read_back_witness :
  exists f w,
    wav_enhanced_close
      (append_all (wav_enhanced_open_write (Some fopen_wb)) [[1; -2]; []; [300]])
    = Some f
    /\ open_file (f_data f) = Ret (Some w)
    /\ (original_sample_rate w, original_channels w, original_bits_per_sample w,
        total_samples w)
       = (8000, 1, 16, Z.of_nat (length (concat [[1; -2]; []; [300]])))
    /\ returned (read_from (open_file (f_data f))
                   (Z.of_nat (length (concat [[1; -2]; []; [300]]))))
       = Some (Z.of_nat (length (concat [[1; -2]; []; [300]])),
               Some (concat [[1; -2]; []; [300]])).
Proof.
  apply (written_samples_are_read_back [[1; -2]; []; [300]]).
  - repeat constructor; lia.
  - cbn. lia.
Defined.

(** ** wav_util: reading *)

Lemma fread_items_stream size count f :
  0 <= size -> 0 <= count -> 0 <= f_pos f ->
  let '(bytes, items, f') := fread_items size count f in
  f_data f' = f_data f
  /\ f_pos f' = f_pos f + Z.of_nat (length bytes)
  /\ 0 <= items <= count
  /\ items * size <= Z.of_nat (length bytes)
  /\ bytes = firstn (Z.to_nat (size * count)) (skipn (Z.to_nat (f_pos f)) (f_data f))
  /\ items = (if size =? 0 then 0 else Z.of_nat (length bytes) / size).
Proof.
  intros Hs Hc Hp. unfold fread_items.
  destruct (Z.eqb_spec size 0) as [->|Hs0].
  - cbn [orb]. cbn [length Z.of_nat firstn Z.mul Z.to_nat]. repeat split; try lia.
  - destruct (Z.eqb_spec count 0) as [->|Hc0].
    + cbn [orb length Z.of_nat]. rewrite Z.mul_0_r. cbn [Z.to_nat firstn].
      repeat split; try lia.
    + cbn [orb]. unfold fread. cbn [f_data f_pos].
      set (got := firstn _ _).
      assert (Lg : Z.of_nat (length got) <= size * count)
        by (unfold got; rewrite length_firstn; nia).
      repeat split; try reflexivity.
      * apply Z.div_pos; lia.
      * apply Z.div_le_upper_bound; [lia|]. nia.
      * rewrite Z.mul_comm. apply Z.mul_div_le. lia.
Qed.

Lemma wav_read_samples_frame w f buf num_samples :
  WavUtil.file w = Some f ->
  0 <= f_pos f ->
  0 <= num_samples < 2 ^ 32 ->
  0 <= WavUtil.num_channels (WavUtil.header w) ->
  0 <= WavUtil.bits_per_sample (WavUtil.header w) ->
  match WavUtil.wav_read_samples (Some w) (Some buf) num_samples with
  | (count, Some w', Some buf') =>
      (exists f', WavUtil.file w' = Some f' /\ f_data f' = f_data f
                  /\ f_pos f <= f_pos f' /\ (0 < count -> f_pos f < f_pos f'))
      /\ WavUtil.header w' = WavUtil.header w
      /\ WavUtil.total_samples w' = WavUtil.total_samples w
  | _ => False
  end.
Proof.
  intros Hf Hpos Hn Hch Hbits. unfold WavUtil.wav_read_samples. rewrite Hf.
  set (str := if _ >? _ then _ else _).
  assert (Hstr : 0 <= str < 2 ^ 32).
  { unfold str. destruct (_ >? _); [apply to_uint32_range | exact Hn]. }
  destruct (Z.eqb_spec str 0) as [E0|Hne].
  { split; [|split; reflexivity]. exists f. repeat split; try assumption; lia. }
  destruct (WavUtil.bits_per_sample (WavUtil.header w) =? 16).
  - pose proof (fread_items_stream
                  (WavUtil.bits_per_sample (WavUtil.header w) / 8
                   * WavUtil.num_channels (WavUtil.header w)) str f) as H.
    destruct (fread_items _ str f) as [[bytes items] f'].
    destruct H as (D & P & Hi & Hb & _ & Ei); try lia.
    { apply Z.mul_nonneg_nonneg; [apply Z.div_pos; lia | lia]. }
    split; [|split; reflexivity]. exists f'. cbn [WavUtil.file].
    repeat split; try assumption; try lia.
    intros Hc. assert (items <> 0) by (intros ->; cbn in Hc; lia).
    destruct (Z.eqb_spec (WavUtil.bits_per_sample (WavUtil.header w) / 8
                          * WavUtil.num_channels (WavUtil.header w)) 0); [lia|].
    assert (0 <= WavUtil.bits_per_sample (WavUtil.header w) / 8
                 * WavUtil.num_channels (WavUtil.header w))
      by (apply Z.mul_nonneg_nonneg; [apply Z.div_pos; lia | lia]).
    nia.
  - destruct (WavUtil.bits_per_sample (WavUtil.header w) =? 8).
    + pose proof (fread_items_stream (WavUtil.num_channels (WavUtil.header w)) str f) as H.
      destruct (fread_items _ str f) as [[bytes items] f'].
      destruct H as (D & P & Hi & Hb & _ & Ei); try lia.
      split; [|split; reflexivity]. exists f'. cbn [WavUtil.file].
      repeat split; try assumption; try lia.
      intros Hc. assert (items <> 0) by (intros ->; cbn in Hc; lia).
      destruct (Z.eqb_spec (WavUtil.num_channels (WavUtil.header w)) 0); [lia|].
      nia.
    + split; [|split; reflexivity]. exists f. repeat split; try assumption; try lia.
Qed.

(** ** wav_util: the header written and read back *)

Lemma header_bytes_length h : length (WavUtil.header_bytes h) = 44%nat.
Proof. reflexivity. Qed.

Lemma header_of_header_bytes h data :
  0 <= WavUtil.chunk_size h < 2 ^ 32 ->
  0 <= WavUtil.fmt_chunk_size h < 2 ^ 32 ->
  0 <= WavUtil.audio_format h < 2 ^ 16 ->
  0 <= WavUtil.num_channels h < 2 ^ 16 ->
  0 <= WavUtil.sample_rate h < 2 ^ 32 ->
  0 <= WavUtil.byte_rate h < 2 ^ 32 ->
  0 <= WavUtil.block_align h < 2 ^ 16 ->
  0 <= WavUtil.bits_per_sample h < 2 ^ 16 ->
  0 <= WavUtil.data_size h < 2 ^ 32 ->
  WavUtil.header_of (firstn 44 (WavUtil.header_bytes h ++ data)) = h.
Proof.
  intros H1 H2 H3 H4 H5 H6 H7 H8 H9.
  rewrite firstn_app, header_bytes_length, Nat.sub_diag, firstn_O, app_nil_r.
  rewrite firstn_all2 by (rewrite header_bytes_length; lia).
  unfold WavUtil.header_of.
  change 4 with (Z.of_nat 4) at 1. change 16 with (Z.of_nat 16) at 1.
  change 20 with (Z.of_nat 20). change 22 with (Z.of_nat 22).
  change 24 with (Z.of_nat 24). change 28 with (Z.of_nat 28).
  change 32 with (Z.of_nat 32) at 1. change 34 with (Z.of_nat 34).
  change 40 with (Z.of_nat 40).
  rewrite !load_slice by (rewrite header_bytes_length; lia).
  change (firstn 4 (skipn 4 (WavUtil.header_bytes h)))
    with (le_split 4 (WavUtil.chunk_size h)).
  change (firstn 4 (skipn 16 (WavUtil.header_bytes h)))
    with (le_split 4 (WavUtil.fmt_chunk_size h)).
  change (firstn 2 (skipn 20 (WavUtil.header_bytes h)))
    with (le_split 2 (WavUtil.audio_format h)).
  change (firstn 2 (skipn 22 (WavUtil.header_bytes h)))
    with (le_split 2 (WavUtil.num_channels h)).
  change (firstn 4 (skipn 24 (WavUtil.header_bytes h)))
    with (le_split 4 (WavUtil.sample_rate h)).
  change (firstn 4 (skipn 28 (WavUtil.header_bytes h)))
    with (le_split 4 (WavUtil.byte_rate h)).
  change (firstn 2 (skipn 32 (WavUtil.header_bytes h)))
    with (le_split 2 (WavUtil.block_align h)).
  change (firstn 2 (skipn 34 (WavUtil.header_bytes h)))
    with (le_split 2 (WavUtil.bits_per_sample h)).
  change (firstn 4 (skipn 40 (WavUtil.header_bytes h)))
    with (le_split 4 (WavUtil.data_size h)).
  rewrite !le_combine_split.
  change (Z.of_nat 4 * 8) with 32. change (Z.of_nat 2 * 8) with 16.
  rewrite !Z.mod_small by assumption. now destruct h.
Qed.

Lemma tag_at_true bytes off tag :
  firstn 4 (skipn off bytes) = tag -> WavUtil.tag_at bytes off tag = true.
Proof.
  intros E. unfold WavUtil.tag_at. now destruct (list_eq_dec _ _ _).
Qed.

Lemma wav_open_read_written h data :
  0 <= WavUtil.chunk_size h < 2 ^ 32 ->
  0 <= WavUtil.fmt_chunk_size h < 2 ^ 32 ->
  0 <= WavUtil.audio_format h < 2 ^ 16 ->
  0 <= WavUtil.num_channels h < 2 ^ 16 ->
  0 <= WavUtil.sample_rate h < 2 ^ 32 ->
  0 <= WavUtil.byte_rate h < 2 ^ 32 ->
  0 <= WavUtil.block_align h < 2 ^ 16 ->
  0 <= WavUtil.bits_per_sample h < 2 ^ 16 ->
  0 <= WavUtil.data_size h < 2 ^ 32 ->
  let frame :=
    to_uint32 (Z.quot (to_int (WavUtil.num_channels h * WavUtil.bits_per_sample h)) 8) in
  WavUtil.wav_open_read (Some (fopen_rb (WavUtil.header_bytes h ++ data)))
  = if frame =? 0 then Trap
    else Ret (Some (WavUtil.mk_wav_file
                      (Some {| f_data := WavUtil.header_bytes h ++ data; f_pos := 44;
                               f_eof := false |})
                      h 0 0 (WavUtil.data_size h / frame))).
Proof.
  intros H1 H2 H3 H4 H5 H6 H7 H8 H9 frame.
  unfold WavUtil.wav_open_read, fread_items, fopen_rb.
  change ((44 =? 0) || (1 =? 0)) with false. cbv iota.
  unfold fread. cbn [f_data f_pos f_eof]. change (Z.to_nat 0) with 0%nat.
  change (Z.to_nat (44 * 1)) with 44%nat. cbn [skipn].
  set (bytes := firstn 44 (WavUtil.header_bytes h ++ data)).
  assert (Eb : bytes = WavUtil.header_bytes h).
  { unfold bytes. rewrite firstn_app, header_bytes_length, Nat.sub_diag, firstn_O, app_nil_r.
    apply firstn_all2. rewrite header_bytes_length. lia. }
  assert (Lb : length bytes = 44%nat) by (rewrite Eb; apply header_bytes_length).
  rewrite Lb. change (Z.of_nat 44 / 44 =? 1) with true. cbn [negb].
  rewrite !tag_at_true by (rewrite Eb; reflexivity). cbn [negb orb].
  unfold bytes. rewrite header_of_header_bytes by assumption.
  fold frame. destruct (frame =? 0); reflexivity.
Qed.

(** X16. The 44-byte header [wav_close] and [wav_open_write] lay down is
    read back by [wav_open_read]: on a file made of the bytes of a header
    whose fields fit their widths, followed by any data, the open returns a
    handle holding exactly those fields, positioned at offset 44, with a
    frame count of the declared data size divided by the frame size; when
    the frame size [channels * bits / 8] is zero the open traps. *)
Theorem wav_open_read_reads_back_the_header :
  forall (h : WavUtil.wav_header_t) (data : list byte),
    0 <= WavUtil.chunk_size h < 2 ^ 32 ->
    0 <= WavUtil.fmt_chunk_size h < 2 ^ 32 ->
    0 <= WavUtil.audio_format h < 2 ^ 16 ->
    0 <= WavUtil.num_channels h < 2 ^ 16 ->
    0 <= WavUtil.sample_rate h < 2 ^ 32 ->
    0 <= WavUtil.byte_rate h < 2 ^ 32 ->
    0 <= WavUtil.block_align h < 2 ^ 16 ->
    0 <= WavUtil.bits_per_sample h < 2 ^ 16 ->
    0 <= WavUtil.data_size h < 2 ^ 32 ->
    let frame :=
      to_uint32 (Z.quot (to_int (WavUtil.num_channels h * WavUtil.bits_per_sample h)) 8) in
    WavUtil.wav_open_read (Some (fopen_rb (WavUtil.header_bytes h ++ data)))
    = if frame =? 0 then Trap
      else Ret (Some (WavUtil.mk_wav_file
                        (Some {| f_data := WavUtil.header_bytes h ++ data; f_pos := 44;
                                 f_eof := false |})
                        h 0 0 (WavUtil.data_size h / frame))).
Proof. exact wav_open_read_written. Qed.

Lemma wav_open_read_reads_back_the_header_witness :
  WavUtil.wav_open_read
    (Some (fopen_rb (WavUtil.header_bytes (WavUtil.mk_header 40 16 1 2 22050 44100 2 8 4)
                     ++ [Byte.x80; Byte.x81; Byte.x82; Byte.x83])))
  = if to_uint32 (Z.quot (to_int (2 * 8)) 8) =? 0 then Trap
    else Ret (Some (WavUtil.mk_wav_file
                      (Some {| f_data := WavUtil.header_bytes
                                           (WavUtil.mk_header 40 16 1 2 22050 44100 2 8 4)
                                         ++ [Byte.x80; Byte.x81; Byte.x82; Byte.x83];
                               f_pos := 44; f_eof := false |})
                      (WavUtil.mk_header 40 16 1 2 22050 44100 2 8 4) 0 0
                      (4 / to_uint32 (Z.quot (to_int (2 * 8)) 8)))).
Proof.
  apply (wav_open_read_reads_back_the_header
           (WavUtil.mk_header 40 16 1 2 22050 44100 2 8 4)
           [Byte.x80; Byte.x81; Byte.x82; Byte.x83]); cbn; lia.
Defined.

(** ** wav_util: reading mono 16-bit samples in order *)

Lemma wav_read_samples_next hdr l consumed w buf n :
  sequential_at hdr l consumed w ->
  Forall (fun v => - 32768 <= v <= 32767) l ->
  0 <= consumed <= Z.of_nat (length l) ->
  Z.of_nat (length l) < 2 ^ 31 ->
  0 <= n < 2 ^ 31 ->
  let count := Z.min n (Z.of_nat (length l) - consumed) in
  exists w',
    WavUtil.wav_read_samples (Some w) (Some buf) n
    = (count, Some w',
       Some (store_prefix (firstn (Z.to_nat count) (skipn (Z.to_nat consumed) l)) buf))
    /\ sequential_at hdr l (consumed + count) w'.
Proof.
  intros ((e & Hf) & Hch & Hbits & Hsr & Htot) Hall Hc HK Hn count.
  unfold WavUtil.wav_read_samples. rewrite Hf, Hsr, Htot, Hch, Hbits.
  change (16 =? 16) with true. cbv iota. change (16 / 8 * 1) with 2.
  replace (to_uint32 (consumed + n)) with (consumed + n)
    by (symmetry; apply wrap_small; lia).
  assert (Estr : (if consumed + n >? Z.of_nat (length l)
                  then to_uint32 (Z.of_nat (length l) - consumed) else n) = count).
  { unfold count. destruct (Z.gtb_spec (consumed + n) (Z.of_nat (length l))).
    - unfold to_uint32. rewrite wrap_small by lia. lia.
    - lia. }
  rewrite Estr.
  destruct (Z.eqb_spec count 0) as [E0|Hne].
  { exists w. rewrite E0. cbn [Z.to_nat firstn]. unfold store_prefix. cbn [app length skipn].
    split; [reflexivity|]. rewrite Z.add_0_r.
    unfold sequential_at. repeat split; try assumption. now exists e. }
  assert (Hcount : 0 < count) by (unfold count in *; lia).
  set (src := firstn (Z.to_nat count) (skipn (Z.to_nat consumed) l)).
  assert (Lsrc : Z.of_nat (length src) = count).
  { unfold src, count. rewrite length_firstn, length_skipn. lia. }
  unfold fread_items. change (2 =? 0) with false.
  destruct (Z.eqb_spec count 0) as [E0|_]; [contradiction|]. cbn [orb].
  assert (Eread : fread (2 * count)
                    {| f_data := hdr ++ shorts_bytes l;
                       f_pos := Z.of_nat (length hdr) + 2 * consumed; f_eof := e |}
                  = (shorts_bytes src,
                     {| f_data := hdr ++ shorts_bytes l;
                        f_pos := Z.of_nat (length hdr) + 2 * (consumed + count);
                        f_eof := e |})).
  { unfold fread. cbn [f_data f_pos f_eof].
    replace (Z.to_nat (Z.of_nat (length hdr) + 2 * consumed))
      with (2 * Z.to_nat consumed + length hdr)%nat by lia.
    rewrite <- skipn_skipn, skipn_app, skipn_all, Nat.sub_diag. cbn [app skipn].
    rewrite shorts_bytes_skipn.
    replace (Z.to_nat (2 * count)) with (2 * Z.to_nat count)%nat by lia.
    rewrite shorts_bytes_firstn. fold src.
    rewrite shorts_bytes_length. f_equal. f_equal; [lia|].
    replace (Z.of_nat (2 * length src) <? 2 * count) with false
      by (symmetry; apply Z.ltb_ge; lia).
    apply orb_false_r. }
  rewrite Eread. rewrite shorts_bytes_length.
  replace (Z.of_nat (2 * length src) / 2) with count
    by (rewrite Nat2Z.inj_mul, Z.mul_comm, Z.div_mul by lia; lia).
  rewrite Z.mul_1_r, (to_int_small count) by lia.
  eexists. split.
  - f_equal. f_equal. f_equal.
    assert (Hsrc : Forall (fun v => - 32768 <= v <= 32767) src)
      by (unfold src; now apply Forall_slice).
    rewrite <- (read_buffer_all src) at 2. rewrite <- Lsrc.
    apply map_ext_in. intros k Hk. apply in_map_iff in Hk.
    destruct Hk as (i & <- & Hi). apply in_seq in Hi.
    rewrite sample_16_shorts by lia.
    apply to_short_small. pose proof (short_at_range src (Z.of_nat i) Hsrc). lia.
  - unfold sequential_at. cbn [WavUtil.file WavUtil.header WavUtil.samples_read
                                WavUtil.total_samples].
    repeat split; try assumption.
    + now exists e.
    + unfold to_uint32. apply wrap_small. lia.
Qed.

(** X17. [wav_read_samples] on mono 16-bit data returns the samples in
    order and loses none: with [consumed] samples already read out of the
    [length l] the header declares, a request for [n] returns the next
    [min n (length l - consumed)] samples, unchanged, and leaves the stream
    just after them; the request is clamped to the declared count, and at
    the end the call returns 0. *)
Theorem wav_read_samples_returns_next_samples :
  forall (hdr : list byte) (l : list Z) (consumed : Z) (w : WavUtil.wav_file_t)
         (buf : list Z) (n : Z),
    sequential_at hdr l consumed w ->
    Forall (fun v => - 32768 <= v <= 32767) l ->
    0 <= consumed <= Z.of_nat (length l) ->
    Z.of_nat (length l) < 2 ^ 31 ->
    0 <= n < 2 ^ 31 ->
    let count := Z.min n (Z.of_nat (length l) - consumed) in
    exists w',
      WavUtil.wav_read_samples (Some w) (Some buf) n
      = (count, Some w',
         Some (store_prefix (firstn (Z.to_nat count) (skipn (Z.to_nat consumed) l)) buf))
      /\ sequential_at hdr l (consumed + count) w'.
Proof. exact wav_read_samples_next. Qed.

Lemma sequential_at_start (hdr : list byte) (h : WavUtil.wav_header_t) (l : list Z) :
  length hdr = 44%nat ->
  WavUtil.num_channels h = 1 ->
  WavUtil.bits_per_sample h = 16 ->
  sequential_at hdr l 0
    (WavUtil.mk_wav_file
       (Some {| f_data := hdr ++ shorts_bytes l; f_pos := 44; f_eof := false |})
       h 0 0 (Z.of_nat (length l))).
Proof.
  intros Hlen Hch Hbits. unfold sequential_at.
  cbn [WavUtil.file WavUtil.header WavUtil.samples_read WavUtil.total_samples].
  split; [|now repeat split]. exists false. rewrite Hlen. reflexivity.
Qed.

Lemma wav_read_samples_returns_next_samples_witness :
  exists w',
    WavUtil.wav_read_samples
      (Some (WavUtil.mk_wav_file
               (Some {| f_data := WavUtil.header_bytes
                                    (WavUtil.mk_header 42 16 1 1 8000 16000 2 16 6)
                                  ++ shorts_bytes [5; -6; 7];
                        f_pos := 44; f_eof := false |})
               (WavUtil.mk_header 42 16 1 1 8000 16000 2 16 6) 0 0
               (Z.of_nat (length [5; -6; 7]))))
      (Some [0; 0; 0; 0]) 4
    = (Z.min 4 (Z.of_nat (length [5; -6; 7]) - 0), Some w',
       Some (store_prefix
               (firstn (Z.to_nat (Z.min 4 (Z.of_nat (length [5; -6; 7]) - 0)))
                  (skipn (Z.to_nat 0) [5; -6; 7])) [0; 0; 0; 0]))
    /\ sequential_at
         (WavUtil.header_bytes (WavUtil.mk_header 42 16 1 1 8000 16000 2 16 6))
         [5; -6; 7] (0 + Z.min 4 (Z.of_nat (length [5; -6; 7]) - 0)) w'.
Proof.
  apply (wav_read_samples_returns_next_samples
           (WavUtil.header_bytes (WavUtil.mk_header 42 16 1 1 8000 16000 2 16 6))
           [5; -6; 7] 0 _ [0; 0; 0; 0] 4).
  - now apply sequential_at_start.
  - repeat constructor; lia.
  - cbn. lia.
  - cbn. lia.
  - lia.
Defined.

(** X21. [wav_read_samples], whatever the header says: a call on an open
    stream with a buffer leaves the file's content, the header and the
    frame count as they were, never moves the position backwards, and
    moves it forwards whenever it returns a positive count. *)
Theorem wav_read_samples_keeps_the_stream :
  forall (w : WavUtil.wav_file_t) (f : FILE) (buf : list Z) (num_samples : Z),
    WavUtil.file w = Some f ->
    0 <= f_pos f ->
    0 <= num_samples < 2 ^ 32 ->
    0 <= WavUtil.num_channels (WavUtil.header w) ->
    0 <= WavUtil.bits_per_sample (WavUtil.header w) ->
    match WavUtil.wav_read_samples (Some w) (Some buf) num_samples with
    | (count, Some w', Some buf') =>
        (exists f', WavUtil.file w' = Some f' /\ f_data f' = f_data f
                    /\ f_pos f <= f_pos f' /\ (0 < count -> f_pos f < f_pos f'))
        /\ WavUtil.header w' = WavUtil.header w
        /\ WavUtil.total_samples w' = WavUtil.total_samples w
    | _ => False
    end.
Proof. exact wav_read_samples_frame. Qed.

Lemma wav_read_samples_keeps_the_stream_witness :
  match
    WavUtil.wav_read_samples
      (Some (WavUtil.mk_wav_file
               (Some {| f_data := steps_8000; f_pos := 44; f_eof := false |})
               (WavUtil.header_of (firstn 44 steps_8000)) 0 0 10))
      (Some [0; 0; 0]) 3
  with
  | (count, Some w', Some buf') =>
      (exists f', WavUtil.file w' = Some f'
                  /\ f_data f' = f_data {| f_data := steps_8000; f_pos := 44; f_eof := false |}
                  /\ f_pos {| f_data := steps_8000; f_pos := 44; f_eof := false |} <= f_pos f'
                  /\ (0 < count ->
                      f_pos {| f_data := steps_8000; f_pos := 44; f_eof := false |}
                      < f_pos f'))
      /\ WavUtil.header w'
         = WavUtil.header
             (WavUtil.mk_wav_file
                (Some {| f_data := steps_8000; f_pos := 44; f_eof := false |})
                (WavUtil.header_of (firstn 44 steps_8000)) 0 0 10)
      /\ WavUtil.total_samples w'
         = WavUtil.total_samples
             (WavUtil.mk_wav_file
                (Some {| f_data := steps_8000; f_pos := 44; f_eof := false |})
                (WavUtil.header_of (firstn 44 steps_8000)) 0 0 10)
  | _ => False
  end.
Proof.
  apply (wav_read_samples_keeps_the_stream
           (WavUtil.mk_wav_file
              (Some {| f_data := steps_8000; f_pos := 44; f_eof := false |})
              (WavUtil.header_of (firstn 44 steps_8000)) 0 0 10)
           {| f_data := steps_8000; f_pos := 44; f_eof := false |} [0; 0; 0] 3).
  - reflexivity.
  - cbn. lia.
  - lia.
  - vm_compute. discriminate.
  - vm_compute. discriminate.
Defined.

(** ** The encode loop *)

Lemma zero_tail_length speech samples_read samples_per_frame :
  length speech = Z.to_nat samples_per_frame ->
  0 <= samples_read <= samples_per_frame ->
  length (Encode.zero_tail speech samples_read samples_per_frame)
  = Z.to_nat samples_per_frame.
Proof.
  intros L H. unfold Encode.zero_tail.
  rewrite !length_app, length_firstn, repeat_length, length_skipn. lia.
Qed.

Section EncodeLoopProperties.

Variable CODEC2 : Type.
Variable codec2_encode : CODEC2 -> list Z -> CODEC2 * list byte.
Variable R : Type.
Variable read_frame : R -> list Z -> Z -> outcome (Z * R * list Z).

(** The input side as the loop needs it: a property of the handle kept by
    every read, and a measure that a read never increases and a read
    returning samples decreases. *)
Variable reading : R -> Prop.
Variable left : R -> Z.
Variable samples_per_frame : Z.

Hypothesis read_frame_reads :
  forall wav_in speech,
    reading wav_in ->
    length speech = Z.to_nat samples_per_frame ->
    match read_frame wav_in speech samples_per_frame with
    | Ret (samples_read, wav_in', speech') =>
        reading wav_in' /\ left wav_in' <= left wav_in
        /\ length speech' = Z.to_nat samples_per_frame
        /\ (0 < samples_read -> 0 <= left wav_in' < left wav_in
                                /\ samples_read <= samples_per_frame)
    | Trap => True
    | OutOfFuel => False
    end.

Lemma encode_loop_runs bytes_per_frame (fuel : nat) :
  forall wav_in speech codec2 (written : list byte) frames frames_encoded,
    reading wav_in ->
    length speech = Z.to_nat samples_per_frame ->
    Z.max 0 (left wav_in) < Z.of_nat fuel ->
    0 <= frames_encoded ->
    frames_encoded + Z.max 0 (left wav_in) < 2 ^ 31 ->
    match
      Encode.encode_loop CODEC2 codec2_encode R read_frame fuel samples_per_frame
        bytes_per_frame wav_in speech codec2
        {| f_data := written; f_pos := Z.of_nat (length written); f_eof := false |}
        frames frames_encoded
    with
    | Ret (_, output, all_frames, count) =>
        exists new_frames,
          all_frames = frames ++ new_frames
          /\ Forall (fun fr => length fr = Z.to_nat samples_per_frame) new_frames
          /\ count = frames_encoded + Z.of_nat (length new_frames)
          /\ Z.of_nat (length new_frames) <= Z.max 0 (left wav_in)
          /\ output
             = {| f_data := written
                            ++ Encode.encoded_stream CODEC2 codec2_encode codec2
                                 bytes_per_frame new_frames;
                  f_pos := Z.of_nat (length (written
                            ++ Encode.encoded_stream CODEC2 codec2_encode codec2
                                 bytes_per_frame new_frames));
                  f_eof := false |}
    | Trap => True
    | OutOfFuel => False
    end.
Proof.
  induction fuel as [|fuel IH];
    intros wav_in speech codec2 written frames n Hr Hl Hfuel Hn Hbound.
  - lia.
  - cbn [Encode.encode_loop].
    pose proof (read_frame_reads wav_in speech Hr Hl) as Hread.
    destruct (read_frame wav_in speech samples_per_frame)
      as [[[samples_read wav_in'] speech']| |]; [|exact I|exact Hread].
    destruct Hread as (Hr' & Hle & Hl' & Hpos).
    destruct (Z.gtb_spec samples_read 0) as [Hgt|Hle0].
    + destruct (Hpos Hgt) as [Hlt Hsr].
      set (padded := if samples_read <? samples_per_frame
                     then Encode.zero_tail speech' samples_read samples_per_frame
                     else speech').
      assert (Lp : length padded = Z.to_nat samples_per_frame).
      { unfold padded. destruct (samples_read <? samples_per_frame); [|exact Hl'].
        apply zero_tail_length; [exact Hl'|lia]. }
      destruct (codec2_encode codec2 padded) as [codec2' codec2_bits] eqn:Eenc.
      rewrite fwrite_at_end.
      rewrite (to_int_small (n + 1)) by lia.
      specialize (IH wav_in' padded codec2'
                    (written ++ Encode.buffer_bytes codec2_bits bytes_per_frame)
                    (frames ++ [padded]) (n + 1) Hr' Lp ltac:(lia) ltac:(lia) ltac:(lia)).
      destruct (Encode.encode_loop _ _ _ _ _ _ _ _ _ _ _ _ _)
        as [[[[w_end output] all_frames] count]| |]; [|exact I|exact IH].
      destruct IH as (new_frames & -> & Hall & -> & Hcount & ->).
      exists (padded :: new_frames). cbn [length Encode.encoded_stream].
      rewrite Eenc. rewrite <- !app_assoc. cbn [app].
      repeat split; try reflexivity.
      * constructor; assumption.
      * lia.
      * lia.
    + exists []. cbn [length Encode.encoded_stream]. rewrite !app_nil_r.
      repeat split; try reflexivity; try constructor; lia.
Qed.

End EncodeLoopProperties.

(** ** The encode drivers *)

Lemma read_enhanced_reads content samples_per_frame :
  0 <= samples_per_frame < 2 ^ 31 ->
  forall wav_in speech,
    (exists w f, wav_in = Some w /\ file w = Some f /\ f_data f = content
                 /\ 0 <= f_pos f) ->
    length speech = Z.to_nat samples_per_frame ->
    match Encode.read_enhanced wav_in speech samples_per_frame with
    | Ret (samples_read, wav_in', speech') =>
        (exists w f, wav_in' = Some w /\ file w = Some f /\ f_data f = content
                     /\ 0 <= f_pos f)
        /\ match wav_in' with
           | Some w => match file w with Some f => remaining f | None => 0 end
           | None => 0
           end
           <= match wav_in with
              | Some w => match file w with Some f => remaining f | None => 0 end
              | None => 0
              end
        /\ length speech' = Z.to_nat samples_per_frame
        /\ (0 < samples_read ->
            0 <= match wav_in' with
                 | Some w => match file w with Some f => remaining f | None => 0 end
                 | None => 0
                 end
              < match wav_in with
                | Some w => match file w with Some f => remaining f | None => 0 end
                | None => 0
                end
            /\ samples_read <= samples_per_frame)
    | Trap => True
    | OutOfFuel => False
    end.
Proof.
  intros Hspf wav_in speech (w & f & -> & Hf & Hd & Hp) Hl.
  unfold Encode.read_enhanced. unfold to_uint32. rewrite wrap_small by lia.
  pose proof (read_samples_frame w f speech samples_per_frame Hf Hp Hspf) as H.
  destruct (wav_enhanced_read_samples_16bit_mono_8khz _ _ _)
    as [[[count [w'|]] [speech'|]]| |]; try contradiction; [|exact I].
  destruct (malloc_fails _).
  { destruct H as (-> & -> & ->). rewrite Hf.
    split; [exists w, f; repeat split; assumption|].
    split; [lia|]. split; [exact Hl|]. lia. }
  destruct H as (Hc & (f' & Hf' & Hd' & Hle & Hmax & Hlt) & Hlen & _ & _).
  rewrite Hf, Hf'. unfold remaining. rewrite Hd'.
  split; [exists w', f'; repeat split; try assumption; try congruence; lia|].
  split; [lia|]. split; [lia|]. intros Hgt. specialize (Hlt Hgt). lia.
Qed.

Section EncoderProperties.

Variable CODEC2 : Type.
Variable codec2_create : Z -> option CODEC2.
Variable codec2_samples_per_frame : CODEC2 -> Z.
Variable codec2_bits_per_frame : CODEC2 -> Z.
Variable codec2_encode : CODEC2 -> list Z -> CODEC2 * list byte.

Lemma enhanced_encoder_runs mode content codec2 :
  codec2_create mode = Some codec2 ->
  codec2_samples_per_frame codec2 < 2 ^ 31 ->
  Z.of_nat (length content) < 2 ^ 31 ->
  let samples_per_frame := codec2_samples_per_frame codec2 in
  let bits_per_frame := codec2_bits_per_frame codec2 in
  let bytes_per_frame := int_div (to_int (bits_per_frame + 7)) 8 in
  match
    Encode.codec2_encode_enhanced_main CODEC2 codec2_create codec2_samples_per_frame
      codec2_bits_per_frame codec2_encode mode (Some content) (Some fopen_wb)
  with
  | Ret run =>
      (Encode.exit_status run = 1 /\ Encode.speech_frames run = []
       /\ Encode.frames_encoded run = 0)
      \/ (Encode.exit_status run = 0
          /\ Forall (fun fr => length fr = Z.to_nat samples_per_frame)
                    (Encode.speech_frames run)
          /\ Encode.frames_encoded run = Z.of_nat (length (Encode.speech_frames run))
          /\ option_map f_data (Encode.c2_written run)
             = Some (Encode.header_bytes mode samples_per_frame bits_per_frame
                     ++ Encode.encoded_stream CODEC2 codec2_encode codec2 bytes_per_frame
                          (Encode.speech_frames run)))
  | Trap => True
  | OutOfFuel => False
  end.
Proof.
  intros Hcreate Hint Hlen spf bits bpf. unfold Encode.codec2_encode_enhanced_main.
  cbn [option_map]. fold (open_file content).
  pose proof (open_file_terminates content) as Hterm.
  pose proof (open_state content) as Hstate.
  destruct (open_file content) as [[wav_in|]| |]; [| |exact I|contradiction].
  2:{ left. repeat split. }
  rewrite Hcreate. fold spf.
  destruct (to_uint32 spf =? 0); [exact I|].
  destruct (Hstate wav_in eq_refl) as ((f & Hf & Hd & _ & Hp) & _).
  unfold Encode.encode_frames. fold spf bits bpf.
  change fopen_wb with {| f_data := []; f_pos := Z.of_nat (length (@nil byte));
                          f_eof := false |}.
  rewrite fwrite_at_end. cbn [app].
  destruct (Z.ltb_spec spf 0) as [Hneg|Hspf]; [left; repeat split|].
  destruct (Z.ltb_spec bpf 0) as [Hnegb|Hbpf]; [left; repeat split|].
  cbn [orb].
  assert (Hspf31 : 0 <= spf < 2 ^ 31) by (unfold spf; lia).
  pose proof (encode_loop_runs CODEC2 codec2_encode (option wav_enhanced_t)
                Encode.read_enhanced
                (fun wav_in => exists w f, wav_in = Some w /\ file w = Some f
                                           /\ f_data f = content /\ 0 <= f_pos f)
                (fun wav_in => match wav_in with
                               | Some w => match file w with
                                           | Some f => remaining f
                                           | None => 0
                                           end
                               | None => 0
                               end)
                spf (read_enhanced_reads content spf Hspf31) bpf
                (Encode.encode_budget content) (Some wav_in)
                (repeat 0 (Z.to_nat spf)) codec2
                (Encode.header_bytes mode spf bits) [] 0) as Hloop.
  cbv beta iota in Hloop. rewrite Hf in Hloop.
  assert (Hrem : remaining f <= Z.of_nat (length content))
    by (unfold remaining; rewrite Hd; lia).
  specialize (Hloop ltac:(exists wav_in, f; repeat split; try assumption; lia)
                    (repeat_length _ _)
                    ltac:(unfold Encode.encode_budget; lia) ltac:(lia) ltac:(lia)).
  destruct (Encode.encode_loop _ _ _ _ _ _ _ _ _ _ _ _ _)
    as [[[[w_end output] all_frames] count]| |]; [|exact I|exact Hloop].
  destruct Hloop as (new_frames & -> & Hall & -> & _ & ->).
  right. cbn [Encode.exit_status Encode.speech_frames Encode.frames_encoded
              Encode.c2_written app option_map f_data].
  repeat split; try assumption. 
Qed.

End EncoderProperties.

(** X18. [codec2_encode_enhanced], whatever the input file and the codec:
    the run ends (it traps only through a division by zero), and when it
    does not exit with status 1 every frame handed to [codec2_encode] holds
    exactly [samples_per_frame] samples, the count reported is the number
    of frames encoded, and the output file is the 16-byte header followed
    by [bytes_per_frame] bytes for each frame, in order. *)
Theorem enhanced_encoder_encodes_whole_frames :
  forall (CODEC2 : Type) (codec2_create : Z -> option CODEC2)
         (codec2_samples_per_frame codec2_bits_per_frame : CODEC2 -> Z)
         (codec2_encode : CODEC2 -> list Z -> CODEC2 * list byte)
         (mode : Z) (content : list byte) (codec2 : CODEC2),
    codec2_create mode = Some codec2 ->
    codec2_samples_per_frame codec2 < 2 ^ 31 ->
    Z.of_nat (length content) < 2 ^ 31 ->
    let samples_per_frame := codec2_samples_per_frame codec2 in
    let bits_per_frame := codec2_bits_per_frame codec2 in
    let bytes_per_frame := int_div (to_int (bits_per_frame + 7)) 8 in
    match
      Encode.codec2_encode_enhanced_main CODEC2 codec2_create codec2_samples_per_frame
        codec2_bits_per_frame codec2_encode mode (Some content) (Some fopen_wb)
    with
    | Ret run =>
        (Encode.exit_status run = 1 /\ Encode.speech_frames run = []
         /\ Encode.frames_encoded run = 0)
        \/ (Encode.exit_status run = 0
            /\ Forall (fun fr => length fr = Z.to_nat samples_per_frame)
                      (Encode.speech_frames run)
            /\ Encode.frames_encoded run = Z.of_nat (length (Encode.speech_frames run))
            /\ option_map f_data (Encode.c2_written run)
               = Some (Encode.header_bytes mode samples_per_frame bits_per_frame
                       ++ Encode.encoded_stream CODEC2 codec2_encode codec2 bytes_per_frame
                            (Encode.speech_frames run)))
    | Trap => True
    | OutOfFuel => False
    end.
Proof. exact enhanced_encoder_runs. Qed.

Lemma enhanced_encoder_encodes_whole_frames_witness :
  match
    Encode.codec2_encode_enhanced_main unit toy_create toy_samples_per_frame
      toy_bits_per_frame toy_encode 0 (Some ramp_44100) (Some fopen_wb)
  with
  | Ret run =>
      (Encode.exit_status run = 1 /\ Encode.speech_frames run = []
       /\ Encode.frames_encoded run = 0)
      \/ (Encode.exit_status run = 0
          /\ Forall (fun fr => length fr = Z.to_nat (toy_samples_per_frame tt))
                    (Encode.speech_frames run)
          /\ Encode.frames_encoded run = Z.of_nat (length (Encode.speech_frames run))
          /\ option_map f_data (Encode.c2_written run)
             = Some (Encode.header_bytes 0 (toy_samples_per_frame tt) (toy_bits_per_frame tt)
                     ++ Encode.encoded_stream unit toy_encode tt
                          (int_div (to_int (toy_bits_per_frame tt + 7)) 8)
                          (Encode.speech_frames run)))
  | Trap => True
  | OutOfFuel => False
  end.
Proof.
  apply (enhanced_encoder_encodes_whole_frames unit toy_create toy_samples_per_frame
           toy_bits_per_frame toy_encode 0 ramp_44100 tt).
  - reflexivity.
  - vm_compute. reflexivity.
  - vm_compute. reflexivity.
Defined.

(** ** The encode loop on a sample sequence read in order *)

Lemma firstn_min_length (A : Type) (n : nat) (x : list A) :
  firstn (Nat.min n (length x)) x = firstn n x.
Proof.
  destruct (Nat.le_gt_cases n (length x)).
  - now rewrite Nat.min_l.
  - rewrite Nat.min_r by lia. now rewrite firstn_all, firstn_all2 by lia.
Qed.

(** The speech buffer after a read of [count] samples and the padding. *)
Lemma padded_frame (n : nat) (samples speech : list Z) :
  (0 < n)%nat ->
  length speech = n ->
  let frame := firstn n samples in
  let count := Z.of_nat (length frame) in
  let speech' := store_prefix frame speech in
  (if count <? Z.of_nat n then Encode.zero_tail speech' count (Z.of_nat n) else speech')
  = frame ++ repeat 0 (n - length frame).
Proof.
  intros Hn Hl frame count speech'.
  assert (Lf : (length frame <= n)%nat) by (unfold frame; rewrite length_firstn; lia).
  assert (Ls : length speech' = n)
    by (unfold speech', store_prefix; rewrite length_app, length_skipn; lia).
  destruct (Z.ltb_spec count (Z.of_nat n)) as [Hlt|Hge].
  - unfold Encode.zero_tail. unfold count. rewrite !Nat2Z.id.
    rewrite skipn_all2 by lia. rewrite app_nil_r.
    unfold speech', store_prefix. rewrite firstn_app, firstn_all, Nat.sub_diag.
    cbn [firstn]. rewrite app_nil_r. f_equal. f_equal. lia.
  - replace (n - length frame)%nat with 0%nat by (unfold count in Hge; lia).
    cbn [repeat]. rewrite app_nil_r. unfold speech', store_prefix.
    rewrite skipn_all2 by (unfold count in Hge; lia). apply app_nil_r.
Qed.

Section EncodeLoopInOrder.

Variable CODEC2 : Type.
Variable codec2_encode : CODEC2 -> list Z -> CODEC2 * list byte.
Variable R : Type.
Variable read_frame : R -> list Z -> Z -> outcome (Z * R * list Z).

(** The input side: a handle standing [r] samples into the sequence [l],
    from which a read returns the next samples, at most one frame of them,
    and moves [stride] samples on. *)
Variable standing_at : Z -> R -> Prop.
Variable l : list Z.
Variables samples_per_frame stride : nat.

Hypothesis frame_not_empty : (0 < samples_per_frame <= stride)%nat.

Hypothesis read_frame_next :
  forall r wav_in speech,
    standing_at r wav_in ->
    0 <= r <= Z.of_nat (length l) ->
    let count := Z.min (Z.of_nat samples_per_frame) (Z.of_nat (length l) - r) in
    exists wav_in',
      read_frame wav_in speech (Z.of_nat samples_per_frame)
      = Ret (count, wav_in',
             store_prefix (firstn (Z.to_nat count) (skipn (Z.to_nat r) l)) speech)
      /\ standing_at (Z.min (r + Z.of_nat stride) (Z.of_nat (length l))) wav_in'.

Lemma encode_loop_in_order bytes_per_frame (m : nat) :
  forall (j fuel : nat) wav_in speech codec2 (written : list byte) frames frames_encoded,
    (j + m = (length l + stride - 1) / stride)%nat ->
    (m < fuel)%nat ->
    standing_at (Z.min (Z.of_nat (j * stride)) (Z.of_nat (length l))) wav_in ->
    length speech = samples_per_frame ->
    0 <= frames_encoded ->
    frames_encoded + Z.of_nat m < 2 ^ 31 ->
    let new_frames :=
      map (fun k =>
             let c := firstn samples_per_frame (skipn (k * stride) l) in
             c ++ repeat 0 (samples_per_frame - length c))
          (seq j m) in
    exists wav_in',
      Encode.encode_loop CODEC2 codec2_encode R read_frame fuel
        (Z.of_nat samples_per_frame) bytes_per_frame wav_in speech codec2
        {| f_data := written; f_pos := Z.of_nat (length written); f_eof := false |}
        frames frames_encoded
      = Ret (wav_in',
             {| f_data := written
                          ++ Encode.encoded_stream CODEC2 codec2_encode codec2
                               bytes_per_frame new_frames;
                f_pos := Z.of_nat (length (written
                          ++ Encode.encoded_stream CODEC2 codec2_encode codec2
                               bytes_per_frame new_frames));
                f_eof := false |},
             frames ++ new_frames, frames_encoded + Z.of_nat m).
Proof.
  set (K := length l). set (T := ((K + stride - 1) / stride)%nat).
  assert (Hs : (0 < stride)%nat) by lia.
  assert (HT : forall j, (j < T)%nat <-> (j * stride < K)%nat).
  { intros j. unfold T.
    pose proof (Nat.div_mod_eq (K + stride - 1) stride) as E.
    pose proof (Nat.mod_upper_bound (K + stride - 1) stride ltac:(lia)) as B.
    set (q := ((K + stride - 1) / stride)%nat) in *.
    set (r' := ((K + stride - 1) mod stride)%nat) in *.
    split; intros H; nia. }
  induction m as [|m IH];
    intros j fuel wav_in speech codec2 written frames n Hj Hfuel Hat Hl Hn Hbound new_frames.
  - destruct fuel as [|fuel]; [lia|]. cbn [Encode.encode_loop].
    assert (HjK : (K <= j * stride)%nat).
    { destruct (Nat.le_gt_cases K (j * stride)) as [H|H]; [exact H|].
      apply HT in H. lia. }
    destruct (read_frame_next _ wav_in speech Hat ltac:(fold K; lia)) as (w' & E & _).
    rewrite E. fold K.
    replace (Z.min (Z.of_nat samples_per_frame)
               (Z.of_nat K - Z.min (Z.of_nat (j * stride)) (Z.of_nat K))) with 0 by lia.
    change (0 >? 0) with false. cbv iota.
    exists w'. unfold new_frames. cbn [seq map Encode.encoded_stream].
    rewrite !app_nil_r, Z.add_0_r. reflexivity.
  - destruct fuel as [|fuel]; [lia|]. cbn [Encode.encode_loop].
    assert (HjK : (j * stride < K)%nat) by (apply HT; lia).
    destruct (read_frame_next _ wav_in speech Hat ltac:(fold K; lia)) as (w' & E & Hat').
    rewrite E. fold K in Hat' |- *.
    replace (Z.min (Z.of_nat (j * stride)) (Z.of_nat K)) with (Z.of_nat (j * stride))
      in * by lia.
    rewrite Nat2Z.id.
    set (rest := skipn (j * stride) l).
    assert (Lrest : length rest = (K - j * stride)%nat) by (unfold rest; apply length_skipn).
    set (frame := firstn samples_per_frame rest).
    assert (Ecount : Z.min (Z.of_nat samples_per_frame) (Z.of_nat K - Z.of_nat (j * stride))
                     = Z.of_nat (length frame)).
    { unfold frame. rewrite length_firstn, Lrest. lia. }
    rewrite Ecount, Nat2Z.id.
    replace (firstn (length frame) rest) with frame
      by (unfold frame; rewrite length_firstn, firstn_min_length; reflexivity).
    assert (Hpos : 0 < Z.of_nat (length frame))
      by (unfold frame; rewrite length_firstn, Lrest; lia).
    destruct (Z.gtb_spec (Z.of_nat (length frame)) 0) as [_|Hle]; [|lia].
    pose proof (padded_frame samples_per_frame rest speech ltac:(lia) Hl) as Hpad.
    cbv zeta in Hpad. fold frame in Hpad. rewrite Hpad.
    set (padded := frame ++ repeat 0 (samples_per_frame - length frame)).
    destruct (codec2_encode codec2 padded) as [codec2' codec2_bits] eqn:Eenc.
    rewrite fwrite_at_end. rewrite (to_int_small (n + 1)) by lia.
    destruct (IH (S j) fuel w' padded codec2'
                (written ++ Encode.buffer_bytes codec2_bits bytes_per_frame)
                (frames ++ [padded]) (n + 1)) as (w_end & Eloop); try lia.
    + replace (Z.of_nat (S j * stride)) with (Z.of_nat (j * stride) + Z.of_nat stride)
        by lia.
      exact Hat'.
    + unfold padded. rewrite length_app, repeat_length.
      unfold frame. rewrite length_firstn. lia.
    + exists w_end. rewrite Eloop. unfold new_frames. cbn [seq map Encode.encoded_stream].
      fold rest. fold frame. fold padded. rewrite Eenc.
      rewrite <- !app_assoc. cbn [app]. do 2 f_equal. lia.
Qed.

End EncodeLoopInOrder.

(** ** The encode drivers on 8000 Hz mono 16-bit input *)

Lemma frames_every_length stride samples_per_frame l :
  (0 < stride)%nat ->
  (length (Encode.frames_every stride samples_per_frame l) <= length l)%nat.
Proof.
  intros Hs. unfold Encode.frames_every. rewrite length_map, length_seq.
  destruct (length l) as [|k]; [now rewrite Nat.div_small by lia|].
  apply Nat.Div0.div_le_upper_bound. nia.
Qed.

Section EncodersInOrder.

Variable CODEC2 : Type.
Variable codec2_create : Z -> option CODEC2.
Variable codec2_samples_per_frame : CODEC2 -> Z.
Variable codec2_bits_per_frame : CODEC2 -> Z.
Variable codec2_encode : CODEC2 -> list Z -> CODEC2 * list byte.

Lemma simple_encoder_in_order mode codec2 (l : list Z) :
  codec2_create mode = Some codec2 ->
  Forall (fun v => - 32768 <= v <= 32767) l ->
  Z.of_nat (length l) < 2 ^ 30 ->
  let samples_per_frame := codec2_samples_per_frame codec2 in
  let bits_per_frame := codec2_bits_per_frame codec2 in
  let bytes_per_frame := int_div (to_int (bits_per_frame + 7)) 8 in
  0 < samples_per_frame < 2 ^ 31 ->
  0 <= bytes_per_frame ->
  let frames :=
    Encode.frames_every (Z.to_nat samples_per_frame) (Z.to_nat samples_per_frame) l in
  let written :=
    Encode.header_bytes mode samples_per_frame bits_per_frame
    ++ Encode.encoded_stream CODEC2 codec2_encode codec2 bytes_per_frame frames in
  Encode.codec2_encode_main CODEC2 codec2_create codec2_samples_per_frame
    codec2_bits_per_frame codec2_encode mode
    (Some (wav_file 8000 1 16 (shorts_bytes l))) (Some fopen_wb)
  = Ret (Encode.mk_run 0 frames (Z.of_nat (length frames))
           (Some {| f_data := written; f_pos := Z.of_nat (length written);
                    f_eof := false |})).
Proof.
  intros Hcreate Hall HK spf bits bpf Hspf Hbpf frames written.
  unfold Encode.codec2_encode_main. cbn [option_map].
  set (K := Z.of_nat (length l)) in *.
  assert (HK0 : 0 <= K) by (unfold K; lia).
  assert (Lb : Z.of_nat (length (shorts_bytes l)) = 2 * K)
    by (rewrite shorts_bytes_length; unfold K; lia).
  set (h := WavUtil.mk_header (to_uint32 (36 + 2 * K)) 16 1 1 8000
              (to_uint32 (8000 * 1 * 16) / 8) (to_uint16 (1 * 16 / 8)) 16 (2 * K)).
  assert (Efile : wav_file 8000 1 16 (shorts_bytes l)
                  = WavUtil.header_bytes h ++ shorts_bytes l).
  { unfold wav_file, write_wav_header, format_fields, WavUtil.header_bytes, h.
    cbn [WavUtil.chunk_size WavUtil.fmt_chunk_size WavUtil.audio_format
         WavUtil.num_channels WavUtil.sample_rate WavUtil.byte_rate WavUtil.block_align
         WavUtil.bits_per_sample WavUtil.data_size].
    rewrite Lb, <- !app_assoc. reflexivity. }
  rewrite Efile.
  assert (R1 : 0 <= WavUtil.chunk_size h < 2 ^ 32) by apply to_uint32_range.
  assert (R2 : 0 <= WavUtil.fmt_chunk_size h < 2 ^ 32) by (cbn; lia).
  assert (R3 : 0 <= WavUtil.audio_format h < 2 ^ 16) by (cbn; lia).
  assert (R4 : 0 <= WavUtil.num_channels h < 2 ^ 16) by (cbn; lia).
  assert (R5 : 0 <= WavUtil.sample_rate h < 2 ^ 32) by (cbn; lia).
  assert (R6 : 0 <= WavUtil.byte_rate h < 2 ^ 32) by (vm_compute; split; congruence).
  assert (R7 : 0 <= WavUtil.block_align h < 2 ^ 16) by (vm_compute; split; congruence).
  assert (R8 : 0 <= WavUtil.bits_per_sample h < 2 ^ 16) by (cbn; lia).
  assert (R9 : 0 <= WavUtil.data_size h < 2 ^ 32)
    by (unfold h; cbn [WavUtil.data_size]; lia).
  rewrite (wav_open_read_written h (shorts_bytes l) R1 R2 R3 R4 R5 R6 R7 R8 R9).
  change (to_uint32 (Z.quot (to_int (WavUtil.num_channels h * WavUtil.bits_per_sample h)) 8))
    with 2.
  change (2 =? 0) with false. cbv iota.
  unfold WavUtil.wav_get_sample_rate, WavUtil.wav_get_channels,
    WavUtil.wav_get_bits_per_sample.
  cbn [WavUtil.header]. unfold h at 1 2 3.
  cbn [WavUtil.sample_rate WavUtil.num_channels WavUtil.bits_per_sample].
  change (negb (8000 =? 8000)) with false. change (negb (1 =? 1)) with false.
  change (negb (16 =? 16)) with false. cbv iota.
  rewrite Hcreate. unfold Encode.encode_frames. fold spf bits bpf.
  change fopen_wb with {| f_data := []; f_pos := Z.of_nat (length (@nil byte));
                          f_eof := false |}.
  rewrite fwrite_at_end. cbn [app].
  destruct (Z.ltb_spec spf 0) as [Hneg|_]; [lia|].
  destruct (Z.ltb_spec bpf 0) as [Hnegb|_]; [lia|]. cbn [orb].
  set (n := Z.to_nat spf).
  assert (En : Z.of_nat n = spf) by (unfold n; lia).
  set (T := ((length l + n - 1) / n)%nat).
  assert (HT : (T <= length l)%nat).
  { pose proof (frames_every_length n n l ltac:(lia)) as H.
    unfold Encode.frames_every in H. now rewrite length_map, length_seq in H. }
  pose proof (encode_loop_in_order CODEC2 codec2_encode (option WavUtil.wav_file_t)
                Encode.read_simple
                (fun r wav_in => exists w, wav_in = Some w
                                           /\ sequential_at (WavUtil.header_bytes h) l r w)
                l n n ltac:(lia)) as Hloop.
  rewrite <- En.
  destruct (Hloop) with (bytes_per_frame := bpf) (m := T) (j := 0%nat)
    (fuel := Encode.encode_budget (WavUtil.header_bytes h ++ shorts_bytes l))
    (wav_in := Some (WavUtil.mk_wav_file
                 (Some {| f_data := WavUtil.header_bytes h ++ shorts_bytes l;
                          f_pos := 44; f_eof := false |}) h 0 0
                 (WavUtil.data_size h / 2)))
    (speech := repeat 0 n) (codec2 := codec2)
    (written := Encode.header_bytes mode (Z.of_nat n) bits)
    (frames := @nil (list Z)) (frames_encoded := 0) as (w_end & Eloop).
  - intros r wav_in speech (w & -> & Hat) Hr.
    destruct (wav_read_samples_next _ l r w speech (Z.of_nat n) Hat Hall Hr
                ltac:(fold K; lia) ltac:(lia)) as (w' & Eread & Hat').
    cbv zeta in Eread. unfold Encode.read_simple.
    unfold to_uint32. rewrite wrap_small by lia. rewrite Eread.
    eexists. split; [reflexivity|]. exists w'. split; [reflexivity|].
    replace (Z.min (r + Z.of_nat n) (Z.of_nat (length l)))
      with (r + Z.min (Z.of_nat n) (Z.of_nat (length l) - r)) by lia.
    exact Hat'.
  - reflexivity.
  - unfold Encode.encode_budget. rewrite length_app. lia.
  - eexists. split; [reflexivity|]. unfold sequential_at.
    cbn [WavUtil.file WavUtil.header WavUtil.samples_read WavUtil.total_samples].
    unfold h. cbn [WavUtil.num_channels WavUtil.bits_per_sample WavUtil.data_size].
    split; [|split; [reflexivity|split; [reflexivity|split]]].
    + exists false. do 2 f_equal. change (WavUtil.header_bytes _) with (WavUtil.header_bytes h).
      rewrite header_bytes_length. cbn [Nat.mul Z.of_nat]. lia.
    + cbn [Nat.mul Z.of_nat]. lia.
    + fold K. rewrite Z.mul_comm, Z.div_mul by lia. reflexivity.
  - apply repeat_length.
  - lia.
  - fold K in HT. lia.
  - rewrite Eloop. cbn [app]. rewrite Z.add_0_l, En.
    unfold frames, written, Encode.frames_every. fold n. fold T.
    rewrite length_map, length_seq. reflexivity.
Qed.

End EncodersInOrder.

(** X19. [codec2_encode] on a canonical 8000 Hz mono 16-bit file encodes
    every sample once: frame [k] handed to [codec2_encode] is the
    [samples_per_frame] samples at offset [k * samples_per_frame], the last
    frame padded with zeros; there are [ceil (samples / samples_per_frame)]
    frames, the run exits with status 0, and the output file is the
    16-byte header followed by the encoded frames. *)
Theorem simple_encoder_encodes_every_sample :
  forall (CODEC2 : Type) (codec2_create : Z -> option CODEC2)
         (codec2_samples_per_frame codec2_bits_per_frame : CODEC2 -> Z)
         (codec2_encode : CODEC2 -> list Z -> CODEC2 * list byte)
         (mode : Z) (codec2 : CODEC2) (l : list Z),
    codec2_create mode = Some codec2 ->
    Forall (fun v => - 32768 <= v <= 32767) l ->
    Z.of_nat (length l) < 2 ^ 30 ->
    let samples_per_frame := codec2_samples_per_frame codec2 in
    let bits_per_frame := codec2_bits_per_frame codec2 in
    let bytes_per_frame := int_div (to_int (bits_per_frame + 7)) 8 in
    0 < samples_per_frame < 2 ^ 31 ->
    0 <= bytes_per_frame ->
    let frames :=
      Encode.frames_every (Z.to_nat samples_per_frame) (Z.to_nat samples_per_frame) l in
    let written :=
      Encode.header_bytes mode samples_per_frame bits_per_frame
      ++ Encode.encoded_stream CODEC2 codec2_encode codec2 bytes_per_frame frames in
    Encode.codec2_encode_main CODEC2 codec2_create codec2_samples_per_frame
      codec2_bits_per_frame codec2_encode mode
      (Some (wav_file 8000 1 16 (shorts_bytes l))) (Some fopen_wb)
    = Ret (Encode.mk_run 0 frames (Z.of_nat (length frames))
             (Some {| f_data := written; f_pos := Z.of_nat (length written);
                      f_eof := false |})).
Proof. exact simple_encoder_in_order. Qed.

Lemma simple_encoder_encodes_every_sample_witness :
  Encode.codec2_encode_main unit toy_create toy_samples_per_frame toy_bits_per_frame
    toy_encode 0 (Some (wav_file 8000 1 16 (shorts_bytes [1; 2; 3; 4; 5])))
    (Some fopen_wb)
  = Ret (Encode.mk_run 0
           (Encode.frames_every (Z.to_nat (toy_samples_per_frame tt))
              (Z.to_nat (toy_samples_per_frame tt)) [1; 2; 3; 4; 5])
           (Z.of_nat (length (Encode.frames_every (Z.to_nat (toy_samples_per_frame tt))
                                (Z.to_nat (toy_samples_per_frame tt)) [1; 2; 3; 4; 5])))
           (Some {| f_data :=
                      Encode.header_bytes 0 (toy_samples_per_frame tt)
                        (toy_bits_per_frame tt)
                      ++ Encode.encoded_stream unit toy_encode tt
                           (int_div (to_int (toy_bits_per_frame tt + 7)) 8)
                           (Encode.frames_every (Z.to_nat (toy_samples_per_frame tt))
                              (Z.to_nat (toy_samples_per_frame tt)) [1; 2; 3; 4; 5]);
                    f_pos :=
                      Z.of_nat (length
                        (Encode.header_bytes 0 (toy_samples_per_frame tt)
                           (toy_bits_per_frame tt)
                         ++ Encode.encoded_stream unit toy_encode tt
                              (int_div (to_int (toy_bits_per_frame tt + 7)) 8)
                              (Encode.frames_every (Z.to_nat (toy_samples_per_frame tt))
                                 (Z.to_nat (toy_samples_per_frame tt)) [1; 2; 3; 4; 5])));
                    f_eof := false |})).
Proof.
  apply (simple_encoder_encodes_every_sample unit toy_create toy_samples_per_frame
           toy_bits_per_frame toy_encode 0 tt [1; 2; 3; 4; 5]).
  - reflexivity.
  - repeat constructor; lia.
  - cbn. lia.
  - unfold toy_samples_per_frame. lia.
  - vm_compute. discriminate.
Defined.

Section EnhancedInOrder.

Variable CODEC2 : Type.
Variable codec2_create : Z -> option CODEC2.
Variable codec2_samples_per_frame : CODEC2 -> Z.
Variable codec2_bits_per_frame : CODEC2 -> Z.
Variable codec2_encode : CODEC2 -> list Z -> CODEC2 * list byte.

Lemma enhanced_encoder_in_order mode codec2 (l : list Z) :
  codec2_create mode = Some codec2 ->
  Forall (fun v => - 32768 <= v <= 32767) l ->
  Z.of_nat (length l) < 2 ^ 30 ->
  let samples_per_frame := codec2_samples_per_frame codec2 in
  let bits_per_frame := codec2_bits_per_frame codec2 in
  let bytes_per_frame := int_div (to_int (bits_per_frame + 7)) 8 in
  0 < samples_per_frame <= 4094 ->
  0 <= bytes_per_frame ->
  let frames :=
    Encode.frames_every (Z.to_nat samples_per_frame + 2) (Z.to_nat samples_per_frame) l in
  let written :=
    Encode.header_bytes mode samples_per_frame bits_per_frame
    ++ Encode.encoded_stream CODEC2 codec2_encode codec2 bytes_per_frame frames in
  Encode.codec2_encode_enhanced_main CODEC2 codec2_create codec2_samples_per_frame
    codec2_bits_per_frame codec2_encode mode
    (Some (wav_file 8000 1 16 (shorts_bytes l))) (Some fopen_wb)
  = Ret (Encode.mk_run 0 frames (Z.of_nat (length frames))
           (Some {| f_data := written; f_pos := Z.of_nat (length written);
                    f_eof := false |})).
Proof.
  intros Hcreate Hall HK spf bits bpf Hspf Hbpf frames written.
  unfold Encode.codec2_encode_enhanced_main. cbn [option_map].
  fold (open_file (wav_file 8000 1 16 (shorts_bytes l))).
  set (K := Z.of_nat (length l)) in *.
  assert (HK0 : 0 <= K) by (unfold K; lia).
  assert (Lb : Z.of_nat (length (shorts_bytes l)) = 2 * K)
    by (rewrite shorts_bytes_length; unfold K; lia).
  pose proof (open_wav_file 8000 1 16 (shorts_bytes l) ltac:(lia) ltac:(lia) ltac:(lia)
                ltac:(lia)) as Ho.
  cbv zeta in Ho. change (frame_bytes (set_original 1 1 8000 16 wav_zero) =? 0)
    with false in Ho. cbv iota in Ho.
  rewrite Ho, Hcreate. fold spf.
  unfold to_uint32 at 1. rewrite wrap_small by lia.
  destruct (Z.eqb_spec spf 0) as [E0|_]; [lia|].
  unfold Encode.encode_frames. fold spf bits bpf.
  change fopen_wb with {| f_data := []; f_pos := Z.of_nat (length (@nil byte));
                          f_eof := false |}.
  rewrite fwrite_at_end. cbn [app].
  destruct (Z.ltb_spec spf 0) as [Hneg|_]; [lia|].
  destruct (Z.ltb_spec bpf 0) as [Hnegb|_]; [lia|]. cbn [orb].
  set (n := Z.to_nat spf).
  assert (En : Z.of_nat n = spf) by (unfold n; lia).
  set (T := ((length l + (n + 2) - 1) / (n + 2))%nat).
  assert (HT : (T <= length l)%nat).
  { pose proof (frames_every_length (n + 2) n l ltac:(lia)) as H.
    unfold Encode.frames_every in H. now rewrite length_map, length_seq in H. }
  set (hdr := write_wav_header 8000 1 16 (Z.of_nat (length (shorts_bytes l)))).
  pose proof (encode_loop_in_order CODEC2 codec2_encode (option wav_enhanced_t)
                Encode.read_enhanced
                (fun r wav_in => exists w, wav_in = Some w /\ passthrough_at hdr l r w)
                l n (n + 2)%nat ltac:(lia)) as Hloop.
  rewrite <- En.
  destruct (Hloop) with (bytes_per_frame := bpf) (m := T) (j := 0%nat)
    (fuel := Encode.encode_budget (wav_file 8000 1 16 (shorts_bytes l)))
    (wav_in := Some (opened (wav_file 8000 1 16 (shorts_bytes l))
                       (set_original 1 1 8000 16 wav_zero) 44
                       (Z.of_nat (length (shorts_bytes l)))))
    (speech := repeat 0 n) (codec2 := codec2)
    (written := Encode.header_bytes mode (Z.of_nat n) bits)
    (frames := @nil (list Z)) (frames_encoded := 0) as (w_end & Eloop).
  - intros r wav_in speech (w & -> & Hat) Hr.
    destruct (read_passthrough hdr l r w speech (Z.of_nat n) Hat Hall Hr ltac:(lia))
      as (w' & Eread & Hat').
    cbv zeta in Eread. unfold Encode.read_enhanced.
    unfold to_uint32. rewrite wrap_small by lia. rewrite Eread.
    replace (Z.min (Z.of_nat n)
               (Z.min (Z.of_nat n + 2) (Z.of_nat (length l) - r)))
      with (Z.min (Z.of_nat n) (Z.of_nat (length l) - r)) by lia.
    eexists. split; [reflexivity|]. exists w'. split; [reflexivity|].
    replace (Z.min (r + Z.of_nat (n + 2)) (Z.of_nat (length l)))
      with (r + Z.min (Z.of_nat n + 2) (Z.of_nat (length l) - r)) by lia.
    exact Hat'.
  - reflexivity.
  - unfold Encode.encode_budget, wav_file. rewrite length_app, shorts_bytes_length. lia.
  - eexists. split; [reflexivity|].
    replace (Z.min (Z.of_nat (0 * (n + 2))) (Z.of_nat (length l))) with 0
      by (cbn [Nat.mul Z.of_nat]; lia).
    apply opened_passthrough.
  - apply repeat_length.
  - lia.
  - fold K in HT. lia.
  - rewrite Eloop. cbn [app]. rewrite Z.add_0_l, En.
    unfold frames, written, Encode.frames_every. fold n. fold T.
    rewrite length_map, length_seq. reflexivity.
Qed.

End EnhancedInOrder.

(** X20. [codec2_encode_enhanced] on a canonical 8000 Hz mono 16-bit file,
    for a codec frame of at most 4094 samples, does not encode every
    sample: frame [k] handed to [codec2_encode] is the [samples_per_frame]
    samples at offset [k * (samples_per_frame + 2)], zero-padded at the
    end, so the two samples after each frame are read and dropped; there
    are [ceil (samples / (samples_per_frame + 2))] frames. *)
Theorem enhanced_encoder_drops_two_samples_per_frame :
  forall (CODEC2 : Type) (codec2_create : Z -> option CODEC2)
         (codec2_samples_per_frame codec2_bits_per_frame : CODEC2 -> Z)
         (codec2_encode : CODEC2 -> list Z -> CODEC2 * list byte)
         (mode : Z) (codec2 : CODEC2) (l : list Z),
    codec2_create mode = Some codec2 ->
    Forall (fun v => - 32768 <= v <= 32767) l ->
    Z.of_nat (length l) < 2 ^ 30 ->
    let samples_per_frame := codec2_samples_per_frame codec2 in
    let bits_per_frame := codec2_bits_per_frame codec2 in
    let bytes_per_frame := int_div (to_int (bits_per_frame + 7)) 8 in
    0 < samples_per_frame <= 4094 ->
    0 <= bytes_per_frame ->
    let frames :=
      Encode.frames_every (Z.to_nat samples_per_frame + 2) (Z.to_nat samples_per_frame) l in
    let written :=
      Encode.header_bytes mode samples_per_frame bits_per_frame
      ++ Encode.encoded_stream CODEC2 codec2_encode codec2 bytes_per_frame frames in
    Encode.codec2_encode_enhanced_main CODEC2 codec2_create codec2_samples_per_frame
      codec2_bits_per_frame codec2_encode mode
      (Some (wav_file 8000 1 16 (shorts_bytes l))) (Some fopen_wb)
    = Ret (Encode.mk_run 0 frames (Z.of_nat (length frames))
             (Some {| f_data := written; f_pos := Z.of_nat (length written);
                      f_eof := false |})).
Proof. exact enhanced_encoder_in_order. Qed.

Lemma enhanced_encoder_drops_two_samples_per_frame_witness :
  Encode.codec2_encode_enhanced_main unit toy_create toy_samples_per_frame
    toy_bits_per_frame toy_encode 0
    (Some (wav_file 8000 1 16 (shorts_bytes [1; 2; 3; 4; 5; 6; 7]))) (Some fopen_wb)
  = Ret (Encode.mk_run 0
           (Encode.frames_every (Z.to_nat (toy_samples_per_frame tt) + 2)
              (Z.to_nat (toy_samples_per_frame tt)) [1; 2; 3; 4; 5; 6; 7])
           (Z.of_nat (length (Encode.frames_every (Z.to_nat (toy_samples_per_frame tt) + 2)
                                (Z.to_nat (toy_samples_per_frame tt))
                                [1; 2; 3; 4; 5; 6; 7])))
           (Some {| f_data :=
                      Encode.header_bytes 0 (toy_samples_per_frame tt)
                        (toy_bits_per_frame tt)
                      ++ Encode.encoded_stream unit toy_encode tt
                           (int_div (to_int (toy_bits_per_frame tt + 7)) 8)
                           (Encode.frames_every (Z.to_nat (toy_samples_per_frame tt) + 2)
                              (Z.to_nat (toy_samples_per_frame tt))
                              [1; 2; 3; 4; 5; 6; 7]);
                    f_pos :=
                      Z.of_nat (length
                        (Encode.header_bytes 0 (toy_samples_per_frame tt)
                           (toy_bits_per_frame tt)
                         ++ Encode.encoded_stream unit toy_encode tt
                              (int_div (to_int (toy_bits_per_frame tt + 7)) 8)
                              (Encode.frames_every
                                 (Z.to_nat (toy_samples_per_frame tt) + 2)
                                 (Z.to_nat (toy_samples_per_frame tt))
                                 [1; 2; 3; 4; 5; 6; 7])));
                    f_eof := false |})).
Proof.
  apply (enhanced_encoder_drops_two_samples_per_frame unit toy_create
           toy_samples_per_frame toy_bits_per_frame toy_encode 0 tt [1; 2; 3; 4; 5; 6; 7]).
  - reflexivity.
  - repeat constructor; lia.
  - cbn. lia.
  - unfold toy_samples_per_frame. lia.
  - vm_compute. discriminate.
Defined.

(** ** The simple encoder on any input *)

Lemma read_simple_reads content samples_per_frame :
  Z.of_nat (length content) < 2 ^ 31 ->
  0 <= samples_per_frame < 2 ^ 31 ->
  forall wav_in speech,
    Encode.simple_reading content wav_in ->
    length speech = Z.to_nat samples_per_frame ->
    match Encode.read_simple wav_in speech samples_per_frame with
    | Ret (samples_read, wav_in', speech') =>
        Encode.simple_reading content wav_in'
        /\ Encode.simple_left wav_in' <= Encode.simple_left wav_in
        /\ length speech' = Z.to_nat samples_per_frame
        /\ (0 < samples_read -> 0 <= Encode.simple_left wav_in' < Encode.simple_left wav_in
                                /\ samples_read <= samples_per_frame)
    | Trap => True
    | OutOfFuel => False
    end.
Proof.
  intros Hlen Hspf wav_in speech (w & f & -> & Hf & Hd & Hp & Hch & Hbits & Hread & Hcnt) Hl.
  unfold Encode.read_simple, WavUtil.wav_read_samples. rewrite Hf, Hch, Hbits.
  assert (En : to_uint32 samples_per_frame = samples_per_frame)
    by (apply wrap_small; lia).
  rewrite !En.
  assert (Er : to_uint32 (WavUtil.samples_read w + samples_per_frame)
               = WavUtil.samples_read w + samples_per_frame)
    by (apply wrap_small; lia).
  rewrite Er.
  set (str := if _ >? _ then _ else _).
  assert (Hstr : 0 <= str <= samples_per_frame
                 /\ WavUtil.samples_read w + str <= WavUtil.total_samples w).
  { unfold str. destruct (Z.gtb_spec (WavUtil.samples_read w + samples_per_frame)
                            (WavUtil.total_samples w)).
    - unfold to_uint32. rewrite wrap_small by lia. lia.
    - lia. }
  assert (Hinv : Encode.simple_reading content (Some w))
    by (exists w, f; repeat split; try assumption; lia).
  destruct (Z.eqb_spec str 0) as [E0|Hne].
  { split; [exact Hinv|]. split; [lia|]. split; [exact Hl|]. lia. }
  change (16 =? 16) with true. cbv beta iota. change (16 / 8 * 1) with 2.
  pose proof (fread_items_stream 2 str f ltac:(lia) ltac:(lia) ltac:(lia)) as H.
  destruct (fread_items 2 str f) as [[bytes items] f'].
  destruct H as (D & P & Hi & Hb & Eb & Ei).
  change (2 =? 0) with false in Ei. cbv iota in Ei.
  assert (Lb : Z.of_nat (length bytes) <= Z.of_nat (length content) - f_pos f).
  { rewrite Eb, length_firstn, length_skipn, Hd. lia. }
  rewrite Z.mul_1_r.
  unfold to_uint32. rewrite (wrap_small 32 (WavUtil.samples_read w + items)) by lia.
  rewrite to_int_small by lia.
  split.
  { exists (WavUtil.mk_wav_file (Some f') (WavUtil.header w)
              (WavUtil.samples_read w + items) (WavUtil.samples_written w)
              (WavUtil.total_samples w)), f'.
    cbn [WavUtil.file WavUtil.header WavUtil.samples_read WavUtil.total_samples].
    repeat split; try assumption; try congruence; lia. }
  unfold Encode.simple_left. cbn [WavUtil.file]. rewrite Hf. unfold remaining. rewrite D.
  split; [lia|]. split.
  { rewrite store_prefix_length, length_map, zrange_length. lia. }
  intros Hgt. rewrite Hd. split; [|lia].
  assert (0 < Z.of_nat (length bytes)) by lia. lia.
Qed.

Lemma wav_open_read_state content w :
  WavUtil.wav_open_read (Some (fopen_rb content)) = Ret (Some w) ->
  WavUtil.file w = Some {| f_data := content; f_pos := 44; f_eof := false |}
  /\ 44 <= Z.of_nat (length content)
  /\ WavUtil.header w = WavUtil.header_of (firstn 44 content)
  /\ WavUtil.samples_read w = 0
  /\ WavUtil.samples_written w = 0
  /\ 0 <= WavUtil.total_samples w.
Proof.
  unfold WavUtil.wav_open_read, fread_items, fread, fopen_rb.
  cbn [orb Z.eqb f_pos f_data f_eof Z.to_nat skipn Z.mul].
  change (Pos.to_nat (44 * 1)) with 44%nat. change (Z.pos (44 * 1)) with 44.
  pose proof (length_firstn 44 content) as L.
  remember (firstn 44 content) as got eqn:Eg.
  destruct (Z.eqb_spec (Z.of_nat (length got) / 44) 1) as [E1|]; [|discriminate].
  cbn [negb].
  destruct (_ || _); [discriminate|].
  pose proof (to_uint32_range
    (Z.quot (to_int (WavUtil.num_channels (WavUtil.header_of got)
                     * WavUtil.bits_per_sample (WavUtil.header_of got))) 8)) as Hfr.
  remember (to_uint32 _) as fb eqn:Efb.
  destruct (Z.eqb_spec fb 0) as [|Hfb]; [discriminate|].
  assert (L44 : length got = 44%nat).
  { assert (44 <= Z.of_nat (length got)); [|lia].
    destruct (Z_lt_le_dec (Z.of_nat (length got)) 44) as [Hlt|]; [|lia].
    rewrite Z.div_small in E1 by lia. discriminate. }
  assert (C44 : (44 <= length content)%nat) by lia.
  rewrite L44. change (0 + Z.of_nat 44) with 44. change (Z.of_nat 44 <? 44) with false.
  cbn [orb].
  intros H. injection H as <-.
  cbn [WavUtil.file WavUtil.header WavUtil.samples_read WavUtil.samples_written
       WavUtil.total_samples].
  repeat split; try lia.
  apply Z.div_pos; [|lia].
  unfold WavUtil.header_of. cbn [WavUtil.data_size]. unfold load.
  match goal with |- 0 <= le_combine ?bs => pose proof (le_combine_bound bs) end.
  lia.
Qed.

Section SimpleEncoderProperties.

Variable CODEC2 : Type.
Variable codec2_create : Z -> option CODEC2.
Variable codec2_samples_per_frame : CODEC2 -> Z.
Variable codec2_bits_per_frame : CODEC2 -> Z.
Variable codec2_encode : CODEC2 -> list Z -> CODEC2 * list byte.

Lemma simple_encoder_runs mode content codec2 :
  codec2_create mode = Some codec2 ->
  codec2_samples_per_frame codec2 < 2 ^ 31 ->
  Z.of_nat (length content) < 2 ^ 31 ->
  let samples_per_frame := codec2_samples_per_frame codec2 in
  let bits_per_frame := codec2_bits_per_frame codec2 in
  let bytes_per_frame := int_div (to_int (bits_per_frame + 7)) 8 in
  let h := WavUtil.header_of (firstn 44 content) in
  match
    Encode.codec2_encode_main CODEC2 codec2_create codec2_samples_per_frame
      codec2_bits_per_frame codec2_encode mode (Some content) (Some fopen_wb)
  with
  | Ret run =>
      (Encode.exit_status run = 1 /\ Encode.speech_frames run = []
       /\ Encode.frames_encoded run = 0)
      \/ (Encode.exit_status run = 0
          /\ (WavUtil.sample_rate h = 8000 /\ WavUtil.num_channels h = 1
              /\ WavUtil.bits_per_sample h = 16)
          /\ Forall (fun fr => length fr = Z.to_nat samples_per_frame)
                    (Encode.speech_frames run)
          /\ Encode.frames_encoded run = Z.of_nat (length (Encode.speech_frames run))
          /\ option_map f_data (Encode.c2_written run)
             = Some (Encode.header_bytes mode samples_per_frame bits_per_frame
                     ++ Encode.encoded_stream CODEC2 codec2_encode codec2 bytes_per_frame
                          (Encode.speech_frames run)))
  | Trap => True
  | OutOfFuel => False
  end.
Proof.
  intros Hcreate Hint Hlen spf bits bpf h. unfold Encode.codec2_encode_main.
  cbn [option_map].
  pose proof (wav_open_read_state content) as Hstate.
  destruct (WavUtil.wav_open_read (Some (fopen_rb content))) as [[wav_in|]| |] eqn:Eopen;
    [| |exact I|].
  2:{ left. repeat split. }
  2:{ unfold WavUtil.wav_open_read in Eopen. destruct (fread_items 44 1 _) as [[? ?] ?].
      destruct (negb _); [discriminate|]. destruct (_ || _); [discriminate|].
      destruct (_ =? 0); discriminate. }
  destruct (Hstate wav_in eq_refl) as (Hf & H44 & Hh & Hsr & _ & Htot).
  unfold WavUtil.wav_get_sample_rate, WavUtil.wav_get_channels,
    WavUtil.wav_get_bits_per_sample. rewrite Hh. fold h.
  destruct (Z.eqb_spec (WavUtil.sample_rate h) 8000) as [Hrate|]; [|left; repeat split].
  destruct (Z.eqb_spec (WavUtil.num_channels h) 1) as [Hch|]; [|left; repeat split].
  destruct (Z.eqb_spec (WavUtil.bits_per_sample h) 16) as [Hbits|]; [|left; repeat split].
  cbn [negb]. rewrite Hcreate.
  unfold Encode.encode_frames. fold spf bits bpf.
  change fopen_wb with {| f_data := []; f_pos := Z.of_nat (length (@nil byte));
                          f_eof := false |}.
  rewrite fwrite_at_end. cbn [app].
  destruct (Z.ltb_spec spf 0) as [Hneg|Hspf]; [left; repeat split|].
  destruct (Z.ltb_spec bpf 0) as [Hnegb|Hbpf]; [left; repeat split|].
  cbn [orb].
  assert (Hspf31 : 0 <= spf < 2 ^ 31) by (unfold spf; lia).
  pose proof (encode_loop_runs CODEC2 codec2_encode (option WavUtil.wav_file_t)
                Encode.read_simple (Encode.simple_reading content) Encode.simple_left
                spf (read_simple_reads content spf Hlen Hspf31) bpf
                (Encode.encode_budget content) (Some wav_in)
                (repeat 0 (Z.to_nat spf)) codec2
                (Encode.header_bytes mode spf bits) [] 0) as Hloop.
  assert (Hleft : Encode.simple_left (Some wav_in) = Z.of_nat (length content) - 44).
  { unfold Encode.simple_left. rewrite Hf. reflexivity. }
  rewrite Hleft in Hloop.
  specialize (Hloop ltac:(exists wav_in, {| f_data := content; f_pos := 44; f_eof := false |};
                            cbn [f_data f_pos]; rewrite Hh; fold h;
                            repeat split; try assumption; lia)
                    (repeat_length _ _)
                    ltac:(unfold Encode.encode_budget; lia) ltac:(lia) ltac:(lia)).
  destruct (Encode.encode_loop _ _ _ _ _ _ _ _ _ _ _ _ _)
    as [[[[w_end output] all_frames] count]| |]; [|exact I|exact Hloop].
  destruct Hloop as (new_frames & -> & Hall & -> & _ & ->).
  right. cbn [Encode.exit_status Encode.speech_frames Encode.frames_encoded
              Encode.c2_written app option_map f_data].
  repeat split; try assumption.
Qed.

End SimpleEncoderProperties.

(** X22. [codec2_encode], whatever the input file and the codec: the run
    ends (it can trap only in [wav_open_read], on a frame size of zero),
    and it exits with status 0 only if the header declares 8000 Hz, one
    channel and 16 bits; then every frame handed to [codec2_encode] holds
    exactly [samples_per_frame] samples, the count reported is the number
    of frames encoded, and the output file is the 16-byte header followed
    by [bytes_per_frame] bytes for each frame, in order. *)
Theorem simple_encoder_encodes_only_canonical_input :
  forall (CODEC2 : Type) (codec2_create : Z -> option CODEC2)
         (codec2_samples_per_frame codec2_bits_per_frame : CODEC2 -> Z)
         (codec2_encode : CODEC2 -> list Z -> CODEC2 * list byte)
         (mode : Z) (content : list byte) (codec2 : CODEC2),
    codec2_create mode = Some codec2 ->
    codec2_samples_per_frame codec2 < 2 ^ 31 ->
    Z.of_nat (length content) < 2 ^ 31 ->
    let samples_per_frame := codec2_samples_per_frame codec2 in
    let bits_per_frame := codec2_bits_per_frame codec2 in
    let bytes_per_frame := int_div (to_int (bits_per_frame + 7)) 8 in
    let h := WavUtil.header_of (firstn 44 content) in
    match
      Encode.codec2_encode_main CODEC2 codec2_create codec2_samples_per_frame
        codec2_bits_per_frame codec2_encode mode (Some content) (Some fopen_wb)
    with
    | Ret run =>
        (Encode.exit_status run = 1 /\ Encode.speech_frames run = []
         /\ Encode.frames_encoded run = 0)
        \/ (Encode.exit_status run = 0
            /\ (WavUtil.sample_rate h = 8000 /\ WavUtil.num_channels h = 1
                /\ WavUtil.bits_per_sample h = 16)
            /\ Forall (fun fr => length fr = Z.to_nat samples_per_frame)
                      (Encode.speech_frames run)
            /\ Encode.frames_encoded run = Z.of_nat (length (Encode.speech_frames run))
            /\ option_map f_data (Encode.c2_written run)
               = Some (Encode.header_bytes mode samples_per_frame bits_per_frame
                       ++ Encode.encoded_stream CODEC2 codec2_encode codec2 bytes_per_frame
                            (Encode.speech_frames run)))
    | Trap => True
    | OutOfFuel => False
    end.
Proof. exact simple_encoder_runs. Qed.

Lemma simple_encoder_encodes_only_canonical_input_witness :
  match
    Encode.codec2_encode_main unit toy_create toy_samples_per_frame toy_bits_per_frame
      toy_encode 0 (Some steps_8000) (Some fopen_wb)
  with
  | Ret run =>
      (Encode.exit_status run = 1 /\ Encode.speech_frames run = []
       /\ Encode.frames_encoded run = 0)
      \/ (Encode.exit_status run = 0
          /\ (WavUtil.sample_rate (WavUtil.header_of (firstn 44 steps_8000)) = 8000
              /\ WavUtil.num_channels (WavUtil.header_of (firstn 44 steps_8000)) = 1
              /\ WavUtil.bits_per_sample (WavUtil.header_of (firstn 44 steps_8000)) = 16)
          /\ Forall (fun fr => length fr = Z.to_nat (toy_samples_per_frame tt))
                    (Encode.speech_frames run)
          /\ Encode.frames_encoded run = Z.of_nat (length (Encode.speech_frames run))
          /\ option_map f_data (Encode.c2_written run)
             = Some (Encode.header_bytes 0 (toy_samples_per_frame tt) (toy_bits_per_frame tt)
                     ++ Encode.encoded_stream unit toy_encode tt
                          (int_div (to_int (toy_bits_per_frame tt + 7)) 8)
                          (Encode.speech_frames run)))
  | Trap => True
  | OutOfFuel => False
  end.
Proof.
  apply (simple_encoder_encodes_only_canonical_input unit toy_create toy_samples_per_frame
           toy_bits_per_frame toy_encode 0 steps_8000 tt).
  - reflexivity.
  - vm_compute. reflexivity.
  - vm_compute. reflexivity.
Defined.

(** ** wav_util: writing *)

Lemma wav_open_write_written rate :
  exists w,
    WavUtil.wav_open_write (Some fopen_wb) rate 1 16 = Some w
    /\ written_at rate [] w.
Proof.
  eexists. split; [reflexivity|]. unfold written_at.
  cbn [WavUtil.file WavUtil.header WavUtil.samples_written length Z.of_nat shorts_bytes
       flat_map].
  rewrite app_nil_r. repeat split.
Qed.

Lemma wav_write_samples_written rate written w buf n :
  written_at rate written w ->
  0 <= n ->
  exists w',
    WavUtil.wav_write_samples (Some w) (Some buf) n = (to_int n, Some w')
    /\ written_at rate (written ++ map (short_at buf) (zrange n)) w'.
Proof.
  intros (Hf & Hh & Hs) Hn. unfold WavUtil.wav_write_samples. rewrite Hf, Hh.
  cbn [WavUtil.num_channels mono_header]. rewrite Z.mul_1_r.
  rewrite fwrite_at_end. eexists. split; [reflexivity|]. unfold written_at.
  cbn [WavUtil.file WavUtil.header WavUtil.samples_written].
  rewrite shorts_bytes_app, app_assoc. split; [reflexivity|]. split; [reflexivity|].
  rewrite Hs, length_app, length_map, zrange_length, Nat2Z.inj_add, Z2Nat.id by lia.
  unfold to_uint32. apply wrap32_add_l.
Qed.

Lemma write_all_written rate calls :
  forall written w,
    written_at rate written w ->
    exists w',
      write_all (Some w) calls = Some w'
      /\ written_at rate (written ++ concat calls) w'.
Proof.
  induction calls as [|buf calls IH]; intros written w H.
  - exists w. split; [reflexivity|]. now rewrite app_nil_r.
  - destruct (wav_write_samples_written rate written w buf (Z.of_nat (length buf)) H
                ltac:(lia)) as (w1 & E1 & H1).
    rewrite read_buffer_all in H1.
    destruct (IH _ _ H1) as (w2 & E2 & H2).
    exists w2. split.
    + unfold write_all in *. cbn [fold_left]. now rewrite E1.
    + cbn [concat]. now rewrite app_assoc.
Qed.

Lemma wav_close_written rate written w :
  written_at rate written w ->
  16 * Z.of_nat (length written) < 2 ^ 32 ->
  WavUtil.wav_close (Some w)
  = Some {| f_data := WavUtil.header_bytes (mono_header rate (Z.of_nat (length written)))
                      ++ shorts_bytes written;
            f_pos := 44;
            f_eof := false |}.
Proof.
  intros (Hf & Hh & Hs) Hk. unfold WavUtil.wav_close. rewrite Hf, Hh, Hs.
  set (K := Z.of_nat (length written)) in *.
  assert (Ek : to_uint32 K = K) by (apply wrap_small; unfold K; lia).
  rewrite Ek.
  destruct (Z.gtb_spec K 0) as [Hpos|Hzero].
  - cbn [WavUtil.num_channels WavUtil.bits_per_sample WavUtil.fmt_chunk_size
         WavUtil.audio_format WavUtil.sample_rate WavUtil.byte_rate WavUtil.block_align
         mono_header].
    assert (Ed : to_uint32 (K * 1 * 16) / 8 = 2 * K).
    { unfold to_uint32. rewrite wrap_small by lia.
      replace (K * 1 * 16) with (2 * K * 8) by lia. apply Z.div_mul. lia. }
    rewrite Ed.
    assert (Ec : to_uint32 (36 + 2 * K) = 36 + 2 * K) by (apply wrap_small; lia).
    rewrite Ec.
    unfold fseek_set. cbn [Z.ltb Z.compare].
    pose proof (fwrite_over [] (WavUtil.header_bytes (mono_header rate 0))
                  (WavUtil.header_bytes (mono_header rate K)) (shorts_bytes written)
                  false eq_refl) as Hw.
    cbn [app length Z.of_nat] in Hw. cbn [f_data f_eof].
    transitivity
      (Some (fwrite (WavUtil.header_bytes (mono_header rate K))
               {| f_data := WavUtil.header_bytes (mono_header rate 0) ++ shorts_bytes written;
                  f_pos := 0; f_eof := false |})); [reflexivity|].
    rewrite Hw. reflexivity.
  - assert (written = []) as ->
      by (destruct written; [reflexivity | unfold K in Hzero; simpl in Hzero; lia]).
    reflexivity.
Qed.

Lemma wav_util_written_then_closed rate calls :
  let l := concat calls in
  let K := Z.of_nat (length l) in
  16 * K < 2 ^ 32 ->
  WavUtil.wav_close (write_all (WavUtil.wav_open_write (Some fopen_wb) rate 1 16) calls)
  = Some {| f_data := WavUtil.header_bytes (mono_header rate K) ++ shorts_bytes l;
            f_pos := 44;
            f_eof := false |}.
Proof.
  intros l K HK.
  destruct (wav_open_write_written rate) as (w0 & E0 & H0).
  destruct (write_all_written rate calls [] w0 H0) as (w1 & E1 & H1).
  rewrite E0, E1. cbn [app] in H1. now apply wav_close_written.
Qed.

Lemma wav_util_written_then_read rate calls buf n :
  let l := concat calls in
  let K := Z.of_nat (length l) in
  0 <= rate < 2 ^ 32 ->
  16 * K < 2 ^ 32 ->
  Forall (fun v => - 32768 <= v <= 32767) l ->
  0 <= n < 2 ^ 31 ->
  exists f w w',
    WavUtil.wav_close (write_all (WavUtil.wav_open_write (Some fopen_wb) rate 1 16) calls)
    = Some f
    /\ WavUtil.wav_open_read (Some (fopen_rb (f_data f))) = Ret (Some w)
    /\ (WavUtil.wav_get_sample_rate (Some w), WavUtil.wav_get_channels (Some w),
        WavUtil.wav_get_bits_per_sample (Some w), WavUtil.wav_get_total_samples (Some w))
       = (rate, 1, 16, K)
    /\ WavUtil.wav_read_samples (Some w) (Some buf) n
       = (Z.min n K, Some w', Some (store_prefix (firstn (Z.to_nat n) l) buf)).
Proof.
  intros l K Hrate HK Hall Hn.
  rewrite (wav_util_written_then_closed rate calls HK). fold l K.
  assert (HK0 : 0 <= K) by (unfold K; lia).
  pose proof (to_uint32_range (rate * 1 * 16)) as Hbr.
  assert (Hbr8 : 0 <= to_uint32 (rate * 1 * 16) / 8 < 2 ^ 32).
  { split; [apply Z.div_pos; lia|]. apply Z.div_lt_upper_bound; lia. }
  pose proof (wav_open_read_written (mono_header rate K) (shorts_bytes l)) as Ho.
  cbn [WavUtil.chunk_size WavUtil.fmt_chunk_size WavUtil.audio_format WavUtil.num_channels
       WavUtil.sample_rate WavUtil.byte_rate WavUtil.block_align WavUtil.bits_per_sample
       WavUtil.data_size mono_header] in Ho.
  specialize (Ho ltac:(lia) ltac:(lia) ltac:(lia) ltac:(lia) Hrate Hbr8 ltac:(lia)
                 ltac:(lia) ltac:(lia)).
  cbv zeta in Ho.
  change (to_uint32 (Z.quot (to_int (1 * 16)) 8)) with 2 in Ho.
  change (2 =? 0) with false in Ho. cbv iota in Ho.
  replace (2 * K / 2) with K in Ho by (rewrite Z.mul_comm, Z.div_mul; lia).
  eexists. eexists.
  destruct (wav_read_samples_next (WavUtil.header_bytes (mono_header rate K)) l 0
              (WavUtil.mk_wav_file
                 (Some {| f_data := WavUtil.header_bytes (mono_header rate K)
                                    ++ shorts_bytes l;
                          f_pos := 44; f_eof := false |})
                 (mono_header rate K) 0 0 K) buf n
              (sequential_at_start (WavUtil.header_bytes (mono_header rate K))
                 (mono_header rate K) l (header_bytes_length _) eq_refl eq_refl)
              Hall ltac:(lia) ltac:(fold K; lia) Hn) as (w' & Hread & _).
  exists w'. split; [reflexivity|]. cbn [f_data]. split; [exact Ho|].
  split; [reflexivity|].
  rewrite Hread. fold K. rewrite Z.sub_0_r. cbn [Z.to_nat skipn].
  f_equal. f_equal.
  destruct (Z.le_ge_cases n K) as [Hle|Hge].
  - rewrite Z.min_l by lia. reflexivity.
  - rewrite Z.min_r by lia. unfold K. rewrite Nat2Z.id, firstn_all.
    rewrite firstn_all2 by (unfold K in Hge; lia). reflexivity.
Qed.

(** X23. The [wav_util] writer, on a mono 16-bit file: after [K] samples
    were written in any number of [wav_write_samples] calls, with 16 K
    below 2^32, [wav_close] leaves a file made of the 44-byte header
    [wav_open_write] laid down, its top-level size set to 36 + 2K and its
    data size to 2K, followed by the samples in the order written; with no
    sample written the header keeps the sizes 36 and 0 it was given at
    open. *)
Theorem wav_close_sets_the_sizes :
  forall (rate : Z) (calls : list (list Z)),
    let l := concat calls in
    let K := Z.of_nat (length l) in
    16 * K < 2 ^ 32 ->
    WavUtil.wav_close (write_all (WavUtil.wav_open_write (Some fopen_wb) rate 1 16) calls)
    = Some {| f_data := WavUtil.header_bytes (mono_header rate K) ++ shorts_bytes l;
              f_pos := 44;
              f_eof := false |}.
Proof. exact wav_util_written_then_closed. Qed.

Lemma wav_close_sets_the_sizes_witness :
  WavUtil.wav_close
    (write_all (WavUtil.wav_open_write (Some fopen_wb) 8000 1 16) [[1; -2]; []; [300]])
  = Some {| f_data :=
              WavUtil.header_bytes
                (mono_header 8000 (Z.of_nat (length (concat [[1; -2]; []; [300]]))))
              ++ shorts_bytes (concat [[1; -2]; []; [300]]);
            f_pos := 44;
            f_eof := false |}.
Proof.
  apply (wav_close_sets_the_sizes 8000 [[1; -2]; []; [300]]). vm_compute. reflexivity.
Defined.

(** X24. Samples written through [wav_util] come back through it: a mono
    16-bit file produced by [wav_open_write], any sequence of
    [wav_write_samples] calls and [wav_close] is opened by [wav_open_read]
    with the sample rate given at open, one channel, 16 bits and a frame
    count equal to the number of samples written, and a first read of [n]
    samples returns the first [min n K] of them, in order and
    unchanged. *)
Theorem wav_util_samples_are_read_back :
  forall (rate : Z) (calls : list (list Z)) (buf : list Z) (n : Z),
    let l := concat calls in
    let K := Z.of_nat (length l) in
    0 <= rate < 2 ^ 32 ->
    16 * K < 2 ^ 32 ->
    Forall (fun v => - 32768 <= v <= 32767) l ->
    0 <= n < 2 ^ 31 ->
    exists f w w',
      WavUtil.wav_close (write_all (WavUtil.wav_open_write (Some fopen_wb) rate 1 16) calls)
      = Some f
      /\ WavUtil.wav_open_read (Some (fopen_rb (f_data f))) = Ret (Some w)
      /\ (WavUtil.wav_get_sample_rate (Some w), WavUtil.wav_get_channels (Some w),
          WavUtil.wav_get_bits_per_sample (Some w), WavUtil.wav_get_total_samples (Some w))
         = (rate, 1, 16, K)
      /\ WavUtil.wav_read_samples (Some w) (Some buf) n
         = (Z.min n K, Some w', Some (store_prefix (firstn (Z.to_nat n) l) buf)).
Proof. exact wav_util_written_then_read. Qed.

Lemma wav_util_samples_are_read_back_witness :
  exists f w w',
    WavUtil.wav_close
      (write_all (WavUtil.wav_open_write (Some fopen_wb) 8000 1 16) [[1; -2]; []; [300]])
    = Some f
    /\ WavUtil.wav_open_read (Some (fopen_rb (f_data f))) = Ret (Some w)
    /\ (WavUtil.wav_get_sample_rate (Some w), WavUtil.wav_get_channels (Some w),
        WavUtil.wav_get_bits_per_sample (Some w), WavUtil.wav_get_total_samples (Some w))
       = (8000, 1, 16, Z.of_nat (length (concat [[1; -2]; []; [300]])))
    /\ WavUtil.wav_read_samples (Some w) (Some [0; 0; 0; 0]) 2
       = (Z.min 2 (Z.of_nat (length (concat [[1; -2]; []; [300]]))), Some w',
          Some (store_prefix (firstn (Z.to_nat 2) (concat [[1; -2]; []; [300]]))
                  [0; 0; 0; 0])).
Proof.
  apply (wav_util_samples_are_read_back 8000 [[1; -2]; []; [300]] [0; 0; 0; 0] 2).
  - lia.
  - vm_compute. reflexivity.
  - repeat constructor; lia.
  - lia.
Defined.

(** ** The decoders' output *)

Lemma write_samples_appended_count hdr written w buf n :
  appended hdr written w ->
  0 <= n ->
  exists w',
    snd (wav_enhanced_write_samples (Some w) (Some buf) n) = Some w'
    /\ appended hdr (written ++ map (short_at buf) (zrange n)) w'.
Proof.
  intros (Hf & Hs & Hb) Hn. unfold wav_enhanced_write_samples. rewrite Hf.
  rewrite fwrite_at_end. cbn [snd].
  eexists. split; [reflexivity|]. unfold appended.
  cbn [file samples_written bytes_written set_written set_file].
  rewrite shorts_bytes_app, app_assoc. split; [reflexivity|].
  rewrite Hs, Hb, length_app, length_map, zrange_length, Nat2Z.inj_add, Z2Nat.id by lia.
  unfold to_uint32, to_size_t.
  rewrite wrap32_add_r, !wrap32_add_l. split; f_equal; lia.
Qed.

Lemma mono_header_bytes K :
  0 <= 36 + 2 * K < 2 ^ 32 ->
  WavUtil.header_bytes (mono_header 8000 K) = write_wav_header 8000 1 16 (2 * K).
Proof.
  intros HK. unfold WavUtil.header_bytes, write_wav_header, format_fields, mono_header.
  cbn [WavUtil.chunk_size WavUtil.fmt_chunk_size WavUtil.audio_format WavUtil.num_channels
       WavUtil.sample_rate WavUtil.byte_rate WavUtil.block_align WavUtil.bits_per_sample
       WavUtil.data_size].
  assert (E : to_uint32 (36 + 2 * K) = 36 + 2 * K) by (apply wrap_small; lia).
  rewrite E. change (to_uint16 (1 * 16 / 8)) with 2.
  rewrite <- !app_assoc. reflexivity.
Qed.

Lemma decoded_stream_length (CODEC2 : Type)
  (codec2_decode : CODEC2 -> list byte -> CODEC2 * list Z) samples_per_frame frames :
  forall codec2,
    length (Decoded.decoded_stream CODEC2 codec2_decode codec2 samples_per_frame frames)
    = (Z.to_nat samples_per_frame * length frames)%nat.
Proof.
  induction frames as [|fr frames IH]; intros codec2; cbn [Decoded.decoded_stream length].
  - lia.
  - destruct (codec2_decode codec2 fr) as [codec2' speech].
    rewrite length_app, length_map, zrange_length, IH. lia.
Qed.

Section DecodeLoopOutput.

Variable CODEC2 : Type.
Variable codec2_decode : CODEC2 -> list byte -> CODEC2 * list Z.
Variable W : Type.
Variable write_frame : W -> list Z -> Z -> W.

(** The output side as the loop needs it: what the handle holds, and that
    a write appends the first [samples_per_frame] entries of the buffer. *)
Variable holds : list Z -> W -> Prop.
Variable samples_per_frame : Z.

Hypothesis write_frame_appends :
  forall written w speech,
    holds written w ->
    holds (written ++ map (short_at speech) (zrange samples_per_frame))
          (write_frame w speech samples_per_frame).

Lemma decode_loop_output bytes_per_frame data :
  0 < bytes_per_frame < 2 ^ 63 ->
  forall (fuel : nat) (pos : nat) (e : bool) codec2 wav_out frames frames_decoded written,
    let rest := skipn pos data in
    let b := Z.to_nat bytes_per_frame in
    holds written wav_out ->
    (length rest / b < fuel)%nat ->
    0 <= frames_decoded ->
    frames_decoded + Z.of_nat (length rest / b) < 2 ^ 31 ->
    exists wav_out',
      Decode.decode_loop CODEC2 codec2_decode W write_frame fuel bytes_per_frame
        samples_per_frame {| f_data := data; f_pos := Z.of_nat pos; f_eof := e |}
        codec2 wav_out frames frames_decoded
      = Ret (wav_out', frames ++ bit_frame_slices b rest,
             frames_decoded + Z.of_nat (length rest / b))
      /\ holds (written
                ++ Decoded.decoded_stream CODEC2 codec2_decode codec2 samples_per_frame
                     (bit_frame_slices b rest))
               wav_out'.
Proof.
  intros Hb. assert (Hsz : to_size_t bytes_per_frame = bytes_per_frame).
  { apply wrap_small. lia. }
  induction fuel as [|fuel IH];
    intros pos e codec2 wav_out frames fd written rest b Hholds Hfuel Hfd Hbound.
  - lia.
  - cbn [Decode.decode_loop]. unfold fread. cbn [f_data f_pos f_eof].
    rewrite Hsz, Nat2Z.id. fold rest. fold b.
    rewrite length_firstn.
    destruct (Nat.le_gt_cases b (length rest)) as [Hle|Hgt].
    + rewrite Nat.min_l by exact Hle.
      replace (Z.of_nat b =? bytes_per_frame) with true
        by (symmetry; apply Z.eqb_eq; unfold b; lia).
      assert (Hb0 : (0 < b)%nat) by (unfold b; lia).
      rewrite (bit_frame_slices_step b rest Hb0 Hle). cbn [Decoded.decoded_stream].
      destruct (codec2_decode codec2 (firstn b rest)) as [codec2' speech_samples].
      assert (Ediv : (length rest / b = S (length (skipn b rest) / b))%nat).
      { rewrite length_skipn.
        replace (length rest) with ((length rest - b) + 1 * b)%nat at 1 by lia.
        rewrite Nat.div_add by lia. lia. }
      replace (Z.of_nat pos + Z.of_nat b) with (Z.of_nat (pos + b)) by lia.
      assert (Erest : skipn (pos + b) data = skipn b rest).
      { unfold rest. rewrite skipn_skipn. f_equal. lia. }
      specialize (IH (pos + b)%nat (e || (Z.of_nat b <? bytes_per_frame))
                    codec2' (write_frame wav_out speech_samples samples_per_frame)
                    (frames ++ [firstn b rest]) (to_int (fd + 1))
                    (written ++ map (short_at speech_samples) (zrange samples_per_frame))).
      cbv zeta in IH. rewrite Erest in IH. fold b in IH.
      rewrite (to_int_small (fd + 1)) in IH by lia.
      destruct IH as (wav_out' & IH & Hout);
        [apply write_frame_appends; exact Hholds | lia | lia | lia |].
      rewrite (to_int_small (fd + 1)) by lia.
      exists wav_out'. split.
      * rewrite IH. f_equal. f_equal; [f_equal|].
        -- rewrite <- app_assoc. reflexivity.
        -- rewrite Ediv. lia.
      * rewrite <- app_assoc in Hout. exact Hout.
    + rewrite Nat.min_r by lia.
      replace (Z.of_nat (length rest) =? bytes_per_frame) with false
        by (symmetry; apply Z.eqb_neq; unfold b in Hgt; lia).
      exists wav_out. rewrite bit_frame_slices_short by exact Hgt.
      rewrite Nat.div_small by exact Hgt. cbn [Decoded.decoded_stream].
      rewrite !app_nil_r. split; [do 2 f_equal; lia | exact Hholds].
Qed.

End DecodeLoopOutput.

Section DecoderOutput.

Variable CODEC2 : Type.
Variable codec2_create : Z -> option CODEC2.
Variable codec2_samples_per_frame : CODEC2 -> Z.
Variable codec2_bits_per_frame : CODEC2 -> Z.
Variable codec2_decode : CODEC2 -> list byte -> CODEC2 * list Z.

Lemma decoders_output content codec2 samples_per_frame bits_per_frame input1 :
  Decode.read_header CODEC2 codec2_create codec2_samples_per_frame
    codec2_bits_per_frame (fopen_rb content)
  = Some (codec2, samples_per_frame, bits_per_frame, input1) ->
  0 < bits_per_frame < 2 ^ 31 - 7 ->
  Z.of_nat (length content) < 2 ^ 31 ->
  let frames := bit_frame_slices (Z.to_nat ((bits_per_frame + 7) / 8)) (skipn 16 content) in
  let K := samples_per_frame * Z.of_nat (length frames) in
  0 <= samples_per_frame ->
  16 * K < 2 ^ 32 ->
  let written :=
    Decode.mk_run 0 frames (Z.of_nat (length frames))
      (Some {| f_data := write_wav_header 8000 1 16 (2 * K)
                         ++ shorts_bytes
                              (Decoded.decoded_stream CODEC2 codec2_decode codec2
                                 samples_per_frame frames);
               f_pos := 44;
               f_eof := false |}) in
  Decode.codec2_decode_main CODEC2 codec2_create codec2_samples_per_frame
    codec2_bits_per_frame codec2_decode (Some (fopen_rb content)) (Some fopen_wb)
  = Ret written
  /\ Decode.codec2_decode_enhanced_main CODEC2 codec2_create codec2_samples_per_frame
       codec2_bits_per_frame codec2_decode (Some (fopen_rb content)) (Some fopen_wb)
     = Ret (match frames with [] => Decode.mk_run 1 [] 0 None | _ :: _ => written end).
Proof.
  intros Hhdr Hbits Hlen frames K Hspf HK written.
  destruct (read_header_geometry _ _ _ _ _ _ _ _ _ Hhdr) as [Hspf31 _].
  assert (Eu : to_uint32 samples_per_frame = samples_per_frame)
    by (apply wrap_small; lia).
  destruct (read_header_stream _ _ _ _ _ _ _ _ _ Hhdr) as [-> Hlen16].
  destruct (bytes_per_frame_value bits_per_frame Hbits) as [Ebpf Hbpf].
  set (bpf := (bits_per_frame + 7) / 8) in *.
  set (data := skipn 16 content) in *.
  assert (Hdata : length data = (length content - 16)%nat)
    by (unfold data; apply length_skipn).
  assert (Lfr : length frames = (length data / Z.to_nat bpf)%nat).
  { unfold frames, bit_frame_slices. now rewrite length_map, length_seq. }
  assert (Ediv : Z.of_nat (length data) / bpf = Z.of_nat (length frames)).
  { rewrite Lfr, Nat2Z.inj_div, Z2Nat.id by lia. reflexivity. }
  assert (Hn : 0 <= Z.of_nat (length frames) <= Z.of_nat (length data)).
  { rewrite <- Ediv. split; [apply Z.div_pos; lia|]. apply Z.div_le_upper_bound; nia. }
  assert (Hseek :
    fseek_set (ftell {| f_data := content; f_pos := 16; f_eof := false |})
      (fseek_set (Z.of_nat (length (f_data {| f_data := content; f_pos := 16; f_eof := false |})))
         {| f_data := content; f_pos := 16; f_eof := false |})
    = {| f_data := content; f_pos := Z.of_nat 16; f_eof := false |}).
  { unfold fseek_set, ftell. cbn [f_data f_pos f_eof].
    destruct (Z.ltb_spec (Z.of_nat (length content)) 0); [lia|]. reflexivity. }
  assert (Hfuel : (length (skipn 16 content) / Z.to_nat bpf
                   < Decode.decode_budget {| f_data := content; f_pos := Z.of_nat 16; f_eof := false |})%nat).
  { unfold Decode.decode_budget. cbn [f_data]. fold data. rewrite <- Lfr. lia. }
  assert (LK : Z.of_nat (length (Decoded.decoded_stream CODEC2 codec2_decode codec2
                                   samples_per_frame frames)) = K).
  { rewrite decoded_stream_length. unfold K. nia. }
  assert (HK0 : 0 <= K) by (unfold K; nia).
  assert (Hsimple :
    Decode.codec2_decode_main CODEC2 codec2_create codec2_samples_per_frame
      codec2_bits_per_frame codec2_decode (Some (fopen_rb content)) (Some fopen_wb)
    = Ret written).
  { unfold Decode.codec2_decode_main. rewrite Hhdr, Ebpf, Hseek.
    destruct (Z.eqb_spec bpf 0) as [E|_]; [lia|].
    destruct (wav_open_write_written 8000) as (w0 & E0 & H0). rewrite E0.
    rewrite (buffers_allocated bpf samples_per_frame) by lia.
    destruct (decode_loop_output CODEC2 codec2_decode (option WavUtil.wav_file_t)
                (fun w speech n =>
                   snd (WavUtil.wav_write_samples w (Some speech) (to_uint32 n)))
                (fun written w => exists w0, w = Some w0 /\ written_at 8000 written w0)
                samples_per_frame
                ltac:(intros wr w speech (w1 & -> & H1); cbv beta; rewrite Eu;
                      destruct (wav_write_samples_written 8000 wr w1 speech
                                  samples_per_frame H1 Hspf) as (w2 & E2 & H2);
                      exists w2; rewrite E2; split; [reflexivity | exact H2])
                bpf content ltac:(lia)
                (Decode.decode_budget {| f_data := content; f_pos := Z.of_nat 16; f_eof := false |})
                16%nat false codec2 (Some w0) [] 0 []
                ltac:(exists w0; split; [reflexivity | exact H0]) Hfuel ltac:(lia)
                ltac:(fold data; rewrite <- Lfr; lia))
      as (wav_out' & Eloop & (w1 & -> & H1)).
    rewrite Eloop. cbn [app].
    assert (H1' : written_at 8000
                    (Decoded.decoded_stream CODEC2 codec2_decode codec2 samples_per_frame
                       frames) w1) by exact H1.
    rewrite (wav_close_written 8000 _ w1 H1') by (rewrite LK; lia).
    rewrite LK, mono_header_bytes by lia. unfold written. rewrite Lfr. reflexivity. }
  split; [exact Hsimple|].
  unfold Decode.codec2_decode_enhanced_main. rewrite Hhdr, Ebpf, Hseek.
  destruct (Z.eqb_spec bpf 0) as [E|_]; [lia|].
  cbn [ftell f_pos f_data].
  replace (Z.of_nat (length content) - 16) with (Z.of_nat (length data)) by lia.
  rewrite Z.quot_div_nonneg by lia. rewrite Ediv, to_int_small by lia.
  destruct (Z.eqb_spec (Z.of_nat (length frames)) 0) as [E0|Hne].
  { destruct frames; [reflexivity | cbn [length] in E0; lia]. }
  destruct open_write_appended as (w0 & E0 & H0). rewrite E0.
  rewrite (buffers_allocated bpf samples_per_frame) by lia.
  destruct (decode_loop_output CODEC2 codec2_decode (option wav_enhanced_t)
              (fun w speech n =>
                 snd (wav_enhanced_write_samples w (Some speech) (to_uint32 n)))
              (fun written w =>
                 exists w0, w = Some w0
                            /\ appended (write_wav_header 8000 1 16 0) written w0)
              samples_per_frame
              ltac:(intros wr w speech (w1 & -> & H1); cbv beta; rewrite Eu;
                    destruct (write_samples_appended_count _ wr w1 speech
                                samples_per_frame H1 Hspf) as (w2 & E2 & H2);
                    exists w2; split; [exact E2 | exact H2])
              bpf content ltac:(lia)
              (Decode.decode_budget {| f_data := content; f_pos := Z.of_nat 16; f_eof := false |})
              16%nat false codec2 (Some w0) [] 0 []
              ltac:(exists w0; split; [reflexivity | exact H0]) Hfuel ltac:(lia)
              ltac:(fold data; rewrite <- Lfr; lia))
    as (wav_out' & Eloop & (w1 & -> & H1)).
  rewrite Eloop. cbn [app].
  assert (H1' : appended (write_wav_header 8000 1 16 0)
                  (Decoded.decoded_stream CODEC2 codec2_decode codec2 samples_per_frame
                     frames) w1) by exact H1.
  rewrite (close_appended _ w1 H1') by (rewrite LK; lia).
  rewrite LK.
  assert (Em : match frames with
               | [] => Decode.mk_run 1 [] 0 None
               | _ :: _ => written
               end = written).
  { clear - Hne. clearbody written. destruct frames; [contradiction | reflexivity]. }
  rewrite Em. unfold written. rewrite Lfr. reflexivity.
Qed.

End DecoderOutput.

Lemma frames_or_none {A : Type} (l : list (list byte)) (a b : A) :
  (if Z.of_nat (length l) =? 0 then a else b)
  = match l with [] => a | _ :: _ => b end.
Proof. destruct l; reflexivity. Qed.

Section DecodeCount.

Variable CODEC2 : Type.
Variable codec2_create : Z -> option CODEC2.
Variable codec2_samples_per_frame : CODEC2 -> Z.
Variable codec2_bits_per_frame : CODEC2 -> Z.
Variable codec2_decode : CODEC2 -> list byte -> CODEC2 * list Z.

(** With a negative sample count per frame the speech buffer cannot be
    allocated, and both drivers exit with status 1 before the loop. *)
Lemma decoders_exit_without_buffers content fopen_output codec2 samples_per_frame
  bits_per_frame input1 :
  Decode.read_header CODEC2 codec2_create codec2_samples_per_frame
    codec2_bits_per_frame (fopen_rb content)
  = Some (codec2, samples_per_frame, bits_per_frame, input1) ->
  0 < bits_per_frame < 2 ^ 31 - 7 ->
  samples_per_frame < 0 ->
  (exists run,
      Decode.codec2_decode_main CODEC2 codec2_create codec2_samples_per_frame
        codec2_bits_per_frame codec2_decode
        (Some (fopen_rb content)) (Some fopen_output) = Ret run
      /\ Decode.exit_status run = 1
      /\ Decode.frames_decoded run = 0
      /\ Decode.bit_frames run = [])
  /\ (exists run,
      Decode.codec2_decode_enhanced_main CODEC2 codec2_create codec2_samples_per_frame
        codec2_bits_per_frame codec2_decode
        (Some (fopen_rb content)) (Some fopen_output) = Ret run
      /\ Decode.exit_status run = 1
      /\ Decode.frames_decoded run = 0
      /\ Decode.bit_frames run = []).
Proof.
  intros Hhdr Hbits Hneg.
  destruct (read_header_geometry _ _ _ _ _ _ _ _ _ Hhdr) as [Hspf31 _].
  destruct (bytes_per_frame_value bits_per_frame Hbits) as [Ebpf Hbpf].
  pose proof (speech_buffer_refused samples_per_frame ltac:(lia)) as Hm.
  split.
  - unfold Decode.codec2_decode_main. rewrite Hhdr, Ebpf.
    destruct (Z.eqb_spec ((bits_per_frame + 7) / 8) 0) as [E|_]; [lia|].
    destruct (WavUtil.wav_open_write (Some fopen_output) 8000 1 16) as [wav_out|]
      eqn:Eopen; [|discriminate Eopen].
    rewrite Hm, orb_true_r. eexists. repeat split.
  - unfold Decode.codec2_decode_enhanced_main. rewrite Hhdr, Ebpf.
    destruct (Z.eqb_spec ((bits_per_frame + 7) / 8) 0) as [E|_]; [lia|].
    destruct (to_int _ =? 0); [eexists; repeat split|].
    destruct (wav_enhanced_open_write (Some fopen_output)) as [wav_out|] eqn:Eopen;
      [|discriminate Eopen].
    rewrite Hm, orb_true_r. eexists. repeat split.
Qed.

(** C8: for a compressed container that passes the header check, with a
    frame of [bits_per_frame] bits, that is [bytes_per_frame =
    (bits_per_frame + 7) / 8] bytes, a sample count per frame that is not
    negative, and a data region of [data_bytes] bytes after the 16-byte
    header, both decode drivers terminate having decoded exactly
    [N = floor (data_bytes / bytes_per_frame)] frames: frame [k] handed to
    [codec2_decode] is the [bytes_per_frame] bytes of the data region at
    offset [k * bytes_per_frame], so a trailing partial frame is neither
    padded nor decoded, and nothing past the data is read. What they
    write is the decoding of those [N] frames and nothing else: on a
    fresh output file, the canonical header for [samples_per_frame * N]
    samples followed by the first [samples_per_frame] samples
    [codec2_decode] produced for each frame in order ([16 *
    samples_per_frame * N] below 2^32, the limit of the header's size
    fields). [codec2_decode_enhanced] exits with status 1 and writes
    nothing when [N] is 0. (Sizes below 2^31, as the drivers' [int]
    counters require.) *)
Theorem decode_counts_whole_frames :
  forall content fopen_output codec2 samples_per_frame bits_per_frame input1,
    Decode.read_header CODEC2 codec2_create codec2_samples_per_frame
      codec2_bits_per_frame (fopen_rb content)
    = Some (codec2, samples_per_frame, bits_per_frame, input1) ->
    0 < bits_per_frame < 2 ^ 31 - 7 ->
    0 <= samples_per_frame ->
    Z.of_nat (length content) < 2 ^ 31 ->
    let data := skipn 16 content in
    let bytes_per_frame := (bits_per_frame + 7) / 8 in
    let N := Z.of_nat (length data) / bytes_per_frame in
    let frames := bit_frame_slices (Z.to_nat bytes_per_frame) data in
    let written :=
      Decode.mk_run 0 frames N
        (Some {| f_data := write_wav_header 8000 1 16 (2 * (samples_per_frame * N))
                           ++ shorts_bytes
                                (Decoded.decoded_stream CODEC2 codec2_decode codec2
                                   samples_per_frame frames);
                 f_pos := 44;
                 f_eof := false |}) in
    (exists run,
        Decode.codec2_decode_enhanced_main CODEC2 codec2_create codec2_samples_per_frame
          codec2_bits_per_frame codec2_decode
          (Some (fopen_rb content)) (Some fopen_output) = Ret run
        /\ Decode.exit_status run = (if N =? 0 then 1 else 0)
        /\ Decode.frames_decoded run = N
        /\ Decode.bit_frames run = frames)
    /\ (exists run,
        Decode.codec2_decode_main CODEC2 codec2_create codec2_samples_per_frame
          codec2_bits_per_frame codec2_decode
          (Some (fopen_rb content)) (Some fopen_output) = Ret run
        /\ Decode.exit_status run = 0
        /\ Decode.frames_decoded run = N
        /\ Decode.bit_frames run = frames)
    /\ (16 * (samples_per_frame * N) < 2 ^ 32 ->
        Decode.codec2_decode_main CODEC2 codec2_create codec2_samples_per_frame
          codec2_bits_per_frame codec2_decode (Some (fopen_rb content)) (Some fopen_wb)
        = Ret written
        /\ Decode.codec2_decode_enhanced_main CODEC2 codec2_create
             codec2_samples_per_frame codec2_bits_per_frame codec2_decode
             (Some (fopen_rb content)) (Some fopen_wb)
           = Ret (if N =? 0 then Decode.mk_run 1 [] 0 None else written)).
Proof.
  intros content fout codec2 spf bits input1 Hhdr Hbits Hspf Hlen data bpf N frames
    written.
  pose proof (decoders_output CODEC2 codec2_create codec2_samples_per_frame
                codec2_bits_per_frame codec2_decode content codec2 spf bits input1
                Hhdr Hbits Hlen Hspf) as Hout.
  destruct (read_header_geometry _ _ _ _ _ _ _ _ _ Hhdr) as [Hspf31 _].
  destruct (read_header_stream _ _ _ _ _ _ _ _ _ Hhdr) as [-> Hlen16].
  destruct (bytes_per_frame_value bits Hbits) as [Ebpf Hbpf]. fold bpf in Ebpf, Hbpf.
  assert (Hdata : length data = (length content - 16)%nat)
    by (unfold data; apply length_skipn).
  assert (Lfr : length frames = (length data / Z.to_nat bpf)%nat).
  { unfold frames, bit_frame_slices. now rewrite length_map, length_seq. }
  assert (Ediv : N = Z.of_nat (length frames)).
  { unfold N. rewrite Lfr, Nat2Z.inj_div, Z2Nat.id by lia. reflexivity. }
  assert (Hn : 0 <= N <= Z.of_nat (length data)).
  { unfold N. split; [apply Z.div_pos; lia|]. apply Z.div_le_upper_bound; nia. }
  assert (Hseek :
    fseek_set (ftell {| f_data := content; f_pos := 16; f_eof := false |})
      (fseek_set (Z.of_nat (length (f_data {| f_data := content; f_pos := 16; f_eof := false |})))
         {| f_data := content; f_pos := 16; f_eof := false |})
    = {| f_data := content; f_pos := Z.of_nat 16; f_eof := false |}).
  { unfold fseek_set, ftell. cbn [f_data f_pos f_eof].
    destruct (Z.ltb_spec (Z.of_nat (length content)) 0); [lia|]. reflexivity. }
  assert (Hfuel : (length (skipn 16 content) / Z.to_nat bpf
                   < Decode.decode_budget {| f_data := content; f_pos := Z.of_nat 16; f_eof := false |})%nat).
  { unfold Decode.decode_budget. cbn [f_data]. fold data. rewrite <- Lfr. lia. }
  split; [|split].
  - unfold Decode.codec2_decode_enhanced_main. rewrite Hhdr, Ebpf, Hseek.
    destruct (Z.eqb_spec bpf 0) as [E|_]; [lia|].
    cbn [ftell f_pos f_data].
    replace (Z.of_nat (length content) - 16) with (Z.of_nat (length data)) by lia.
    rewrite Z.quot_div_nonneg by lia. fold N. rewrite (to_int_small N) by lia.
    destruct (Z.eqb_spec N 0) as [E0|Hne].
    + eexists. split; [reflexivity|].
      cbn [Decode.exit_status Decode.frames_decoded Decode.bit_frames].
      split; [reflexivity|]. split; [lia|].
      symmetry. apply length_zero_iff_nil. lia.
    + destruct (wav_enhanced_open_write (Some fout)) as [wav_out|] eqn:Eopen;
        [|discriminate Eopen].
      rewrite (buffers_allocated bpf spf) by lia.
      destruct (decode_loop_frames CODEC2 codec2_decode (option wav_enhanced_t)
                  (fun w speech n =>
                     snd (wav_enhanced_write_samples w (Some speech) (to_uint32 n)))
                  bpf spf content ltac:(lia)
                  (Decode.decode_budget {| f_data := content; f_pos := Z.of_nat 16; f_eof := false |})
                  16%nat false codec2 (Some wav_out) [] 0 Hfuel ltac:(lia)
                  ltac:(fold data; rewrite <- Lfr; lia)) as (wav_out' & Eloop).
      rewrite Eloop. eexists. split; [reflexivity|].
      cbn [Decode.exit_status Decode.frames_decoded Decode.bit_frames app]. fold data.
      split; [reflexivity|]. split; [rewrite <- Lfr; lia | reflexivity].
  - unfold Decode.codec2_decode_main. rewrite Hhdr, Ebpf, Hseek.
    destruct (Z.eqb_spec bpf 0) as [E|_]; [lia|].
    destruct (WavUtil.wav_open_write (Some fout) 8000 1 16) as [wav_out|] eqn:Eopen;
      [|discriminate Eopen].
    rewrite (buffers_allocated bpf spf) by lia.
    destruct (decode_loop_frames CODEC2 codec2_decode (option WavUtil.wav_file_t)
                (fun w speech n =>
                   snd (WavUtil.wav_write_samples w (Some speech) (to_uint32 n)))
                bpf spf content ltac:(lia)
                (Decode.decode_budget {| f_data := content; f_pos := Z.of_nat 16; f_eof := false |})
                16%nat false codec2 (Some wav_out) [] 0 Hfuel ltac:(lia)
                ltac:(fold data; rewrite <- Lfr; lia)) as (wav_out' & Eloop).
    rewrite Eloop. eexists. split; [reflexivity|].
    cbn [Decode.exit_status Decode.frames_decoded Decode.bit_frames app]. fold data.
    split; [reflexivity|]. split; [rewrite <- Lfr; lia | reflexivity].
  - intros HK. unfold written. rewrite Ediv in HK |- *.
    destruct (Hout HK) as [H1 H2]. split; [exact H1|].
    rewrite frames_or_none. exact H2.
Qed.

End DecodeCount.

(** The stand-in container, two whole frames and a trailing byte, as an
    instance of the theorem. *)
Lemma decode_counts_whole_frames_witness :
  (exists run,
      Decode.codec2_decode_enhanced_main unit toy_create toy_samples_per_frame
        toy_bits_per_frame toy_decode (Some (fopen_rb toy_c2)) (Some fopen_wb) = Ret run
      /\ Decode.exit_status run
         = (if Z.of_nat (length (skipn 16 toy_c2)) / ((12 + 7) / 8) =? 0 then 1 else 0)
      /\ Decode.frames_decoded run = Z.of_nat (length (skipn 16 toy_c2)) / ((12 + 7) / 8)
      /\ Decode.bit_frames run
         = bit_frame_slices (Z.to_nat ((12 + 7) / 8)) (skipn 16 toy_c2))
  /\ (exists run,
      Decode.codec2_decode_main unit toy_create toy_samples_per_frame
        toy_bits_per_frame toy_decode (Some (fopen_rb toy_c2)) (Some fopen_wb) = Ret run
      /\ Decode.exit_status run = 0
      /\ Decode.frames_decoded run = Z.of_nat (length (skipn 16 toy_c2)) / ((12 + 7) / 8)
      /\ Decode.bit_frames run
         = bit_frame_slices (Z.to_nat ((12 + 7) / 8)) (skipn 16 toy_c2))
  /\ (16 * (2 * (Z.of_nat (length (skipn 16 toy_c2)) / ((12 + 7) / 8))) < 2 ^ 32 ->
      Decode.codec2_decode_main unit toy_create toy_samples_per_frame
        toy_bits_per_frame toy_decode (Some (fopen_rb toy_c2)) (Some fopen_wb)
      = Ret (Decode.mk_run 0
               (bit_frame_slices (Z.to_nat ((12 + 7) / 8)) (skipn 16 toy_c2))
               (Z.of_nat (length (skipn 16 toy_c2)) / ((12 + 7) / 8))
               (Some {| f_data :=
                          write_wav_header 8000 1 16
                            (2 * (2 * (Z.of_nat (length (skipn 16 toy_c2))
                                       / ((12 + 7) / 8))))
                          ++ shorts_bytes
                               (Decoded.decoded_stream unit toy_decode tt 2
                                  (bit_frame_slices (Z.to_nat ((12 + 7) / 8))
                                     (skipn 16 toy_c2)));
                        f_pos := 44;
                        f_eof := false |}))
      /\ Decode.codec2_decode_enhanced_main unit toy_create toy_samples_per_frame
           toy_bits_per_frame toy_decode (Some (fopen_rb toy_c2)) (Some fopen_wb)
         = Ret (if Z.of_nat (length (skipn 16 toy_c2)) / ((12 + 7) / 8) =? 0
                then Decode.mk_run 1 [] 0 None
                else
                  Decode.mk_run 0
                    (bit_frame_slices (Z.to_nat ((12 + 7) / 8)) (skipn 16 toy_c2))
                    (Z.of_nat (length (skipn 16 toy_c2)) / ((12 + 7) / 8))
                    (Some {| f_data :=
                               write_wav_header 8000 1 16
                                 (2 * (2 * (Z.of_nat (length (skipn 16 toy_c2))
                                            / ((12 + 7) / 8))))
                               ++ shorts_bytes
                                    (Decoded.decoded_stream unit toy_decode tt 2
                                       (bit_frame_slices (Z.to_nat ((12 + 7) / 8))
                                          (skipn 16 toy_c2)));
                             f_pos := 44;
                             f_eof := false |}))).
Proof.
  apply (decode_counts_whole_frames unit toy_create toy_samples_per_frame
           toy_bits_per_frame toy_decode toy_c2 fopen_wb tt 2 12
           {| f_data := toy_c2; f_pos := 16; f_eof := false |});
    [vm_compute; reflexivity | lia | lia | vm_compute; reflexivity].
Defined.

(** X25. What the two decode drivers write: on a compressed container
    that passes the header check, with [N] whole bit-frames in its data
    region, [codec2_decode] exits with status 0 and leaves a WAV file made
    of the canonical 8000 Hz mono 16-bit header with data size
    [2 * samples_per_frame * N] followed by, for each bit-frame in order,
    the first [samples_per_frame] samples [codec2_decode] left in the
    speech buffer. [codec2_decode_enhanced] writes the same file, byte for
    byte, when [N] is positive; when there is no whole frame it exits with
    status 1 and creates no output, where [codec2_decode] writes the empty
    container. (Sizes below 2^31, and [16 * samples_per_frame * N] below
    2^32.) *)
Theorem decoders_write_the_decoded_samples :
  forall (CODEC2 : Type) (codec2_create : Z -> option CODEC2)
         (codec2_samples_per_frame codec2_bits_per_frame : CODEC2 -> Z)
         (codec2_decode : CODEC2 -> list byte -> CODEC2 * list Z)
         (content : list byte) (codec2 : CODEC2) (samples_per_frame bits_per_frame : Z)
         (input1 : FILE),
    Decode.read_header CODEC2 codec2_create codec2_samples_per_frame
      codec2_bits_per_frame (fopen_rb content)
    = Some (codec2, samples_per_frame, bits_per_frame, input1) ->
    0 < bits_per_frame < 2 ^ 31 - 7 ->
    Z.of_nat (length content) < 2 ^ 31 ->
    let frames :=
      bit_frame_slices (Z.to_nat ((bits_per_frame + 7) / 8)) (skipn 16 content) in
    let K := samples_per_frame * Z.of_nat (length frames) in
    0 <= samples_per_frame ->
    16 * K < 2 ^ 32 ->
    let written :=
      Decode.mk_run 0 frames (Z.of_nat (length frames))
        (Some {| f_data := write_wav_header 8000 1 16 (2 * K)
                           ++ shorts_bytes
                                (Decoded.decoded_stream CODEC2 codec2_decode codec2
                                   samples_per_frame frames);
                 f_pos := 44;
                 f_eof := false |}) in
    Decode.codec2_decode_main CODEC2 codec2_create codec2_samples_per_frame
      codec2_bits_per_frame codec2_decode (Some (fopen_rb content)) (Some fopen_wb)
    = Ret written
    /\ Decode.codec2_decode_enhanced_main CODEC2 codec2_create codec2_samples_per_frame
         codec2_bits_per_frame codec2_decode (Some (fopen_rb content)) (Some fopen_wb)
       = Ret (match frames with [] => Decode.mk_run 1 [] 0 None | _ :: _ => written end).
Proof. exact decoders_output. Qed.

Lemma decoders_write_the_decoded_samples_witness :
  Decode.codec2_decode_main unit toy_create toy_samples_per_frame toy_bits_per_frame
    toy_decode (Some (fopen_rb toy_c2)) (Some fopen_wb)
  = Ret (Decode.mk_run 0
           (bit_frame_slices (Z.to_nat ((12 + 7) / 8)) (skipn 16 toy_c2))
           (Z.of_nat (length (bit_frame_slices (Z.to_nat ((12 + 7) / 8))
                                (skipn 16 toy_c2))))
           (Some {| f_data :=
                      write_wav_header 8000 1 16
                        (2 * (2 * Z.of_nat (length (bit_frame_slices
                                                      (Z.to_nat ((12 + 7) / 8))
                                                      (skipn 16 toy_c2)))))
                      ++ shorts_bytes
                           (Decoded.decoded_stream unit toy_decode tt 2
                              (bit_frame_slices (Z.to_nat ((12 + 7) / 8))
                                 (skipn 16 toy_c2)));
                    f_pos := 44;
                    f_eof := false |}))
  /\ Decode.codec2_decode_enhanced_main unit toy_create toy_samples_per_frame
       toy_bits_per_frame toy_decode (Some (fopen_rb toy_c2)) (Some fopen_wb)
     = Ret (match bit_frame_slices (Z.to_nat ((12 + 7) / 8)) (skipn 16 toy_c2) with
            | [] => Decode.mk_run 1 [] 0 None
            | _ :: _ =>
                Decode.mk_run 0
                  (bit_frame_slices (Z.to_nat ((12 + 7) / 8)) (skipn 16 toy_c2))
                  (Z.of_nat (length (bit_frame_slices (Z.to_nat ((12 + 7) / 8))
                                       (skipn 16 toy_c2))))
                  (Some {| f_data :=
                             write_wav_header 8000 1 16
                               (2 * (2 * Z.of_nat (length (bit_frame_slices
                                                             (Z.to_nat ((12 + 7) / 8))
                                                             (skipn 16 toy_c2)))))
                             ++ shorts_bytes
                                  (Decoded.decoded_stream unit toy_decode tt 2
                                     (bit_frame_slices (Z.to_nat ((12 + 7) / 8))
                                        (skipn 16 toy_c2)));
                           f_pos := 44;
                           f_eof := false |})
            end).
Proof.
  apply (decoders_write_the_decoded_samples unit toy_create toy_samples_per_frame
           toy_bits_per_frame toy_decode toy_c2 tt 2 12
           {| f_data := toy_c2; f_pos := 16; f_eof := false |}).
  - vm_compute. reflexivity.
  - lia.
  - vm_compute. reflexivity.
  - lia.
  - vm_compute. reflexivity.
Defined.

(** ** The decoders on a bad header *)

Lemma nth_firstn_below {A : Type} (d : A) (m : nat) :
  forall (l : list A) (i : nat), (i < m)%nat -> nth i (firstn m l) d = nth i l d.
Proof.
  induction m as [|m IH]; intros l i Hi; [lia|].
  destruct l as [|x l]; [reflexivity|].
  destruct i as [|i]; [reflexivity|]. cbn [firstn nth]. apply IH. lia.
Qed.

Lemma load_firstn (n m : nat) (buf : list byte) (off : nat) :
  (off + n <= m)%nat -> load n (firstn m buf) (Z.of_nat off) = load n buf (Z.of_nat off).
Proof.
  intros H. unfold load. rewrite Nat2Z.id. f_equal.
  apply map_ext_in. intros j Hj. apply in_seq in Hj.
  apply nth_firstn_below. lia.
Qed.

Section BadHeader.

Variable CODEC2 : Type.
Variable codec2_create : Z -> option CODEC2.
Variable codec2_samples_per_frame : CODEC2 -> Z.
Variable codec2_bits_per_frame : CODEC2 -> Z.
Variable codec2_decode : CODEC2 -> list byte -> CODEC2 * list Z.

Lemma read_header_refuses content :
  ((length content < 16)%nat
   \/ load 4 content 0 <> Decode.C2C2_MAGIC
   \/ match codec2_create (to_int (load 4 content 4)) with
      | None => True
      | Some codec2 =>
          codec2_samples_per_frame codec2 <> to_int (load 4 content 8)
          \/ codec2_bits_per_frame codec2 <> to_int (load 4 content 12)
      end) ->
  Decode.read_header CODEC2 codec2_create codec2_samples_per_frame codec2_bits_per_frame
    (fopen_rb content) = None.
Proof.
  intros H. unfold Decode.read_header, fread, fopen_rb. cbn [f_data f_pos f_eof].
  change (Z.to_nat 0) with 0%nat. cbn [skipn]. change (Z.to_nat 16) with 16%nat.
  rewrite length_firstn.
  destruct (Nat.le_gt_cases 16 (length content)) as [Hle|Hgt].
  - rewrite Nat.min_l by exact Hle.
    change (negb (Z.of_nat 16 / 4 =? 4)) with false. cbv iota.
    rewrite (load_firstn 4 16 content 0 ltac:(lia) : load 4 (firstn 16 content) 0 = _).
    rewrite (load_firstn 4 16 content 4 ltac:(lia) : load 4 (firstn 16 content) 4 = _).
    rewrite (load_firstn 4 16 content 8 ltac:(lia) : load 4 (firstn 16 content) 8 = _).
    rewrite (load_firstn 4 16 content 12 ltac:(lia) : load 4 (firstn 16 content) 12 = _).
    change (Z.of_nat 0) with 0. change (Z.of_nat 4) with 4.
    change (Z.of_nat 8) with 8. change (Z.of_nat 12) with 12.
    destruct H as [H|[H|H]]; [lia| |].
    + destruct (Z.eqb_spec (load 4 content 0) Decode.C2C2_MAGIC); [contradiction|].
      reflexivity.
    + destruct (negb _); [reflexivity|].
      destruct (codec2_create _) as [c|]; [|reflexivity].
      destruct (Z.eqb_spec (codec2_samples_per_frame c) (to_int (load 4 content 8)));
        [|reflexivity].
      destruct (Z.eqb_spec (codec2_bits_per_frame c) (to_int (load 4 content 12)));
        [|reflexivity].
      tauto.
  - rewrite Nat.min_r by lia.
    replace (negb (Z.of_nat (length content) / 4 =? 4)) with true; [reflexivity|].
    symmetry. apply negb_true_iff, Z.eqb_neq.
    assert (Z.of_nat (length content) / 4 < 4)
      by (apply Z.div_lt_upper_bound; lia).
    lia.
Qed.

Lemma decoders_refuse content fopen_output :
  ((length content < 16)%nat
   \/ load 4 content 0 <> Decode.C2C2_MAGIC
   \/ match codec2_create (to_int (load 4 content 4)) with
      | None => True
      | Some codec2 =>
          codec2_samples_per_frame codec2 <> to_int (load 4 content 8)
          \/ codec2_bits_per_frame codec2 <> to_int (load 4 content 12)
      end) ->
  Decode.codec2_decode_main CODEC2 codec2_create codec2_samples_per_frame
    codec2_bits_per_frame codec2_decode (Some (fopen_rb content)) fopen_output
  = Ret (Decode.mk_run 1 [] 0 None)
  /\ Decode.codec2_decode_enhanced_main CODEC2 codec2_create codec2_samples_per_frame
       codec2_bits_per_frame codec2_decode (Some (fopen_rb content)) fopen_output
     = Ret (Decode.mk_run 1 [] 0 None).
Proof.
  intros H. pose proof (read_header_refuses content H) as E.
  unfold Decode.codec2_decode_main, Decode.codec2_decode_enhanced_main.
  rewrite E. split; reflexivity.
Qed.

End BadHeader.

(** X30. The decoders on a bad container: when the input holds fewer than
    16 bytes, or does not start with the magic 0x43324332, or names a mode
    [codec2_create] refuses, or declares a frame geometry other than the
    codec's, both [codec2_decode] and [codec2_decode_enhanced] exit with
    status 1 having decoded nothing, and the output file is never
    created. *)
Theorem decoders_refuse_a_bad_header :
  forall (CODEC2 : Type) (codec2_create : Z -> option CODEC2)
         (codec2_samples_per_frame codec2_bits_per_frame : CODEC2 -> Z)
         (codec2_decode : CODEC2 -> list byte -> CODEC2 * list Z)
         (content : list byte) (fopen_output : option FILE),
    ((length content < 16)%nat
     \/ load 4 content 0 <> Decode.C2C2_MAGIC
     \/ match codec2_create (to_int (load 4 content 4)) with
        | None => True
        | Some codec2 =>
            codec2_samples_per_frame codec2 <> to_int (load 4 content 8)
            \/ codec2_bits_per_frame codec2 <> to_int (load 4 content 12)
        end) ->
    Decode.codec2_decode_main CODEC2 codec2_create codec2_samples_per_frame
      codec2_bits_per_frame codec2_decode (Some (fopen_rb content)) fopen_output
    = Ret (Decode.mk_run 1 [] 0 None)
    /\ Decode.codec2_decode_enhanced_main CODEC2 codec2_create codec2_samples_per_frame
         codec2_bits_per_frame codec2_decode (Some (fopen_rb content)) fopen_output
       = Ret (Decode.mk_run 1 [] 0 None).
Proof. exact decoders_refuse. Qed.

Lemma decoders_refuse_a_bad_header_witness :
  Decode.codec2_decode_main unit toy_create toy_samples_per_frame toy_bits_per_frame
    toy_decode (Some (fopen_rb (c2_header 0 3 12 ++ [Byte.x01; Byte.x02])))
    (Some fopen_wb)
  = Ret (Decode.mk_run 1 [] 0 None)
  /\ Decode.codec2_decode_enhanced_main unit toy_create toy_samples_per_frame
       toy_bits_per_frame toy_decode
       (Some (fopen_rb (c2_header 0 3 12 ++ [Byte.x01; Byte.x02]))) (Some fopen_wb)
     = Ret (Decode.mk_run 1 [] 0 None).
Proof.
  apply (decoders_refuse_a_bad_header unit toy_create toy_samples_per_frame
           toy_bits_per_frame toy_decode (c2_header 0 3 12 ++ [Byte.x01; Byte.x02])
           (Some fopen_wb)).
  right. right. left. vm_compute. discriminate.
Defined.

(** ** From the encoder to the decoder *)

Lemma to_int_of_uint32 x : - 2 ^ 31 <= x < 2 ^ 31 -> to_int (x mod 2 ^ 32) = x.
Proof.
  intros H. unfold to_int, swrap. change (2 ^ (32 - 1)) with (2 ^ 31).
  rewrite Zplus_mod_idemp_l. rewrite Z.mod_small by lia. lia.
Qed.

Lemma bit_frame_slices_exact (b : nat) :
  (0 < b)%nat ->
  forall (n : nat) (data : list byte),
    length data = (b * n)%nat ->
    length (bit_frame_slices b data) = n /\ concat (bit_frame_slices b data) = data.
Proof.
  intros Hb. induction n as [|n IH]; intros data Hlen.
  - rewrite bit_frame_slices_short by lia. split; [reflexivity|].
    destruct data; [reflexivity | cbn [length] in Hlen; lia].
  - rewrite bit_frame_slices_step by nia.
    destruct (IH (skipn b data)) as [L C]; [rewrite length_skipn; nia|].
    cbn [length concat]. rewrite L, C. split; [reflexivity | apply firstn_skipn].
Qed.

Lemma buffer_bytes_length buf n : length (Encode.buffer_bytes buf n) = Z.to_nat n.
Proof. unfold Encode.buffer_bytes. now rewrite length_map, zrange_length. Qed.

Lemma encoded_stream_length (CODEC2 : Type)
  (codec2_encode : CODEC2 -> list Z -> CODEC2 * list byte) bytes_per_frame frames :
  forall codec2,
    length (Encode.encoded_stream CODEC2 codec2_encode codec2 bytes_per_frame frames)
    = (Z.to_nat bytes_per_frame * length frames)%nat.
Proof.
  induction frames as [|fr frames IH]; intros codec2; cbn [Encode.encoded_stream length].
  - lia.
  - destruct (codec2_encode codec2 fr) as [codec2' bits].
    rewrite length_app, buffer_bytes_length, IH. lia.
Qed.

Lemma c2_header_fields mode samples_per_frame bits_per_frame (k : nat) :
  (k < 4)%nat ->
  load 4 (Encode.header_bytes mode samples_per_frame bits_per_frame) (Z.of_nat (4 * k))
  = nth k [0x43324332; mode; samples_per_frame; bits_per_frame] 0 mod 2 ^ 32.
Proof.
  intros Hk.
  replace (Encode.header_bytes mode samples_per_frame bits_per_frame)
    with (flat_map (le_split 4) [0x43324332; mode; samples_per_frame; bits_per_frame])
    by (unfold Encode.header_bytes; cbn [flat_map]; now rewrite app_nil_r).
  apply (load_le_split 4 _ k). cbn [length]. lia.
Qed.

Section EncodeThenDecode.

Variable CODEC2 : Type.
Variable codec2_create : Z -> option CODEC2.
Variable codec2_samples_per_frame : CODEC2 -> Z.
Variable codec2_bits_per_frame : CODEC2 -> Z.
Variable codec2_encode : CODEC2 -> list Z -> CODEC2 * list byte.
Variable codec2_decode : CODEC2 -> list byte -> CODEC2 * list Z.

Lemma read_header_written mode codec2 payload :
  codec2_create mode = Some codec2 ->
  - 2 ^ 31 <= mode < 2 ^ 31 ->
  - 2 ^ 31 <= codec2_samples_per_frame codec2 < 2 ^ 31 ->
  - 2 ^ 31 <= codec2_bits_per_frame codec2 < 2 ^ 31 ->
  let out :=
    Encode.header_bytes mode (codec2_samples_per_frame codec2)
      (codec2_bits_per_frame codec2) ++ payload in
  Decode.read_header CODEC2 codec2_create codec2_samples_per_frame codec2_bits_per_frame
    (fopen_rb out)
  = Some (codec2, codec2_samples_per_frame codec2, codec2_bits_per_frame codec2,
          {| f_data := out; f_pos := 16; f_eof := false |}).
Proof.
  intros Hcreate Hmode Hspf Hbits out.
  unfold Decode.read_header, fread, fopen_rb. cbn [f_data f_pos f_eof].
  change (Z.to_nat 0) with 0%nat. cbn [skipn]. change (Z.to_nat 16) with 16%nat.
  set (hdr := Encode.header_bytes mode (codec2_samples_per_frame codec2)
                (codec2_bits_per_frame codec2)).
  assert (Lh : length hdr = 16%nat) by reflexivity.
  assert (Eh : firstn 16 out = hdr).
  { unfold out. fold hdr. rewrite firstn_app, Lh, Nat.sub_diag, firstn_O, app_nil_r.
    apply firstn_all2. lia. }
  rewrite Eh, Lh. change (negb (Z.of_nat 16 / 4 =? 4)) with false. cbv iota.
  pose proof (c2_header_fields mode (codec2_samples_per_frame codec2)
                (codec2_bits_per_frame codec2)) as F. fold hdr in F.
  pose proof (F 0%nat ltac:(lia)) as F0. pose proof (F 1%nat ltac:(lia)) as F1.
  pose proof (F 2%nat ltac:(lia)) as F2. pose proof (F 3%nat ltac:(lia)) as F3.
  cbn [nth] in F0, F1, F2, F3.
  change (Z.of_nat (4 * 0)) with 0 in F0. change (Z.of_nat (4 * 1)) with 4 in F1.
  change (Z.of_nat (4 * 2)) with 8 in F2. change (Z.of_nat (4 * 3)) with 12 in F3.
  rewrite F0, F1, F2, F3.
  change (negb (0x43324332 mod 2 ^ 32 =? Decode.C2C2_MAGIC)) with false. cbv iota.
  rewrite !to_int_of_uint32 by assumption.
  rewrite Hcreate, !Z.eqb_refl. cbn [negb orb].
  change (0 + Z.of_nat 16) with 16. change (Z.of_nat 16 <? 16) with false.
  reflexivity.
Qed.

Lemma encoded_container_decodes mode codec2 (frames : list (list Z)) :
  codec2_create mode = Some codec2 ->
  - 2 ^ 31 <= mode < 2 ^ 31 ->
  let samples_per_frame := codec2_samples_per_frame codec2 in
  let bits_per_frame := codec2_bits_per_frame codec2 in
  let bytes_per_frame := int_div (to_int (bits_per_frame + 7)) 8 in
  0 <= samples_per_frame < 2 ^ 31 ->
  0 < bits_per_frame < 2 ^ 31 - 7 ->
  let payload :=
    Encode.encoded_stream CODEC2 codec2_encode codec2 bytes_per_frame frames in
  let out := Encode.header_bytes mode samples_per_frame bits_per_frame ++ payload in
  let K := samples_per_frame * Z.of_nat (length frames) in
  Z.of_nat (length out) < 2 ^ 31 ->
  16 * K < 2 ^ 32 ->
  exists bit_frames,
    length bit_frames = length frames
    /\ concat bit_frames = payload
    /\ Decode.codec2_decode_main CODEC2 codec2_create codec2_samples_per_frame
         codec2_bits_per_frame codec2_decode (Some (fopen_rb out)) (Some fopen_wb)
       = Ret (Decode.mk_run 0 bit_frames (Z.of_nat (length frames))
                (Some {| f_data :=
                           write_wav_header 8000 1 16 (2 * K)
                           ++ shorts_bytes
                                (Decoded.decoded_stream CODEC2 codec2_decode codec2
                                   samples_per_frame bit_frames);
                         f_pos := 44;
                         f_eof := false |})).
Proof.
  intros Hcreate Hmode spf bits bpf Hspf Hbits payload out K Hlen HK.
  destruct (bytes_per_frame_value bits Hbits) as [Ebpf Hbpf]. fold bpf in Ebpf.
  assert (Hspf' : - 2 ^ 31 <= codec2_samples_per_frame codec2 < 2 ^ 31)
    by (unfold spf in Hspf; lia).
  assert (Hbits' : - 2 ^ 31 <= codec2_bits_per_frame codec2 < 2 ^ 31)
    by (pose proof Hbits as Hb; unfold bits in Hb; clear - Hb; lia).
  pose proof (read_header_written mode codec2 payload Hcreate Hmode Hspf' Hbits') as Hhdr.
  cbv zeta in Hhdr. fold spf bits out in Hhdr.
  assert (Eskip : skipn 16 out = payload).
  { unfold out. rewrite skipn_app.
    change (length (Encode.header_bytes mode spf bits)) with 16%nat.
    rewrite Nat.sub_diag, skipn_O.
    rewrite (skipn_all2 (Encode.header_bytes mode spf bits) (n := 16)) by (apply Nat.le_refl).
    reflexivity. }
  assert (Lp : length payload = (Z.to_nat bpf * length frames)%nat)
    by apply encoded_stream_length.
  destruct (bit_frame_slices_exact (Z.to_nat bpf) ltac:(lia) (length frames) payload Lp)
    as [Ls Cs].
  pose proof (decoders_output CODEC2 codec2_create codec2_samples_per_frame
                codec2_bits_per_frame codec2_decode out codec2 spf bits _ Hhdr Hbits Hlen)
    as Hdec.
  cbv zeta in Hdec. rewrite Eskip, <- Ebpf, Ls in Hdec.
  destruct (Hdec ltac:(lia) HK) as [Hmain _].
  exists (bit_frame_slices (Z.to_nat bpf) payload).
  split; [exact Ls|]. split; [exact Cs|]. exact Hmain.
Qed.

End EncodeThenDecode.

Lemma write_wav_header_length rate channels bits n :
  length (write_wav_header rate channels bits n) = 44%nat.
Proof.
  unfold write_wav_header, format_fields. rewrite !length_app, !length_le_split.
  reflexivity.
Qed.

Section Pipeline.

Variable CODEC2 : Type.
Variable codec2_create : Z -> option CODEC2.
Variable codec2_samples_per_frame : CODEC2 -> Z.
Variable codec2_bits_per_frame : CODEC2 -> Z.
Variable codec2_encode : CODEC2 -> list Z -> CODEC2 * list byte.
Variable codec2_decode : CODEC2 -> list byte -> CODEC2 * list Z.

Lemma encode_then_decode mode content codec2 run out :
  codec2_create mode = Some codec2 ->
  - 2 ^ 31 <= mode < 2 ^ 31 ->
  let samples_per_frame := codec2_samples_per_frame codec2 in
  let bits_per_frame := codec2_bits_per_frame codec2 in
  0 <= samples_per_frame < 2 ^ 31 ->
  0 < bits_per_frame < 2 ^ 31 - 7 ->
  Z.of_nat (length content) < 2 ^ 31 ->
  Encode.codec2_encode_main CODEC2 codec2_create codec2_samples_per_frame
    codec2_bits_per_frame codec2_encode mode (Some content) (Some fopen_wb) = Ret run ->
  Encode.exit_status run = 0 ->
  Encode.c2_written run = Some out ->
  Z.of_nat (length (f_data out)) < 2 ^ 31 ->
  16 * (samples_per_frame * Encode.frames_encoded run) < 2 ^ 32 ->
  exists decoded,
    Decode.codec2_decode_main CODEC2 codec2_create codec2_samples_per_frame
      codec2_bits_per_frame codec2_decode (Some (fopen_rb (f_data out))) (Some fopen_wb)
    = Ret decoded
    /\ Decode.exit_status decoded = 0
    /\ Decode.frames_decoded decoded = Encode.frames_encoded run
    /\ concat (Decode.bit_frames decoded) = skipn 16 (f_data out)
    /\ option_map (fun f => Z.of_nat (length (f_data f))) (Decode.wav_written decoded)
       = Some (44 + 2 * (samples_per_frame * Encode.frames_encoded run)).
Proof.
  intros Hcreate Hmode spf bits Hspf Hbits Hlen Hrun Hexit Hout Hsize HK.
  pose proof (simple_encoder_runs CODEC2 codec2_create codec2_samples_per_frame
                codec2_bits_per_frame codec2_encode mode content codec2 Hcreate
                ltac:(apply Hspf) Hlen) as H.
  cbv zeta in H. rewrite Hrun in H. fold spf bits in H.
  destruct H as [(E1 & _)|(_ & _ & _ & Ecount & Edata)]; [rewrite Hexit in E1; discriminate|].
  rewrite Hout in Edata. cbn [option_map] in Edata.
  assert (Ed : f_data out
               = Encode.header_bytes mode spf bits
                 ++ Encode.encoded_stream CODEC2 codec2_encode codec2
                      (int_div (to_int (bits + 7)) 8) (Encode.speech_frames run))
    by congruence.
  clear Edata. rename Ed into Edata.
  rewrite Ecount in HK |- *.
  destruct (encoded_container_decodes CODEC2 codec2_create codec2_samples_per_frame
              codec2_bits_per_frame codec2_encode codec2_decode mode codec2
              (Encode.speech_frames run) Hcreate Hmode Hspf Hbits
              ltac:(fold spf bits; rewrite <- Edata; exact Hsize) HK)
    as (bit_frames & Lb & Cb & Hdec).
  fold spf bits in Hdec, Cb. rewrite <- Edata in Hdec.
  eexists. split; [exact Hdec|].
  cbn [Decode.exit_status Decode.frames_decoded Decode.bit_frames Decode.wav_written
       option_map f_data].
  split; [reflexivity|]. split; [reflexivity|]. split.
  - rewrite Cb, Edata, skipn_app.
    change (length (Encode.header_bytes mode spf bits)) with 16%nat.
    rewrite Nat.sub_diag, skipn_O.
    rewrite (skipn_all2 (Encode.header_bytes mode spf bits) (n := 16)) by (apply Nat.le_refl).
    reflexivity.
  - f_equal. rewrite length_app, write_wav_header_length, shorts_bytes_length,
      decoded_stream_length, Lb.
    unfold spf in *. nia.
Qed.

End Pipeline.

(** X26. [codec2_decode] decodes what [codec2_encode] wrote, frame for
    frame: when the encoder exits with status 0, the decoder run on its
    output file accepts the header, exits with status 0, decodes exactly
    as many frames as were encoded, hands to [codec2_decode] bit-frames
    that put end to end are the whole payload after the 16-byte header
    (nothing is dropped or padded), and leaves a WAV file of
    [44 + 2 * samples_per_frame * frames_encoded] bytes. (Mode and frame
    geometry within [int], sizes below 2^31, and
    [16 * samples_per_frame * frames_encoded] below 2^32.) *)
Theorem decoder_decodes_what_the_encoder_wrote :
  forall (CODEC2 : Type) (codec2_create : Z -> option CODEC2)
         (codec2_samples_per_frame codec2_bits_per_frame : CODEC2 -> Z)
         (codec2_encode : CODEC2 -> list Z -> CODEC2 * list byte)
         (codec2_decode : CODEC2 -> list byte -> CODEC2 * list Z)
         (mode : Z) (content : list byte) (codec2 : CODEC2)
         (run : Encode.encode_run) (out : FILE),
    codec2_create mode = Some codec2 ->
    - 2 ^ 31 <= mode < 2 ^ 31 ->
    let samples_per_frame := codec2_samples_per_frame codec2 in
    let bits_per_frame := codec2_bits_per_frame codec2 in
    0 <= samples_per_frame < 2 ^ 31 ->
    0 < bits_per_frame < 2 ^ 31 - 7 ->
    Z.of_nat (length content) < 2 ^ 31 ->
    Encode.codec2_encode_main CODEC2 codec2_create codec2_samples_per_frame
      codec2_bits_per_frame codec2_encode mode (Some content) (Some fopen_wb) = Ret run ->
    Encode.exit_status run = 0 ->
    Encode.c2_written run = Some out ->
    Z.of_nat (length (f_data out)) < 2 ^ 31 ->
    16 * (samples_per_frame * Encode.frames_encoded run) < 2 ^ 32 ->
    exists decoded,
      Decode.codec2_decode_main CODEC2 codec2_create codec2_samples_per_frame
        codec2_bits_per_frame codec2_decode (Some (fopen_rb (f_data out))) (Some fopen_wb)
      = Ret decoded
      /\ Decode.exit_status decoded = 0
      /\ Decode.frames_decoded decoded = Encode.frames_encoded run
      /\ concat (Decode.bit_frames decoded) = skipn 16 (f_data out)
      /\ option_map (fun f => Z.of_nat (length (f_data f))) (Decode.wav_written decoded)
         = Some (44 + 2 * (samples_per_frame * Encode.frames_encoded run)).
Proof. exact encode_then_decode. Qed.

Lemma decoder_decodes_what_the_encoder_wrote_witness :
  exists decoded,
    Decode.codec2_decode_main unit toy_create toy_samples_per_frame toy_bits_per_frame
      toy_decode
      (Some (fopen_rb
               (f_data {| f_data := Encode.header_bytes 0 2 12
                                    ++ [Byte.x07; Byte.x08; Byte.x07; Byte.x08;
                                        Byte.x07; Byte.x08];
                          f_pos := 22; f_eof := false |})))
      (Some fopen_wb)
    = Ret decoded
    /\ Decode.exit_status decoded = 0
    /\ Decode.frames_decoded decoded
       = Encode.frames_encoded
           (Encode.mk_run 0 [[1; 2]; [3; 4]; [5; 0]] 3
              (Some {| f_data := Encode.header_bytes 0 2 12
                                 ++ [Byte.x07; Byte.x08; Byte.x07; Byte.x08;
                                     Byte.x07; Byte.x08];
                       f_pos := 22; f_eof := false |}))
    /\ concat (Decode.bit_frames decoded)
       = skipn 16
           (f_data {| f_data := Encode.header_bytes 0 2 12
                                ++ [Byte.x07; Byte.x08; Byte.x07; Byte.x08;
                                    Byte.x07; Byte.x08];
                      f_pos := 22; f_eof := false |})
    /\ option_map (fun f => Z.of_nat (length (f_data f))) (Decode.wav_written decoded)
       = Some (44 + 2 * (toy_samples_per_frame tt
                         * Encode.frames_encoded
                             (Encode.mk_run 0 [[1; 2]; [3; 4]; [5; 0]] 3
                                (Some {| f_data := Encode.header_bytes 0 2 12
                                                   ++ [Byte.x07; Byte.x08; Byte.x07;
                                                       Byte.x08; Byte.x07; Byte.x08];
                                         f_pos := 22; f_eof := false |})))).
Proof.
  apply (decoder_decodes_what_the_encoder_wrote unit toy_create toy_samples_per_frame
           toy_bits_per_frame toy_encode toy_decode 0
           (wav_file 8000 1 16 (shorts_bytes [1; 2; 3; 4; 5])) tt
           (Encode.mk_run 0 [[1; 2]; [3; 4]; [5; 0]] 3
              (Some {| f_data := Encode.header_bytes 0 2 12
                                 ++ [Byte.x07; Byte.x08; Byte.x07; Byte.x08;
                                     Byte.x07; Byte.x08];
                       f_pos := 22; f_eof := false |}))
           {| f_data := Encode.header_bytes 0 2 12
                        ++ [Byte.x07; Byte.x08; Byte.x07; Byte.x08; Byte.x07; Byte.x08];
              f_pos := 22; f_eof := false |}).
  - reflexivity.
  - lia.
  - unfold toy_samples_per_frame. lia.
  - unfold toy_bits_per_frame. lia.
  - vm_compute. reflexivity.
  - vm_compute. reflexivity.
  - reflexivity.
  - reflexivity.
  - vm_compute. reflexivity.
  - vm_compute. reflexivity.
Defined.

Section EnhancedPipeline.

Variable CODEC2 : Type.
Variable codec2_create : Z -> option CODEC2.
Variable codec2_samples_per_frame : CODEC2 -> Z.
Variable codec2_bits_per_frame : CODEC2 -> Z.
Variable codec2_encode : CODEC2 -> list Z -> CODEC2 * list byte.
Variable codec2_decode : CODEC2 -> list byte -> CODEC2 * list Z.

Lemma encoded_container_decodes_enhanced mode codec2 (frames : list (list Z)) :
  codec2_create mode = Some codec2 ->
  - 2 ^ 31 <= mode < 2 ^ 31 ->
  let samples_per_frame := codec2_samples_per_frame codec2 in
  let bits_per_frame := codec2_bits_per_frame codec2 in
  let bytes_per_frame := int_div (to_int (bits_per_frame + 7)) 8 in
  0 <= samples_per_frame < 2 ^ 31 ->
  0 < bits_per_frame < 2 ^ 31 - 7 ->
  let payload :=
    Encode.encoded_stream CODEC2 codec2_encode codec2 bytes_per_frame frames in
  let out := Encode.header_bytes mode samples_per_frame bits_per_frame ++ payload in
  let K := samples_per_frame * Z.of_nat (length frames) in
  Z.of_nat (length out) < 2 ^ 31 ->
  16 * K < 2 ^ 32 ->
  exists bit_frames,
    length bit_frames = length frames
    /\ concat bit_frames = payload
    /\ Decode.codec2_decode_enhanced_main CODEC2 codec2_create codec2_samples_per_frame
         codec2_bits_per_frame codec2_decode (Some (fopen_rb out)) (Some fopen_wb)
       = Ret (match bit_frames with
              | [] => Decode.mk_run 1 [] 0 None
              | _ :: _ =>
                  Decode.mk_run 0 bit_frames (Z.of_nat (length frames))
                    (Some {| f_data :=
                               write_wav_header 8000 1 16 (2 * K)
                               ++ shorts_bytes
                                    (Decoded.decoded_stream CODEC2 codec2_decode codec2
                                       samples_per_frame bit_frames);
                             f_pos := 44;
                             f_eof := false |})
              end).
Proof.
  intros Hcreate Hmode spf bits bpf Hspf Hbits payload out K Hlen HK.
  destruct (bytes_per_frame_value bits Hbits) as [Ebpf Hbpf]. fold bpf in Ebpf.
  assert (Hspf' : - 2 ^ 31 <= codec2_samples_per_frame codec2 < 2 ^ 31)
    by (unfold spf in Hspf; lia).
  assert (Hbits' : - 2 ^ 31 <= codec2_bits_per_frame codec2 < 2 ^ 31)
    by (pose proof Hbits as Hb; unfold bits in Hb; clear - Hb; lia).
  pose proof (read_header_written CODEC2 codec2_create codec2_samples_per_frame
                codec2_bits_per_frame mode codec2 payload Hcreate Hmode Hspf' Hbits')
    as Hhdr.
  cbv zeta in Hhdr. fold spf bits out in Hhdr.
  assert (Eskip : skipn 16 out = payload).
  { unfold out. rewrite skipn_app.
    change (length (Encode.header_bytes mode spf bits)) with 16%nat.
    rewrite Nat.sub_diag, skipn_O.
    rewrite (skipn_all2 (Encode.header_bytes mode spf bits) (n := 16)) by (apply Nat.le_refl).
    reflexivity. }
  assert (Lp : length payload = (Z.to_nat bpf * length frames)%nat)
    by apply encoded_stream_length.
  destruct (bit_frame_slices_exact (Z.to_nat bpf) ltac:(lia) (length frames) payload Lp)
    as [Ls Cs].
  pose proof (decoders_output CODEC2 codec2_create codec2_samples_per_frame
                codec2_bits_per_frame codec2_decode out codec2 spf bits _ Hhdr Hbits Hlen)
    as Hdec.
  cbv zeta in Hdec. rewrite Eskip, <- Ebpf, Ls in Hdec.
  destruct (Hdec ltac:(lia) HK) as [_ Henh].
  exists (bit_frame_slices (Z.to_nat bpf) payload).
  split; [exact Ls|]. split; [exact Cs|]. exact Henh.
Qed.

Lemma enhanced_encode_then_decode mode content codec2 run out :
  codec2_create mode = Some codec2 ->
  - 2 ^ 31 <= mode < 2 ^ 31 ->
  let samples_per_frame := codec2_samples_per_frame codec2 in
  let bits_per_frame := codec2_bits_per_frame codec2 in
  0 <= samples_per_frame < 2 ^ 31 ->
  0 < bits_per_frame < 2 ^ 31 - 7 ->
  Z.of_nat (length content) < 2 ^ 31 ->
  Encode.codec2_encode_enhanced_main CODEC2 codec2_create codec2_samples_per_frame
    codec2_bits_per_frame codec2_encode mode (Some content) (Some fopen_wb) = Ret run ->
  Encode.exit_status run = 0 ->
  Encode.c2_written run = Some out ->
  Z.of_nat (length (f_data out)) < 2 ^ 31 ->
  16 * (samples_per_frame * Encode.frames_encoded run) < 2 ^ 32 ->
  exists decoded,
    Decode.codec2_decode_enhanced_main CODEC2 codec2_create codec2_samples_per_frame
      codec2_bits_per_frame codec2_decode (Some (fopen_rb (f_data out))) (Some fopen_wb)
    = Ret decoded
    /\ if Encode.frames_encoded run =? 0
       then Decode.exit_status decoded = 1 /\ Decode.wav_written decoded = None
       else Decode.exit_status decoded = 0
            /\ Decode.frames_decoded decoded = Encode.frames_encoded run
            /\ concat (Decode.bit_frames decoded) = skipn 16 (f_data out)
            /\ option_map (fun f => Z.of_nat (length (f_data f)))
                 (Decode.wav_written decoded)
               = Some (44 + 2 * (samples_per_frame * Encode.frames_encoded run)).
Proof.
  intros Hcreate Hmode spf bits Hspf Hbits Hlen Hrun Hexit Hout Hsize HK.
  pose proof (enhanced_encoder_runs CODEC2 codec2_create codec2_samples_per_frame
                codec2_bits_per_frame codec2_encode mode content codec2 Hcreate
                ltac:(apply Hspf) Hlen) as H.
  cbv zeta in H. rewrite Hrun in H. fold spf bits in H.
  destruct H as [(E1 & _)|(_ & _ & Ecount & Edata)]; [rewrite Hexit in E1; discriminate|].
  rewrite Hout in Edata. cbn [option_map] in Edata.
  assert (Ed : f_data out
               = Encode.header_bytes mode spf bits
                 ++ Encode.encoded_stream CODEC2 codec2_encode codec2
                      (int_div (to_int (bits + 7)) 8) (Encode.speech_frames run))
    by congruence.
  clear Edata. rename Ed into Edata.
  rewrite Ecount in HK |- *.
  destruct (encoded_container_decodes_enhanced mode codec2
              (Encode.speech_frames run) Hcreate Hmode Hspf Hbits
              ltac:(fold spf bits; rewrite <- Edata; exact Hsize) HK)
    as (bit_frames & Lb & Cb & Hdec).
  fold spf bits in Hdec, Cb. rewrite <- Edata in Hdec.
  eexists. split; [exact Hdec|].
  destruct (Z.eqb_spec (Z.of_nat (length (Encode.speech_frames run))) 0) as [E0|Hne].
  - destruct bit_frames as [|b bs]; [|cbn [length] in Lb; lia].
    split; reflexivity.
  - destruct bit_frames as [|b bs]; [cbn [length] in Lb; lia|].
    cbn [Decode.exit_status Decode.frames_decoded Decode.bit_frames Decode.wav_written
         option_map f_data].
    split; [reflexivity|]. split; [reflexivity|]. split.
    + rewrite Cb, Edata, skipn_app.
      change (length (Encode.header_bytes mode spf bits)) with 16%nat.
      rewrite Nat.sub_diag, skipn_O.
      rewrite (skipn_all2 (Encode.header_bytes mode spf bits) (n := 16))
        by (apply Nat.le_refl).
      reflexivity.
    + f_equal. rewrite length_app, write_wav_header_length, shorts_bytes_length,
        decoded_stream_length, Lb.
      unfold spf in *. nia.
Qed.

End EnhancedPipeline.

(** X29. [codec2_decode_enhanced] on what [codec2_encode_enhanced] wrote:
    when the encoder exits with status 0 having encoded at least one
    frame, the decoder accepts the header, exits with status 0, decodes
    exactly as many frames as were encoded, hands to [codec2_decode]
    bit-frames that put end to end are the whole payload, and leaves a WAV
    file of [44 + 2 * samples_per_frame * frames_encoded] bytes; when the
    encoder encoded no frame (an input without samples) the decoder exits
    with status 1 and creates no output. (Same bounds as for
    [codec2_decode].) *)
Theorem enhanced_decoder_decodes_what_the_enhanced_encoder_wrote :
  forall (CODEC2 : Type) (codec2_create : Z -> option CODEC2)
         (codec2_samples_per_frame codec2_bits_per_frame : CODEC2 -> Z)
         (codec2_encode : CODEC2 -> list Z -> CODEC2 * list byte)
         (codec2_decode : CODEC2 -> list byte -> CODEC2 * list Z)
         (mode : Z) (content : list byte) (codec2 : CODEC2)
         (run : Encode.encode_run) (out : FILE),
    codec2_create mode = Some codec2 ->
    - 2 ^ 31 <= mode < 2 ^ 31 ->
    let samples_per_frame := codec2_samples_per_frame codec2 in
    let bits_per_frame := codec2_bits_per_frame codec2 in
    0 <= samples_per_frame < 2 ^ 31 ->
    0 < bits_per_frame < 2 ^ 31 - 7 ->
    Z.of_nat (length content) < 2 ^ 31 ->
    Encode.codec2_encode_enhanced_main CODEC2 codec2_create codec2_samples_per_frame
      codec2_bits_per_frame codec2_encode mode (Some content) (Some fopen_wb) = Ret run ->
    Encode.exit_status run = 0 ->
    Encode.c2_written run = Some out ->
    Z.of_nat (length (f_data out)) < 2 ^ 31 ->
    16 * (samples_per_frame * Encode.frames_encoded run) < 2 ^ 32 ->
    exists decoded,
      Decode.codec2_decode_enhanced_main CODEC2 codec2_create codec2_samples_per_frame
        codec2_bits_per_frame codec2_decode (Some (fopen_rb (f_data out))) (Some fopen_wb)
      = Ret decoded
      /\ if Encode.frames_encoded run =? 0
         then Decode.exit_status decoded = 1 /\ Decode.wav_written decoded = None
         else Decode.exit_status decoded = 0
              /\ Decode.frames_decoded decoded = Encode.frames_encoded run
              /\ concat (Decode.bit_frames decoded) = skipn 16 (f_data out)
              /\ option_map (fun f => Z.of_nat (length (f_data f)))
                   (Decode.wav_written decoded)
                 = Some (44 + 2 * (samples_per_frame * Encode.frames_encoded run)).
Proof. exact enhanced_encode_then_decode. Qed.

Lemma enhanced_decoder_decodes_what_the_enhanced_encoder_wrote_witness :
  exists decoded,
    Decode.codec2_decode_enhanced_main unit toy_create toy_samples_per_frame
      toy_bits_per_frame toy_decode
      (Some (fopen_rb
               (f_data {| f_data := Encode.header_bytes 0 2 12
                                    ++ [Byte.x07; Byte.x08; Byte.x07; Byte.x08];
                          f_pos := 20; f_eof := false |})))
      (Some fopen_wb)
    = Ret decoded
    /\ if Encode.frames_encoded
            (Encode.mk_run 0 [[1; 2]; [5; 6]] 2
               (Some {| f_data := Encode.header_bytes 0 2 12
                                  ++ [Byte.x07; Byte.x08; Byte.x07; Byte.x08];
                        f_pos := 20; f_eof := false |})) =? 0
       then Decode.exit_status decoded = 1 /\ Decode.wav_written decoded = None
       else Decode.exit_status decoded = 0
            /\ Decode.frames_decoded decoded
               = Encode.frames_encoded
                   (Encode.mk_run 0 [[1; 2]; [5; 6]] 2
                      (Some {| f_data := Encode.header_bytes 0 2 12
                                         ++ [Byte.x07; Byte.x08; Byte.x07; Byte.x08];
                               f_pos := 20; f_eof := false |}))
            /\ concat (Decode.bit_frames decoded)
               = skipn 16
                   (f_data {| f_data := Encode.header_bytes 0 2 12
                                        ++ [Byte.x07; Byte.x08; Byte.x07; Byte.x08];
                              f_pos := 20; f_eof := false |})
            /\ option_map (fun f => Z.of_nat (length (f_data f)))
                 (Decode.wav_written decoded)
               = Some (44 + 2 * (toy_samples_per_frame tt
                                 * Encode.frames_encoded
                                     (Encode.mk_run 0 [[1; 2]; [5; 6]] 2
                                        (Some {| f_data := Encode.header_bytes 0 2 12
                                                           ++ [Byte.x07; Byte.x08;
                                                               Byte.x07; Byte.x08];
                                                 f_pos := 20; f_eof := false |})))).
Proof.
  apply (enhanced_decoder_decodes_what_the_enhanced_encoder_wrote unit toy_create
           toy_samples_per_frame toy_bits_per_frame toy_encode toy_decode 0
           (wav_file 8000 1 16 (shorts_bytes [1; 2; 3; 4; 5; 6; 7])) tt
           (Encode.mk_run 0 [[1; 2]; [5; 6]] 2
              (Some {| f_data := Encode.header_bytes 0 2 12
                                 ++ [Byte.x07; Byte.x08; Byte.x07; Byte.x08];
                       f_pos := 20; f_eof := false |}))
           {| f_data := Encode.header_bytes 0 2 12
                        ++ [Byte.x07; Byte.x08; Byte.x07; Byte.x08];
              f_pos := 20; f_eof := false |}).
  - reflexivity.
  - lia.
  - unfold toy_samples_per_frame. lia.
  - unfold toy_bits_per_frame. lia.
  - vm_compute. reflexivity.
  - vm_compute. reflexivity.
  - reflexivity.
  - reflexivity.
  - vm_compute. reflexivity.
  - vm_compute. reflexivity.
Defined.

(** ** wav_util: reading 8-bit samples *)

Lemma map_byte_at (bs : list byte) :
  map (fun i => (byte_at bs i - 128) * 256) (zrange (Z.of_nat (length bs)))
  = map (fun b => (byte.unsigned b - 128) * 256) bs.
Proof.
  unfold zrange, byte_at. rewrite Nat2Z.id, map_map.
  erewrite map_ext; [|intros a; rewrite Nat2Z.id; reflexivity].
  induction bs as [|x bs IH]; [reflexivity|].
  cbn [length seq map nth]. f_equal. rewrite <- seq_shift, map_map. exact IH.
Qed.

Lemma wav_read_samples_8bit hdr h (d : list byte) consumed written e buf n :
  length hdr = 44%nat ->
  WavUtil.num_channels h = 1 ->
  WavUtil.bits_per_sample h = 8 ->
  0 <= consumed <= Z.of_nat (length d) ->
  Z.of_nat (length d) < 2 ^ 31 ->
  0 <= n < 2 ^ 31 ->
  let count := Z.min n (Z.of_nat (length d) - consumed) in
  WavUtil.wav_read_samples
    (Some (WavUtil.mk_wav_file
             (Some {| f_data := hdr ++ d; f_pos := 44 + consumed; f_eof := e |})
             h consumed written (Z.of_nat (length d))))
    (Some buf) n
  = (count,
     Some (WavUtil.mk_wav_file
             (Some {| f_data := hdr ++ d; f_pos := 44 + (consumed + count); f_eof := e |})
             h (consumed + count) written (Z.of_nat (length d))),
     Some (store_prefix
             (map (fun b => (byte.unsigned b - 128) * 256)
                  (firstn (Z.to_nat count) (skipn (Z.to_nat consumed) d)))
             buf)).
Proof.
  intros Lh Hch Hbits Hc HK Hn count.
  unfold WavUtil.wav_read_samples.
  cbn [WavUtil.file WavUtil.header WavUtil.samples_read WavUtil.samples_written
       WavUtil.total_samples].
  rewrite Hch, Hbits. change (8 =? 16) with false. change (8 =? 8) with true. cbv iota.
  replace (to_uint32 (consumed + n)) with (consumed + n)
    by (symmetry; apply wrap_small; lia).
  assert (Estr : (if consumed + n >? Z.of_nat (length d)
                  then to_uint32 (Z.of_nat (length d) - consumed) else n) = count).
  { unfold count. destruct (Z.gtb_spec (consumed + n) (Z.of_nat (length d))).
    - unfold to_uint32. rewrite wrap_small by lia. lia.
    - lia. }
  rewrite Estr.
  destruct (Z.eqb_spec count 0) as [E0|Hne].
  { rewrite E0, Z.add_0_r. cbn [Z.to_nat firstn map]. unfold store_prefix.
    cbn [app length skipn]. reflexivity. }
  assert (Hcount : 0 < count) by (unfold count in *; lia).
  set (src := firstn (Z.to_nat count) (skipn (Z.to_nat consumed) d)).
  assert (Lsrc : Z.of_nat (length src) = count).
  { unfold src, count. rewrite length_firstn, length_skipn. lia. }
  unfold fread_items. change (1 =? 0) with false.
  destruct (Z.eqb_spec count 0) as [E0|_]; [contradiction|]. cbn [orb].
  assert (Eread : fread (1 * count)
                    {| f_data := hdr ++ d; f_pos := 44 + consumed; f_eof := e |}
                  = (src, {| f_data := hdr ++ d; f_pos := 44 + (consumed + count);
                             f_eof := e |})).
  { unfold fread. cbn [f_data f_pos f_eof]. rewrite Z.mul_1_l.
    replace (Z.to_nat (44 + consumed)) with (Z.to_nat consumed + length hdr)%nat by lia.
    rewrite <- skipn_skipn, skipn_app, skipn_all, Nat.sub_diag. cbn [app skipn].
    fold src. f_equal. f_equal; [lia|].
    replace (Z.of_nat (length src) <? count) with false
      by (symmetry; apply Z.ltb_ge; lia).
    apply orb_false_r. }
  rewrite Eread, Z.div_1_r, Lsrc, Z.mul_1_r, (to_int_small count) by lia.
  unfold to_uint32. rewrite (wrap_small 32 (consumed + count)) by lia.
  f_equal. f_equal. f_equal.
  rewrite <- Lsrc, <- map_byte_at.
  apply map_ext. intros k. unfold sample_8. apply to_short_small.
  pose proof (byte_at_range src k). lia.
Qed.

(** X27. [wav_read_samples] on mono 8-bit data: with [consumed] samples
    already read out of the [length d] the header declares, a request for
    [n] reads the next [min n (length d - consumed)] bytes and stores, for
    each byte [b] in order, the sample [(b - 128) * 256]; the position and
    the count of samples read advance by that many, and nothing else
    changes. *)
Theorem wav_read_samples_converts_8bit :
  forall (hdr : list byte) (h : WavUtil.wav_header_t) (d : list byte)
         (consumed written : Z) (e : bool) (buf : list Z) (n : Z),
    length hdr = 44%nat ->
    WavUtil.num_channels h = 1 ->
    WavUtil.bits_per_sample h = 8 ->
    0 <= consumed <= Z.of_nat (length d) ->
    Z.of_nat (length d) < 2 ^ 31 ->
    0 <= n < 2 ^ 31 ->
    let count := Z.min n (Z.of_nat (length d) - consumed) in
    WavUtil.wav_read_samples
      (Some (WavUtil.mk_wav_file
               (Some {| f_data := hdr ++ d; f_pos := 44 + consumed; f_eof := e |})
               h consumed written (Z.of_nat (length d))))
      (Some buf) n
    = (count,
       Some (WavUtil.mk_wav_file
               (Some {| f_data := hdr ++ d; f_pos := 44 + (consumed + count); f_eof := e |})
               h (consumed + count) written (Z.of_nat (length d))),
       Some (store_prefix
               (map (fun b => (byte.unsigned b - 128) * 256)
                    (firstn (Z.to_nat count) (skipn (Z.to_nat consumed) d)))
               buf)).
Proof. exact wav_read_samples_8bit. Qed.

Lemma wav_read_samples_converts_8bit_witness :
  WavUtil.wav_read_samples
    (Some (WavUtil.mk_wav_file
             (Some {| f_data := WavUtil.header_bytes
                                  (WavUtil.mk_header 40 16 1 1 22050 22050 1 8 4)
                                ++ [Byte.x80; Byte.x81; Byte.xff; Byte.x00];
                      f_pos := 44 + 1; f_eof := false |})
             (WavUtil.mk_header 40 16 1 1 22050 22050 1 8 4) 1 0
             (Z.of_nat (length [Byte.x80; Byte.x81; Byte.xff; Byte.x00]))))
    (Some [0; 0; 0]) 2
  = (Z.min 2 (Z.of_nat (length [Byte.x80; Byte.x81; Byte.xff; Byte.x00]) - 1),
     Some (WavUtil.mk_wav_file
             (Some {| f_data := WavUtil.header_bytes
                                  (WavUtil.mk_header 40 16 1 1 22050 22050 1 8 4)
                                ++ [Byte.x80; Byte.x81; Byte.xff; Byte.x00];
                      f_pos := 44 + (1 + Z.min 2 (Z.of_nat (length [Byte.x80; Byte.x81;
                                                                   Byte.xff; Byte.x00]) - 1));
                      f_eof := false |})
             (WavUtil.mk_header 40 16 1 1 22050 22050 1 8 4)
             (1 + Z.min 2 (Z.of_nat (length [Byte.x80; Byte.x81; Byte.xff; Byte.x00]) - 1))
             0 (Z.of_nat (length [Byte.x80; Byte.x81; Byte.xff; Byte.x00]))),
     Some (store_prefix
             (map (fun b => (byte.unsigned b - 128) * 256)
                  (firstn (Z.to_nat (Z.min 2 (Z.of_nat (length [Byte.x80; Byte.x81;
                                                              Byte.xff; Byte.x00]) - 1)))
                     (skipn (Z.to_nat 1) [Byte.x80; Byte.x81; Byte.xff; Byte.x00])))
             [0; 0; 0])).
Proof.
  apply (wav_read_samples_converts_8bit
           (WavUtil.header_bytes (WavUtil.mk_header 40 16 1 1 22050 22050 1 8 4))
           (WavUtil.mk_header 40 16 1 1 22050 22050 1 8 4)
           [Byte.x80; Byte.x81; Byte.xff; Byte.x00] 1 0 false [0; 0; 0] 2).
  - reflexivity.
  - reflexivity.
  - reflexivity.
  - cbn. lia.
  - cbn. lia.
  - lia.
Defined.

(** ** The mode names *)

Lemma mode_round_trip (m3200 m2400 m1600 m1400 m1300 m1200 m700 m700B : Z) :
  let from := Modes.mode_from_string m3200 m2400 m1600 m1400 m1300 m1200 m700 m700B in
  let to := Modes.mode_to_string m3200 m2400 m1600 m1400 m1300 m1200 m700 m700B in
  NoDup (Modes.mode_constants m3200 m2400 m1600 m1400 m1300 m1200 m700 m700B) ->
  (forall s, In s Modes.mode_names -> to (from s) = s)
  /\ (forall m, In m (Modes.mode_constants m3200 m2400 m1600 m1400 m1300 m1200 m700 m700B) ->
                from (to m) = m)
  /\ (forall s, ~ In s Modes.mode_names -> from s = -1).
Proof.
  intros from to Hnd. unfold Modes.mode_constants in *.
  split; [|split].
  - rewrite !NoDup_cons_iff in Hnd. cbn [In] in Hnd.
    intros s Hs. unfold Modes.mode_names in Hs. cbn [In] in Hs.
    unfold from, to, Modes.mode_to_string.
    destruct Hs as [<-|[<-|[<-|[<-|[<-|[<-|[<-|[<-|[]]]]]]]]];
      cbn [Modes.mode_from_string String.eqb Ascii.eqb Bool.eqb andb];
      repeat match goal with
             | |- context [?a =? ?b] =>
                 destruct (Z.eqb_spec a b); [first [reflexivity | exfalso; tauto]|]
             end; congruence.
  - intros m Hm. unfold from, to, Modes.mode_to_string.
    repeat match goal with
           | |- context [?a =? ?b] =>
               destruct (Z.eqb_spec a b);
               [subst; cbn [Modes.mode_from_string String.eqb Ascii.eqb Bool.eqb andb];
                reflexivity|]
           end.
    cbn [In] in Hm. exfalso. intuition congruence.
  - intros s Hs. unfold Modes.mode_names in Hs. cbn [In] in Hs.
    unfold from, Modes.mode_from_string.
    repeat match goal with
           | |- context [String.eqb ?a ?b] =>
               destruct (String.eqb_spec a b); [exfalso; apply Hs; subst; tauto|]
           end.
    reflexivity.
Qed.

(** X28. The mode names: with the eight mode constants pairwise distinct
    (as the case labels of [mode_to_string] must be),
    [mode_to_string (mode_from_string s)] is [s] for each of the eight
    names, [mode_from_string (mode_to_string m)] is [m] for each of the
    eight constants, and [mode_from_string] returns -1 on every other
    string. *)
Theorem mode_names_round_trip :
  forall (m3200 m2400 m1600 m1400 m1300 m1200 m700 m700B : Z),
    let from := Modes.mode_from_string m3200 m2400 m1600 m1400 m1300 m1200 m700 m700B in
    let to := Modes.mode_to_string m3200 m2400 m1600 m1400 m1300 m1200 m700 m700B in
    NoDup (Modes.mode_constants m3200 m2400 m1600 m1400 m1300 m1200 m700 m700B) ->
    (forall s, In s Modes.mode_names -> to (from s) = s)
    /\ (forall m,
           In m (Modes.mode_constants m3200 m2400 m1600 m1400 m1300 m1200 m700 m700B) ->
           from (to m) = m)
    /\ (forall s, ~ In s Modes.mode_names -> from s = -1).
Proof. exact mode_round_trip. Qed.

Lemma mode_names_round_trip_witness :
  (forall s, In s Modes.mode_names ->
             Modes.mode_to_string 0 1 2 3 4 5 6 7
               (Modes.mode_from_string 0 1 2 3 4 5 6 7 s) = s)
  /\ (forall m, In m (Modes.mode_constants 0 1 2 3 4 5 6 7) ->
                Modes.mode_from_string 0 1 2 3 4 5 6 7
                  (Modes.mode_to_string 0 1 2 3 4 5 6 7 m) = m)
  /\ (forall s, ~ In s Modes.mode_names ->
                Modes.mode_from_string 0 1 2 3 4 5 6 7 s = -1).
Proof.
  apply (mode_names_round_trip 0 1 2 3 4 5 6 7).
  unfold Modes.mode_constants.
  repeat (apply NoDup_cons; [cbn [In]; lia|]). apply NoDup_nil.
Defined.

